(** * TxSim: a shallow embedding of the simulation engine and its collaborators

    The development follows the TypeScript sources of the transaction
    simulation service: the account-model (EVM, "kind A") engine in
    [services/simulator.ts], the runtime-module (Substrate, "kind B") engine
    in [services/simulator-wasm.ts], the two fork clients, the balance
    snapshotters, the state-impact builders and the error and event decoders.

    Conventions.
    - JavaScript strings are modelled by [string]; the sources only handle
      ASCII text (hex payloads, addresses, pallet names), where a UTF-16 code
      unit and a byte coincide.
    - [bigint] values are [Z]; [BigInt.prototype.toString] is [bigint_toString].
    - A JavaScript [Map] is an association list in insertion order
      ([Map.prototype.set] updates in place or appends), because the sources
      iterate over maps.
    - Code that can raise returns a [Result]; asynchronous calls into a fork
      backend are computations of the monad [M] over an abstract fork state. *)

From Stdlib Require Import ZArith String Ascii List Bool Lia Arith.
From Stdlib Require Numbers.DecimalString Numbers.HexadecimalString Numbers.DecimalPos.
From Stdlib Require Import NArith.
From Stdlib Require Import Sorting.Sorted Sorting.Permutation.
Import ListNotations.

Set Warnings "-register-all,-notation-for-abbreviation".

Open Scope string_scope.
Open Scope list_scope.
Open Scope nat_scope.

(** String equality test and concatenation, whatever scope is open. *)
Infix "==?" := String.eqb (at level 70, no associativity).
Infix "+++" := String.append (right associativity, at level 60).

(* ------------------------------------------------------------------ *)
(** ** JavaScript string primitives *)
(* ------------------------------------------------------------------ *)

Module Js.

(** [String.prototype.slice(a, b)] for [0 <= a <= b]: the characters at
    positions [a .. b-1], fewer when the string is shorter. *)
Definition slice (s : string) (a b : nat) : string := substring a (b - a) s.

(** [s.slice(a)]. *)
Definition slice_from (s : string) (a : nat) : string :=
  substring a (String.length s - a) s.

Definition is_upper (c : ascii) : bool :=
  let n := nat_of_ascii c in (65 <=? n) && (n <=? 90).

Definition ascii_toLowerCase (c : ascii) : ascii :=
  if is_upper c then ascii_of_nat (nat_of_ascii c + 32) else c.

(** [String.prototype.toLowerCase] on ASCII text. *)
Fixpoint toLowerCase (s : string) : string :=
  match s with
  | EmptyString => EmptyString
  | String c r => String (ascii_toLowerCase c) (toLowerCase r)
  end.

Fixpoint all_chars (p : ascii -> bool) (s : string) : bool :=
  match s with
  | EmptyString => true
  | String c r => p c && all_chars p r
  end.

Fixpoint some_char (p : ascii -> bool) (s : string) : bool :=
  match s with
  | EmptyString => false
  | String c r => p c || some_char p r
  end.

Definition is_digit (c : ascii) : bool :=
  let n := nat_of_ascii c in (48 <=? n) && (n <=? 57).
Definition is_lower_hex_letter (c : ascii) : bool :=
  let n := nat_of_ascii c in (97 <=? n) && (n <=? 102).
Definition is_upper_hex_letter (c : ascii) : bool :=
  let n := nat_of_ascii c in (65 <=? n) && (n <=? 70).
(** The character class [[0-9a-fA-F]]. *)
Definition is_hex_digit (c : ascii) : bool :=
  is_digit c || is_lower_hex_letter c || is_upper_hex_letter c.

(** [s.startsWith(p)]. *)
Definition startsWith (s p : string) : bool := String.prefix p s.

(** Truthiness of a string value: every string but the empty one. *)
Definition truthy (s : string) : bool := negb (s ==? "").

(** [BigInt.prototype.toString()]: canonical decimal, a leading [-] when
    negative. *)
Definition bigint_toString (z : Z) : string :=
  DecimalString.NilZero.string_of_int (Z.to_int z).

End Js.

(* ------------------------------------------------------------------ *)
(** ** Results of code that can raise *)
(* ------------------------------------------------------------------ *)

(** [Ok a] is a normal return, [Throw e] a raised exception carrying [e]. *)
Inductive Result (E A : Type) : Type :=
| Ok (a : A)
| Throw (e : E).
Arguments Ok {E A} a.
Arguments Throw {E A} e.

Definition returns {E A : Type} (r : Result E A) : bool :=
  match r with Ok _ => true | Throw _ => false end.

(* ------------------------------------------------------------------ *)
(** ** ethers' [isAddress]

    [isAddress(value)] is [true] when [getAddress(value)] does not raise.
    [getAddress] accepts a string matching [/^(0x)?[0-9a-fA-F]{40}$/] unless
    it mixes upper- and lower-case hex letters and differs from its EIP-55
    checksummed form; it accepts an ICAP string ([XE..]) on its own terms.
    The Keccak-based checksum and the ICAP branch belong to the library and
    are parameters here. *)
(* ------------------------------------------------------------------ *)

Section Ethers.

  Variable getChecksumAddress : string -> string.
  Variable icapAddress : string -> bool.

Definition is_hex40 (s : string) : bool :=
    (String.length s =? 40) && Js.all_chars Js.is_hex_digit s.

  (** [/^(0x)?[0-9a-fA-F]{40}$/]. *)
Definition matches_hex_address (s : string) : bool :=
    is_hex40 s || (Js.startsWith s "0x" && is_hex40 (Js.slice_from s 2)).

  (** [/([A-F].*[a-f])|([a-f].*[A-F])/] on a string of hex digits behind an
      optional [0x]: some upper-case and some lower-case hex letter. *)
Definition mixed_case (s : string) : bool :=
    Js.some_char Js.is_upper_hex_letter s && Js.some_char Js.is_lower_hex_letter s.

Definition isAddress (value : string) : bool :=
    if matches_hex_address value then
      let address := if Js.startsWith value "0x" then value else "0x" +++ value in
      negb (mixed_case address) || (getChecksumAddress address ==? address)
    else icapAddress value.

  (* ---------------------------------------------------------------- *)
  (** ** Calldata recipient extraction (services/simulator.ts) *)
  (* ---------------------------------------------------------------- *)

Definition TRANSFER_SELECTOR : string := "0xa9059cbb".
Definition TRANSFER_FROM_SELECTOR : string := "0x23b872dd".

  (** One of the two guarded blocks of [extractTransferRecipient]: when the
      selector matches and the data is long enough, the 40 hex characters
      that end at [hi] are the candidate, returned if [isAddress] accepts
      it. [None] means that control falls through to the next statement. *)
Definition recipient_at (selector data wanted : string) (lo hi : nat)
    : option string :=
    if (selector ==? wanted) && (hi <=? String.length data) then
      let recipient := "0x" +++ Js.slice data lo hi in
      if isAddress recipient then Some recipient else None
    else None.

  (** [extractTransferRecipient(data?: string): string | null]. An absent
      [data] is [None]. *)
Definition extractTransferRecipient (data : option string) : option string :=
    match data with
    | None => None
    | Some data =>
        if negb (Js.truthy data) || (String.length data <? 10) then None
        else
          let selector := Js.toLowerCase (Js.slice data 0 10) in
          match recipient_at selector data TRANSFER_SELECTOR 34 74 with
          | Some r => Some r
          | None => recipient_at selector data TRANSFER_FROM_SELECTOR 98 138
          end
    end.

  (** The number of payload bytes behind the 4-byte selector of a [0x]
      prefixed hex string. *)
Definition payload_bytes (data : string) : nat :=
    (String.length data - 10) / 2.

  (** The extraction rule as the specification words it: a [transfer]
      payload of at least 64 bytes, a [transferFrom] payload of at least 96
      bytes. *)
Definition spec_extractTransferRecipient (data : option string)
    : option string :=
    match data with
    | None => None
    | Some data =>
        let selector := Js.toLowerCase (Js.slice data 0 10) in
        if (selector ==? TRANSFER_SELECTOR) && (64 <=? payload_bytes data) then
          let recipient := "0x" +++ Js.slice data 34 74 in
          if isAddress recipient then Some recipient else None
        else if (selector ==? TRANSFER_FROM_SELECTOR)
                && (96 <=? payload_bytes data) then
          let recipient := "0x" +++ Js.slice data 98 138 in
          if isAddress recipient then Some recipient else None
        else None
    end.

End Ethers.

(* ------------------------------------------------------------------ *)
(** ** More string primitives used by the decoders *)
(* ------------------------------------------------------------------ *)

Module JsText.

(** The double-quote character, written by its code. *)
Definition dquote : ascii := ascii_of_nat 34.
Definition quote_str : string := String dquote EmptyString.

(** ASCII white space, as [String.prototype.trim] and [BigInt] remove it. *)
Definition is_space (c : ascii) : bool :=
  let n := nat_of_ascii c in (n =? 32) || ((9 <=? n) && (n <=? 13)).

Fixpoint trimStart (s : string) : string :=
  match s with
  | EmptyString => EmptyString
  | String c r => if is_space c then trimStart r else s
  end.

(** [trimEnd]: a character is kept when it is not a space or when something
    is kept behind it. *)
Fixpoint trimEnd (s : string) : string :=
  match s with
  | EmptyString => EmptyString
  | String c r =>
      match trimEnd r with
      | EmptyString => if is_space c then EmptyString else String c EmptyString
      | r' => String c r'
      end
  end.

Definition trim (s : string) : string := trimEnd (trimStart s).

(** The longest prefix of characters in the class [p], and the rest. *)
Fixpoint span (p : ascii -> bool) (s : string) : string * string :=
  match s with
  | EmptyString => (EmptyString, EmptyString)
  | String c r =>
      if p c then let (a, b) := span p r in (String c a, b)
      else (EmptyString, s)
  end.

(** A match of [lead body+ dquote] anchored at the start of [s], where [lead] is a
    literal and [body] a character class that excludes the double quote; the
    captured text is returned. *)
Definition capture_here (lead : string) (body : ascii -> bool) (s : string)
  : option string :=
  if Js.startsWith s lead then
    let (captured, rest) := span body (Js.slice_from s (String.length lead)) in
    match captured, rest with
    | String _ _, String c _ =>
        if Ascii.eqb c dquote then Some captured else None
    | _, _ => None
    end
  else None.

(** The leftmost such match anywhere in [s] ([String.prototype.match] with a
    regular expression that has no flags). *)
Fixpoint capture (lead : string) (body : ascii -> bool) (s : string)
  : option string :=
  match capture_here lead body s with
  | Some c => Some c
  | None =>
      match s with
      | EmptyString => None
      | String _ r => capture lead body r
      end
  end.

Definition not_dquote (c : ascii) : bool := negb (Ascii.eqb c dquote).

(** [s.replace(/,/g, "")]. *)
Fixpoint remove_commas (s : string) : string :=
  match s with
  | EmptyString => EmptyString
  | String c r =>
      if Ascii.eqb c (ascii_of_nat 44) then remove_commas r
      else String c (remove_commas r)
  end.

(** [s.padStart(2, "0")]. *)
Definition padStart2 (s : string) : string :=
  match String.length s with
  | 0 => "00"
  | 1 => "0" +++ s
  | _ => s
  end.

(** [n.toString(16)] for a non-negative [bigint]. *)
Definition toString16 (z : Z) : string :=
  HexadecimalString.NilZero.string_of_uint (N.to_hex_uint (Z.to_N z)).

(** [s.split(c)[0]]: the text before the first [c]. *)
Fixpoint before_char (c : ascii) (s : string) : string :=
  match s with
  | EmptyString => EmptyString
  | String d r => if Ascii.eqb d c then EmptyString else String d (before_char c r)
  end.

(** [s.padStart(n, "0")]. *)
Fixpoint zeros (n : nat) : string :=
  match n with
  | 0 => ""
  | S m => "0" +++ zeros m
  end.
Definition padStart0 (s : string) (n : nat) : string :=
  zeros (n - String.length s) +++ s.

(** [hay.includes(needle)]. *)
Fixpoint contains (needle hay : string) : bool :=
  Js.startsWith hay needle
  || match hay with
     | EmptyString => false
     | String _ rest => contains needle rest
     end.

(** [xs.join(sep)]. *)
Fixpoint join (sep : string) (xs : list string) : string :=
  match xs with
  | [] => ""
  | [x] => x
  | x :: rest => x +++ sep +++ join sep rest
  end.

(** Digits of a radix, for [BigInt(string)]. *)
Definition digit_value (radix : Z) (c : ascii) : option Z :=
  let n := Z.of_nat (nat_of_ascii c) in
  let v := if Js.is_digit c then Some (n - 48)%Z
           else if Js.is_lower_hex_letter c then Some (n - 87)%Z
           else if Js.is_upper_hex_letter c then Some (n - 55)%Z
           else None in
  match v with
  | Some d => if (d <? radix)%Z then Some d else None
  | None => None
  end.

Fixpoint digits_value (radix : Z) (acc : Z) (s : string) : option Z :=
  match s with
  | EmptyString => Some acc
  | String c r =>
      match digit_value radix c with
      | Some d => digits_value radix (acc * radix + d)%Z r
      | None => None
      end
  end.

(** One or more digits of the radix. *)
Definition number_in (radix : Z) (s : string) : option Z :=
  match s with
  | EmptyString => None
  | _ => digits_value radix 0%Z s
  end.

Definition char_in (c : ascii) (a b : string) : bool :=
  let s := String c EmptyString in (s ==? a) || (s ==? b).
Definition char_is (c : ascii) (a : string) : bool := String c EmptyString ==? a.

(** [StringToBigInt]: white space is trimmed; the empty string is [0n]; a
    decimal literal may carry a sign; [0x], [0o] and [0b] literals carry
    none; anything else ([None]) makes [BigInt] raise a [SyntaxError]. *)
Definition StringToBigInt (s : string) : option Z :=
  match trim s with
  | EmptyString => Some 0%Z
  | String c r as t =>
      if char_is c "+" then number_in 10%Z r
      else if char_is c "-" then option_map Z.opp (number_in 10%Z r)
      else
        match t with
        | String _ (String x digits) =>
            if char_is c "0" && char_in x "x" "X"
            then number_in 16%Z digits
            else if char_is c "0" && char_in x "o" "O"
            then number_in 8%Z digits
            else if char_is c "0" && char_in x "b" "B"
            then number_in 2%Z digits
            else number_in 10%Z t
        | _ => number_in 10%Z t
        end
  end.

(** Numbers, as far as the sources tell them apart: not a number, an
    infinity, or the decimal [mantissa * 10^exponent]. *)
Inductive number : Type :=
| NaN
| Infinite (negative : bool)
| Finite (mantissa exponent : Z).

Definition negate (n : number) : number :=
  match n with
  | NaN => NaN
  | Infinite s => Infinite (negb s)
  | Finite m e => Finite (- m) e
  end.

(** [ExponentPart], when [s] is all that follows the digits: nothing, or
    [e] or [E], an optional sign and one or more digits. *)
Definition exponent_part (s : string) : option Z :=
  match s with
  | EmptyString => Some 0%Z
  | String c r =>
      if char_in c "e" "E" then
        match r with
        | String x digits =>
            if char_is x "+" then number_in 10%Z digits
            else if char_is x "-" then option_map Z.opp (number_in 10%Z digits)
            else number_in 10%Z r
        | EmptyString => None
        end
      else None
  end.

(** [StrUnsignedDecimalLiteral]: [Infinity], or digits with an optional
    fraction and exponent, where the digits before or behind the point may
    be missing, but not both. *)
Definition unsigned_decimal (s : string) : number :=
  if s ==? "Infinity" then Infinite false
  else
    let (whole, r1) := span Js.is_digit s in
    let (fraction, r2) :=
      match r1 with
      | String c r => if char_is c "." then span Js.is_digit r else (EmptyString, r1)
      | EmptyString => (EmptyString, r1)
      end in
    match whole +++ fraction with
    | EmptyString => NaN
    | digits =>
        match digits_value 10%Z 0%Z digits, exponent_part r2 with
        | Some m, Some e => Finite m (e - Z.of_nat (String.length fraction))
        | _, _ => NaN
        end
    end.

(** [StringToNumber]: white space is trimmed; the empty string is [0]; a
    decimal literal may carry a sign; [0x], [0o] and [0b] literals carry
    none; anything else is [NaN]. *)
Definition StringToNumber (s : string) : number :=
  let integer r := match r with Some n => Finite n 0 | None => NaN end in
  match trim s with
  | EmptyString => Finite 0 0
  | String c r as t =>
      if char_is c "+" then unsigned_decimal r
      else if char_is c "-" then negate (unsigned_decimal r)
      else
        match t with
        | String _ (String x digits) =>
            if char_is c "0" && char_in x "x" "X"
            then integer (number_in 16%Z digits)
            else if char_is c "0" && char_in x "o" "O"
            then integer (number_in 8%Z digits)
            else if char_is c "0" && char_in x "b" "B"
            then integer (number_in 2%Z digits)
            else unsigned_decimal t
        | _ => unsigned_decimal t
        end
  end.

(** [n >= 10], for the double that is nearest to [n]: the doubles next to
    10 are [10 - 2^-49] and 10 itself, whose last bit is even, so [n] is
    rounded to 10 or more exactly when [n >= 10 - 2^-50]. *)
Definition at_least_10 (n : number) : bool :=
  match n with
  | NaN => false
  | Infinite negative => negb negative
  | Finite m e =>
      let bound := (10 * 2 ^ 50 - 1)%Z in
      if (0 <=? e)%Z then (bound <=? m * 10 ^ e * 2 ^ 50)%Z
      else (bound * 10 ^ (- e) <=? m * 2 ^ 50)%Z
  end.

End JsText.

(* ------------------------------------------------------------------ *)
(** ** Untyped values

    What the sources receive as [any]: a raised value's properties, a parsed
    request body. A value is [undefined] or a value of JSON. A number is
    given by its string conversion ([String(n)], which [Number] reads back
    to [n]), so that no arithmetic of doubles is needed; an object holds
    each of its keys once. *)
(* ------------------------------------------------------------------ *)

Module JsValue.

Inductive value : Type :=
| VUndefined
| VNull
| VBool (b : bool)
| VNumber (text : string)
| VString (s : string)
| VArray (items : list value)
| VObject (props : list (string * value)).

(** Truthiness: [undefined], [null], [false], [0], [NaN] and the empty
    string are falsy. *)
Definition truthy (v : value) : bool :=
  match v with
  | VUndefined | VNull => false
  | VBool b => b
  | VNumber text => negb ((text ==? "0") || (text ==? "NaN"))
  | VString s => Js.truthy s
  | VArray _ | VObject _ => true
  end.

Definition nullish (v : value) : bool :=
  match v with
  | VUndefined | VNull => true
  | _ => false
  end.

(** [typeof v === "string"] *)
Definition is_string (v : value) : bool :=
  match v with
  | VString _ => true
  | _ => false
  end.

(** [String(v)], which is also [v] inside a template literal: an array
    joins its items with commas, a nullish item giving the empty string. *)
Fixpoint to_string (v : value) : string :=
  match v with
  | VUndefined => "undefined"
  | VNull => "null"
  | VBool true => "true"
  | VBool false => "false"
  | VNumber text => text
  | VString s => s
  | VArray items =>
      JsText.join "," (map (fun item => match item with
                                        | VUndefined | VNull => ""
                                        | _ => to_string item
                                        end) items)
  | VObject _ => "[object Object]"
  end.

(** [ToNumber(v)] *)
Definition to_number (v : value) : JsText.number :=
  match v with
  | VUndefined => JsText.NaN
  | VNull => JsText.Finite 0 0
  | VBool true => JsText.Finite 1 0
  | VBool false => JsText.Finite 0 0
  | VNumber text => JsText.StringToNumber text
  | VString s => JsText.StringToNumber s
  | VArray _ => JsText.StringToNumber (to_string v)
  | VObject _ => JsText.NaN
  end.

Fixpoint lookup (props : list (string * value)) (k : string) : option value :=
  match props with
  | [] => None
  | (k', v) :: rest => if k' ==? k then Some v else lookup rest k
  end.

(** [v?.k] for a property name [k] that is neither [length], an index nor
    a method (the sources read no such property of an untyped value but
    through [length_at_least_10]): only an object has such a property; on a
    value that is not nullish, this is also [v.k]. *)
Definition field (v : value) (k : string) : value :=
  match v with
  | VObject props => match lookup props k with
                     | Some x => x
                     | None => VUndefined
                     end
  | _ => VUndefined
  end.

(** [k in v], for such a name [k] and a value that is an object or an
    array. *)
Definition has_key (v : value) (k : string) : bool :=
  match v with
  | VObject props => match lookup props k with
                     | Some _ => true
                     | None => false
                     end
  | _ => false
  end.

(** [v.length >= 10], for a value that is not nullish: a string and an
    array have their length, an object has the property it holds, and the
    length of a boolean or a number is [undefined]. *)
Definition length_at_least_10 (v : value) : bool :=
  match v with
  | VString s => 10 <=? String.length s
  | VArray items => 10 <=? List.length items
  | VObject _ => JsText.at_least_10 (to_number (field v "length"))
  | _ => false
  end.

End JsValue.

(* ------------------------------------------------------------------ *)
(** ** Values that JavaScript code raises and catches

    The account-model decoder receives whatever was raised ([error: any]).
    A raised object is kept by the properties that the decoder and the
    engines read, each of them an untyped value. [name] is present on
    [Error] instances, which render as [name: message]; a plain object
    renders as [[object Object]]. *)
(* ------------------------------------------------------------------ *)

Module Err.
Import JsValue.

Record ErrorObject : Type := {
  name : option string;
  message : value;
  data : value;
  reason : value;
  info : value;
  error_ : value
}.

Inductive ErrorValue : Type :=
| ENull
| EUndefined
| EPrimitive (text : string)  (* a string, number or boolean, rendered *)
| EObject (o : ErrorObject).

(** [new C(msg)] for an error class [C]. *)
Definition new_named (cls msg : string) : ErrorValue :=
  EObject {| name := Some cls; message := VString msg; data := VUndefined;
             reason := VUndefined; info := VUndefined; error_ := VUndefined |}.
Definition new_Error (msg : string) : ErrorValue := new_named "Error" msg.
Definition new_TypeError (msg : string) : ErrorValue := new_named "TypeError" msg.
Definition new_SyntaxError (msg : string) : ErrorValue := new_named "SyntaxError" msg.

(** [`${e}`]: the string conversion of a raised value. For an [Error]
    instance, [Error.prototype.toString] joins the name and the string
    conversion of the message, an [undefined] message counting as empty. *)
Definition toString (e : ErrorValue) : string :=
  match e with
  | ENull => "null"
  | EUndefined => "undefined"
  | EPrimitive t => t
  | EObject o =>
      match name o with
      | None => "[object Object]"
      | Some n =>
          let m := match message o with
                   | VUndefined => ""
                   | m => to_string m
                   end in
          if n ==? "" then m
          else if m ==? "" then n
          else n +++ ": " +++ m
      end
  end.

(** A field that holds a non-empty string is truthy. *)
Definition truthy_field (f : option string) : option string :=
  match f with
  | Some s => if Js.truthy s then Some s else None
  | None => None
  end.

End Err.

Definition Raises (A : Type) : Type := Result Err.ErrorValue A.

(** [BigInt(s)] for a string [s]. *)
Definition BigInt (s : string) : Raises Z :=
  match JsText.StringToBigInt s with
  | Some z => Ok z
  | None => Throw (Err.new_SyntaxError ("Cannot convert " +++ s +++ " to a BigInt"))
  end.

(* ------------------------------------------------------------------ *)
(** ** Account-model error decoder (utils/error-decoder.ts) *)
(* ------------------------------------------------------------------ *)

Module ErrorDecoder.
Import JsValue Err.

Inductive ErrorType : Type := revert | panic | custom | unknown.

(** [DecodedError]: [{type, message, raw?}]. The message is declared a
    string, but the fallback copies [error.reason] as it is. *)
Record DecodedError : Type := {
  type : ErrorType;
  message : value;
  raw : option string
}.

Definition PANIC_CODES : list (string * string) :=
  [ ("0x00", "Generic compiler panic");
    ("0x01", "Assertion failed");
    ("0x11", "Arithmetic overflow/underflow");
    ("0x12", "Division or modulo by zero");
    ("0x21", "Conversion to invalid enum value");
    ("0x22", "Incorrectly encoded storage byte array");
    ("0x31", "Pop on empty array");
    ("0x32", "Array index out of bounds");
    ("0x41", "Too much memory allocated");
    ("0x51", "Called invalid internal function") ].

Definition CUSTOM_ERRORS : list (string * string) :=
  [ ("0xe450d38c", "InsufficientBalance(address,uint256,uint256)");
    ("0xfb8f41b2", "InsufficientAllowance(address,uint256,uint256)") ].

(** Property lookup in one of the two constant tables. *)
Fixpoint table_get (t : list (string * string)) (k : string) : option string :=
  match t with
  | [] => None
  | (k', v) :: rest => if k' ==? k then Some v else table_get rest k
  end.

(** The [TypeError] of a call of something that is not a function; the
    text names the called expression as the engine prints it. *)
Definition not_a_function (callee : string) : ErrorValue :=
  new_TypeError (callee +++ " is not a function").

Section Decoder.

  (** The ABI codec of the RPC library: [None] stands for a raised
      exception (or, for [parseError], also for a [null] result). *)
  Variable abi_decode_uint256 : string -> option Z.
  Variable abi_decode_string : string -> option string.
  Variable iface_parseError : string -> string -> option (string * list string).

  (** [/data="(0x[a-fA-F0-9]+)"/] *)
Definition match_embedded_data (msg : string) : option string :=
    match JsText.capture ("data=" +++ JsText.quote_str +++ "0x") Js.is_hex_digit msg with
    | Some hex => Some ("0x" +++ hex)
    | None => None
    end.

  (** [extractErrorData(error)], for a value that is not nullish: the first
      of [error.data] (when a non-empty string), [error.info?.error?.data]
      and [error.error?.data] (when truthy, of whatever type), and the
      payload embedded in [error.message]; [null] when there is none. A
      message that is neither nullish nor a string has no [match] method. *)
Definition extractErrorData_object (o : ErrorObject) : Raises value :=
    if truthy (Err.data o) && is_string (Err.data o) then Ok (Err.data o)
    else
      let nested := field (field (info o) "error") "data" in
      if truthy nested then Ok nested
      else
        let inner := field (error_ o) "data" in
        if truthy inner then Ok inner
        else
          match Err.message o with
          | VUndefined | VNull => Ok VNull
          | VString m =>
              Ok match match_embedded_data m with
                 | Some d => VString d
                 | None => VNull
                 end
          | _ => Throw (not_a_function "error.message?.match")
          end.

  (** Reading a property of a primitive gives [undefined], so every probe
      of a raised primitive fails. *)
Definition extractErrorData (error : ErrorValue) : Raises value :=
    match error with
    | ENull => Throw (new_TypeError "Cannot read properties of null (reading 'data')")
    | EUndefined =>
        Throw (new_TypeError "Cannot read properties of undefined (reading 'data')")
    | EPrimitive _ => Ok VNull
    | EObject o => extractErrorData_object o
    end.

Definition decodePanic (data : string) : DecodedError :=
    match abi_decode_uint256 ("0x" +++ Js.slice_from data 10) with
    | Some code =>
        let codeHex := "0x" +++ JsText.padStart2 (JsText.toString16 code) in
        let meaning := match table_get PANIC_CODES codeHex with
                       | Some m => m
                       | None => "Unknown panic code: " +++ codeHex
                       end in
        {| type := panic; message := VString ("Panic: " +++ meaning); raw := Some data |}
    | None =>
        {| type := panic; message := VString "Panic: Unable to decode panic code";
           raw := Some data |}
    end.

Definition decodeRevertReason (data : string) : DecodedError :=
    match abi_decode_string ("0x" +++ Js.slice_from data 10) with
    | Some reason =>
        {| type := revert;
           message := VString (if Js.truthy reason then reason
                               else "Transaction reverted");
           raw := Some data |}
    | None =>
        {| type := revert;
           message := VString "Transaction reverted (unable to decode reason)";
           raw := Some data |}
    end.

Definition decodeCustomError (selector data : string) : option DecodedError :=
    match table_get CUSTOM_ERRORS selector with
    | None => None
    | Some errorSig =>
        match iface_parseError errorSig data with
        | Some (decoded_name, args) =>
            Some {| type := custom;
                    message := VString (decoded_name +++ "("
                                        +++ JsText.join ", " args +++ ")");
                    raw := Some data |}
        | None =>
            let errorName := JsText.before_char "("%char errorSig in
            Some {| type := custom; message := VString errorName; raw := Some data |}
        end
    end.

Definition cleanErrorMessage (msg : string) : string :=
    let revertMatch :=
      match JsText.capture ("execution reverted: " +++ JsText.quote_str)
                           JsText.not_dquote msg with
      | Some r => Some r
      | None => JsText.capture ("reason=" +++ JsText.quote_str) JsText.not_dquote msg
      end in
    match revertMatch with
    | Some r => r
    | None =>
        let m1 := if Js.startsWith msg "Error: " then Js.slice_from msg 7 else msg in
        let m2 := if m1 ==? "execution reverted" then "Transaction reverted" else m1 in
        JsText.trim m2
    end.

  (** [cleanErrorMessage(msg)] for the truthy value that the fallback hands
      it: its first statement calls [msg.match], which only a string has. *)
Definition cleanErrorMessage_of (msg : value) : Raises value :=
    match msg with
    | VString s => Ok (VString (cleanErrorMessage s))
    | _ => Throw (not_a_function "msg.match")
    end.

Definition unknown_error : DecodedError :=
    {| type := unknown; message := VString "Unknown error occurred"; raw := None |}.

Definition unknown_with (cleaned : Raises value) : Raises DecodedError :=
    match cleaned with
    | Ok m => Ok {| type := unknown; message := m; raw := None |}
    | Throw e => Throw e
    end.

  (** [parseErrorFallback(error)], for a value that is not nullish. *)
Definition parseErrorFallback_object (o : ErrorObject) : Raises DecodedError :=
    if truthy (reason o) then
      Ok {| type := revert; message := reason o; raw := None |}
    else
      let nested := field (field (info o) "error") "message" in
      if truthy nested then unknown_with (cleanErrorMessage_of nested)
      else if truthy (Err.message o) then
        unknown_with (cleanErrorMessage_of (Err.message o))
      else Ok unknown_error.

Definition parseErrorFallback (error : ErrorValue) : Raises DecodedError :=
    match error with
    | ENull => Throw (new_TypeError "Cannot read properties of null (reading 'reason')")
    | EUndefined =>
        Throw (new_TypeError "Cannot read properties of undefined (reading 'reason')")
    | EPrimitive _ => Ok unknown_error
    | EObject o => parseErrorFallback_object o
    end.

  (** The selectors on which the payload route answers. *)
Definition recognised_selector (selector : string) : bool :=
    (selector ==? "0x4e487b71") || (selector ==? "0x08c379a0")
    || match table_get CUSTOM_ERRORS selector with
       | Some _ => true
       | None => false
       end.

  (** The payload-driven part of [decodeEVMError] on a string: [None] when
      control reaches the fallback. *)
Definition decode_payload (data : string) : option DecodedError :=
    if Js.truthy data && (10 <=? String.length data) then
      let selector := Js.toLowerCase (Js.slice data 0 10) in
      if selector ==? "0x4e487b71" then Some (decodePanic data)
      else if selector ==? "0x08c379a0" then Some (decodeRevertReason data)
      else decodeCustomError selector data
    else None.

  (** [if (data && data.length >= 10) { data.slice(0, 10).toLowerCase() ...
      }] on whatever [extractErrorData] returned: a long enough array is
      sliced into an array, which has no [toLowerCase]; an object has no
      [slice]. *)
Definition decode_located (data : value) : Raises (option DecodedError) :=
    if truthy data && length_at_least_10 data then
      match data with
      | VString s => Ok (decode_payload s)
      | VArray _ => Throw (not_a_function "data.slice(...).toLowerCase")
      | _ => Throw (not_a_function "data.slice")
      end
    else Ok None.

Definition decodeEVMError (error : ErrorValue) : Raises DecodedError :=
    match extractErrorData error with
    | Throw e => Throw e
    | Ok data =>
        match decode_located data with
        | Throw e => Throw e
        | Ok (Some decoded) => Ok decoded
        | Ok None => parseErrorFallback error
        end
    end.

End Decoder.

(** A raised object as the typings of the RPC library describe it, as far
    as the decoder can tell: the properties on which it calls a method are
    each absent, [null] or a string. *)
Definition absent_or_string (v : value) : bool := nullish v || is_string v.

Definition string_typed (o : ErrorObject) : bool :=
  absent_or_string (Err.message o)
  && absent_or_string (field (field (info o) "error") "data")
  && absent_or_string (field (field (info o) "error") "message")
  && absent_or_string (field (error_ o) "data").

End ErrorDecoder.

(* ------------------------------------------------------------------ *)
(** ** JavaScript [Map] and [Set], in insertion order *)
(* ------------------------------------------------------------------ *)

Module JsMap.
Section Ops.
  Context {K V : Type}.
  Variable eqb : K -> K -> bool.

Fixpoint get (m : list (K * V)) (k : K) : option V :=
    match m with
    | [] => None
    | (k', v) :: rest => if eqb k' k then Some v else get rest k
    end.

  (** [m.set(k, v)]: an existing entry keeps its place, a new one goes last. *)
Fixpoint set (m : list (K * V)) (k : K) (v : V) : list (K * V) :=
    match m with
    | [] => [(k, v)]
    | (k', v') :: rest =>
        if eqb k' k then (k', v) :: rest else (k', v') :: set rest k v
    end.

Definition has (m : list (K * V)) (k : K) : bool :=
    match get m k with Some _ => true | None => false end.

Definition keys (m : list (K * V)) : list K := map fst m.
End Ops.

Section SetOps.
  Context {K : Type}.
  Variable eqb : K -> K -> bool.

Definition set_has (s : list K) (k : K) : bool := existsb (fun k' => eqb k' k) s.

  (** [s.add(k)]. *)
Definition set_add (s : list K) (k : K) : list K :=
    if set_has s k then s else s ++ [k].

  (** [new Set(xs)]. *)
Definition set_of (xs : list K) : list K := fold_left set_add xs [].
End SetOps.
End JsMap.

(** String-keyed maps and sets. *)
Definition smap_get {V} := @JsMap.get string V String.eqb.
Definition smap_set {V} := @JsMap.set string V String.eqb.
Definition smap_has {V} := @JsMap.has string V String.eqb.
Definition sset_has := @JsMap.set_has string String.eqb.
Definition sset_add := @JsMap.set_add string String.eqb.
Definition sset_of := @JsMap.set_of string String.eqb.

(* ------------------------------------------------------------------ *)
(** ** Account-model event decoder (utils/event-decoder.ts) *)
(* ------------------------------------------------------------------ *)

Module EventDecoder.

(** The fields of [ethers.Log] that the decoder reads. *)
Record Log : Type := {
  topics : list string;
  data : string;
  address : string;
  index : Z
}.

(** A decoded argument value as the ABI codec hands it over. *)
Inductive ArgValue : Type :=
| ANull                        (* [null] or [undefined] *)
| ABigInt (z : Z)
| AArray (items : list ArgValue)
| AString (s : string)
| ABool (b : bool).

(** What [iface.parseLog] gives: the event name, its signature and, for each
    input in order, its name (empty when unnamed) and its value. *)
Record LogDescription : Type := {
  parsed_name : string;
  parsed_signature : string;
  parsed_inputs : list (string * ArgValue)
}.

Record DecodedEvent : Type := {
  name : string;
  contract : string;
  args : list (string * string);
  signature : string;
  logIndex : Z
}.

Definition KNOWN_EVENT_ABIS : list string :=
  [ "event Transfer(address indexed from, address indexed to, uint256 value)";
    "event Approval(address indexed owner, address indexed spender, uint256 value)";
    "event Transfer(address indexed from, address indexed to, uint256 indexed tokenId)";
    "event Approval(address indexed owner, address indexed approved, uint256 indexed tokenId)";
    "event ApprovalForAll(address indexed owner, address indexed operator, bool approved)";
    "event TransferSingle(address indexed operator, address indexed from, address indexed to, uint256 id, uint256 value)";
    "event TransferBatch(address indexed operator, address indexed from, address indexed to, uint256[] ids, uint256[] values)";
    "event Swap(address indexed sender, uint256 amount0In, uint256 amount1In, uint256 amount0Out, uint256 amount1Out, address indexed to)";
    "event Mint(address indexed sender, uint256 amount0, uint256 amount1)";
    "event Burn(address indexed sender, uint256 amount0, uint256 amount1, address indexed to)";
    "event Sync(uint112 reserve0, uint112 reserve1)";
    "event OwnershipTransferred(address indexed previousOwner, address indexed newOwner)";
    "event Upgraded(address indexed implementation)" ].

Fixpoint formatArgValue (value : ArgValue) : string :=
  match value with
  | ANull => "null"
  | ABigInt z => Js.bigint_toString z
  | AArray items => "[" +++ JsText.join ", " (map formatArgValue items) +++ "]"
  | AString s =>
      if Js.startsWith s "0x" && (String.length s =? 42) then Js.toLowerCase s
      else s
  | ABool b => if b then "true" else "false"
  end.

(** [args[input.name || `arg${index}`] = formatArgValue(value)], for the
    inputs from position [index] on. *)
Fixpoint build_args (index : nat) (inputs : list (string * ArgValue))
  (args : list (string * string)) : list (string * string) :=
  match inputs with
  | [] => args
  | (input_name, value) :: rest =>
      let key := if Js.truthy input_name then input_name
                 else "arg" +++ Js.bigint_toString (Z.of_nat index) in
      build_args (S index) rest (smap_set args key (formatArgValue value))
  end.

(** The order of the comparator [(a, b) => a.logIndex - b.logIndex]. *)
Definition by_index (a b : DecodedEvent) : Prop := (logIndex a <= logIndex b)%Z.

(** Stable insertion in ascending [logIndex] order: the new element goes
    behind the elements that do not compare greater. *)
Fixpoint insert_sorted (e : DecodedEvent) (sorted : list DecodedEvent)
  : list DecodedEvent :=
  match sorted with
  | [] => [e]
  | x :: rest =>
      if (logIndex x <=? logIndex e)%Z then x :: insert_sorted e rest
      else e :: x :: rest
  end.

(** [decoded.sort((a, b) => a.logIndex - b.logIndex)]: the sort is stable, so
    its result is the one stable arrangement in ascending order, computed
    here by insertion. *)
Definition sort_by_logIndex (decoded : list DecodedEvent) : list DecodedEvent :=
  fold_left (fun sorted e => insert_sorted e sorted) decoded [].

Section Decoder.

  (** An [ethers.Interface] is known by the fragments it was built from.
      [interface_ok] says that the constructor accepts them; [topicHash] is
      the Keccak topic of the first event fragment; [iface_parseLog] is
      [parseLog], with [None] for [null] and for a raised exception. *)
Definition Interface : Type := list string.
  Variable interface_ok : Interface -> bool.
  Variable topicHash : Interface -> option string.
  Variable iface_parseLog : Interface -> Log -> option LogDescription.

  (** Module initialisation ([initEventDecoder]). *)
Definition EVENT_INTERFACES : list Interface :=
    filter interface_ok (map (fun abi => [abi]) KNOWN_EVENT_ABIS).

Definition TOPIC_TO_INTERFACE : list (string * Interface) :=
    fold_left
      (fun m iface =>
         match topicHash iface with
         | Some topic =>
             if Js.truthy topic then smap_set m (Js.toLowerCase topic) iface else m
         | None => m
         end)
      EVENT_INTERFACES [].

Definition tryDecodeWithInterface (log : Log) (iface : Interface)
    : option DecodedEvent :=
    match iface_parseLog iface log with
    | None => None
    | Some parsed =>
        Some {| name := parsed_name parsed;
                contract := Js.toLowerCase (address log);
                args := build_args 0 (parsed_inputs parsed) [];
                signature := parsed_signature parsed;
                logIndex := index log |}
    end.

  (** The linear scan over the catalogue. *)
Fixpoint try_all (log : Log) (ifaces : list Interface) : option DecodedEvent :=
    match ifaces with
    | [] => None
    | iface :: rest =>
        match tryDecodeWithInterface log iface with
        | Some decoded => Some decoded
        | None => try_all log rest
        end
    end.

Definition decodeLog (log : Log) : option DecodedEvent :=
    match topics log with
    | [] => None
    | t0 :: _ =>
        let topic0 := Js.toLowerCase t0 in
        let fast :=
          match smap_get TOPIC_TO_INTERFACE topic0 with
          | Some knownInterface => tryDecodeWithInterface log knownInterface
          | None => None
          end in
        match fast with
        | Some decoded => Some decoded
        | None => try_all log EVENT_INTERFACES
        end
    end.

  (** The loop of [decodeLogs], before sorting. *)
Fixpoint decode_each (logs : list Log) : list DecodedEvent :=
    match logs with
    | [] => []
    | log :: rest =>
        match decodeLog log with
        | Some event => event :: decode_each rest
        | None => decode_each rest
        end
    end.

Definition decodeLogs (logs : list Log) : list DecodedEvent :=
    sort_by_logIndex (decode_each logs).

Fixpoint decode_each_with (customInterface : Interface) (logs : list Log)
    : list DecodedEvent :=
    match logs with
    | [] => []
    | log :: rest =>
        match tryDecodeWithInterface log customInterface with
        | Some customDecoded => customDecoded :: decode_each_with customInterface rest
        | None =>
            match decodeLog log with
            | Some knownDecoded => knownDecoded :: decode_each_with customInterface rest
            | None => decode_each_with customInterface rest
            end
        end
    end.

  (** [decodeLogsWithAbi(logs, abi)]; [new ethers.Interface(abi)] raises on
      fragments it cannot parse. *)
Definition decodeLogsWithAbi (logs : list Log) (abi : list string)
    : Raises (list DecodedEvent) :=
    if interface_ok abi then Ok (sort_by_logIndex (decode_each_with abi logs))
    else Throw (Err.new_TypeError "invalid fragment").

End Decoder.
End EventDecoder.

(* ------------------------------------------------------------------ *)
(** ** Account-model state-impact builder (utils/state-impact.ts) *)
(* ------------------------------------------------------------------ *)

Module StateImpact.

(** [BalanceSnapshot]: [{native: bigint, tokens: Map<string, bigint>}]. *)
Record BalanceSnapshot : Type := {
  native : Z;
  tokens : list (string * Z)
}.

(** [TokenBalance]; the field names of the source carry the prefix [tb_]. *)
Record TokenBalance : Type := {
  tb_token : string;
  tb_contractAddress : option string;
  tb_balance : string;
  tb_decimals : Z;
  tb_symbol : string
}.

(** [TokenBalanceChange]; prefix [ch_]. *)
Record TokenBalanceChange : Type := {
  ch_token : string;
  ch_contractAddress : option string;
  ch_before : string;
  ch_after : string;
  ch_delta : string;
  ch_decimals : Z;
  ch_symbol : string
}.

Record AddressState : Type := {
  address : string;
  before : list TokenBalance;
  after : list TokenBalance;
  changes : list TokenBalanceChange
}.

Record StateImpactReport : Type := {
  sender : AddressState;
  recipient : AddressState;
  contractsAffected : list AddressState
}.

(** [{symbol, decimals}] *)
Definition Metadata : Type := (string * Z)%type.

Definition empty_snapshot : BalanceSnapshot := {| native := 0; tokens := [] |}.

(** [x || 0n] for a looked-up balance. *)
Definition or_zero (x : option Z) : Z :=
  match x with
  | Some v => v
  | None => 0%Z
  end.

(** The three lists after the native entries, extended token by token. *)
Fixpoint token_rows (tokenMetadata : list (string * Metadata))
  (bef aft : BalanceSnapshot) (allTokens : list string)
  (acc : list TokenBalance * list TokenBalance * list TokenBalanceChange)
  : list TokenBalance * list TokenBalance * list TokenBalanceChange :=
  match allTokens with
  | [] => acc
  | tokenAddress :: rest =>
      let '(beforeBalances, afterBalances, changes) := acc in
      let metadata := match smap_get tokenMetadata tokenAddress with
                      | Some m => m
                      | None => ("UNKNOWN", 18%Z)
                      end in
      let beforeBal := or_zero (smap_get (tokens bef) tokenAddress) in
      let afterBal := or_zero (smap_get (tokens aft) tokenAddress) in
      let beforeBalances' :=
        beforeBalances ++
        [ {| tb_token := fst metadata; tb_contractAddress := Some tokenAddress;
             tb_balance := Js.bigint_toString beforeBal;
             tb_decimals := snd metadata; tb_symbol := fst metadata |} ] in
      let afterBalances' :=
        afterBalances ++
        [ {| tb_token := fst metadata; tb_contractAddress := Some tokenAddress;
             tb_balance := Js.bigint_toString afterBal;
             tb_decimals := snd metadata; tb_symbol := fst metadata |} ] in
      let delta := (afterBal - beforeBal)%Z in
      let changes' :=
        if (delta =? 0)%Z then changes
        else changes ++
             [ {| ch_token := fst metadata; ch_contractAddress := Some tokenAddress;
                  ch_before := Js.bigint_toString beforeBal;
                  ch_after := Js.bigint_toString afterBal;
                  ch_delta := Js.bigint_toString delta;
                  ch_decimals := snd metadata; ch_symbol := fst metadata |} ] in
      token_rows tokenMetadata bef aft rest (beforeBalances', afterBalances', changes')
  end.

Definition buildAddressState (addr : string) (bef aft : BalanceSnapshot)
  (tokenMetadata : list (string * Metadata)) (nativeSymbol : string)
  : AddressState :=
  let beforeBalances :=
    [ {| tb_token := nativeSymbol; tb_contractAddress := None;
         tb_balance := Js.bigint_toString (native bef);
         tb_decimals := 18; tb_symbol := nativeSymbol |} ] in
  let afterBalances :=
    [ {| tb_token := nativeSymbol; tb_contractAddress := None;
         tb_balance := Js.bigint_toString (native aft);
         tb_decimals := 18; tb_symbol := nativeSymbol |} ] in
  let nativeDelta := (native aft - native bef)%Z in
  let changes :=
    if (nativeDelta =? 0)%Z then []
    else [ {| ch_token := nativeSymbol; ch_contractAddress := None;
              ch_before := Js.bigint_toString (native bef);
              ch_after := Js.bigint_toString (native aft);
              ch_delta := Js.bigint_toString nativeDelta;
              ch_decimals := 18; ch_symbol := nativeSymbol |} ] in
  let allTokens :=
    sset_of (JsMap.keys (tokens bef) ++ JsMap.keys (tokens aft)) in
  let '(b, a, c) :=
    token_rows tokenMetadata bef aft allTokens
               (beforeBalances, afterBalances, changes) in
  {| address := Js.toLowerCase addr; before := b; after := a; changes := c |}.

(** The loop over [balancesBefore] that collects the other affected
    addresses. *)
Fixpoint other_affected (excludeAddresses : list string)
  (balancesAfter : list (string * BalanceSnapshot))
  (tokenMetadata : list (string * Metadata)) (nativeSymbol : string)
  (entries : list (string * BalanceSnapshot)) : list AddressState :=
  match entries with
  | [] => []
  | (addr, beforeSnapshot) :: rest =>
      let tail := other_affected excludeAddresses balancesAfter tokenMetadata
                                 nativeSymbol rest in
      if sset_has excludeAddresses addr then tail
      else
        match smap_get balancesAfter addr with
        | Some afterSnapshot =>
            let state := buildAddressState addr beforeSnapshot afterSnapshot
                                           tokenMetadata nativeSymbol in
            match changes state with
            | [] => tail
            | _ :: _ => state :: tail
            end
        | None => tail
        end
  end.

(** [buildStateImpactReport] once the token metadata is resolved. The
    snapshots of the sender are read with a non-null assertion, so a missing
    one makes [buildAddressState] raise on its first property read. *)
Definition assembleStateImpactReport
  (tokenMetadata : list (string * Metadata))
  (sender_ transactionTo : string)
  (balancesBefore balancesAfter : list (string * BalanceSnapshot))
  (nativeSymbol : string) (tokenRecipient : option string)
  : Raises StateImpactReport :=
  match smap_get balancesBefore (Js.toLowerCase sender_),
        smap_get balancesAfter (Js.toLowerCase sender_) with
  | Some senderBefore, Some senderAfter =>
      let senderState := buildAddressState sender_ senderBefore senderAfter
                                           tokenMetadata nativeSymbol in
      let recipientAddress :=
        match Err.truthy_field tokenRecipient with
        | Some r => r
        | None => transactionTo
        end in
      let pick m := match smap_get m (Js.toLowerCase recipientAddress) with
                    | Some snapshot => snapshot
                    | None => empty_snapshot
                    end in
      let recipientState :=
        buildAddressState recipientAddress (pick balancesBefore)
                          (pick balancesAfter) tokenMetadata nativeSymbol in
      let excludeAddresses :=
        sset_of [Js.toLowerCase sender_; Js.toLowerCase recipientAddress] in
      Ok {| sender := senderState;
            recipient := recipientState;
            contractsAffected :=
              other_affected excludeAddresses balancesAfter tokenMetadata
                             nativeSymbol balancesBefore |}
  | _, _ =>
      Throw (Err.new_TypeError "Cannot read properties of undefined (reading 'native')")
  end.

(** The addresses of the rows of a report, in order. *)
Definition reported_addresses (r : StateImpactReport) : list string :=
  address (sender r) :: address (recipient r) :: map address (contractsAffected r).

(** The change list that the builder computes for a pair of snapshots. *)
Definition changes_between (tokenMetadata : list (string * Metadata))
  (nativeSymbol : string) (bef aft : BalanceSnapshot) : list TokenBalanceChange :=
  changes (buildAddressState "" bef aft tokenMetadata nativeSymbol).

End StateImpact.

(* ------------------------------------------------------------------ *)
(** ** Asynchronous code against a fork: a state-and-exception monad

    A computation takes the current state (the fork behind the RPC endpoint,
    the service objects, the module-level caches) and either returns a value
    or raises, together with the state it leaves behind. [await] is
    sequencing; the engines hold the backend mutex for a whole run, so no
    other computation interleaves. *)
(* ------------------------------------------------------------------ *)

Module Async.
Section Monad.
  Context {S : Type}.

Definition M (A : Type) : Type := S -> Raises A * S.

Definition ret {A} (a : A) : M A := fun s => (Ok a, s).
Definition throw {A} (e : Err.ErrorValue) : M A := fun s => (Throw e, s).

Definition bind {A B} (m : M A) (k : A -> M B) : M B :=
    fun s =>
      match m s with
      | (Ok a, s') => k a s'
      | (Throw e, s') => (Throw e, s')
      end.

  (** A synchronous call that may raise. *)
Definition lift {A} (r : Raises A) : M A := fun s => (r, s).

Definition gets {A} (f : S -> A) : M A := fun s => (Ok (f s), s).
Definition modify (f : S -> S) : M unit := fun s => (Ok tt, f s).

  (** [try { m } catch (e) { h e }] *)
Definition try_catch {A} (m : M A) (h : Err.ErrorValue -> M A) : M A :=
    fun s =>
      match m s with
      | (Ok a, s') => (Ok a, s')
      | (Throw e, s') => h e s'
      end.

  (** [try { m } finally { f }]: [f] runs on both exits; when it raises, its
      exception replaces the completion of [m]. *)
Definition try_finally {A} (m : M A) (f : M unit) : M A :=
    fun s =>
      match m s with
      | (r, s') =>
          match f s' with
          | (Ok _, s'') => (r, s'')
          | (Throw e, s'') => (Throw e, s'')
          end
      end.

  (** [post m Q]: every value that [m] returns satisfies [Q]. *)
Definition post {A} (m : M A) (Q : A -> Prop) : Prop :=
    forall s a s', m s = (Ok a, s') -> Q a.

  (** [total m]: [m] returns on every state. *)
Definition total {A} (m : M A) : Prop :=
    forall s, exists a s', m s = (Ok a, s').

  (** [ensures m Q]: [m] returns on every state, with a value in [Q]. *)
Definition ensures {A} (m : M A) (Q : A -> Prop) : Prop :=
    forall s, exists a s', m s = (Ok a, s') /\ Q a.

  (** A [for ... of] loop that threads an accumulator. *)
Fixpoint for_each {A X} (xs : list X) (acc : A) (body : A -> X -> M A) : M A :=
    match xs with
    | [] => ret acc
    | x :: rest => bind (body acc x) (fun acc' => for_each rest acc' body)
    end.

End Monad.
End Async.

Declare Scope async_scope.
Delimit Scope async_scope with async.
Notation "x <- m ;; k" := (Async.bind m (fun x => k))
  (at level 61, m at next level, right associativity) : async_scope.
Notation "m ;;; k" := (Async.bind m (fun _ => k))
  (at level 61, right associativity) : async_scope.
Open Scope async_scope.

(* ------------------------------------------------------------------ *)
(** ** Account-model side: fork client, snapshotter, gas report, engine *)
(* ------------------------------------------------------------------ *)

Module Evm.
Import Async.

(** [TokenMetadata] of utils/token-info.ts. *)
Record TokenMetadata : Type := {
  tm_address : string;
  tm_symbol : string;
  tm_decimals : Z
}.

(** The fields of [AnvilService]; a provider is known by its URL. *)
Record AnvilService : Type := {
  provider : option string;
  anvilUrl : string;
  forkUrl : option string;
  forkBlockNumber : option Z
}.

(** [new AnvilService(anvilUrl)] *)
Definition new_AnvilService (url : string) : AnvilService :=
  {| provider := None; anvilUrl := url; forkUrl := None; forkBlockNumber := None |}.

(** The fields of a transaction receipt that the engine reads. *)
Record Receipt : Type := {
  logs : option (list EventDecoder.Log);
  status : option Z;
  gasUsed : Z;
  gasPrice : option Z
}.

Record TransactionRequest : Type := {
  tx_to : string;
  tx_data : string;
  tx_value : Z;
  tx_gasLimit : option Z;
  tx_gasPrice : option Z
}.

(** [SimulateRequest] of types/index.ts. *)
Record Transaction : Type := {
  to : string;
  data : option string;
  value : option string;
  gasLimit : option string
}.

Record SimulateRequest : Type := {
  sender : string;
  transaction : Transaction;
  trackTokens : option (list string)
}.

Record GasReport : Type := {
  gr_gasUsed : string;
  gr_gasPrice : string;
  totalCostWei : string;
  totalCostNative : string;
  nativeSymbol : string
}.

Record SimulateResponse : Type := {
  success : bool;
  stateChanges : StateImpact.StateImpactReport;
  events : list EventDecoder.DecodedEvent;
  gas : GasReport;
  error : option ErrorDecoder.DecodedError
}.

(** [success=true] goes with no error, [success=false] with an error. *)
Definition consistent (r : SimulateResponse) : Prop :=
  (success r = true -> error r = None)
  /\ (success r = false -> error r <> None).

(** The pure functions of the ethers library that the sources call. *)
Record EthersLib : Type := {
  getChecksumAddress : string -> string;
  icapAddress : string -> bool;
  abi_decode_uint256 : string -> option Z;
  abi_decode_string : string -> option string;
  iface_parseError : string -> string -> option (string * list string);
  interface_ok : EventDecoder.Interface -> bool;
  topicHash : EventDecoder.Interface -> option string;
  iface_parseLog : EventDecoder.Interface -> EventDecoder.Log
                   -> option EventDecoder.LogDescription;
  formatEther : Z -> string
}.

(** The fork daemon and the upstream node as the engine sees them: each RPC
    either answers or raises, and may change the fork [W]. The handle of a
    sent transaction is of type [Tx]. *)
Record Fork (W Tx : Type) : Type := {
  rpc_getBlockNumber : W -> Raises Z * W;
  rpc_evm_snapshot : W -> Raises string * W;
  rpc_evm_revert : string -> W -> Raises bool * W;
  rpc_anvil_reset : option (string * Z) -> W -> Raises unit * W;
  rpc_impersonateAccount : string -> W -> Raises unit * W;
  rpc_stopImpersonatingAccount : string -> W -> Raises unit * W;
  rpc_getSigner : string -> W -> Raises unit * W;
  rpc_getBalance : string -> W -> Raises Z * W;
  (** [new ethers.Contract(token, ERC20_ABI, provider)] and its methods *)
  new_Contract : string -> Raises unit;
  call_balanceOf : string -> string -> W -> Raises Z * W;
  call_symbol : string -> W -> Raises string * W;
  call_decimals : string -> W -> Raises Z * W;
  rpc_sendTransaction : string -> TransactionRequest -> W -> Raises Tx * W;
  tx_wait : Tx -> W -> Raises (option Receipt) * W;
  rpc_getFeeData : W -> Raises (option Z) * W;
  live_getFeeData : W -> Raises (option Z) * W
}.
Arguments rpc_getBlockNumber {W Tx}.
Arguments rpc_evm_snapshot {W Tx}.
Arguments rpc_evm_revert {W Tx}.
Arguments rpc_anvil_reset {W Tx}.
Arguments rpc_impersonateAccount {W Tx}.
Arguments rpc_stopImpersonatingAccount {W Tx}.
Arguments rpc_getSigner {W Tx}.
Arguments rpc_getBalance {W Tx}.
Arguments new_Contract {W Tx}.
Arguments call_balanceOf {W Tx}.
Arguments call_symbol {W Tx}.
Arguments call_decimals {W Tx}.
Arguments rpc_sendTransaction {W Tx}.
Arguments tx_wait {W Tx}.
Arguments rpc_getFeeData {W Tx}.
Arguments live_getFeeData {W Tx}.

(** What a run of the engine can read and write: the fork, the service
    object, the metadata cache of token-info.ts and the local flag
    [impersonating] of [executeSimulation]. *)
Record State (W : Type) : Type := {
  world : W;
  anvil : AnvilService;
  tokenCache : list (string * TokenMetadata);
  impersonating : bool
}.
Arguments world {W}.
Arguments anvil {W}.
Arguments tokenCache {W}.
Arguments impersonating {W}.

Section Engine.
  Context {W Tx : Type}.
  Variable lib : EthersLib.
  Variable fork : Fork W Tx.
  (** [process.env.NATIVE_SYMBOL || "GLMR"] and [process.env.FORK_URL_EVM]. *)
  Variable NATIVE_SYMBOL : string.
  Variable FORK_URL_EVM : option string.

Definition Run (A : Type) : Type := @M (State W) A.

  (** An RPC against the fork. *)
Definition rpc {A} (f : W -> Raises A * W) : Run A :=
    fun s =>
      match f (world s) with
      | (r, w') =>
          (r, {| world := w'; anvil := anvil s; tokenCache := tokenCache s;
                 impersonating := impersonating s |})
      end.

Definition set_anvil (f : AnvilService -> AnvilService) : Run unit :=
    modify (fun s => {| world := world s; anvil := f (anvil s);
                        tokenCache := tokenCache s;
                        impersonating := impersonating s |}).

Definition set_impersonating (b : bool) : Run unit :=
    modify (fun s => {| world := world s; anvil := anvil s;
                        tokenCache := tokenCache s; impersonating := b |}).

Definition cache_token (key : string) (m : TokenMetadata) : Run unit :=
    modify (fun s => {| world := world s; anvil := anvil s;
                        tokenCache := smap_set (tokenCache s) key m;
                        impersonating := impersonating s |}).

  (* -------------------------------------------------------------- *)
  (** *** services/anvil.ts *)

Definition connect (forkUrl_arg : option string) : Run unit :=
    url <- gets (fun s => anvilUrl (anvil s)) ;;
    set_anvil (fun a =>
      {| provider := Some url; anvilUrl := anvilUrl a;
         forkUrl := match Err.truthy_field forkUrl_arg with
                    | Some u => Some u
                    | None => Err.truthy_field FORK_URL_EVM
                    end;
         forkBlockNumber := forkBlockNumber a |}) ;;;
    blockNumber <- rpc (rpc_getBlockNumber fork) ;;
    set_anvil (fun a =>
      {| provider := provider a; anvilUrl := anvilUrl a; forkUrl := forkUrl a;
         forkBlockNumber := Some blockNumber |}).

Definition getProvider : Run unit :=
    p <- gets (fun s => provider (anvil s)) ;;
    match p with
    | Some _ => ret tt
    | None => throw (Err.new_Error "Anvil not connected. Call connect() first.")
    end.

  (** [await this.provider?.getBlockNumber(); return true], with [false] from
      the [catch]. On a null provider the optional call is [undefined] and
      nothing is awaited from the fork. *)
Definition isConnected : Run bool :=
    try_catch
      (p <- gets (fun s => provider (anvil s)) ;;
       match p with
       | Some _ => rpc (rpc_getBlockNumber fork) ;;; ret true
       | None => ret true
       end)
      (fun _ => ret false).

Definition snapshot : Run string :=
    getProvider ;;; rpc (rpc_evm_snapshot fork).

Definition revert (snapshotId : string) : Run bool :=
    getProvider ;;; rpc (rpc_evm_revert fork snapshotId).

Definition impersonate (addr : string) : Run unit :=
    getProvider ;;; rpc (rpc_impersonateAccount fork addr).

Definition stopImpersonating (addr : string) : Run unit :=
    getProvider ;;; rpc (rpc_stopImpersonatingAccount fork addr).

Definition getImpersonatedSigner (addr : string) : Run unit :=
    getProvider ;;; impersonate addr ;;; rpc (rpc_getSigner fork addr).

Definition reset : Run unit :=
    getProvider ;;;
    a <- gets anvil ;;
    match Err.truthy_field (forkUrl a), forkBlockNumber a with
    | Some url, Some n =>
        if (n =? 0)%Z then rpc (rpc_anvil_reset fork None)
        else rpc (rpc_anvil_reset fork (Some (url, n)))
    | _, _ => rpc (rpc_anvil_reset fork None)
    end.

  (* -------------------------------------------------------------- *)
  (** *** utils/token-info.ts *)

Definition unknown_metadata (key : string) : TokenMetadata :=
    {| tm_address := key; tm_symbol := "UNKNOWN"; tm_decimals := 18 |}.

  (** [Promise.all] over the two reads, each with its own [.catch]; the
      reads are issued in order. *)
Definition getTokenMetadata (tokenAddress : string) : Run TokenMetadata :=
    let key := Js.toLowerCase tokenAddress in
    cached <- gets (fun s => smap_get (tokenCache s) key) ;;
    match cached with
    | Some m => ret m
    | None =>
        try_catch
          (lift (new_Contract fork tokenAddress) ;;;
           symbol <- try_catch (rpc (call_symbol fork tokenAddress))
                               (fun _ => ret "UNKNOWN") ;;
           decimals <- try_catch (rpc (call_decimals fork tokenAddress))
                                 (fun _ => ret 18%Z) ;;
           let metadata := {| tm_address := key; tm_symbol := symbol;
                              tm_decimals := decimals |} in
           cache_token key metadata ;;;
           ret metadata)
          (fun _ => ret (unknown_metadata key))
    end.

Definition getTokenBalance (tokenAddress walletAddress : string) : Run Z :=
    try_catch
      (lift (new_Contract fork tokenAddress) ;;;
       rpc (call_balanceOf fork tokenAddress walletAddress))
      (fun _ => ret 0%Z).

  (* -------------------------------------------------------------- *)
  (** *** captureBalances of services/simulator.ts *)

Definition captureBalances (addresses tokenAddresses : list string)
    : Run (list (string * StateImpact.BalanceSnapshot)) :=
    for_each addresses []
      (fun snapshots addr =>
         native <- rpc (rpc_getBalance fork addr) ;;
         tokens <- for_each tokenAddresses []
                     (fun tokens tokenAddress =>
                        balance <- getTokenBalance tokenAddress addr ;;
                        ret (smap_set tokens (Js.toLowerCase tokenAddress) balance)) ;;
         ret (smap_set snapshots (Js.toLowerCase addr)
                       {| StateImpact.native := native;
                          StateImpact.tokens := tokens |})).

  (* -------------------------------------------------------------- *)
  (** *** utils/state-impact.ts and utils/gas-calculator.ts *)

Definition buildStateImpactReport (sender_ transactionTo : string)
    (tokenAddresses : list string)
    (balancesBefore balancesAfter : list (string * StateImpact.BalanceSnapshot))
    (nativeSymbol_ : string) (tokenRecipient : option string)
    : Run StateImpact.StateImpactReport :=
    tokenMetadata <-
      for_each tokenAddresses []
        (fun tokenMetadata tokenAddress =>
           metadata <- getTokenMetadata tokenAddress ;;
           ret (smap_set tokenMetadata (Js.toLowerCase tokenAddress)
                         (tm_symbol metadata, tm_decimals metadata))) ;;
    lift (StateImpact.assembleStateImpactReport tokenMetadata sender_ transactionTo
            balancesBefore balancesAfter nativeSymbol_ tokenRecipient).

Definition emptyGasReport (symbol : string) : GasReport :=
    {| gr_gasUsed := "0"; gr_gasPrice := "0"; totalCostWei := "0";
       totalCostNative := "0"; nativeSymbol := symbol |}.

Definition calculateGasReport (receipt : option Receipt) (symbol : string)
    : GasReport :=
    match receipt with
    | None => emptyGasReport symbol
    | Some receipt =>
        let gasUsed_ := gasUsed receipt in
        let gasPrice_ := match gasPrice receipt with
                         | Some p => p
                         | None => 0%Z
                         end in
        let totalCostWei_ := (gasUsed_ * gasPrice_)%Z in
        {| gr_gasUsed := Js.bigint_toString gasUsed_;
           gr_gasPrice := Js.bigint_toString gasPrice_;
           totalCostWei := Js.bigint_toString totalCostWei_;
           totalCostNative := formatEther lib totalCostWei_;
           nativeSymbol := symbol |}
    end.

  (* -------------------------------------------------------------- *)
  (** *** services/simulator.ts *)

Definition extractTransferRecipient : option string -> option string :=
    extractTransferRecipient (getChecksumAddress lib) (icapAddress lib).

Definition decodeEVMError : Err.ErrorValue -> Raises ErrorDecoder.DecodedError :=
    ErrorDecoder.decodeEVMError (abi_decode_uint256 lib) (abi_decode_string lib)
                                (iface_parseError lib).

Definition decodeLogs : list EventDecoder.Log -> list EventDecoder.DecodedEvent :=
    EventDecoder.decodeLogs (interface_ok lib) (topicHash lib) (iface_parseLog lib).

  (** [feeData.gasPrice || 0n] *)
Definition gasPrice_or_zero (p : option Z) : Z :=
    match p with
    | Some p => p
    | None => 0%Z
    end.

Definition getCurrentGasPrice : Run Z :=
    try_catch
      (feeData <- rpc (live_getFeeData fork) ;; ret (gasPrice_or_zero feeData))
      (fun _ =>
         getProvider ;;;
         feeData <- rpc (rpc_getFeeData fork) ;;
         ret (gasPrice_or_zero feeData)).

  (** The argument object of [signer.sendTransaction]; its fields are
      evaluated in order, so a malformed [value] raises before [gasLimit] is
      looked at. *)
Definition transactionRequest (t : Transaction) (gasPrice_ : option Z)
    : Raises TransactionRequest :=
    let data_ := match Err.truthy_field (data t) with
                 | Some d => d
                 | None => "0x"
                 end in
    match (match Err.truthy_field (value t) with
           | Some v => BigInt v
           | None => Ok 0%Z
           end) with
    | Throw e => Throw e
    | Ok value_ =>
        match (match Err.truthy_field (gasLimit t) with
               | Some g => match BigInt g with
                           | Ok n => Ok (Some n)
                           | Throw e => Throw e
                           end
               | None => Ok None
               end) with
        | Throw e => Throw e
        | Ok gasLimit_ =>
            Ok {| tx_to := to t; tx_data := data_; tx_value := value_;
                  tx_gasLimit := gasLimit_; tx_gasPrice := gasPrice_ |}
        end
    end.

  (** One side ([from] or [to]) of a Transfer event in the address-expansion
      loop. *)
Definition note_address (addressesToTrack : list string)
    (field : option string) (newAddresses : list string) : list string :=
    match Err.truthy_field field with
    | Some a =>
        let addr := Js.toLowerCase a in
        if sset_has addressesToTrack addr then newAddresses
        else sset_add newAddresses addr
    | None => newAddresses
    end.

Definition discover_addresses (addressesToTrack : list string)
    (events_ : list EventDecoder.DecodedEvent) : list string :=
    fold_left
      (fun newAddresses event =>
         if EventDecoder.name event ==? "Transfer" then
           let args := EventDecoder.args event in
           note_address addressesToTrack (smap_get args "to")
             (note_address addressesToTrack (smap_get args "from") newAddresses)
         else newAddresses)
      events_ [].

  (** The loop that merges the newly discovered addresses. *)
Definition merge_discovered (newAddresses : list string)
    (historicalBalances : option (list (string * StateImpact.BalanceSnapshot)))
    (addressesToTrack : list string)
    (balancesBefore : list (string * StateImpact.BalanceSnapshot))
    : list string * list (string * StateImpact.BalanceSnapshot) :=
    fold_left
      (fun '(tracked, bef) addr =>
         (sset_add tracked addr,
          match historicalBalances with
          | Some h =>
              match smap_get h addr with
              | Some snapshot => smap_set bef addr snapshot
              | None => bef
              end
          | None => bef
          end))
      newAddresses (addressesToTrack, balancesBefore).

Definition FATAL_HISTORICAL : string :=
    "FATAL: Failed to revert to snapshot for historical balance lookup".
Definition FATAL_REVERT : string :=
    "FATAL: Failed to revert snapshot - state may be corrupted".

  (** The message of the exception raised when both restore steps fail. *)
Definition fatal_cleanup_message (revertError resetError : Err.ErrorValue)
    : string :=
    "FATAL: State cleanup failed - both revert and reset failed. State is corrupted. Revert error: "
    +++ Err.toString revertError +++ ". Reset error: " +++ Err.toString resetError.

Definition emptyStateReport (request : SimulateRequest)
    : StateImpact.StateImpactReport :=
    {| StateImpact.sender :=
         {| StateImpact.address := Js.toLowerCase (sender request);
            StateImpact.before := []; StateImpact.after := [];
            StateImpact.changes := [] |};
       StateImpact.recipient :=
         {| StateImpact.address := Js.toLowerCase (to (transaction request));
            StateImpact.before := []; StateImpact.after := [];
            StateImpact.changes := [] |};
       StateImpact.contractsAffected := [] |}.

  (** The second pass: taken when the first execution revealed addresses
      that were not tracked. *)
Definition second_pass (request : SimulateRequest) (snapshotId : string)
    (newAddresses tokens_ : list string)
    : Run (option (list (string * StateImpact.BalanceSnapshot))) :=
    match newAddresses with
    | [] => ret None
    | _ :: _ =>
        revertSuccess <- revert snapshotId ;;
        if negb revertSuccess then throw (Err.new_Error FATAL_HISTORICAL)
        else
          historicalBalances <- captureBalances newAddresses tokens_ ;;
          request2 <- lift (transactionRequest (transaction request) None) ;;
          tx2 <- rpc (rpc_sendTransaction fork (sender request) request2) ;;
          rpc (tx_wait fork tx2) ;;;
          ret (Some historicalBalances)
    end.

  (** The [try] block of [executeSimulation]. *)
Definition simulation_body (request : SimulateRequest) (snapshotId : string)
    : Run SimulateResponse :=
    let sender_ := sender request in
    let transaction_ := transaction request in
    let tokens_ := match trackTokens request with
                   | Some l => l
                   | None => []
                   end in
    let tracked0 := sset_of [Js.toLowerCase sender_; Js.toLowerCase (to transaction_)] in
    let extractedRecipient := extractTransferRecipient (data transaction_) in
    let tracked1 := match Err.truthy_field extractedRecipient with
                    | Some r => sset_add tracked0 (Js.toLowerCase r)
                    | None => tracked0
                    end in
    balancesBefore <- captureBalances tracked1 tokens_ ;;
    currentGasPrice <- getCurrentGasPrice ;;
    getImpersonatedSigner sender_ ;;;
    set_impersonating true ;;;
    request1 <- lift (transactionRequest transaction_ (Some currentGasPrice)) ;;
    tx <- rpc (rpc_sendTransaction fork sender_ request1) ;;
    receipt <- rpc (tx_wait fork tx) ;;
    let events_ := match receipt with
                   | Some r => match logs r with
                               | Some l => decodeLogs l
                               | None => []
                               end
                   | None => []
                   end in
    let newAddresses := discover_addresses tracked1 events_ in
    historicalBalances <- second_pass request snapshotId newAddresses tokens_ ;;
    let '(tracked2, balancesBefore') :=
      merge_discovered newAddresses historicalBalances tracked1 balancesBefore in
    balancesAfter <- captureBalances tracked2 tokens_ ;;
    stateChanges_ <- buildStateImpactReport sender_ (to transaction_) tokens_
                       balancesBefore' balancesAfter NATIVE_SYMBOL
                       extractedRecipient ;;
    let gas_ := calculateGasReport receipt NATIVE_SYMBOL in
    let success_ := match receipt with
                    | Some r => match status r with
                                | Some st => (st =? 1)%Z
                                | None => false
                                end
                    | None => false
                    end in
    ret {| success := success_;
           stateChanges := stateChanges_;
           events := events_;
           gas := gas_;
           error := if success_ then None
                    else Some {| ErrorDecoder.type := ErrorDecoder.revert;
                                 ErrorDecoder.message := JsValue.VString "Transaction reverted";
                                 ErrorDecoder.raw := None |} |}.

  (** The [catch] block. *)
Definition simulation_failed (request : SimulateRequest)
    (error_ : Err.ErrorValue) : Run SimulateResponse :=
    decodedError <- lift (decodeEVMError error_) ;;
    ret {| success := false;
           stateChanges := emptyStateReport request;
           events := [];
           gas := emptyGasReport NATIVE_SYMBOL;
           error := Some decodedError |}.

  (** The [finally] block. *)
Definition cleanup (request : SimulateRequest) (snapshotId : string)
    : Run unit :=
    flag <- gets impersonating ;;
    (if flag then try_catch (stopImpersonating (sender request)) (fun _ => ret tt)
     else ret tt) ;;;
    try_catch
      (revertSuccess <- revert snapshotId ;;
       if negb revertSuccess then throw (Err.new_Error FATAL_REVERT) else ret tt)
      (fun revertError =>
         try_catch reset
           (fun resetError =>
              throw (Err.new_Error (fatal_cleanup_message revertError resetError)))).

Definition executeSimulation (request : SimulateRequest) : Run SimulateResponse :=
    getProvider ;;;
    snapshotId <- snapshot ;;
    set_impersonating false ;;;
    try_finally
      (try_catch (simulation_body request snapshotId) (simulation_failed request))
      (cleanup request snapshotId).

  (** [simulateTransaction]: the run happens while the backend mutex is
      held and the mutex is released on every exit. *)
Definition simulateTransaction (request : SimulateRequest) : Run SimulateResponse :=
    executeSimulation request.

End Engine.
End Evm.

(* ------------------------------------------------------------------ *)
(** ** Runtime-module side: events, snapshotter, event-driven deltas *)
(* ------------------------------------------------------------------ *)

Module Wasm.
Import Async.

(** The human-readable rendering ([toHuman]) of a runtime value: account
    identifiers and balances are strings, the latter with comma separators;
    structures are objects, sequences arrays. *)
Inductive Human : Type :=
| HNull
| HBool (b : bool)
| HString (s : string)
| HArray (items : list Human)
| HObject (fields : list (string * Human)).

(** [WasmDecodedEvent] of types/wasm.ts. A field that [data] lacks reads as
    [undefined]. *)
Record WasmDecodedEvent : Type := {
  pallet : string;
  method : string;
  data : list (string * Human);
  index : Z
}.

Record Phase : Type := {
  phase_type : string;
  phase_value : option Z
}.

Record WasmEventRecord : Type := {
  phase : Phase;
  event : WasmDecodedEvent
}.

(* -------------------------------------------------------------- *)
(** *** utils/wasm-event-decoder.ts *)

Definition in_phase (extrinsicIndex : Z) (e : WasmEventRecord) : bool :=
  (phase_type (phase e) ==? "ApplyExtrinsic")
  && match phase_value (phase e) with
     | Some v => (v =? extrinsicIndex)%Z
     | None => false
     end.

Definition filterEventsByExtrinsicIndex (events : list WasmEventRecord)
  (extrinsicIndex : Z) : list WasmDecodedEvent :=
  map event (filter (in_phase extrinsicIndex) events).

Definition getLastExtrinsicIndex (events : list WasmEventRecord) : Z :=
  fold_left
    (fun max e =>
       if phase_type (phase e) ==? "ApplyExtrinsic" then
         match phase_value (phase e) with
         | Some v => if (max <? v)%Z then v else max
         | None => max
         end
       else max)
    events (-1)%Z.

Definition relevantPallets : list string :=
  ["balances"; "assets"; "tokens"; "system"; "transactionPayment"].
Definition relevantMethods : list string :=
  ["Transfer"; "Deposit"; "Withdraw"; "Reserved"; "Unreserved";
   "ExtrinsicSuccess"; "ExtrinsicFailed"].

Definition includes (xs : list string) (x : string) : bool :=
  existsb (fun y => y ==? x) xs.

Definition filterRelevantEvents (events : list WasmDecodedEvent)
  : list WasmDecodedEvent :=
  filter (fun e => includes relevantPallets (pallet e)
                   || includes relevantMethods (method e)) events.

(* -------------------------------------------------------------- *)
(** *** The report types of types/wasm.ts *)

(** [WasmTokenBalance]; prefix [tb_]. *)
Record WasmTokenBalance : Type := {
  tb_token : string;
  tb_assetId : option Z;
  tb_balance : string;
  tb_decimals : Z;
  tb_symbol : string
}.

(** [WasmBalanceChange]; prefix [ch_]. *)
Record WasmBalanceChange : Type := {
  ch_token : string;
  ch_assetId : option Z;
  ch_before : string;
  ch_after : string;
  ch_delta : string;
  ch_decimals : Z;
  ch_symbol : string
}.

(** A key of the delta map, and so the [address] of a row built from it:
    the value of an event field, [None] ([undefined]) when the event lacks
    the field. An account identifier is a string. *)
Definition Key : Type := option Human.
Definition KString (s : string) : Key := Some (HString s).

Record WasmAddressState : Type := {
  address : Key;
  before : list WasmTokenBalance;
  after : list WasmTokenBalance;
  changes : list WasmBalanceChange
}.

Record WasmStateImpactReport : Type := {
  sender : WasmAddressState;
  recipient : option WasmAddressState;
  otherAffected : list WasmAddressState
}.

(** [BalanceSnapshot] of utils/wasm-balance-tracker.ts. *)
Record NativeBalance : Type := {
  free : Z;
  reserved : Z;
  frozen : Z
}.

Record BalanceSnapshot : Type := {
  native : NativeBalance;
  assets : list (Z * Z)
}.

(* -------------------------------------------------------------- *)
(** *** buildStateFromEvents of services/simulator-wasm.ts *)

(** [SameValueZero] on keys: primitives are compared by value; an array or
    an object is only the same as itself, and each value that [toHuman]
    builds is a fresh one, so two such keys never meet. *)
Definition key_eqb (a b : Key) : bool :=
  match a, b with
  | None, None => true
  | Some HNull, Some HNull => true
  | Some (HBool x), Some (HBool y) => Bool.eqb x y
  | Some (HString x), Some (HString y) => x ==? y
  | _, _ => false
  end.

(** [v.toString()] for a value of an event field; [null] has no method. *)
Fixpoint human_toString (h : Human) : option string :=
  match h with
  | HNull => None
  | HBool b => Some (if b then "true" else "false")
  | HString s => Some s
  | HArray items =>
      Some (JsText.join ","
              (map (fun item => match human_toString item with
                                | Some s => s
                                | None => ""
                                end) items))
  | HObject _ => Some "[object Object]"
  end.

(** [BigInt(data.amount.toString().replace(/,/g, ""))] *)
Definition parse_amount (field : option Human) : Raises Z :=
  match field with
  | None =>
      Throw (Err.new_TypeError "Cannot read properties of undefined (reading 'toString')")
  | Some h =>
      match human_toString h with
      | None =>
          Throw (Err.new_TypeError "Cannot read properties of null (reading 'toString')")
      | Some text => BigInt (JsText.remove_commas text)
      end
  end.

Definition Deltas : Type := list (Key * Z).

(** [balanceDeltas.get(k) || 0n] *)
Definition delta_of (balanceDeltas : Deltas) (k : Key) : Z :=
  match JsMap.get key_eqb balanceDeltas k with
  | Some d => d
  | None => 0%Z
  end.

Definition add_delta (balanceDeltas : Deltas) (k : Key) (amount : Z) : Deltas :=
  JsMap.set key_eqb balanceDeltas k (delta_of balanceDeltas k + amount)%Z.

(** The keys of a [Map] are pairwise distinct. *)
Inductive distinct_keys : Deltas -> Prop :=
| distinct_nil : distinct_keys []
| distinct_cons k v m :
    Forall (fun entry => key_eqb k (fst entry) = false) m ->
    distinct_keys m -> distinct_keys ((k, v) :: m).

Definition field (e : WasmDecodedEvent) (f : string) : option Human :=
  smap_get (data e) f.

(** The body of the reduction loop for one event. *)
Definition reduce_event (balanceDeltas : Deltas) (e : WasmDecodedEvent)
  : Raises Deltas :=
  if pallet e ==? "balances" then
    if method e ==? "Transfer" then
      let from := field e "from" in
      let to := field e "to" in
      match parse_amount (field e "amount") with
      | Throw err => Throw err
      | Ok amount =>
          Ok (add_delta (add_delta balanceDeltas from (- amount)) to amount)
      end
    else if method e ==? "Withdraw" then
      let who := field e "who" in
      match parse_amount (field e "amount") with
      | Throw err => Throw err
      | Ok amount => Ok (add_delta balanceDeltas who (- amount))
      end
    else if method e ==? "Deposit" then
      let who := field e "who" in
      match parse_amount (field e "amount") with
      | Throw err => Throw err
      | Ok amount => Ok (add_delta balanceDeltas who amount)
      end
    else Ok balanceDeltas
  else Ok balanceDeltas.

Fixpoint reduce_events (balanceDeltas : Deltas) (events : list WasmDecodedEvent)
  : Raises Deltas :=
  match events with
  | [] => Ok balanceDeltas
  | e :: rest =>
      match reduce_event balanceDeltas e with
      | Ok d => reduce_events d rest
      | Throw err => Throw err
      end
  end.

(** [snapshot ? snapshot.native.free + snapshot.native.reserved : 0n] *)
Definition total_before (balancesBefore : list (string * BalanceSnapshot))
  (k : Key) : Z :=
  match k with
  | Some (HString a) =>
      match smap_get balancesBefore a with
      | Some snapshot => (free (native snapshot) + reserved (native snapshot))%Z
      | None => 0%Z
      end
  | _ => 0%Z
  end.

Definition native_row (nativeSymbol : string) (nativeDecimals : Z) (amount : Z)
  : WasmTokenBalance :=
  {| tb_token := nativeSymbol; tb_assetId := None;
     tb_balance := Js.bigint_toString amount;
     tb_decimals := nativeDecimals; tb_symbol := nativeSymbol |}.

Definition native_change (nativeSymbol : string) (nativeDecimals : Z)
  (bef aft delta : Z) : WasmBalanceChange :=
  {| ch_token := nativeSymbol; ch_assetId := None;
     ch_before := Js.bigint_toString bef;
     ch_after := Js.bigint_toString aft;
     ch_delta := Js.bigint_toString delta;
     ch_decimals := nativeDecimals; ch_symbol := nativeSymbol |}.

(** The row of an address with its [before] total and its delta. The
    sender row lists the change only for a non-zero delta ([with_change]);
    the other rows are only built for a non-zero delta and always list it. *)
Definition address_state (nativeSymbol : string) (nativeDecimals : Z)
  (addr : Key) (bef delta : Z) (with_change : bool) : WasmAddressState :=
  let aft := (bef + delta)%Z in
  {| address := addr;
     before := [native_row nativeSymbol nativeDecimals bef];
     after := [native_row nativeSymbol nativeDecimals aft];
     changes := if with_change
                then [native_change nativeSymbol nativeDecimals bef aft delta]
                else [] |}.

(** [address === recipient] for a recipient that is a string or [null]. *)
Definition is_recipient (addr : Key) (recipient_ : option string) : bool :=
  match recipient_ with
  | Some r => key_eqb addr (KString r)
  | None => key_eqb addr (Some HNull)
  end.

Definition other_affected (sender_ : string) (recipient_ : option string)
  (balancesBefore : list (string * BalanceSnapshot))
  (nativeSymbol : string) (nativeDecimals : Z) (balanceDeltas : Deltas)
  : list WasmAddressState :=
  flat_map
    (fun '(addr, delta) =>
       if key_eqb addr (KString sender_) || is_recipient addr recipient_
          || (delta =? 0)%Z
       then []
       else [address_state nativeSymbol nativeDecimals addr
                           (total_before balancesBefore addr) delta true])
    balanceDeltas.

(** The report once the deltas are reduced. *)
Definition report_of_deltas (sender_ : string) (recipient_ : option string)
  (balancesBefore : list (string * BalanceSnapshot))
  (nativeSymbol : string) (nativeDecimals : Z) (balanceDeltas : Deltas)
  : WasmStateImpactReport :=
  let senderState :=
    let senderDelta := delta_of balanceDeltas (KString sender_) in
    address_state nativeSymbol nativeDecimals (KString sender_)
                  (total_before balancesBefore (KString sender_))
                  senderDelta (negb (senderDelta =? 0)%Z) in
  let recipientState :=
    match Err.truthy_field recipient_ with
    | Some r =>
        let recipientDelta := delta_of balanceDeltas (KString r) in
        if (recipientDelta =? 0)%Z then None
        else Some (address_state nativeSymbol nativeDecimals (KString r)
                                 (total_before balancesBefore (KString r))
                                 recipientDelta true)
    | None => None
    end in
  {| sender := senderState;
     recipient := recipientState;
     otherAffected := other_affected sender_ recipient_ balancesBefore
                                     nativeSymbol nativeDecimals balanceDeltas |}.

(** [buildStateFromEvents]. The asset metadata argument of the source is
    not read by the function. *)
Definition buildStateFromEvents (sender_ : string) (recipient_ : option string)
  (events : list WasmDecodedEvent)
  (balancesBefore : list (string * BalanceSnapshot))
  (assetMetadata : list (Z * (string * Z)))
  (nativeSymbol : string) (nativeDecimals : Z)
  : Raises WasmStateImpactReport :=
  match reduce_events [] events with
  | Ok balanceDeltas =>
      Ok (report_of_deltas sender_ recipient_ balancesBefore nativeSymbol
                           nativeDecimals balanceDeltas)
  | Throw e => Throw e
  end.

(** The rows of a report, in order. *)
Definition rows (r : WasmStateImpactReport) : list WasmAddressState :=
  sender r :: match recipient r with
              | Some row => [row]
              | None => []
              end ++ otherAffected r.

(** The native delta that the reduction rules assign to the key [k] for one
    event: the words of the specification, event by event. *)
Definition event_delta (k : Key) (e : WasmDecodedEvent) (amount : Z) : Z :=
  if pallet e ==? "balances" then
    if method e ==? "Transfer" then
      ((if key_eqb (field e "to") k then amount else 0)
       - (if key_eqb (field e "from") k then amount else 0))%Z
    else if method e ==? "Withdraw" then
      (if key_eqb (field e "who") k then (- amount)%Z else 0%Z)
    else if method e ==? "Deposit" then
      (if key_eqb (field e "who") k then amount else 0%Z)
    else 0%Z
  else 0%Z.

(** Whether the reduction reads the amount of the event. *)
Definition reads_amount (e : WasmDecodedEvent) : bool :=
  (pallet e ==? "balances")
  && ((method e ==? "Transfer") || (method e ==? "Withdraw")
      || (method e ==? "Deposit")).

(** The parsed amount of an event, [0] where none is read or parsed. *)
Definition amount_of (e : WasmDecodedEvent) : Z :=
  if reads_amount e then
    match parse_amount (field e "amount") with
    | Ok z => z
    | Throw _ => 0%Z
    end
  else 0%Z.

(** The sum of the per-event deltas of [k] over a list of events. *)
Definition spec_delta (k : Key) (events : list WasmDecodedEvent) : Z :=
  fold_right (fun e acc => (event_delta k e (amount_of e) + acc)%Z) 0%Z events.

(** The events of the injected extrinsic, as the specification words them:
    the extrinsic that the engine submitted is the last one of the block, so
    its events are those of the records that an extrinsic applied with the
    highest index of the block ([-1], and so no record, when no extrinsic
    applied any). *)
Definition applied_by (r : WasmEventRecord) : option Z :=
  if phase_type (phase r) ==? "ApplyExtrinsic" then phase_value (phase r) else None.

Definition spec_last_index (records : list WasmEventRecord) : Z :=
  fold_right (fun r highest => match applied_by r with
                               | Some v => Z.max v highest
                               | None => highest
                               end) (-1)%Z records.

Definition spec_injected (records : list WasmEventRecord) : list WasmDecodedEvent :=
  map event
      (filter (fun r => match applied_by r with
                        | Some v => (v =? spec_last_index records)%Z
                        | None => false
                        end) records).

(* -------------------------------------------------------------- *)
(** *** The node behind the runtime-module fork *)

(** [accountInfo]: the nonce and, under [data], the renderings
    ([toString]) of the balances; [frozen] may be missing. *)
Record AccountInfo : Type := {
  acc_nonce : Z;
  acc_free : string;
  acc_reserved : string;
  acc_frozen : option string
}.

(** What [getAssetMetadata] reads of an asset: [String(human.symbol)] and
    [Number(human.decimals)] when [toHuman()] is an object with that key,
    and [Number(assetMeta.decimals?.toString?.() ?? 18)]. *)
Record AssetMetaRead : Type := {
  human_symbol : option string;
  human_decimals : option Z;
  codec_decimals : Z
}.

(** A record of [system.events], with the values of the event already
    rendered by [formatEventValue]. *)
Inductive RawPhase : Type :=
| ApplyExtrinsic (i : Z)
| Initialization
| Finalization
| OtherPhase.

Record RawEvent : Type := {
  section : string;
  raw_method : string;
  raw_data : list Human
}.

Record RawRecord : Type := {
  raw_event : option RawEvent;
  raw_phase : RawPhase
}.

(** An argument of a structured call ([args: any[]]). *)
Inductive JsArg : Type :=
| ArgNull
| ArgUndefined
| ArgText (text : string)   (* a string, number or boolean, rendered *)
| ArgObject                 (* an object that is no call definition *)
| ArgCall (pallet_ method_ : string) (args : option (list JsArg))
| ArgArray (items : list JsArg).

(** [WasmSimulateRequest] *)
Inductive ExtrinsicSpec : Type :=
| RawHex (rawHex : string)
| Call (pallet_ method_ : string) (args : list JsArg).

Record WasmSimulateRequest : Type := {
  req_sender : string;
  extrinsic : ExtrinsicSpec;
  trackAssets : option (list Z)
}.

Record Weight : Type := {
  refTime : string;
  proofSize : string
}.

Record WasmGasReport : Type := {
  weight : Weight;
  partialFee : string;
  partialFeeFormatted : string;
  nativeSymbol : string
}.

Record WasmDecodedError : Type := {
  err_type : string;
  err_pallet : option string;
  err_error : option string;
  err_message : string;
  err_raw : option string
}.

Record WasmSimulateResponse : Type := {
  success : bool;
  stateChanges : WasmStateImpactReport;
  events : list WasmDecodedEvent;
  gas : WasmGasReport;
  error : option WasmDecodedError
}.

(** [success=true] goes with no error, [success=false] with an error. *)
Definition consistent (r : WasmSimulateResponse) : Prop :=
  (success r = true -> error r = None)
  /\ (success r = false -> error r <> None).

(** The arguments handed to a call constructor: an array argument has its
    call definitions replaced by built calls. *)
Inductive ProcessedItem (Ext : Type) : Type :=
| ItemRaw (a : JsArg)
| ItemCall (x : Ext).
Arguments ItemRaw {Ext} a.
Arguments ItemCall {Ext} x.

Inductive ProcessedArg (Ext : Type) : Type :=
| PArg (a : JsArg)
| PArray (items : list (ProcessedItem Ext)).
Arguments PArg {Ext} a.
Arguments PArray {Ext} items.

(** The node, the chopsticks RPC endpoint and the pure functions of the
    polkadot libraries, as the sources use them. [Ext] is the type of a
    built extrinsic. *)
Record Node (W Ext : Type) : Type := {
  api_create : string -> W -> Raises unit * W;
  api_chain_and_header : W -> Raises (string * string * Z) * W;
  api_disconnect : W -> Raises unit * W;
  rpc_system_health : W -> Raises unit * W;
  rpc_system_properties : W -> Raises (option (list string) * option (list Z)) * W;
  query_system_account : string -> W -> Raises AccountInfo * W;
  has_assets_account : bool;
  query_assets_account : Z -> string -> W -> Raises (option string) * W;
  has_assets_metadata : bool;
  query_assets_metadata : Z -> W -> Raises AssetMetaRead * W;
  query_system_events : W -> Raises (list RawRecord) * W;
  event_field_names : string -> string -> list string;
  tx_defined : string -> string -> bool;
  tx_from_hex : string -> Raises Ext;
  tx_call : string -> string -> list (ProcessedArg Ext) -> Raises Ext;
  ext_paymentInfo : Ext -> string -> W -> Raises (string * option string * option string) * W;
  ext_signFake : Ext -> string -> Z -> Raises (list Z);
  raw_author_submitExtrinsic : string -> W -> Raises string * W;
  raw_dev_newBlock : W -> Raises string * W;
  raw_dev_setHead : string -> W -> Raises unit * W;
  compactToU8a : nat -> list Z;
  (** [BigInt(10 ** d)] where the double is not an exact power of ten *)
  inexact_pow10 : Z -> Raises Z;
  (** utils/wasm-error-decoder.ts applied to a rendered dispatch error
      ([None] is [undefined]), with the metadata registry of the node *)
  decodeWasmError : option Human -> Raises WasmDecodedError
}.
Arguments api_create {W Ext}.
Arguments api_chain_and_header {W Ext}.
Arguments api_disconnect {W Ext}.
Arguments rpc_system_health {W Ext}.
Arguments rpc_system_properties {W Ext}.
Arguments query_system_account {W Ext}.
Arguments has_assets_account {W Ext}.
Arguments query_assets_account {W Ext}.
Arguments has_assets_metadata {W Ext}.
Arguments query_assets_metadata {W Ext}.
Arguments query_system_events {W Ext}.
Arguments event_field_names {W Ext}.
Arguments tx_defined {W Ext}.
Arguments tx_from_hex {W Ext}.
Arguments tx_call {W Ext}.
Arguments ext_paymentInfo {W Ext}.
Arguments ext_signFake {W Ext}.
Arguments raw_author_submitExtrinsic {W Ext}.
Arguments raw_dev_newBlock {W Ext}.
Arguments raw_dev_setHead {W Ext}.
Arguments compactToU8a {W Ext}.
Arguments inexact_pow10 {W Ext}.
Arguments decodeWasmError {W Ext}.

(** The fields of [ChopsticksService]. *)
Record ChopsticksService : Type := {
  api : bool;                      (* whether [this.api] is set *)
  provider : option string;
  endpoint : string;
  originalBlockHash : option string;
  originalBlockNumber : option Z
}.

Definition new_ChopsticksService (url : string) : ChopsticksService :=
  {| api := false; provider := None; endpoint := url;
     originalBlockHash := None; originalBlockNumber := None |}.

(** The state of a run: the fork, the service object, the chain-properties
    cache of the engine module and what was written with [console.error]
    and [console.warn]. *)
Record State (W : Type) : Type := {
  world : W;
  chopsticks : ChopsticksService;
  chainPropertiesCache : option (string * Z);
  console : list (string * option Err.ErrorValue)
}.
Arguments world {W}.
Arguments chopsticks {W}.
Arguments chainPropertiesCache {W}.
Arguments console {W}.

Section Engine.
  Context {W Ext : Type}.
  Variable node : Node W Ext.

Definition Run (A : Type) : Type := @M (State W) A.

  (** A call into the node. *)
Definition rpc {A} (f : W -> Raises A * W) : Run A :=
    fun s =>
      match f (world s) with
      | (r, w') =>
          (r, {| world := w'; chopsticks := chopsticks s;
                 chainPropertiesCache := chainPropertiesCache s;
                 console := console s |})
      end.

Definition set_chopsticks (f : ChopsticksService -> ChopsticksService)
    : Run unit :=
    modify (fun s => {| world := world s; chopsticks := f (chopsticks s);
                        chainPropertiesCache := chainPropertiesCache s;
                        console := console s |}).

Definition set_chainPropertiesCache (c : string * Z) : Run unit :=
    modify (fun s => {| world := world s; chopsticks := chopsticks s;
                        chainPropertiesCache := Some c;
                        console := console s |}).

  (** [console.error] and [console.warn] *)
Definition console_write (msg : string) (e : option Err.ErrorValue) : Run unit :=
    modify (fun s => {| world := world s; chopsticks := chopsticks s;
                        chainPropertiesCache := chainPropertiesCache s;
                        console := console s ++ [(msg, e)] |}).

  (* -------------------------------------------------------------- *)
  (** *** services/chopsticks.ts *)

Definition connect (endpoint_arg : option string) : Run unit :=
    (match Err.truthy_field endpoint_arg with
     | Some e =>
         set_chopsticks (fun c =>
           {| api := api c; provider := provider c; endpoint := e;
              originalBlockHash := originalBlockHash c;
              originalBlockNumber := originalBlockNumber c |})
     | None => ret tt
     end) ;;;
    url <- gets (fun s => endpoint (chopsticks s)) ;;
    set_chopsticks (fun c =>
      {| api := api c; provider := Some url; endpoint := endpoint c;
         originalBlockHash := originalBlockHash c;
         originalBlockNumber := originalBlockNumber c |}) ;;;
    rpc (api_create node url) ;;;
    set_chopsticks (fun c =>
      {| api := true; provider := provider c; endpoint := endpoint c;
         originalBlockHash := originalBlockHash c;
         originalBlockNumber := originalBlockNumber c |}) ;;;
    header <- rpc (api_chain_and_header node) ;;
    let '(_, hash, number) := header in
    set_chopsticks (fun c =>
      {| api := api c; provider := provider c; endpoint := endpoint c;
         originalBlockHash := Some hash;
         originalBlockNumber := Some number |}).

Definition getApi : Run unit :=
    connected <- gets (fun s => api (chopsticks s)) ;;
    if connected then ret tt
    else throw (Err.new_Error "Chopsticks not connected. Call connect() first.").

Definition isConnected : Run bool :=
    try_catch
      (connected <- gets (fun s => api (chopsticks s)) ;;
       if negb connected then ret false
       else rpc (rpc_system_health node) ;;; ret true)
      (fun _ => ret false).

Definition disconnect : Run unit :=
    connected <- gets (fun s => api (chopsticks s)) ;;
    if connected then
      rpc (api_disconnect node) ;;;
      set_chopsticks (fun c =>
        {| api := false; provider := None; endpoint := endpoint c;
           originalBlockHash := None; originalBlockNumber := None |})
    else ret tt.

Definition reset : Run unit :=
    hash <- gets (fun s => Err.truthy_field (originalBlockHash (chopsticks s))) ;;
    match hash with
    | None =>
        console_write "No original block hash stored, reconnecting instead..." None ;;;
        disconnect ;;;
        connect None
    | Some h =>
        try_catch
          (rpc (raw_dev_setHead node h))
          (fun error_ =>
             console_write "Reset via dev_setHead failed:" (Some error_) ;;;
             disconnect ;;;
             connect None)
    end.

Definition getPaymentInfo (ext : Ext) (sender_ : string)
    : Run (string * Weight) :=
    getApi ;;;
    info <- rpc (ext_paymentInfo node ext sender_) ;;
    let '(fee, rt, ps) := info in
    let or0 x := match Err.truthy_field x with Some v => v | None => "0" end in
    ret (fee, {| refTime := or0 rt; proofSize := or0 ps |}).

Definition submitExtrinsic (extrinsicHex : string) : Run string :=
    rpc (raw_author_submitExtrinsic node extrinsicHex).

Definition newBlock : Run string := rpc (raw_dev_newBlock node).

  (* -------------------------------------------------------------- *)
  (** *** utils/wasm-balance-tracker.ts *)

Definition zero_snapshot : BalanceSnapshot :=
    {| native := {| free := 0; reserved := 0; frozen := 0 |}; assets := [] |}.

Definition amap_set := @JsMap.set Z Z Z.eqb.
Definition amap_get := @JsMap.get Z Z Z.eqb.

  (** The asset loop for one address, inside its own [try]. *)
Definition capture_asset (addr : string) (assets_ : list (Z * Z)) (assetId : Z)
    : Run (list (Z * Z)) :=
    try_catch
      (if has_assets_account node then
         assetAccount <- rpc (query_assets_account node assetId addr) ;;
         match assetAccount with
         | Some balance =>
             b <- lift (BigInt balance) ;;
             ret (amap_set assets_ assetId b)
         | None => ret (amap_set assets_ assetId 0%Z)
         end
       else ret assets_)
      (fun _ => ret (amap_set assets_ assetId 0%Z)).

Definition balance_warning (addr : string) : string :=
    "Failed to get balance for " +++ addr +++ ":".

  (** The body of the loop over the addresses: the whole read of one
      address sits in a [try]. *)
Definition capture_address (assetIds : list Z)
    (snapshots : list (string * BalanceSnapshot)) (addr : string)
    : Run (list (string * BalanceSnapshot)) :=
    try_catch
      (accountInfo <- rpc (query_system_account node addr) ;;
       free_ <- lift (BigInt (acc_free accountInfo)) ;;
       reserved_ <- lift (BigInt (acc_reserved accountInfo)) ;;
       frozen_ <- lift (BigInt (match Err.truthy_field (acc_frozen accountInfo) with
                                | Some f => f
                                | None => "0"
                                end)) ;;
       assets_ <- for_each assetIds [] (capture_asset addr) ;;
       ret (smap_set snapshots addr
              {| native := {| free := free_; reserved := reserved_;
                              frozen := frozen_ |};
                 assets := assets_ |}))
      (fun error_ =>
         console_write (balance_warning addr) (Some error_) ;;;
         ret (smap_set snapshots addr zero_snapshot)).

Definition captureBalances (addresses : list string) (assetIds : list Z)
    : Run (list (string * BalanceSnapshot)) :=
    for_each addresses [] (capture_address assetIds).

Definition mmap_set := @JsMap.set Z (string * Z) Z.eqb.

Definition getAssetMetadata (assetIds : list Z)
    : Run (list (Z * (string * Z))) :=
    for_each assetIds []
      (fun metadata assetId =>
         let fallback := "Asset#" +++ Js.bigint_toString assetId in
         try_catch
           (if has_assets_metadata node then
              assetMeta <- rpc (query_assets_metadata node assetId) ;;
              let symbol := match human_symbol assetMeta with
                            | Some s => s
                            | None => fallback
                            end in
              let decimals := match human_decimals assetMeta with
                              | Some d => d
                              | None => codec_decimals assetMeta
                              end in
              ret (mmap_set metadata assetId (symbol, decimals))
            else ret metadata)
           (fun _ => ret (mmap_set metadata assetId (fallback, 18%Z)))).

  (* -------------------------------------------------------------- *)
  (** *** decodeWasmEvents of utils/wasm-event-decoder.ts *)

Definition phase_info (p : RawPhase) : Phase :=
    match p with
    | ApplyExtrinsic i => {| phase_type := "ApplyExtrinsic"; phase_value := Some i |}
    | Initialization => {| phase_type := "Initialization"; phase_value := None |}
    | Finalization => {| phase_type := "Finalization"; phase_value := None |}
    | OtherPhase => {| phase_type := "unknown"; phase_value := None |}
    end.

  (** [data[fieldNames[i] || `arg${i}`] = formatEventValue(value)] *)
Fixpoint build_data (fieldNames : list string) (i : nat) (values : list Human)
    (data_ : list (string * Human)) : list (string * Human) :=
    match values with
    | [] => data_
    | v :: rest =>
        let fieldName := if Js.truthy (nth i fieldNames "") then nth i fieldNames ""
                         else "arg" +++ Js.bigint_toString (Z.of_nat i) in
        build_data fieldNames (S i) rest (smap_set data_ fieldName v)
    end.

Fixpoint decode_records (i : Z) (records : list RawRecord)
    : list WasmEventRecord :=
    match records with
    | [] => []
    | record :: rest =>
        match raw_event record with
        | None => decode_records (i + 1)%Z rest
        | Some ev =>
            {| phase := phase_info (raw_phase record);
               event := {| pallet := section ev;
                           method := raw_method ev;
                           data := build_data
                                     (event_field_names node (section ev) (raw_method ev))
                                     0 (raw_data ev) [];
                           index := i |} |}
            :: decode_records (i + 1)%Z rest
        end
    end.

Definition decodeWasmEvents (records : list RawRecord) : list WasmEventRecord :=
    decode_records 0%Z records.

  (* -------------------------------------------------------------- *)
  (** *** services/simulator-wasm.ts *)

  (** [xs[0].method()]: the head, or on an empty array the [TypeError] of
      reading [method] of [undefined]. *)
Definition first_of {A} (method : string) (xs : list A) : Raises A :=
    match xs with
    | x :: _ => Ok x
    | [] => Throw (Err.new_TypeError
                     ("Cannot read properties of undefined (reading '"
                      +++ method +++ "')"))
    end.

Definition getChainProperties : Run (string * Z) :=
    cached <- gets chainPropertiesCache ;;
    match cached with
    | Some c => ret c
    | None =>
        properties <- rpc (rpc_system_properties node) ;;
        let '(tokenSymbol, tokenDecimals) := properties in
        symbol <- lift (first_of "toString" (match tokenSymbol with
                                             | Some l => l
                                             | None => ["UNIT"]
                                             end)) ;;
        decimals <- lift (first_of "toNumber" (match tokenDecimals with
                                               | Some l => l
                                               | None => [12%Z]
                                               end)) ;;
        set_chainPropertiesCache (symbol, decimals) ;;;
        ret (symbol, decimals)
    end.

Definition emptyStateReport (sender_ : string) : WasmStateImpactReport :=
    {| sender := {| address := KString sender_; before := []; after := [];
                    changes := [] |};
       recipient := None;
       otherAffected := [] |}.

Definition emptyGasReport (symbol : string) : WasmGasReport :=
    {| weight := {| refTime := "0"; proofSize := "0" |};
       partialFee := "0"; partialFeeFormatted := "0"; nativeSymbol := symbol |}.

  (** [arg?.toString()]: [None] for a nullish argument. *)
Fixpoint arg_toString (a : JsArg) : option string :=
    match a with
    | ArgNull | ArgUndefined => None
    | ArgText t => Some t
    | ArgObject | ArgCall _ _ _ => Some "[object Object]"
    | ArgArray items =>
        Some (JsText.join ","
                (map (fun item => match arg_toString item with
                                  | Some t => t
                                  | None => ""
                                  end) items))
    end.

  (** The presumptive recipient of a structured call. *)
Definition presumptive_recipient (method_ : string) (args : list JsArg)
    : option string :=
    if JsText.contains "transfer" (Js.toLowerCase method_) && (0 <? length args) then
      match args with
      | a :: _ => Err.truthy_field (arg_toString a)
      | [] => None
      end
    else None.

  (** A map over an array whose callback may raise. *)
Fixpoint map_raises {A B} (f : A -> Raises B) (xs : list A) : Raises (list B) :=
    match xs with
    | [] => Ok []
    | x :: rest =>
        match f x with
        | Throw e => Throw e
        | Ok y =>
            match map_raises f rest with
            | Throw e => Throw e
            | Ok ys => Ok (y :: ys)
            end
        end
    end.

Definition process_item (item : JsArg) : Raises (ProcessedItem Ext) :=
    match item with
    | ArgCall p m inner =>
        if Js.truthy p && Js.truthy m then
          match tx_call node p m (map PArg (match inner with
                                            | Some l => l
                                            | None => []
                                            end)) with
          | Ok x => Ok (ItemCall x)
          | Throw e => Throw e
          end
        else Ok (ItemRaw item)
    | _ => Ok (ItemRaw item)
    end.

Definition process_arg (arg : JsArg) : Raises (ProcessedArg Ext) :=
    match arg with
    | ArgArray items =>
        match map_raises process_item items with
        | Ok l => Ok (PArray l)
        | Throw e => Throw e
        end
    | _ => Ok (PArg arg)
    end.

  (** A write into a [Uint8Array]: ignored outside the array. *)
Fixpoint u8_write (bytes : list Z) (i : nat) (v : Z) : list Z :=
    match bytes, i with
    | [], _ => []
    | _ :: rest, 0 => v :: rest
    | b :: rest, S j => b :: u8_write rest j v
    end.

Definition sigStart : nat := 1 + 1 + 32 + 1.

Definition patch_signature (bytes : list Z) : list Z :=
    let b1 := u8_write bytes sigStart 222%Z in
    let b2 := u8_write b1 (sigStart + 1) 173%Z in
    let b3 := u8_write b2 (sigStart + 2) 190%Z in
    let b4 := u8_write b3 (sigStart + 3) 239%Z in
    fold_left (fun b i => u8_write b (sigStart + i) 205%Z) (seq 4 60) b4.

Definition hex_of_bytes (bytes : list Z) : string :=
    "0x" +++ JsText.join "" (map (fun b => JsText.padStart2 (JsText.toString16 b)) bytes).

  (** [BigInt(10 ** decimals)]: exact up to [10 ** 22]. *)
Definition pow10 (decimals : Z) : Raises Z :=
    if ((0 <=? decimals) && (decimals <=? 22))%Z then Ok (10 ^ decimals)%Z
    else inexact_pow10 node decimals.

Definition formatBalance (balance : string) (decimals : Z) : Raises string :=
    match BigInt balance with
    | Throw e => Throw e
    | Ok value =>
        match pow10 decimals with
        | Throw e => Throw e
        | Ok divisor =>
            if (divisor =? 0)%Z then Throw (Err.new_named "RangeError" "Division by zero")
            else
              let whole := Z.quot value divisor in
              let fraction := Z.rem value divisor in
              let fractionStr :=
                Js.slice (JsText.padStart0 (Js.bigint_toString fraction)
                                           (Z.to_nat decimals)) 0 6 in
              Ok (Js.bigint_toString whole +++ "." +++ fractionStr)
        end
    end.

Definition is_failed (e : WasmDecodedEvent) : bool :=
    (pallet e ==? "system") && (method e ==? "ExtrinsicFailed").

  (** Truthiness of a rendered value. *)
Definition human_truthy (h : option Human) : bool :=
    match h with
    | None | Some HNull => false
    | Some (HBool b) => b
    | Some (HString s) => Js.truthy s
    | Some (HArray _) | Some (HObject _) => true
    end.

  (** [failedEvent.data?.dispatchError || failedEvent.data?.dispatch_error] *)
Definition dispatch_error_of (failedEvent : WasmDecodedEvent) : option Human :=
    if human_truthy (field failedEvent "dispatchError")
    then field failedEvent "dispatchError"
    else field failedEvent "dispatch_error".

Definition gas_report (paymentInfo : string * Weight) (symbol : string)
    (decimals : Z) : Raises WasmGasReport :=
    match formatBalance (fst paymentInfo) decimals with
    | Throw e => Throw e
    | Ok formatted =>
        Ok {| weight := snd paymentInfo; partialFee := fst paymentInfo;
              partialFeeFormatted := formatted; nativeSymbol := symbol |}
    end.

  (** [error.message] inside a template literal. *)
Definition message_text (e : Err.ErrorValue) : Raises string :=
    match e with
    | Err.ENull => Throw (Err.new_TypeError "Cannot read properties of null (reading 'message')")
    | Err.EUndefined =>
        Throw (Err.new_TypeError "Cannot read properties of undefined (reading 'message')")
    | Err.EPrimitive _ => Ok "undefined"
    | Err.EObject o => Ok (JsValue.to_string (Err.message o))
    end.

  (** [try { await chopsticksService.reset() } catch (resetError) { throw
      new Error(`${prefix}${resetError}`) }] *)
Definition reset_or_fatal (prefix : string) : Run unit :=
    try_catch reset
      (fun resetError =>
         throw (Err.new_Error (prefix +++ Err.toString resetError))).

Definition FATAL_AFTER_FAILURE : string :=
    "FATAL: State cleanup failed after transaction failure. Reset error: ".
Definition FATAL_AFTER_SUCCESS : string :=
    "FATAL: State cleanup failed after successful transaction. Reset error: ".

  (** The steps of the [try] block from the asset metadata on, for a built
      extrinsic and its presumptive recipient. *)
Definition run_extrinsic (request : WasmSimulateRequest)
    (NATIVE_SYMBOL : string) (NATIVE_DECIMALS : Z)
    (ext : Ext) (recipient_ : option string) : Run WasmSimulateResponse :=
    let sender_ := req_sender request in
    let trackAssets_ := match trackAssets request with
                        | Some l => l
                        | None => []
                        end in
    assetMetadata <- getAssetMetadata trackAssets_ ;;
    let addressesToTrack :=
      match Err.truthy_field recipient_ with
      | Some r => [sender_; r]
      | None => [sender_]
      end in
    balancesBefore <- captureBalances addressesToTrack trackAssets_ ;;
    paymentInfo <- getPaymentInfo ext sender_ ;;
    accountInfo <- rpc (query_system_account node sender_) ;;
    bytes <- lift (ext_signFake node ext sender_ (acc_nonce accountInfo)) ;;
    let patched := patch_signature bytes in
    let fullExtrinsic := compactToU8a node (length patched) ++ patched in
    let hex := hex_of_bytes fullExtrinsic in
    submitExtrinsic hex ;;;
    newBlock ;;;
    rawEvents <- rpc (query_system_events node) ;;
    let allEventRecords := decodeWasmEvents rawEvents in
    let ourExtrinsicIndex := getLastExtrinsicIndex allEventRecords in
    let ourEvents := filterEventsByExtrinsicIndex allEventRecords ourExtrinsicIndex in
    let relevantEvents := filterRelevantEvents ourEvents in
    match find is_failed ourEvents with
    | Some failedEvent =>
        reset_or_fatal FATAL_AFTER_FAILURE ;;;
        gas_ <- lift (gas_report paymentInfo NATIVE_SYMBOL NATIVE_DECIMALS) ;;
        decoded <- lift (decodeWasmError node (dispatch_error_of failedEvent)) ;;
        ret {| success := false;
               stateChanges := emptyStateReport sender_;
               events := relevantEvents;
               gas := gas_;
               error := Some decoded |}
    | None =>
        stateChanges_ <- lift (buildStateFromEvents sender_ recipient_ ourEvents
                                 balancesBefore assetMetadata
                                 NATIVE_SYMBOL NATIVE_DECIMALS) ;;
        reset_or_fatal FATAL_AFTER_SUCCESS ;;;
        gas_ <- lift (gas_report paymentInfo NATIVE_SYMBOL NATIVE_DECIMALS) ;;
        ret {| success := true;
               stateChanges := stateChanges_;
               events := relevantEvents;
               gas := gas_;
               error := None |}
    end.

  (** The [try] block of [executeWasmSimulation]. *)
Definition simulation_body (request : WasmSimulateRequest)
    (NATIVE_SYMBOL : string) (NATIVE_DECIMALS : Z) : Run WasmSimulateResponse :=
    match extrinsic request with
    | RawHex rawHex =>
        ext <- lift (tx_from_hex node rawHex) ;;
        run_extrinsic request NATIVE_SYMBOL NATIVE_DECIMALS ext None
    | Call pallet_ method_ args =>
        if negb (tx_defined node pallet_ method_) then
          ret {| success := false;
                 stateChanges := emptyStateReport (req_sender request);
                 events := [];
                 gas := emptyGasReport NATIVE_SYMBOL;
                 error := Some {| err_type := "unknown"; err_pallet := None;
                                  err_error := None;
                                  err_message := "Unknown extrinsic: " +++ pallet_
                                                 +++ "." +++ method_;
                                  err_raw := None |} |}
        else
          processedArgs <- lift (map_raises process_arg args) ;;
          ext <- lift (tx_call node pallet_ method_ processedArgs) ;;
          run_extrinsic request NATIVE_SYMBOL NATIVE_DECIMALS ext
                        (presumptive_recipient method_ args)
    end.

  (** The [catch] block: restore, then raise the error again. *)
Definition simulation_failed {A} (error_ : Err.ErrorValue) : Run A :=
    console_write "WASM simulation error:" (Some error_) ;;;
    try_catch reset
      (fun resetError =>
         original <- lift (message_text error_) ;;
         throw (Err.new_Error
                  ("FATAL: State cleanup failed after simulation error. Original error: "
                   +++ original +++ ". Reset error: " +++ Err.toString resetError))) ;;;
    throw error_.

Definition executeWasmSimulation (request : WasmSimulateRequest)
    : Run WasmSimulateResponse :=
    reset ;;;
    getApi ;;;
    properties <- getChainProperties ;;
    let '(NATIVE_SYMBOL, NATIVE_DECIMALS) := properties in
    try_catch (simulation_body request NATIVE_SYMBOL NATIVE_DECIMALS)
              simulation_failed.

  (** [simulateWasmTransaction]: the run happens while the backend mutex is
      held and the mutex is released on every exit. *)
Definition simulateWasmTransaction (request : WasmSimulateRequest)
    : Run WasmSimulateResponse :=
    executeWasmSimulation request.

End Engine.
End Wasm.

(* ------------------------------------------------------------------ *)
(** ** Test doubles

    Concrete backends in the manner of the mocks of the repository's test
    suites; the theorems below are evaluated on them. *)
(* ------------------------------------------------------------------ *)

Module Scenario.

Definition SENDER : string := "0x742d35cc6634c0532925a3b844bc9e7595f0beb7".
Definition TOKEN : string := "0xa0b86991c6218b36c1d19d4a2e9eb0ce3606eb48".
Definition HOLDER : string := "0x00000000000000000000000000000000000000cc".
Definition PAYEE : string := "0x00000000000000000000000000000000000000dd".

(** An ethers double whose log parser reads every log as an ERC-20
    [Transfer] from [HOLDER] to [PAYEE]. *)
Definition lib : Evm.EthersLib :=
  {| Evm.getChecksumAddress := fun s => s;
     Evm.icapAddress := fun _ => false;
     Evm.abi_decode_uint256 := fun _ => None;
     Evm.abi_decode_string := fun _ => None;
     Evm.iface_parseError := fun _ _ => None;
     Evm.interface_ok := fun _ => true;
     Evm.topicHash := fun _ => None;
     Evm.iface_parseLog := fun _ _ =>
       Some {| EventDecoder.parsed_name := "Transfer";
               EventDecoder.parsed_signature := "Transfer(address,address,uint256)";
               EventDecoder.parsed_inputs :=
                 [ ("from", EventDecoder.AString HOLDER);
                   ("to", EventDecoder.AString PAYEE);
                   ("value", EventDecoder.ABigInt 1000) ] |};
     Evm.formatEther := Js.bigint_toString |}.

Definition transfer_log : EventDecoder.Log :=
  {| EventDecoder.topics :=
       ["0xddf252ad1be2c89b69c2b068fc378daa952ba7f163c4a11628f55a4df523b3ef"];
     EventDecoder.data := "0x";
     EventDecoder.address := TOKEN;
     EventDecoder.index := 0 |}.

(** A fork double. Its state counts the [evm_revert] calls; the [n]-th call
    (from 0) answers [reverts n]. Every other RPC succeeds, [anvil_reset]
    according to [reset_ok]; a sent transaction is mined with status 1 and
    the given logs. *)
Definition fork (reverts : nat -> bool) (reset_ok : bool)
  (logs_ : list EventDecoder.Log) : Evm.Fork nat unit :=
  {| Evm.rpc_getBlockNumber := fun w => (Ok 100%Z, w);
     Evm.rpc_evm_snapshot := fun w => (Ok "0x1", w);
     Evm.rpc_evm_revert := fun _ w => (Ok (reverts w), S w);
     Evm.rpc_anvil_reset := fun _ w =>
       (if reset_ok then Ok tt else Throw (Err.new_Error "Reset failed"), w);
     Evm.rpc_impersonateAccount := fun _ w => (Ok tt, w);
     Evm.rpc_stopImpersonatingAccount := fun _ w => (Ok tt, w);
     Evm.rpc_getSigner := fun _ w => (Ok tt, w);
     Evm.rpc_getBalance := fun _ w => (Ok 1000000000000000000%Z, w);
     Evm.new_Contract := fun _ => Ok tt;
     Evm.call_balanceOf := fun _ _ w => (Ok 0%Z, w);
     Evm.call_symbol := fun _ w => (Ok "USDC", w);
     Evm.call_decimals := fun _ w => (Ok 6%Z, w);
     Evm.rpc_sendTransaction := fun _ _ w => (Ok tt, w);
     Evm.tx_wait := fun _ w =>
       (Ok (Some {| Evm.logs := Some logs_; Evm.status := Some 1%Z;
                    Evm.gasUsed := 21000; Evm.gasPrice := Some 1000000000%Z |}), w);
     Evm.rpc_getFeeData := fun w => (Ok (Some 1000000000%Z), w);
     Evm.live_getFeeData := fun w => (Ok (Some 1000000000%Z), w) |}.

(** A fork double whose native balance read fails. *)
Definition fork_without_balances : Evm.Fork nat unit :=
  {| Evm.rpc_getBlockNumber := fun w => (Ok 100%Z, w);
     Evm.rpc_evm_snapshot := fun w => (Ok "0x1", w);
     Evm.rpc_evm_revert := fun _ w => (Ok true, S w);
     Evm.rpc_anvil_reset := fun _ w => (Ok tt, w);
     Evm.rpc_impersonateAccount := fun _ w => (Ok tt, w);
     Evm.rpc_stopImpersonatingAccount := fun _ w => (Ok tt, w);
     Evm.rpc_getSigner := fun _ w => (Ok tt, w);
     Evm.rpc_getBalance := fun _ w => (Throw (Err.new_Error "Balance fetch failed"), w);
     Evm.new_Contract := fun _ => Ok tt;
     Evm.call_balanceOf := fun _ _ w => (Ok 0%Z, w);
     Evm.call_symbol := fun _ w => (Ok "USDC", w);
     Evm.call_decimals := fun _ w => (Ok 6%Z, w);
     Evm.rpc_sendTransaction := fun _ _ w => (Ok tt, w);
     Evm.tx_wait := fun _ w => (Ok None, w);
     Evm.rpc_getFeeData := fun w => (Ok (Some 1000000000%Z), w);
     Evm.live_getFeeData := fun w => (Ok (Some 1000000000%Z), w) |}.

(** A connected engine state over the fork double. *)
Definition connected : Evm.State nat :=
  {| Evm.world := 0;
     Evm.anvil := {| Evm.provider := Some "http://127.0.0.1:8545";
                     Evm.anvilUrl := "http://127.0.0.1:8545";
                     Evm.forkUrl := None; Evm.forkBlockNumber := Some 100%Z |};
     Evm.tokenCache := [];
     Evm.impersonating := false |}.

(** A native transfer to the token contract address, without calldata. *)
Definition request : Evm.SimulateRequest :=
  {| Evm.sender := SENDER;
     Evm.transaction := {| Evm.to := TOKEN; Evm.data := None;
                           Evm.value := None; Evm.gasLimit := None |};
     Evm.trackTokens := None |}.

(** A node double: a chain with one [balances.Transfer] event in the block
    of the injected extrinsic, or an [ExtrinsicFailed] when [fails]; the
    native account read is [account_read]. *)
Definition node_with (fails : bool)
  (account_read : string -> unit -> Raises Wasm.AccountInfo * unit)
  : Wasm.Node unit unit :=
  {| Wasm.api_create := fun _ w => (Ok tt, w);
     Wasm.api_chain_and_header := fun w => (Ok ("Astar", "0xabc", 5%Z), w);
     Wasm.api_disconnect := fun w => (Ok tt, w);
     Wasm.rpc_system_health := fun w => (Ok tt, w);
     Wasm.rpc_system_properties := fun w => (Ok (Some ["ASTR"], Some [18%Z]), w);
     Wasm.query_system_account := account_read;
     Wasm.has_assets_account := false;
     Wasm.query_assets_account := fun _ _ w => (Ok None, w);
     Wasm.has_assets_metadata := false;
     Wasm.query_assets_metadata := fun _ w =>
       (Ok {| Wasm.human_symbol := None; Wasm.human_decimals := None;
              Wasm.codec_decimals := 18 |}, w);
     Wasm.query_system_events := fun w =>
       (Ok [ {| Wasm.raw_event :=
                  Some (if fails
                        then {| Wasm.section := "system";
                                Wasm.raw_method := "ExtrinsicFailed";
                                Wasm.raw_data := [Wasm.HObject [("BadOrigin", Wasm.HNull)]] |}
                        else {| Wasm.section := "balances";
                                Wasm.raw_method := "Transfer";
                                Wasm.raw_data :=
                                  [ Wasm.HString "5Sender"; Wasm.HString "5Recipient";
                                    Wasm.HString "1,000,000,000,000,000,000" ] |});
                Wasm.raw_phase := Wasm.ApplyExtrinsic 1 |} ], w);
     Wasm.event_field_names := fun p m =>
       if m ==? "Transfer" then ["from"; "to"; "amount"] else ["dispatchError"];
     Wasm.tx_defined := fun _ _ => true;
     Wasm.tx_from_hex := fun _ => Ok tt;
     Wasm.tx_call := fun _ _ _ => Ok tt;
     Wasm.ext_paymentInfo := fun _ _ w =>
       (Ok ("100000000000000000", Some "1000", Some "2000"), w);
     Wasm.ext_signFake := fun _ _ _ => Ok (repeat 0%Z 120);
     Wasm.raw_author_submitExtrinsic := fun _ w => (Ok "0xhash", w);
     Wasm.raw_dev_newBlock := fun w => (Ok "0xblock", w);
     Wasm.raw_dev_setHead := fun _ w => (Ok tt, w);
     Wasm.compactToU8a := fun n => [Z.of_nat n];
     Wasm.inexact_pow10 := fun _ => Throw (Err.new_named "RangeError" "not an integer");
     Wasm.decodeWasmError := fun _ =>
       Ok {| Wasm.err_type := "badOrigin"; Wasm.err_pallet := None;
             Wasm.err_error := None;
             Wasm.err_message := "Bad origin - caller not authorized for this action";
             Wasm.err_raw := None |} |}.

(** The node double with a funded account behind every address. *)
Definition node (fails : bool) : Wasm.Node unit unit :=
  node_with fails
    (fun _ w =>
       (Ok {| Wasm.acc_nonce := 0; Wasm.acc_free := "2000000000000000000";
              Wasm.acc_reserved := "0"; Wasm.acc_frozen := None |}, w)).

(** The node double with a native account read that fails. *)
Definition node_without_accounts : Wasm.Node unit unit :=
  node_with false (fun _ w => (Throw (Err.new_Error "Connection lost"), w)).

Definition wasm_connected : Wasm.State unit :=
  {| Wasm.world := tt;
     Wasm.chopsticks := {| Wasm.api := true; Wasm.provider := Some "http://localhost:8546";
                           Wasm.endpoint := "http://localhost:8546";
                           Wasm.originalBlockHash := Some "0xabc";
                           Wasm.originalBlockNumber := Some 5%Z |};
     Wasm.chainPropertiesCache := None;
     Wasm.console := [] |}.

Definition wasm_request : Wasm.WasmSimulateRequest :=
  {| Wasm.req_sender := "5Sender";
     Wasm.extrinsic := Wasm.Call "balances" "transfer"
                         [Wasm.ArgText "5Recipient"; Wasm.ArgText "1000000000000000000"];
     Wasm.trackAssets := None |}.

(** Three tracked addresses for the account-model builder: the balance of
    [0xaa] and of [0xcc] changes, that of [0xbb] does not. *)
Definition snap (n : Z) : StateImpact.BalanceSnapshot :=
  {| StateImpact.native := n; StateImpact.tokens := [] |}.
Definition before3 : list (string * StateImpact.BalanceSnapshot) :=
  [("0xaa", snap 10); ("0xbb", snap 0); ("0xcc", snap 7)].
Definition after3 : list (string * StateImpact.BalanceSnapshot) :=
  [("0xaa", snap 9); ("0xbb", snap 0); ("0xcc", snap 8)].

End Scenario.

(* ------------------------------------------------------------------ *)
(** ** Values of decimal digit sequences

    The value that a sequence of decimal digits denotes behind an
    accumulator, used to relate [BigInt.prototype.toString] and
    [BigInt(string)]. *)
(* ------------------------------------------------------------------ *)

Module Digits.

Fixpoint uint_value (acc : Z) (d : Decimal.uint) : Z :=
  match d with
  | Decimal.Nil => acc
  | Decimal.D0 l => uint_value (acc * 10 + 0) l
  | Decimal.D1 l => uint_value (acc * 10 + 1) l
  | Decimal.D2 l => uint_value (acc * 10 + 2) l
  | Decimal.D3 l => uint_value (acc * 10 + 3) l
  | Decimal.D4 l => uint_value (acc * 10 + 4) l
  | Decimal.D5 l => uint_value (acc * 10 + 5) l
  | Decimal.D6 l => uint_value (acc * 10 + 6) l
  | Decimal.D7 l => uint_value (acc * 10 + 7) l
  | Decimal.D8 l => uint_value (acc * 10 + 8) l
  | Decimal.D9 l => uint_value (acc * 10 + 9) l
  end.

End Digits.

(* ------------------------------------------------------------------ *)
(** ** What a decoded event owes to the log it was decoded from *)
(* ------------------------------------------------------------------ *)

Module EventSource.
Import EventDecoder.

(** The event [e] carries the lower-cased address and the index of [log],
    the name and signature that some interface read from [log], and the
    arguments made of the inputs that it read: each under its name, or under
    [arg] and its position when it has none, and formatted. *)
Definition stems_from
  (iface_parseLog : Interface -> Log -> option LogDescription)
  (e : DecodedEvent) (log : Log) : Prop :=
  contract e = Js.toLowerCase (address log) /\ logIndex e = index log
  /\ exists iface parsed,
       iface_parseLog iface log = Some parsed
       /\ name e = parsed_name parsed
       /\ signature e = parsed_signature parsed
       /\ args e = build_args 0 (parsed_inputs parsed) [].

End EventSource.

(* ------------------------------------------------------------------ *)
(** ** The rows of [buildAddressState], entry by entry *)
(* ------------------------------------------------------------------ *)

Module StateImpactRows.
Import StateImpact.

(** [tokenMetadata.get(tokenAddress) || {symbol: "UNKNOWN", decimals: 18}] *)
Definition metadata_of (tokenMetadata : list (string * Metadata))
  (tokenAddress : string) : Metadata :=
  match smap_get tokenMetadata tokenAddress with
  | Some m => m
  | None => ("UNKNOWN", 18%Z)
  end.

(** [new Set([...before.tokens.keys(), ...after.tokens.keys()])] *)
Definition all_tokens (bef aft : BalanceSnapshot) : list string :=
  sset_of (JsMap.keys (tokens bef) ++ JsMap.keys (tokens aft)).

(** The balance of a token in a snapshot, [0n] when the snapshot lacks it. *)
Definition token_balance (snapshot : BalanceSnapshot) (tokenAddress : string) : Z :=
  or_zero (smap_get (tokens snapshot) tokenAddress).

(** The entry that the loop pushes for one token and one snapshot. *)
Definition token_row (tokenMetadata : list (string * Metadata))
  (snapshot : BalanceSnapshot) (tokenAddress : string) : TokenBalance :=
  {| tb_token := fst (metadata_of tokenMetadata tokenAddress);
     tb_contractAddress := Some tokenAddress;
     tb_balance := Js.bigint_toString (token_balance snapshot tokenAddress);
     tb_decimals := snd (metadata_of tokenMetadata tokenAddress);
     tb_symbol := fst (metadata_of tokenMetadata tokenAddress) |}.

(** The change that the loop pushes for one token: none for a zero delta. *)
Definition token_change (tokenMetadata : list (string * Metadata))
  (bef aft : BalanceSnapshot) (tokenAddress : string) : list TokenBalanceChange :=
  let beforeBal := token_balance bef tokenAddress in
  let afterBal := token_balance aft tokenAddress in
  if (afterBal - beforeBal =? 0)%Z then []
  else [ {| ch_token := fst (metadata_of tokenMetadata tokenAddress);
            ch_contractAddress := Some tokenAddress;
            ch_before := Js.bigint_toString beforeBal;
            ch_after := Js.bigint_toString afterBal;
            ch_delta := Js.bigint_toString (afterBal - beforeBal);
            ch_decimals := snd (metadata_of tokenMetadata tokenAddress);
            ch_symbol := fst (metadata_of tokenMetadata tokenAddress) |} ].

Definition native_row (nativeSymbol : string) (snapshot : BalanceSnapshot)
  : TokenBalance :=
  {| tb_token := nativeSymbol; tb_contractAddress := None;
     tb_balance := Js.bigint_toString (native snapshot);
     tb_decimals := 18; tb_symbol := nativeSymbol |}.

Definition native_change (nativeSymbol : string) (bef aft : BalanceSnapshot)
  : list TokenBalanceChange :=
  if (native aft - native bef =? 0)%Z then []
  else [ {| ch_token := nativeSymbol; ch_contractAddress := None;
            ch_before := Js.bigint_toString (native bef);
            ch_after := Js.bigint_toString (native aft);
            ch_delta := Js.bigint_toString (native aft - native bef);
            ch_decimals := 18; ch_symbol := nativeSymbol |} ].

(** What a change entry says, in numbers: its three strings read as the
    balance [b] before, the balance [a] after and their difference, which
    is not zero. *)
Definition change_of (c : TokenBalanceChange) (b a : Z) : Prop :=
  a <> b
  /\ BigInt (ch_before c) = Ok b /\ BigInt (ch_after c) = Ok a
  /\ BigInt (ch_delta c) = Ok (a - b)%Z.

End StateImpactRows.

(* ------------------------------------------------------------------ *)
(** ** The runtime-module fork client: what its fields say together *)
(* ------------------------------------------------------------------ *)

Module ChopsticksInv.

(** A stored fork point was read through an API object: [originalBlockHash]
    is only set by [connect], behind [this.api], and cleared with it. *)
Definition fork_point_behind_api (c : Wasm.ChopsticksService) : Prop :=
  Wasm.originalBlockHash c <> None -> Wasm.api c = true.

End ChopsticksInv.

(* ------------------------------------------------------------------ *)
(** ** The address-expansion loop of the account-model engine *)
(* ------------------------------------------------------------------ *)

Module Discovery.

(** A side of a Transfer event among [events_] names the address [a]. *)
Definition names (events_ : list EventDecoder.DecodedEvent) (a : string) : Prop :=
  exists ev side v,
    In ev events_ /\ EventDecoder.name ev = "Transfer"
    /\ (side = "from" \/ side = "to")
    /\ smap_get (EventDecoder.args ev) side = Some v /\ v <> ""
    /\ a = Js.toLowerCase v.

(** What holds of the set of new addresses once the loop has seen the
    events [seen]. *)
Definition sound (tracked : list string)
  (seen : list EventDecoder.DecodedEvent) (new : list string) : Prop :=
  NoDup new
  /\ (forall a, In a new -> ~ In a tracked /\ names seen a)
  /\ (forall a, names seen a -> In a tracked \/ In a new).

End Discovery.

(* ------------------------------------------------------------------ *)
(** ** Where a response of the runtime-module engine comes from *)
(* ------------------------------------------------------------------ *)

Module WasmOrigin.

(** A response is either a failure with the empty report of the sender, or
    a success whose report the builder made, for the given presumptive
    recipient, of events without a [system.ExtrinsicFailed]. *)
Definition origin (request : Wasm.WasmSimulateRequest) (recipient_ : option string)
  (r : Wasm.WasmSimulateResponse) : Prop :=
  (Wasm.success r = false
   /\ Wasm.stateChanges r = Wasm.emptyStateReport (Wasm.req_sender request))
  \/ (Wasm.success r = true
      /\ exists events balancesBefore assetMetadata sym dec,
           Wasm.buildStateFromEvents (Wasm.req_sender request) recipient_ events
             balancesBefore assetMetadata sym dec
           = Ok (Wasm.stateChanges r)
           /\ find Wasm.is_failed events = None).

(** The presumptive recipient of a request: none for a raw extrinsic. *)
Definition recipient_of (request : Wasm.WasmSimulateRequest) : option string :=
  match Wasm.extrinsic request with
  | Wasm.RawHex _ => None
  | Wasm.Call _ method_ args => Wasm.presumptive_recipient method_ args
  end.

(** Where the report of a response comes from. A failure carries the
    empty report. For a success, the builder made the report for the
    sender and the presumptive recipient [recipient_], of the events of the
    injected extrinsic among those that the node reported for the new block,
    and of the snapshot that the snapshotter took of the sender and of the
    recipient, if there is one. *)
Definition built_from {W Ext} (node : Wasm.Node W Ext) (request : Wasm.WasmSimulateRequest)
  (recipient_ : option string) (r : Wasm.WasmSimulateResponse) : Prop :=
  (Wasm.success r = false
   -> Wasm.stateChanges r = Wasm.emptyStateReport (Wasm.req_sender request))
  /\ (Wasm.success r = true ->
      exists rawEvents balancesBefore assetMetadata sym dec,
        (exists w w', Wasm.query_system_events node w = (Ok rawEvents, w'))
        /\ (exists t t',
              Wasm.captureBalances node
                (Wasm.req_sender request :: match Err.truthy_field recipient_ with
                                       | Some r => [r]
                                       | None => []
                                       end)
                match Wasm.trackAssets request with Some l => l | None => [] end t
              = (Ok balancesBefore, t'))
        /\ Wasm.buildStateFromEvents (Wasm.req_sender request) recipient_
             (Wasm.spec_injected (Wasm.decodeWasmEvents node rawEvents))
             balancesBefore assetMetadata sym dec
           = Ok (Wasm.stateChanges r)).

(** The state after [console.error(msg, e)]. *)
Definition logged {W} (s : Wasm.State W) (msg : string) (e : Err.ErrorValue)
  : Wasm.State W :=
  {| Wasm.world := Wasm.world s; Wasm.chopsticks := Wasm.chopsticks s;
     Wasm.chainPropertiesCache := Wasm.chainPropertiesCache s;
     Wasm.console := Wasm.console s ++ [(msg, Some e)] |}.

End WasmOrigin.

(* ------------------------------------------------------------------ *)
(** ** The hex form of one byte *)
(* ------------------------------------------------------------------ *)

Module HexBytes.

(** [b.toString(16).padStart(2, "0")] *)
Definition hex2 (b : Z) : string := JsText.padStart2 (JsText.toString16 b).

End HexBytes.

(* ------------------------------------------------------------------ *)
(** ** The HTTP routes (routes/unified-simulate.ts, index.ts)

    A request body is what [express.json()] parsed: an untyped value, which
    the handlers validate in part; the engines are handed the body as it
    is, so they are parameters of the handlers. *)
(* ------------------------------------------------------------------ *)

Module Route.
Import Async JsValue.

(** [k in v]: a [TypeError] unless [v] is an object (or an array, which
    has none of the names that the routes ask for). *)
Definition in_operator (k : string) (v : value) : Raises bool :=
  match v with
  | VObject _ | VArray _ => Ok (has_key v k)
  | _ => Throw (Err.new_TypeError
                  ("Cannot use 'in' operator to search for '" +++ k +++ "' in "
                   +++ to_string v))
  end.

(** [k in req && req.k !== undefined] *)
Definition names (k : string) (req : value) : Raises bool :=
  match in_operator k req with
  | Throw e => Throw e
  | Ok present =>
      Ok (present && match field req k with
                     | VUndefined => false
                     | _ => true
                     end)
  end.

(** types/unified-types.ts *)
Definition isEvmRequest (req : value) : Raises bool := names "transaction" req.
Definition isWasmRequest (req : value) : Raises bool := names "extrinsic" req.

(** [for (const token of v)]: the items of an array, the characters of a
    string; any other truthy value is not iterable. *)
Definition iterate (what : string) (v : value) : Raises (list value) :=
  match v with
  | VArray items => Ok items
  | VString s =>
      Ok (map (fun c => VString (String c EmptyString)) (list_ascii_of_string s))
  | _ => Throw (Err.new_TypeError (what +++ " is not iterable"))
  end.

(** What the handlers send with [res.json]: the result of an engine, the
    refusal of the account-model handler ([{success: false, balanceChanges:
    [], gasUsed: "0", error: {message}}]) or a refusal with a type
    ([{success: false, error: {type, message}}]). *)
Inductive Payload : Type :=
| EvmResult (r : Evm.SimulateResponse)
| WasmResult (r : Wasm.WasmSimulateResponse)
| EvmRefusal (message : string)
| Refusal (type : string) (message : value).

Record HttpResponse : Type := {
  status : Z;
  payload : Payload
}.

(** The two backends and what the handlers wrote with [console.error]. *)
Record Served (S1 S2 : Type) : Type := {
  evm : S1;
  wasm : S2;
  console : list (string * Err.ErrorValue)
}.
Arguments evm {S1 S2}.
Arguments wasm {S1 S2}.
Arguments console {S1 S2}.

Section Handlers.
  Context {S1 S2 : Type}.
  (** [isAddress] of ethers, on strings; whether [decodeAddress] of
      @polkadot/util-crypto returns; the two engines. *)
  Variable isAddress : string -> bool.
  Variable decodeAddress_ok : value -> bool.
  Variable simulateTransaction : value -> @M S1 Evm.SimulateResponse.
  Variable simulateWasmTransaction : value -> @M S2 Wasm.WasmSimulateResponse.

Definition Handler (A : Type) : Type := @M (Served S1 S2) A.

(** A run of the account-model engine, of the runtime-module engine. *)
Definition on_evm {A} (m : @M S1 A) : Handler A :=
    fun s =>
      match m (evm s) with
      | (r, e') => (r, {| evm := e'; wasm := wasm s; console := console s |})
      end.

Definition on_wasm {A} (m : @M S2 A) : Handler A :=
    fun s =>
      match m (wasm s) with
      | (r, w') => (r, {| evm := evm s; wasm := w'; console := console s |})
      end.

Definition console_error (msg : string) (e : Err.ErrorValue) : Handler unit :=
    modify (fun s => {| evm := evm s; wasm := wasm s;
                        console := console s ++ [(msg, e)] |}).

Definition send (code : Z) (p : Payload) : Handler HttpResponse :=
    ret {| status := code; payload := p |}.

(** [isAddress(value: any)]: [getAddress] refuses whatever is not a
    string. *)
Definition isAddress_of (v : value) : bool :=
    match v with
    | VString s => isAddress s
    | _ => false
    end.

(** [error.message || "Internal simulation error"] *)
Definition fatal_message (error : Err.ErrorValue) : Raises value :=
    match error with
    | Err.ENull =>
        Throw (Err.new_TypeError "Cannot read properties of null (reading 'message')")
    | Err.EUndefined =>
        Throw (Err.new_TypeError "Cannot read properties of undefined (reading 'message')")
    | Err.EPrimitive _ => Ok (VString "Internal simulation error")
    | Err.EObject o =>
        Ok (if truthy (Err.message o) then Err.message o
            else VString "Internal simulation error")
    end.

(** The [catch] block of both handlers. *)
Definition fatal (label : string) (error : Err.ErrorValue) : Handler HttpResponse :=
    console_error label error ;;;
    m <- lift (fatal_message error) ;;
    send 500 (Refusal "fatal" m).

(** [body.transaction?.to] *)
Definition transaction_to (body : value) : value :=
    field (field body "transaction") "to".

(** The loop over [body.trackTokens], when it is truthy: the first token
    that [isAddress] refuses, if any. *)
Definition refused_token (body : value) : Raises (option value) :=
    if truthy (field body "trackTokens") then
      match iterate "body.trackTokens" (field body "trackTokens") with
      | Throw e => Throw e
      | Ok tokens => Ok (find (fun token => negb (isAddress_of token)) tokens)
      end
    else Ok None.

Definition handleEvmSimulation (body : value) : Handler HttpResponse :=
    if negb (truthy (field body "sender")) || negb (truthy (transaction_to body)) then
      send 400 (EvmRefusal "Missing required fields: sender, transaction.to")
    else if negb (isAddress_of (field body "sender")) then
      send 400 (EvmRefusal "Invalid sender address")
    else if negb (isAddress_of (transaction_to body)) then
      send 400 (EvmRefusal "Invalid transaction.to address")
    else
      refused <- lift (refused_token body) ;;
      match refused with
      | Some token =>
          send 400 (EvmRefusal ("Invalid token address: " +++ to_string token))
      | None =>
          try_catch
            (result <- on_evm (simulateTransaction body) ;;
             if negb (Evm.success result) then send 422 (EvmResult result)
             else send 200 (EvmResult result))
            (fatal "EVM simulation fatal error:")
      end.

Definition handleWasmSimulation (body : value) : Handler HttpResponse :=
    if negb (truthy (field body "sender")) then
      send 400 (Refusal "unknown" (VString "Missing required field: sender"))
    else if negb (decodeAddress_ok (field body "sender")) then
      send 400 (Refusal "unknown" (VString "Invalid sender address"))
    else if negb (truthy (field body "extrinsic")) then
      send 400 (Refusal "unknown" (VString "Missing required field: extrinsic"))
    else
      hasPallet <- lift (in_operator "pallet" (field body "extrinsic")) ;;
      hasMethod <- (if hasPallet
                    then lift (in_operator "method" (field body "extrinsic"))
                    else ret false) ;;
      let hasCallParams := hasPallet && hasMethod in
      hasRawHex <- lift (in_operator "rawHex" (field body "extrinsic")) ;;
      if negb hasCallParams && negb hasRawHex then
        send 400 (Refusal "unknown"
                    (VString "Extrinsic must have either (pallet, method, args) or rawHex"))
      else
        try_catch
          (result <- on_wasm (simulateWasmTransaction body) ;;
           if negb (Wasm.success result) then send 422 (WasmResult result)
           else send 200 (WasmResult result))
          (fatal "WASM simulation fatal error:").

Definition quoted (s : string) : string :=
    JsText.quote_str +++ s +++ JsText.quote_str.

(** [router.post("/", ...)] *)
Definition post_simulate (body : value) : Handler HttpResponse :=
    isEvm <- lift (isEvmRequest body) ;;
    isWasm <- lift (isWasmRequest body) ;;
    if negb isEvm && negb isWasm then
      send 400 (Refusal "unknown"
                  (VString ("Request must contain either " +++ quoted "transaction"
                            +++ " (EVM) or " +++ quoted "extrinsic"
                            +++ " (WASM) field")))
    else if isEvm && isWasm then
      send 400 (Refusal "unknown"
                  (VString ("Request cannot contain both " +++ quoted "transaction"
                            +++ " and " +++ quoted "extrinsic" +++ " fields")))
    else if isEvm then handleEvmSimulation body
    else handleWasmSimulation body.

(** What a handler did to come to the answer [response], from the state
    [s] to the state [s']: a result is what the engine returned on [s], sent
    with 200 when it reports a success and with 422 otherwise; a refusal
    with status 400 left the state as it was; a refusal with status 500
    follows an exception of the engine, which was logged. *)
Definition answered (body : value) (s : Served S1 S2) (response : HttpResponse)
    (s' : Served S1 S2) : Prop :=
    match payload response with
    | EvmResult r =>
        status response = (if Evm.success r then 200 else 422)%Z
        /\ on_evm (simulateTransaction body) s = (Ok r, s')
    | WasmResult r =>
        status response = (if Wasm.success r then 200 else 422)%Z
        /\ on_wasm (simulateWasmTransaction body) s = (Ok r, s')
    | EvmRefusal _ => status response = 400%Z /\ s' = s
    | Refusal type _ =>
        (status response = 400%Z /\ type = "unknown" /\ s' = s)
        \/ (status response = 500%Z /\ type = "fatal"
            /\ exists e t,
                 (on_evm (simulateTransaction body) s = (Throw e, t)
                  \/ on_wasm (simulateWasmTransaction body) s = (Throw e, t))
                 /\ evm s' = evm t /\ wasm s' = wasm t
                 /\ exists label, console s' = console t ++ [(label, e)])
    end.

(** The bodies that make a handler raise before it runs an engine: the
    body itself, or its truthy [extrinsic], is not an object, so that [in]
    raises; or its truthy [trackTokens] is not iterable. *)
Definition ill_formed (body : value) : Prop :=
    returns (isEvmRequest body) = false
    \/ (isEvmRequest body = Ok true /\ isWasmRequest body = Ok false
        /\ returns (refused_token body) = false)
    \/ (isEvmRequest body = Ok false /\ isWasmRequest body = Ok true
        /\ returns (in_operator "pallet" (field body "extrinsic")) = false).

End Handlers.

(** [GET /health] of index.ts. *)
Record Health : Type := {
  health_status : string;
  evm_status : string;
  evm_chain : string;
  wasm_status : string;
  wasm_chain : string
}.

(** The two probes are awaited together with [Promise.all]; each works on
    its own service object and turns what it raises into [false], so the
    order in which they are run here is immaterial. *)
Definition get_health {S1 S2 : Type}
  (anvil_isConnected : @M S1 bool) (chopsticks_isConnected : @M S2 bool)
  : Handler (S1 := S1) (S2 := S2) Health :=
  anvilConnected <- on_evm anvil_isConnected ;;
  chopsticksConnected <- on_wasm chopsticks_isConnected ;;
  ret {| health_status := if anvilConnected && chopsticksConnected
                          then "ok" else "degraded";
         evm_status := if anvilConnected then "connected" else "disconnected";
         evm_chain := "Moonbeam";
         wasm_status := if chopsticksConnected then "connected" else "disconnected";
         wasm_chain := "Astar" |}.

(** The request of the account-model engine in a body whose fields are
    those of [SimulateRequest]. *)
Definition optional_string (v : value) : option string :=
  match v with
  | VString s => Some s
  | _ => None
  end.

Fixpoint strings (items : list value) : option (list string) :=
  match items with
  | [] => Some []
  | VString s :: rest => option_map (cons s) (strings rest)
  | _ :: _ => None
  end.

Definition evm_request (body : value) : option Evm.SimulateRequest :=
  match field body "sender", transaction_to body with
  | VString sender_, VString to_ =>
      let t := field body "transaction" in
      Some {| Evm.sender := sender_;
              Evm.transaction :=
                {| Evm.to := to_; Evm.data := optional_string (field t "data");
                   Evm.value := optional_string (field t "value");
                   Evm.gasLimit := optional_string (field t "gasLimit") |};
              Evm.trackTokens := match field body "trackTokens" with
                                 | VArray items => strings items
                                 | _ => None
                                 end |}
  | _, _ => None
  end.

End Route.

(* ================================================================== *)
(** * Part II. Properties of the embedded code *)
(* ================================================================== *)

(* ------------------------------------------------------------------ *)
(** * Reasoning about runs: what holds of a returned value *)
(* ------------------------------------------------------------------ *)

Module AsyncFacts.
Import Async.

Section Post.
  Context {S : Type}.
  Notation post m Q := (@Async.post S _ m Q).
  Notation total m := (@Async.total S _ m).

Lemma post_ret {A} (a : A) (Q : A -> Prop) : Q a -> post (ret a) Q.
  Proof. intros H s a' s' [= <- _]. exact H. Qed.

Lemma post_throw {A} e (Q : A -> Prop) : post (throw e) Q.
  Proof. intros s a s' [=]. Qed.

Lemma post_bind {A B} (m : M A) (k : A -> M B) (Q : B -> Prop) :
    (forall a, post (k a) Q) -> post (bind m k) Q.
  Proof.
    intros H s b s'. unfold bind.
    destruct (m s) as [[a|e] s1]; [apply H|discriminate].
  Qed.

  (** The same, keeping what is known of the value of [m]. *)
Lemma post_bind_with {A B} (m : M A) (k : A -> M B) (P : A -> Prop)
    (Q : B -> Prop) :
    post m P -> (forall a, P a -> post (k a) Q) -> post (bind m k) Q.
  Proof.
    intros Hm H s b s'. unfold bind.
    destruct (m s) as [[a|e] s1] eqn:E; [|discriminate].
    apply H. eapply Hm; eauto.
  Qed.

Lemma post_lift {A} (r : Raises A) (Q : A -> Prop) :
    (forall a, r = Ok a -> Q a) -> post (lift r) Q.
  Proof. intros H s a s' [= -> _]. apply H. reflexivity. Qed.

Lemma post_try_catch {A} (m : M A) h (Q : A -> Prop) :
    post m Q -> (forall e, post (h e) Q) -> post (try_catch m h) Q.
  Proof.
    intros Hm Hh s a s'. unfold try_catch.
    destruct (m s) as [[a1|e] s1] eqn:E.
    - intros [= <- <-]. eapply Hm; eauto.
    - apply Hh.
  Qed.

Lemma post_try_finally {A} (m : M A) f (Q : A -> Prop) :
    post m Q -> post (try_finally m f) Q.
  Proof.
    intros Hm s a s'. unfold try_finally.
    destruct (m s) as [r s1] eqn:E.
    destruct (f s1) as [[u|e] s2]; [|discriminate].
    intros [= -> <-]. eapply Hm; eauto.
  Qed.

Lemma total_ret {A} (a : A) : total (ret a).
  Proof. intros s. exists a, s. reflexivity. Qed.

Lemma total_gets {A} (f : S -> A) : total (gets f).
  Proof. intros s. exists (f s), s. reflexivity. Qed.

Lemma total_modify (f : S -> S) : total (modify f).
  Proof. intros s. exists tt, (f s). reflexivity. Qed.

Lemma total_bind {A B} (m : M A) (k : A -> M B) :
    total m -> (forall a, total (k a)) -> total (bind m k).
  Proof.
    intros Hm Hk s. destruct (Hm s) as (a & s1 & E).
    destruct (Hk a s1) as (b & s2 & E2).
    exists b, s2. unfold bind. rewrite E. exact E2.
  Qed.

Lemma total_try_catch {A} (m : M A) h :
    (forall e, total (h e)) -> total (try_catch m h).
  Proof.
    intros Hh s. unfold try_catch.
    destruct (m s) as [[a|e] s1].
    - exists a, s1. reflexivity.
    - apply Hh.
  Qed.

Lemma total_for_each {A X} (body : A -> X -> M A) (xs : list X) :
    (forall acc x, total (body acc x)) -> forall acc, total (for_each xs acc body).
  Proof.
    intros Hb. induction xs as [|x xs IH]; intros acc; simpl.
    - apply total_ret.
    - apply total_bind; [apply Hb|exact IH].
  Qed.

End Post.
End AsyncFacts.

Module AsyncEnsures.
Import Async AsyncFacts.

Section Ensures.
  Context {S : Type}.
  Notation post m Q := (@Async.post S _ m Q).
  Notation total m := (@Async.total S _ m).
  Notation ensures m Q := (@Async.ensures S _ m Q).

Lemma ensures_of_total_post {A} (m : M A) (Q : A -> Prop) :
    total m -> post m Q -> ensures m Q.
  Proof.
    intros Ht Hp s. destruct (Ht s) as (a & s' & E).
    exists a, s'. split; [exact E|]. eapply Hp; eauto.
  Qed.

Lemma ensures_weaken {A} (m : M A) (P Q : A -> Prop) :
    ensures m P -> (forall a, P a -> Q a) -> ensures m Q.
  Proof.
    intros Hm HPQ s. destruct (Hm s) as (a & s' & E & HP).
    exists a, s'. auto.
  Qed.

Lemma ensures_for_each {A X} (body : A -> X -> M A) (I : list X -> A -> Prop) :
    (forall done acc x, I done acc ->
       ensures (body acc x) (fun acc' => I (done ++ [x]) acc')) ->
    forall xs done acc, I done acc ->
      ensures (for_each xs acc body) (fun acc' => I (done ++ xs) acc').
  Proof.
    intros Hb. induction xs as [|x xs IH]; intros done acc HI s; simpl.
    - exists acc, s. rewrite app_nil_r. auto.
    - destruct (Hb done acc x HI s) as (acc1 & s1 & E1 & HI1).
      destruct (IH (done ++ [x]) acc1 HI1 s1) as (acc2 & s2 & E2 & HI2).
      exists acc2, s2. unfold bind. rewrite E1.
      rewrite <- app_assoc in HI2. auto.
  Qed.

End Ensures.
End AsyncEnsures.

(* ------------------------------------------------------------------ *)
(** * Calldata recipient extraction *)
(* ------------------------------------------------------------------ *)

Section RecipientExtraction.
  Variable ck : string -> string.
  Variable icap : string -> bool.

Lemma recipient_at_Some selector data wanted lo hi r :
    recipient_at ck icap selector data wanted lo hi = Some r <->
    selector = wanted /\ hi <= String.length data /\
    r = "0x" +++ Js.slice data lo hi /\ isAddress ck icap r = true.
  Proof.
    unfold recipient_at.
    destruct (selector ==? wanted) eqn:Hsel; cbn [andb].
    - apply String.eqb_eq in Hsel.
      destruct (hi <=? String.length data) eqn:Hlen.
      + apply Nat.leb_le in Hlen.
        destruct (isAddress ck icap ("0x" +++ Js.slice data lo hi)) eqn:Ha.
        * split.
          -- intros [= <-]. auto.
          -- intros (_ & _ & -> & _). reflexivity.
        * split; [discriminate|].
          intros (_ & _ & -> & H). congruence.
      + apply Nat.leb_gt in Hlen.
        split; [discriminate|]. intros (_ & H & _). lia.
    - apply String.eqb_neq in Hsel.
      split; [discriminate|]. intros (H & _). contradiction.
  Qed.

Lemma too_short_for_a_word d :
    negb (Js.truthy d) || (String.length d <? 10) = true -> String.length d < 74.
  Proof.
    intros H. apply orb_true_iff in H. destruct H as [Ht|Hl].
    - unfold Js.truthy in Ht. rewrite negb_involutive in Ht.
      apply String.eqb_eq in Ht. subst d. simpl. lia.
    - apply Nat.ltb_lt in Hl. lia.
  Qed.

  (** The two guarded blocks, read together. *)
Lemma extract_Some_iff (data : option string) (r : string) :
    extractTransferRecipient ck icap data = Some r <->
    exists d, data = Some d /\
      ((Js.toLowerCase (Js.slice d 0 10) = TRANSFER_SELECTOR
        /\ 74 <= String.length d
        /\ r = "0x" +++ Js.slice d 34 74 /\ isAddress ck icap r = true)
       \/
       (Js.toLowerCase (Js.slice d 0 10) = TRANSFER_FROM_SELECTOR
        /\ 138 <= String.length d
        /\ r = "0x" +++ Js.slice d 98 138 /\ isAddress ck icap r = true)).
  Proof.
    unfold extractTransferRecipient.
    destruct data as [d|].
    2:{ split; [discriminate|]. intros (d & [=] & _). }
    destruct (negb (Js.truthy d) || (String.length d <? 10)) eqn:Hshort.
    - apply too_short_for_a_word in Hshort.
      split; [discriminate|].
      intros (d' & [= <-] & [(_ & H & _)|(_ & H & _)]); lia.
    - destruct (recipient_at ck icap _ d TRANSFER_SELECTOR 34 74) as [r1|] eqn:H1.
      + apply recipient_at_Some in H1. destruct H1 as (Hs & Hl & Hr & Ha).
        split.
        * intros [= <-]. exists d. split; [reflexivity|]. left. auto.
        * intros (d' & [= <-] & [(_ & _ & Hr' & _)|(Hs' & _)]).
          -- congruence.
          -- rewrite Hs in Hs'. discriminate.
      + split.
        * intros H2. apply recipient_at_Some in H2.
          exists d. split; [reflexivity|]. right. exact H2.
        * intros (d' & [= <-] & [H|H]).
          -- apply recipient_at_Some in H. congruence.
          -- apply recipient_at_Some. exact H.
  Qed.

End RecipientExtraction.

(** C2 (as amended). [extractTransferRecipient] returns the recipient [r]
    exactly when the data starts (case-insensitively) with the selector of
    [transfer(address,uint256)], is at least 74 characters long (the [0x],
    the selector and one 32-byte word, that is a payload of 64 hex
    characters) and [r] is [0x] followed by characters 34..73 (the low 20
    bytes of bytes 4..35), accepted by [isAddress]; or when it starts with
    the selector of [transferFrom(address,address,uint256)], is at least 138
    characters long (a payload of two words) and [r] is [0x] followed by
    characters 98..137 (the low 20 bytes of bytes 36..67), accepted by
    [isAddress]. Every other input, absent and empty data included, gives
    no recipient. *)
Theorem extractTransferRecipient_spec :
  forall (ck : string -> string) (icap : string -> bool)
         (data : option string) (r : string),
    extractTransferRecipient ck icap data = Some r <->
    exists d, data = Some d /\
      ((Js.toLowerCase (Js.slice d 0 10) = TRANSFER_SELECTOR
        /\ 74 <= String.length d
        /\ r = "0x" +++ Js.slice d 34 74 /\ isAddress ck icap r = true)
       \/
       (Js.toLowerCase (Js.slice d 0 10) = TRANSFER_FROM_SELECTOR
        /\ 138 <= String.length d
        /\ r = "0x" +++ Js.slice d 98 138 /\ isAddress ck icap r = true)).
Proof.
  intros ck icap data r. apply extract_Some_iff.
Qed.

(** C2, counterexample to the thresholds of the claim. A [transfer] calldata
    with a payload of one word (32 bytes, 64 hex characters) is below the 64
    bytes, and below the 68 hex characters, that the claim demands; the
    specification's rule gives no recipient, the code extracts one. *)
Lemma extractTransferRecipient_payload_counterexample :
  let data := "0xa9059cbb0000000000000000000000001111111111111111111111111111111111111111" in
  payload_bytes data = 32 /\
  String.length data - 10 = 64 /\
  (forall ck icap, spec_extractTransferRecipient ck icap (Some data) = None) /\
  (forall ck icap, extractTransferRecipient ck icap (Some data)
                   = Some "0x1111111111111111111111111111111111111111").
Proof.
  repeat split; intros; vm_compute; reflexivity.
Qed.

(* ------------------------------------------------------------------ *)
(** * Account-model event decoder: ordering of the decoded events *)
(* ------------------------------------------------------------------ *)

Module EventOrder.
Import EventDecoder.

Lemma insert_sorted_perm e l : Permutation (e :: l) (insert_sorted e l).
Proof.
  induction l as [|x l IH]; simpl.
  - reflexivity.
  - destruct (logIndex x <=? logIndex e)%Z.
    + rewrite perm_swap. constructor. exact IH.
    + reflexivity.
Qed.

Lemma insert_sorted_In e x l : In x (insert_sorted e l) -> x = e \/ In x l.
Proof.
  intros H. apply (Permutation_in _ (Permutation_sym (insert_sorted_perm e l))) in H.
  destruct H; auto.
Qed.

Lemma insert_sorted_keeps_order e l :
  StronglySorted by_index l -> StronglySorted by_index (insert_sorted e l).
Proof.
  induction 1 as [|x l Hs IH Hall]; simpl.
  - repeat constructor.
  - destruct (logIndex x <=? logIndex e)%Z eqn:Hle.
    + apply Z.leb_le in Hle. constructor; [exact IH|].
      apply Forall_forall. intros y Hy.
      apply insert_sorted_In in Hy. destruct Hy as [->|Hy].
      * exact Hle.
      * rewrite Forall_forall in Hall. apply Hall. exact Hy.
    + apply Z.leb_gt in Hle. constructor.
      * constructor; assumption.
      * constructor.
        -- unfold by_index. lia.
        -- rewrite Forall_forall in Hall |- *. intros y Hy.
           specialize (Hall y Hy). unfold by_index in *. lia.
Qed.

Lemma fold_insert_sorted l : forall acc,
  StronglySorted by_index acc ->
  StronglySorted by_index (fold_left (fun sorted e => insert_sorted e sorted) l acc).
Proof.
  induction l as [|e l IH]; simpl; intros acc Hacc.
  - exact Hacc.
  - apply IH. apply insert_sorted_keeps_order. exact Hacc.
Qed.

Lemma fold_insert_perm l : forall acc,
  Permutation (fold_left (fun sorted e => insert_sorted e sorted) l acc) (acc ++ l).
Proof.
  induction l as [|e l IH]; simpl; intros acc.
  - rewrite app_nil_r. reflexivity.
  - rewrite IH. rewrite <- insert_sorted_perm.
    change (e :: acc ++ l) with ((e :: acc) ++ l).
    rewrite (Permutation_middle acc l e). reflexivity.
Qed.

Lemma sort_by_logIndex_sorted l : StronglySorted by_index (sort_by_logIndex l).
Proof. apply fold_insert_sorted. constructor. Qed.

Lemma sort_by_logIndex_perm l : Permutation (sort_by_logIndex l) l.
Proof. unfold sort_by_logIndex. rewrite fold_insert_perm. reflexivity. Qed.

(** An ascending list without repeated keys is strictly ascending. *)
Lemma ascending_nodup_strict (l : list DecodedEvent) :
  StronglySorted by_index l -> NoDup (map logIndex l) ->
  StronglySorted Z.lt (map logIndex l).
Proof.
  induction 1 as [|x l Hs IH Hall]; simpl; intros Hnd.
  - constructor.
  - inversion Hnd as [|? ? Hnotin Hnd']; subst.
    constructor; [apply IH; exact Hnd'|].
    apply Forall_forall. intros i Hi.
    apply in_map_iff in Hi. destruct Hi as (y & <- & Hy).
    rewrite Forall_forall in Hall. specialize (Hall y Hy). unfold by_index in Hall.
    assert (logIndex x <> logIndex y).
    { intros Heq. apply Hnotin. rewrite Heq. apply in_map. exact Hy. }
    lia.
Qed.

Lemma ascending_map (l : list DecodedEvent) :
  StronglySorted by_index l -> StronglySorted Z.le (map logIndex l).
Proof.
  induction 1 as [|x l Hs IH Hall]; simpl; constructor; auto.
  apply Forall_forall. intros i Hi.
  apply in_map_iff in Hi. destruct Hi as (y & <- & Hy).
  rewrite Forall_forall in Hall. exact (Hall y Hy).
Qed.

Section Decoded.
  Variable interface_ok : Interface -> bool.
  Variable topicHash : Interface -> option string.
  Variable iface_parseLog : Interface -> Log -> option LogDescription.

  Notation tryDecode := (tryDecodeWithInterface iface_parseLog).
  Notation decodeLog := (decodeLog interface_ok topicHash iface_parseLog).
  Notation decode_each := (decode_each interface_ok topicHash iface_parseLog).
  Notation decode_each_with :=
    (decode_each_with interface_ok topicHash iface_parseLog).

Lemma tryDecode_index log iface e :
    tryDecode log iface = Some e -> logIndex e = index log.
  Proof.
    unfold tryDecodeWithInterface.
    destruct (iface_parseLog iface log); [|discriminate].
    intros [= <-]. reflexivity.
  Qed.

Lemma try_all_index log ifaces e :
    try_all iface_parseLog log ifaces = Some e -> logIndex e = index log.
  Proof.
    induction ifaces as [|i ifaces IH]; simpl; [discriminate|].
    destruct (tryDecode log i) eqn:H.
    - intros [= <-]. eapply tryDecode_index; eauto.
    - exact IH.
  Qed.

Lemma decodeLog_index log e :
    decodeLog log = Some e -> logIndex e = index log.
  Proof.
    unfold EventDecoder.decodeLog.
    destruct (topics log); [discriminate|].
    destruct (smap_get _ _) as [known|].
    - destruct (tryDecode log known) eqn:H.
      + intros [= <-]. eapply tryDecode_index; eauto.
      + apply try_all_index.
    - apply try_all_index.
  Qed.

Lemma decode_each_indices logs i :
    In i (map logIndex (decode_each logs)) -> In i (map index logs).
  Proof.
    induction logs as [|log logs IH]; simpl; [tauto|].
    destruct (decodeLog log) eqn:H; simpl.
    - intros [<-|Hi].
      + left. symmetry. apply decodeLog_index. exact H.
      + right. auto.
    - auto.
  Qed.

Lemma decode_each_nodup logs :
    NoDup (map index logs) -> NoDup (map logIndex (decode_each logs)).
  Proof.
    induction logs as [|log logs IH]; simpl; intros Hnd.
    - constructor.
    - inversion Hnd as [|? ? Hnotin Hnd']; subst.
      destruct (decodeLog log) eqn:H; simpl; [|auto].
      constructor; [|auto].
      rewrite (decodeLog_index _ _ H). intros Hin.
      apply Hnotin. apply decode_each_indices. exact Hin.
  Qed.

Lemma decode_each_with_indices abi logs i :
    In i (map logIndex (decode_each_with abi logs)) -> In i (map index logs).
  Proof.
    induction logs as [|log logs IH]; simpl; [tauto|].
    destruct (tryDecode log abi) eqn:H1; simpl.
    - intros [<-|Hi]; [left; symmetry; eapply tryDecode_index; eauto | right; auto].
    - destruct (decodeLog log) eqn:H2; simpl.
      + intros [<-|Hi]; [left; symmetry; apply decodeLog_index; exact H2 | right; auto].
      + auto.
  Qed.

Lemma decode_each_with_nodup abi logs :
    NoDup (map index logs) -> NoDup (map logIndex (decode_each_with abi logs)).
  Proof.
    induction logs as [|log logs IH]; simpl; intros Hnd.
    - constructor.
    - inversion Hnd as [|? ? Hnotin Hnd']; subst.
      destruct (tryDecode log abi) eqn:H1; simpl.
      + constructor; [|auto].
        rewrite (tryDecode_index _ _ _ H1). intros Hin.
        apply Hnotin. eapply decode_each_with_indices. exact Hin.
      + destruct (decodeLog log) eqn:H2; simpl; [|auto].
        constructor; [|auto].
        rewrite (decodeLog_index _ _ H2). intros Hin.
        apply Hnotin. eapply decode_each_with_indices. exact Hin.
  Qed.

  (** What holds of a sorted result, whatever was decoded. *)
Lemma sorted_result (decoded : list DecodedEvent) :
    StronglySorted Z.le (map logIndex (sort_by_logIndex decoded))
    /\ Permutation (sort_by_logIndex decoded) decoded
    /\ (NoDup (map logIndex decoded) ->
        StronglySorted Z.lt (map logIndex (sort_by_logIndex decoded))).
  Proof.
    split; [|split].
    - apply ascending_map, sort_by_logIndex_sorted.
    - apply sort_by_logIndex_perm.
    - intros Hnd. apply ascending_nodup_strict.
      + apply sort_by_logIndex_sorted.
      + eapply Permutation_NoDup; [|exact Hnd].
        apply Permutation_map. symmetry. apply sort_by_logIndex_perm.
  Qed.

End Decoded.
End EventOrder.

(** C9 (as amended). For every list of raw logs, [decodeLogs] returns the
    decoded events (a permutation of what the loop decoded) in ascending
    order of log index; the order is strict, and so the log indices of the
    result are pairwise distinct, whenever the given logs have pairwise
    distinct indices. The same holds of [decodeLogsWithAbi] whenever it
    returns. *)
Theorem decodeLogs_sorted :
  forall (interface_ok : EventDecoder.Interface -> bool)
         (topicHash : EventDecoder.Interface -> option string)
         (iface_parseLog : EventDecoder.Interface -> EventDecoder.Log
                           -> option EventDecoder.LogDescription)
         (logs : list EventDecoder.Log),
    let decoded := EventDecoder.decodeLogs interface_ok topicHash iface_parseLog logs in
    (StronglySorted Z.le (map EventDecoder.logIndex decoded)
     /\ Permutation decoded
          (EventDecoder.decode_each interface_ok topicHash iface_parseLog logs)
     /\ (NoDup (map EventDecoder.index logs) ->
         StronglySorted Z.lt (map EventDecoder.logIndex decoded)))
    /\ forall abi decoded',
         EventDecoder.decodeLogsWithAbi interface_ok topicHash iface_parseLog logs abi
         = Ok decoded' ->
         StronglySorted Z.le (map EventDecoder.logIndex decoded')
         /\ (NoDup (map EventDecoder.index logs) ->
             StronglySorted Z.lt (map EventDecoder.logIndex decoded')).
Proof.
  intros io th pl logs decoded. split.
  - destruct (EventOrder.sorted_result
                (EventDecoder.decode_each io th pl logs)) as (H1 & H2 & H3).
    split; [exact H1|]. split; [exact H2|].
    intros Hnd. apply H3. apply EventOrder.decode_each_nodup. exact Hnd.
  - intros abi decoded'. unfold EventDecoder.decodeLogsWithAbi.
    destruct (io abi); [|discriminate]. intros [= <-].
    destruct (EventOrder.sorted_result
                (EventDecoder.decode_each_with io th pl abi logs)) as (H1 & _ & H3).
    split; [exact H1|].
    intros Hnd. apply H3. apply EventOrder.decode_each_with_nodup. exact Hnd.
Qed.

(** C9, counterexample to the strict order. Two logs that carry the same
    index and both decode come back with equal, not strictly ascending,
    ordinals: the claim does not hold of every list of raw logs and every
    behaviour of the ABI parser. *)
Lemma decodeLogs_not_strict_counterexample :
  ~ (forall (interface_ok : EventDecoder.Interface -> bool)
            (topicHash : EventDecoder.Interface -> option string)
            (iface_parseLog : EventDecoder.Interface -> EventDecoder.Log
                              -> option EventDecoder.LogDescription)
            (logs : list EventDecoder.Log),
        StronglySorted Z.lt
          (map EventDecoder.logIndex
               (EventDecoder.decodeLogs interface_ok topicHash iface_parseLog logs))).
Proof.
  intros H.
  pose (log := {| EventDecoder.topics := ["0xddf252ad"]; EventDecoder.data := "0x";
                  EventDecoder.address := "0xa0b8"; EventDecoder.index := 0%Z |}).
  specialize (H (fun _ => true) (fun _ => None)
                (fun _ _ => Some {| EventDecoder.parsed_name := "Transfer";
                                    EventDecoder.parsed_signature := "Transfer(address,address,uint256)";
                                    EventDecoder.parsed_inputs := [] |})
                [log; log]).
  vm_compute in H.
  inversion H as [|? ? _ Hall]; subst.
  inversion Hall as [|? ? Hlt _]; subst.
  discriminate Hlt.
Qed.

(** C9, witness: two logs given in descending order of their distinct
    indices come back strictly ascending. *)
Lemma decodeLogs_sorted_witness :
  let log i := {| EventDecoder.topics := ["0xddf252ad"]; EventDecoder.data := "0x";
                  EventDecoder.address := Scenario.TOKEN; EventDecoder.index := i |} in
  StronglySorted Z.lt
    (map EventDecoder.logIndex
         (EventDecoder.decodeLogs (Evm.interface_ok Scenario.lib)
            (Evm.topicHash Scenario.lib) (Evm.iface_parseLog Scenario.lib)
            [log 2%Z; log 0%Z])).
Proof.
  intros log.
  apply (proj2 (proj2 (proj1 (decodeLogs_sorted
                                (Evm.interface_ok Scenario.lib)
                                (Evm.topicHash Scenario.lib)
                                (Evm.iface_parseLog Scenario.lib)
                                [log 2%Z; log 0%Z])))).
  repeat constructor; simpl; intuition discriminate.
Defined.

(* ------------------------------------------------------------------ *)
(** * Account-model error decoder *)
(* ------------------------------------------------------------------ *)

Module ErrorDecoderFacts.
Import JsValue Err ErrorDecoder.

Section Facts.
  Variable abi_decode_uint256 : string -> option Z.
  Variable abi_decode_string : string -> option string.
  Variable iface_parseError : string -> string -> option (string * list string).

  Notation decodePanic := (decodePanic abi_decode_uint256).
  Notation decodeRevertReason := (decodeRevertReason abi_decode_string).
  Notation decodeCustomError := (decodeCustomError iface_parseError).
  Notation decode_payload :=
    (decode_payload abi_decode_uint256 abi_decode_string iface_parseError).

Lemma decodePanic_raw data : raw (decodePanic data) = Some data.
  Proof. unfold ErrorDecoder.decodePanic. destruct (abi_decode_uint256 _); reflexivity. Qed.

Lemma decodeRevertReason_raw data : raw (decodeRevertReason data) = Some data.
  Proof.
    unfold ErrorDecoder.decodeRevertReason. destruct (abi_decode_string _); reflexivity.
  Qed.

Lemma decodeCustomError_raw selector data d :
    decodeCustomError selector data = Some d -> raw d = Some data.
  Proof.
    unfold ErrorDecoder.decodeCustomError.
    destruct (table_get CUSTOM_ERRORS selector); [|discriminate].
    destruct (iface_parseError _ _) as [[n a]|]; intros [= <-]; reflexivity.
  Qed.

Lemma decodeCustomError_known selector data :
    decodeCustomError selector data <> None <->
    table_get CUSTOM_ERRORS selector <> None.
  Proof.
    unfold ErrorDecoder.decodeCustomError.
    destruct (table_get CUSTOM_ERRORS selector); [|tauto].
    destruct (iface_parseError _ _) as [[n a]|]; split; intros _; discriminate.
  Qed.

  (** The payload route answers exactly on a recognised selector, and then
      with the payload as [raw]. *)
Lemma decode_payload_spec (data : string) :
    if (10 <=? String.length data)
       && recognised_selector (Js.toLowerCase (Js.slice data 0 10))
    then exists d, decode_payload data = Some d /\ raw d = Some data
    else decode_payload data = None.
  Proof.
    unfold ErrorDecoder.decode_payload, recognised_selector.
    destruct (10 <=? String.length data) eqn:Hlen.
    - assert (Ht : Js.truthy data = true).
      { destruct data; [discriminate Hlen|reflexivity]. }
      rewrite Ht. cbn [andb].
      set (selector := Js.toLowerCase (Js.slice data 0 10)).
      destruct (selector ==? "0x4e487b71").
      + cbn [orb]. eexists. split; [reflexivity|apply decodePanic_raw].
      + destruct (selector ==? "0x08c379a0").
        * cbn [orb]. eexists. split; [reflexivity|apply decodeRevertReason_raw].
        * cbn [orb].
          destruct (decodeCustomError selector data) as [d|] eqn:Hc.
          -- assert (Hk : table_get CUSTOM_ERRORS selector <> None).
             { apply (decodeCustomError_known selector data). congruence. }
             destruct (table_get CUSTOM_ERRORS selector); [|contradiction].
             exists d. split; [reflexivity|].
             eapply decodeCustomError_raw; eauto.
          -- destruct (table_get CUSTOM_ERRORS selector) eqn:Hk; [|reflexivity].
             exfalso.
             assert (decodeCustomError selector data <> None)
               by (apply decodeCustomError_known; congruence).
             contradiction.
    - rewrite andb_false_r. reflexivity.
  Qed.

  (** On a string, the untyped test is the typed one. *)
Lemma decode_located_string (data : string) :
    decode_located abi_decode_uint256 abi_decode_string iface_parseError (VString data)
    = Ok (decode_payload data).
  Proof.
    unfold decode_located, ErrorDecoder.decode_payload.
    cbn [JsValue.truthy length_at_least_10].
    destruct (Js.truthy data && (10 <=? String.length data)); reflexivity.
  Qed.

Lemma absent_or_string_cases v :
    absent_or_string v = true ->
    v = VUndefined \/ v = VNull \/ exists s, v = VString s.
  Proof.
    destruct v; cbn; try discriminate; eauto.
  Qed.

  (** What is located in a string-typed object is [null] or a non-empty
      string. *)
Lemma extractErrorData_string_typed o :
    string_typed o = true ->
    extractErrorData_object o = Ok VNull
    \/ exists payload, extractErrorData_object o = Ok (VString payload)
                       /\ payload <> "".
  Proof.
    unfold string_typed, extractErrorData_object. intros H.
    apply andb_true_iff in H. destruct H as [H Hinner].
    apply andb_true_iff in H. destruct H as [H Hnested_message].
    apply andb_true_iff in H. destruct H as [Hmessage Hnested].
    assert (Hcase : forall v, absent_or_string v = true -> JsValue.truthy v = true ->
                              exists s, v = VString s /\ s <> "").
    { intros v Hv Ht. destruct (absent_or_string_cases v Hv) as [-> | [-> | [s ->]]];
        try discriminate Ht.
      exists s. split; [reflexivity|]. intros ->. discriminate Ht. }
    destruct (JsValue.truthy (Err.data o) && is_string (Err.data o)) eqn:E1.
    { apply andb_true_iff in E1. destruct E1 as [Ht Hs].
      destruct (Err.data o); try discriminate Hs.
      right. eexists. split; [reflexivity|]. intros ->. discriminate Ht. }
    destruct (JsValue.truthy (field (field (info o) "error") "data")) eqn:E2.
    { destruct (Hcase _ Hnested E2) as (s & -> & Hs). right. eauto. }
    destruct (JsValue.truthy (field (error_ o) "data")) eqn:E3.
    { destruct (Hcase _ Hinner E3) as (s & -> & Hs). right. eauto. }
    destruct (absent_or_string_cases _ Hmessage) as [-> | [-> | [s ->]]]; auto.
    unfold match_embedded_data.
    destruct (JsText.capture _ _ s) as [hex|]; [|auto].
    right. eexists. split; [reflexivity|discriminate].
  Qed.

Lemma parseErrorFallback_string_typed o :
    string_typed o = true ->
    exists d, parseErrorFallback_object o = Ok d /\ raw d = None.
  Proof.
    unfold string_typed, parseErrorFallback_object. intros H.
    apply andb_true_iff in H. destruct H as [H Hinner].
    apply andb_true_iff in H. destruct H as [H Hnested_message].
    apply andb_true_iff in H. destruct H as [Hmessage Hnested].
    destruct (JsValue.truthy (reason o)); [eexists; split; reflexivity|].
    destruct (JsValue.truthy (field (field (info o) "error") "message")) eqn:E1.
    { destruct (absent_or_string_cases _ Hnested_message) as [Hv | [Hv | [s Hv]]];
        rewrite Hv in *; try discriminate E1.
      eexists; split; reflexivity. }
    destruct (JsValue.truthy (Err.message o)) eqn:E2; [|eexists; split; reflexivity].
    destruct (absent_or_string_cases _ Hmessage) as [Hv | [Hv | [s Hv]]];
      rewrite Hv in *; try discriminate E2.
    eexists; split; reflexivity.
  Qed.

  (** Whatever the decoder raises on an object is the [TypeError] of a call
      of something that is not a function. *)
Lemma decodeEVMError_object_raises o e :
    decodeEVMError abi_decode_uint256 abi_decode_string iface_parseError (EObject o)
    = Throw e ->
    exists callee, e = not_a_function callee.
  Proof.
    unfold decodeEVMError, extractErrorData, extractErrorData_object.
    assert (Hclean : forall v e, unknown_with (cleanErrorMessage_of v) = Throw e ->
                                 exists callee, e = not_a_function callee).
    { intros v e0. destruct v; cbn; intros [= <-]; eauto. }
    assert (Hfall : parseErrorFallback (EObject o) = Throw e ->
                    exists callee, e = not_a_function callee).
    { cbn [parseErrorFallback]. unfold parseErrorFallback_object.
      destruct (JsValue.truthy (reason o)); [discriminate|].
      destruct (JsValue.truthy (field (field (info o) "error") "message"));
        [apply Hclean|].
      destruct (JsValue.truthy (Err.message o)); [apply Hclean|discriminate]. }
    assert (Hloc : forall v,
              match decode_located abi_decode_uint256 abi_decode_string
                      iface_parseError v with
              | Throw e => Throw e
              | Ok (Some decoded) => Ok decoded
              | Ok None => parseErrorFallback (EObject o)
              end = Throw e ->
              exists callee, e = not_a_function callee).
    { intros v. unfold decode_located.
      destruct (JsValue.truthy v && length_at_least_10 v).
      - destruct v; try (intros [= <-]; eauto).
        destruct (ErrorDecoder.decode_payload _ _ _ s); [discriminate|apply Hfall].
      - apply Hfall. }
    destruct (JsValue.truthy (Err.data o) && is_string (Err.data o)); [apply Hloc|].
    destruct (JsValue.truthy (field (field (info o) "error") "data")); [apply Hloc|].
    destruct (JsValue.truthy (field (error_ o) "data")); [apply Hloc|].
    destruct (Err.message o); try apply Hloc; intros [= <-]; eauto.
  Qed.

End Facts.
End ErrorDecoderFacts.

(** C8 (as amended). The account-model error decoder returns a record
    tagged [revert], [panic], [custom] or [unknown] ([ErrorType] has no
    other value) for every raised primitive, which gives
    [unknown("Unknown error occurred")], and for every raised object whose
    [message], [info.error.data], [info.error.message] and [error.data] are
    each absent, [null] or a string. For such an object, when the located
    payload has at least 10 characters and a recognised selector (panic,
    revert reason, or one of the built-in custom errors) the record carries
    that payload as [raw]; otherwise the record carries no [raw] and is the
    fallback one: [error.reason], else the cleaned [error.info.error.message],
    else the cleaned [error.message], else the fixed message. The decoder
    is not total: it raises on [null] and on [undefined], and what it raises
    on an object is the [TypeError] of a call of something that is not a
    function, which happens for objects that are not typed so only. *)
Theorem decodeEVMError_total :
  forall (abi_decode_uint256 : string -> option Z)
         (abi_decode_string : string -> option string)
         (iface_parseError : string -> string -> option (string * list string)),
    let decode := ErrorDecoder.decodeEVMError abi_decode_uint256 abi_decode_string
                                              iface_parseError in
    let clean := ErrorDecoder.cleanErrorMessage in
    let record t m := {| ErrorDecoder.type := t; ErrorDecoder.message := m;
                         ErrorDecoder.raw := None |} in
    (forall text,
       decode (Err.EPrimitive text)
       = Ok (record ErrorDecoder.unknown (JsValue.VString "Unknown error occurred")))
    /\
    (forall o,
       ErrorDecoder.string_typed o = true ->
       exists d fallback,
         decode (Err.EObject o) = Ok d
         /\ ErrorDecoder.parseErrorFallback_object o = Ok fallback
         /\ ErrorDecoder.raw fallback = None
         /\ ((exists payload,
                ErrorDecoder.extractErrorData_object o = Ok (JsValue.VString payload)
                /\ (10 <=? String.length payload)
                   && ErrorDecoder.recognised_selector
                        (Js.toLowerCase (Js.slice payload 0 10)) = true
                /\ ErrorDecoder.raw d = Some payload)
             \/
             (exists payload,
                ErrorDecoder.extractErrorData_object o = Ok (JsValue.VString payload)
                /\ (10 <=? String.length payload)
                   && ErrorDecoder.recognised_selector
                        (Js.toLowerCase (Js.slice payload 0 10)) = false
                /\ d = fallback)
             \/
             (ErrorDecoder.extractErrorData_object o = Ok JsValue.VNull
              /\ d = fallback)))
    /\
    (forall o,
       let fallback := ErrorDecoder.parseErrorFallback_object o in
       let reason := JsValue.truthy (Err.reason o) in
       let nested := JsValue.field (JsValue.field (Err.info o) "error") "message" in
       let direct := Err.message o in
       (reason = true -> fallback = Ok (record ErrorDecoder.revert (Err.reason o)))
       /\ (forall m, reason = false -> nested = JsValue.VString m -> m <> "" ->
             fallback = Ok (record ErrorDecoder.unknown (JsValue.VString (clean m))))
       /\ (forall m, reason = false -> JsValue.truthy nested = false ->
             direct = JsValue.VString m -> m <> "" ->
             fallback = Ok (record ErrorDecoder.unknown (JsValue.VString (clean m))))
       /\ (reason = false -> JsValue.truthy nested = false ->
           JsValue.truthy direct = false ->
             fallback = Ok (record ErrorDecoder.unknown
                              (JsValue.VString "Unknown error occurred"))))
    /\
    (returns (decode Err.ENull) = false /\ returns (decode Err.EUndefined) = false
     /\ forall o e, decode (Err.EObject o) = Throw e ->
          ErrorDecoder.string_typed o = false
          /\ exists callee, e = ErrorDecoder.not_a_function callee).
Proof.
  intros u s p decode clean record.
  assert (Htyped : forall o,
            ErrorDecoder.string_typed o = true ->
            exists d fallback,
              decode (Err.EObject o) = Ok d
              /\ ErrorDecoder.parseErrorFallback_object o = Ok fallback
              /\ ErrorDecoder.raw fallback = None
              /\ ((exists payload,
                     ErrorDecoder.extractErrorData_object o
                     = Ok (JsValue.VString payload)
                     /\ (10 <=? String.length payload)
                        && ErrorDecoder.recognised_selector
                             (Js.toLowerCase (Js.slice payload 0 10)) = true
                     /\ ErrorDecoder.raw d = Some payload)
                  \/
                  (exists payload,
                     ErrorDecoder.extractErrorData_object o
                     = Ok (JsValue.VString payload)
                     /\ (10 <=? String.length payload)
                        && ErrorDecoder.recognised_selector
                             (Js.toLowerCase (Js.slice payload 0 10)) = false
                     /\ d = fallback)
                  \/
                  (ErrorDecoder.extractErrorData_object o = Ok JsValue.VNull
                   /\ d = fallback))).
  { intros o Ho.
    destruct (ErrorDecoderFacts.parseErrorFallback_string_typed o Ho)
      as (fallback & Hf & Hraw).
    unfold decode, ErrorDecoder.decodeEVMError.
    cbn [ErrorDecoder.extractErrorData ErrorDecoder.parseErrorFallback].
    destruct (ErrorDecoderFacts.extractErrorData_string_typed o Ho)
      as [Hx | (payload & Hx & Hp)]; rewrite Hx.
    - cbn. rewrite Hf. exists fallback, fallback. repeat split; auto.
    - rewrite ErrorDecoderFacts.decode_located_string.
      pose proof (ErrorDecoderFacts.decode_payload_spec u s p payload) as H.
      destruct ((10 <=? String.length payload)
                && ErrorDecoder.recognised_selector
                     (Js.toLowerCase (Js.slice payload 0 10))) eqn:Eb.
      + destruct H as (d & Hd & Hrawd). rewrite Hd.
        exists d, fallback. repeat split; auto. left. exists payload. auto.
      + rewrite H, Hf. exists fallback, fallback. repeat split; auto.
        right. left. exists payload. auto. }
  split; [|split; [exact Htyped|split]].
  - intros text. reflexivity.
  - intros o fallback reason nested direct.
    unfold fallback, ErrorDecoder.parseErrorFallback_object.
    fold reason nested direct.
    repeat split.
    + intros ->. reflexivity.
    + intros m -> Hn Hm. rewrite Hn. cbn [JsValue.truthy].
      assert (Ht : Js.truthy m = true).
      { unfold Js.truthy. apply negb_true_iff. apply String.eqb_neq. exact Hm. }
      rewrite Ht. reflexivity.
    + intros m -> Hn Hd Hm. rewrite Hn, Hd. cbn [JsValue.truthy].
      assert (Ht : Js.truthy m = true).
      { unfold Js.truthy. apply negb_true_iff. apply String.eqb_neq. exact Hm. }
      rewrite Ht. reflexivity.
    + intros -> -> ->. reflexivity.
  - split; [reflexivity|]. split; [reflexivity|].
    intros o e He. split.
    + destruct (ErrorDecoder.string_typed o) eqn:Ho; [|reflexivity].
      destruct (Htyped o Ho) as (d & _ & Hd & _). congruence.
    + exact (ErrorDecoderFacts.decodeEVMError_object_raises u s p o e He).
Qed.

(** C8, witness: an ethers error with a [reason] is surfaced as a revert
    with that reason; an error with only a message is cleaned. *)
Lemma decodeEVMError_total_witness :
  let with_reason :=
    {| Err.name := Some "Error"; Err.message := JsValue.VString "call failed";
       Err.data := JsValue.VUndefined;
       Err.reason := JsValue.VString "Insufficient balance";
       Err.info := JsValue.VUndefined; Err.error_ := JsValue.VUndefined |} in
  let with_message :=
    {| Err.name := Some "Error";
       Err.message := JsValue.VString "Error: execution reverted";
       Err.data := JsValue.VUndefined; Err.reason := JsValue.VUndefined;
       Err.info := JsValue.VUndefined; Err.error_ := JsValue.VUndefined |} in
  ErrorDecoder.decodeEVMError (fun _ => None) (fun _ => None) (fun _ _ => None)
    (Err.EObject with_reason)
  = Ok {| ErrorDecoder.type := ErrorDecoder.revert;
          ErrorDecoder.message := JsValue.VString "Insufficient balance";
          ErrorDecoder.raw := None |}
  /\ ErrorDecoder.decodeEVMError (fun _ => None) (fun _ => None) (fun _ _ => None)
       (Err.EObject with_message)
     = Ok {| ErrorDecoder.type := ErrorDecoder.unknown;
             ErrorDecoder.message := JsValue.VString "Transaction reverted";
             ErrorDecoder.raw := None |}.
Proof.
  intros with_reason with_message.
  destruct (decodeEVMError_total (fun _ => None) (fun _ => None) (fun _ _ => None))
    as (_ & Htyped & Hfallback & _).
  split.
  - destruct (Htyped with_reason eq_refl) as (d & fallback & Hd & Hf & _ & Hcase).
    destruct (Hfallback with_reason) as (Hreason & _).
    rewrite (Hreason eq_refl) in Hf. injection Hf as <-.
    destruct Hcase as [(payload & Hx & _) | [(payload & Hx & _) | (_ & ->)]];
      [discriminate Hx|discriminate Hx|exact Hd].
  - destruct (Htyped with_message eq_refl) as (d & fallback & Hd & Hf & _ & Hcase).
    destruct (Hfallback with_message) as (_ & _ & Hdirect & _).
    rewrite (Hdirect "Error: execution reverted" eq_refl eq_refl eq_refl
               ltac:(discriminate)) in Hf.
    injection Hf as <-.
    destruct Hcase as [(payload & Hx & _) | [(payload & Hx & _) | (_ & ->)]];
      [discriminate Hx|discriminate Hx|].
    rewrite Hd. vm_compute. reflexivity.
Defined.

(** C8, counterexamples. An object that carries a hex payload with an
    unknown selector is decoded by the fallback, whose record has no [raw];
    on [null] and on [undefined] the decoder raises instead of returning a
    record; and so it does on an object whose message is the number 42,
    on one whose [info.error.message] is 42, and on one whose [error.data]
    is an array of ten items. *)
Lemma decodeEVMError_counterexample :
  let plain message data info error_ :=
    Err.EObject {| Err.name := None; Err.message := message; Err.data := data;
                   Err.reason := JsValue.VUndefined; Err.info := info;
                   Err.error_ := error_ |} in
  let absent := JsValue.VUndefined in
  let forty_two := JsValue.VNumber "42" in
  (forall u s p,
     let carried := "0x123456780000000000000000000000000000000000000000000000000000000000000001" in
     ErrorDecoder.extractErrorData
       (plain absent (JsValue.VString carried) absent absent)
     = Ok (JsValue.VString carried)
     /\ ErrorDecoder.decodeEVMError u s p
          (plain absent (JsValue.VString carried) absent absent)
        = Ok {| ErrorDecoder.type := ErrorDecoder.unknown;
                ErrorDecoder.message := JsValue.VString "Unknown error occurred";
                ErrorDecoder.raw := None |})
  /\ (forall u s p, returns (ErrorDecoder.decodeEVMError u s p Err.ENull) = false)
  /\ (forall u s p, returns (ErrorDecoder.decodeEVMError u s p Err.EUndefined) = false)
  /\ (forall u s p,
        returns (ErrorDecoder.decodeEVMError u s p (plain forty_two absent absent absent))
        = false)
  /\ (forall u s p,
        returns (ErrorDecoder.decodeEVMError u s p
                   (plain absent absent
                      (JsValue.VObject
                         [("error", JsValue.VObject [("message", forty_two)])])
                      absent))
        = false)
  /\ (forall u s p,
        returns (ErrorDecoder.decodeEVMError u s p
                   (plain absent absent absent
                      (JsValue.VObject
                         [("data", JsValue.VArray (repeat (JsValue.VNumber "0") 10))])))
        = false).
Proof.
  intros plain absent forty_two. repeat split; intros; vm_compute; reflexivity.
Qed.

(* ------------------------------------------------------------------ *)
(** * Health probes of the two fork clients *)
(* ------------------------------------------------------------------ *)

(** C10. The account-model client's [isConnected] answers [true] on a
    service object whose [connect] was never called (its provider is
    [null]), without touching the fork; in general it answers [false] exactly
    when a provider is set and its block-number read raises. The
    runtime-module client answers [false] on a null API, and otherwise
    [false] exactly when the health read raises. *)
Theorem isConnected_probes :
  (forall (W Tx : Type) (fork : Evm.Fork W Tx) (url : string) (w : W)
          (cache : list (string * Evm.TokenMetadata)) (flag : bool),
     let s := {| Evm.world := w; Evm.anvil := Evm.new_AnvilService url;
                 Evm.tokenCache := cache; Evm.impersonating := flag |} in
     Evm.isConnected fork s = (Ok true, s))
  /\
  (forall (W Tx : Type) (fork : Evm.Fork W Tx) (s : Evm.State W),
     fst (Evm.isConnected fork s)
     = Ok (match Evm.provider (Evm.anvil s) with
           | None => true
           | Some _ => returns (fst (Evm.rpc_getBlockNumber fork (Evm.world s)))
           end))
  /\
  (forall (W Ext : Type) (node : Wasm.Node W Ext) (url : string) (w : W)
          (cache : option (string * Z))
          (out : list (string * option Err.ErrorValue)),
     let s := {| Wasm.world := w; Wasm.chopsticks := Wasm.new_ChopsticksService url;
                 Wasm.chainPropertiesCache := cache; Wasm.console := out |} in
     Wasm.isConnected node s = (Ok false, s))
  /\
  (forall (W Ext : Type) (node : Wasm.Node W Ext) (s : Wasm.State W),
     fst (Wasm.isConnected node s)
     = Ok (if Wasm.api (Wasm.chopsticks s)
           then returns (fst (Wasm.rpc_system_health node (Wasm.world s)))
           else false)).
Proof.
  repeat split.
  - intros W Tx fork s.
    unfold Evm.isConnected, Async.try_catch, Async.bind, Async.gets, Async.ret, Evm.rpc.
    destruct (Evm.provider (Evm.anvil s)); [|reflexivity].
    destruct (Evm.rpc_getBlockNumber fork (Evm.world s)) as [[n|e] w']; reflexivity.
  - intros W Ext node s.
    unfold Wasm.isConnected, Async.try_catch, Async.bind, Async.gets, Async.ret, Wasm.rpc.
    destruct (Wasm.api (Wasm.chopsticks s)); [|reflexivity]. cbn [negb].
    destruct (Wasm.rpc_system_health node (Wasm.world s)) as [[n|e] w']; reflexivity.
Qed.

(* ------------------------------------------------------------------ *)
(** * Runtime-module state impact: event-driven deltas *)
(* ------------------------------------------------------------------ *)

Module DeltaFacts.
Import Wasm.

Lemma key_eqb_eq a b : key_eqb a b = true -> a = b.
Proof.
  destruct a as [[| | | |]|], b as [[| | | |]|]; simpl; try discriminate; auto.
  - intros H. apply Bool.eqb_prop in H. congruence.
  - intros H. apply String.eqb_eq in H. congruence.
Qed.

Lemma key_eqb_sym a b : key_eqb a b = key_eqb b a.
Proof.
  destruct a as [[| | | |]|], b as [[| | | |]|]; simpl; auto.
  - destruct b0, b; reflexivity.
  - apply String.eqb_sym.
Qed.

Lemma key_eqb_string a : key_eqb (KString a) (KString a) = true.
Proof. simpl. apply String.eqb_refl. Qed.

Lemma delta_of_cons k0 v0 m k :
  delta_of ((k0, v0) :: m) k = if key_eqb k0 k then v0 else delta_of m k.
Proof. unfold delta_of. simpl. destruct (key_eqb k0 k); reflexivity. Qed.

(** Reading a key after an update of the map. *)
Lemma delta_of_add_delta m : forall k x k',
  delta_of (add_delta m k x) k'
  = (delta_of m k' + (if key_eqb k k' then x else 0))%Z.
Proof.
  induction m as [|[k0 v0] m IH]; intros k x k'.
  - unfold add_delta. simpl. rewrite delta_of_cons.
    destruct (key_eqb k k'); unfold delta_of; simpl; lia.
  - unfold add_delta. rewrite delta_of_cons. simpl.
    destruct (key_eqb k0 k) eqn:Hk.
    + apply key_eqb_eq in Hk. subst k0.
      rewrite !delta_of_cons. destruct (key_eqb k k'); lia.
    + rewrite !delta_of_cons.
      fold (add_delta m k x). rewrite IH.
      destruct (key_eqb k0 k') eqn:Hk'.
      * apply key_eqb_eq in Hk'. subst k0.
        rewrite key_eqb_sym, Hk. lia.
      * reflexivity.
Qed.

Lemma reduce_event_delta d e d' k :
  reduce_event d e = Ok d' ->
  delta_of d' k = (delta_of d k + event_delta k e (amount_of e))%Z.
Proof.
  unfold reduce_event, event_delta, amount_of, reads_amount.
  destruct (pallet e ==? "balances"); cbn [andb].
  2:{ intros [= <-]. lia. }
  destruct (method e ==? "Transfer"); cbn [orb].
  { destruct (parse_amount (field e "amount")) as [amount|]; [|discriminate].
    intros [= <-]. rewrite !delta_of_add_delta.
    destruct (key_eqb (field e "from") k), (key_eqb (field e "to") k); lia. }
  destruct (method e ==? "Withdraw"); cbn [orb].
  { destruct (parse_amount (field e "amount")) as [amount|]; [|discriminate].
    intros [= <-]. rewrite delta_of_add_delta.
    destruct (key_eqb (field e "who") k); lia. }
  destruct (method e ==? "Deposit"); cbn [orb].
  { destruct (parse_amount (field e "amount")) as [amount|]; [|discriminate].
    intros [= <-]. rewrite delta_of_add_delta.
    destruct (key_eqb (field e "who") k); lia. }
  intros [= <-]. lia.
Qed.

Lemma reduce_events_delta events : forall d d' k,
  reduce_events d events = Ok d' ->
  delta_of d' k = (delta_of d k + spec_delta k events)%Z.
Proof.
  induction events as [|e events IH]; simpl; intros d d' k.
  - intros [= <-]. lia.
  - destruct (reduce_event d e) as [d1|] eqn:H1; [|discriminate].
    intros H. rewrite (IH _ _ k H), (reduce_event_delta _ _ _ k H1). lia.
Qed.

(** The reduction returns exactly when every amount that it reads parses. *)
Lemma reduce_event_returns d e :
  returns (reduce_event d e)
  = if reads_amount e then returns (parse_amount (field e "amount")) else true.
Proof.
  unfold reduce_event, reads_amount.
  destruct (pallet e ==? "balances"); cbn [andb]; [|reflexivity].
  destruct (method e ==? "Transfer"); cbn [orb].
  { destruct (parse_amount _); reflexivity. }
  destruct (method e ==? "Withdraw"); cbn [orb].
  { destruct (parse_amount _); reflexivity. }
  destruct (method e ==? "Deposit"); cbn [orb].
  { destruct (parse_amount _); reflexivity. }
  reflexivity.
Qed.

Lemma reduce_events_returns events : forall d,
  returns (reduce_events d events)
  = forallb (fun e => if reads_amount e
                      then returns (parse_amount (field e "amount")) else true)
            events.
Proof.
  induction events as [|e events IH]; simpl; intros d; [reflexivity|].
  rewrite <- reduce_event_returns with (d := d).
  destruct (reduce_event d e); simpl; [apply IH|reflexivity].
Qed.

Lemma set_distinct m : forall k v,
  distinct_keys m -> distinct_keys (JsMap.set key_eqb m k v).
Proof.
  induction m as [|[k0 v0] m IH]; intros k v Hm; simpl.
  - repeat constructor.
  - inversion Hm as [|? ? ? Hall Hm']; subst.
    destruct (key_eqb k0 k) eqn:Hk.
    + constructor; assumption.
    + constructor; [|apply IH; exact Hm'].
      clear IH Hm Hm'. induction m as [|[k1 v1] m IHm]; simpl.
      * constructor; [exact Hk|constructor].
      * inversion Hall as [|? ? H1 Hall']; subst. simpl in H1.
        destruct (key_eqb k1 k); constructor; simpl; auto.
Qed.

Lemma reduce_event_distinct d e d' :
  reduce_event d e = Ok d' -> distinct_keys d -> distinct_keys d'.
Proof.
  unfold reduce_event, add_delta.
  destruct (pallet e ==? "balances"); [|intros [= <-]; auto].
  destruct (method e ==? "Transfer").
  { destruct (parse_amount _); [|discriminate].
    intros [= <-] H. apply set_distinct, set_distinct, H. }
  destruct (method e ==? "Withdraw").
  { destruct (parse_amount _); [|discriminate].
    intros [= <-] H. apply set_distinct, H. }
  destruct (method e ==? "Deposit").
  { destruct (parse_amount _); [|discriminate].
    intros [= <-] H. apply set_distinct, H. }
  intros [= <-]; auto.
Qed.

Lemma reduce_events_distinct events : forall d d',
  reduce_events d events = Ok d' -> distinct_keys d -> distinct_keys d'.
Proof.
  induction events as [|e events IH]; simpl; intros d d'.
  - intros [= <-]; auto.
  - destruct (reduce_event d e) as [d1|] eqn:H1; [|discriminate].
    intros H Hd. eapply IH; eauto. eapply reduce_event_distinct; eauto.
Qed.

(** An entry of the map under a string key holds the delta of that key. *)
Lemma entry_delta m : forall a d,
  distinct_keys m -> In (KString a, d) m -> delta_of m (KString a) = d.
Proof.
  induction m as [|[k0 v0] m IH]; intros a d Hm Hin; [destruct Hin|].
  inversion Hm as [|? ? ? Hall Hm']; subst.
  rewrite delta_of_cons. destruct Hin as [[= -> ->]|Hin].
  - rewrite key_eqb_string. reflexivity.
  - rewrite Forall_forall in Hall. specialize (Hall _ Hin). simpl in Hall.
    rewrite Hall. apply IH; assumption.
Qed.

(** The rows of [other_affected] are the entries with a non-zero delta that
    belong to neither the sender nor the recipient. *)
Lemma other_affected_In sender_ recipient_ bb sym dec m row :
  In row (other_affected sender_ recipient_ bb sym dec m) <->
  exists k d, In (k, d) m
    /\ key_eqb k (KString sender_) = false
    /\ is_recipient k recipient_ = false
    /\ d <> 0%Z
    /\ row = address_state sym dec k (total_before bb k) d true.
Proof.
  unfold other_affected. rewrite in_flat_map. split.
  - intros ([k d] & Hin & Hrow).
    destruct (key_eqb k (KString sender_)) eqn:H1; [destruct Hrow|].
    destruct (is_recipient k recipient_) eqn:H2; [destruct Hrow|].
    destruct (d =? 0)%Z eqn:H3; [destruct Hrow|]. cbn [orb] in Hrow.
    destruct Hrow as [<-|[]]. exists k, d. apply Z.eqb_neq in H3. auto.
  - intros (k & d & Hin & H1 & H2 & H3 & ->).
    exists (k, d). split; [exact Hin|].
    rewrite H1, H2. apply Z.eqb_neq in H3. rewrite H3. left. reflexivity.
Qed.

End DeltaFacts.

Module DeltaReport.
Import Wasm DeltaFacts.

(** Every row of a report is the row of its address, with the [before]
    total of the snapshot and the delta held by the map. *)
Lemma rows_of_report sender_ recipient_ bb sym dec m row a :
  distinct_keys m ->
  In row (rows (report_of_deltas sender_ recipient_ bb sym dec m)) ->
  address row = KString a ->
  let bef := total_before bb (KString a) in
  let delta := delta_of m (KString a) in
  before row = [native_row sym dec bef]
  /\ after row = [native_row sym dec (bef + delta)]
  /\ changes row = if (delta =? 0)%Z then []
                   else [native_change sym dec bef (bef + delta) delta].
Proof.
  intros Hm Hin Haddr. unfold rows, report_of_deltas in Hin. cbn [sender recipient otherAffected] in Hin.
  destruct Hin as [<-|Hin].
  - cbn [address address_state] in Haddr. injection Haddr as <-.
    cbn. destruct (delta_of m (KString sender_) =? 0)%Z; auto.
  - apply in_app_or in Hin. destruct Hin as [Hin|Hin].
    + destruct (Err.truthy_field recipient_) as [r|]; [|destruct Hin].
      destruct (delta_of m (KString r) =? 0)%Z eqn:Hd; [destruct Hin|].
      destruct Hin as [<-|[]].
      cbn [address address_state] in Haddr. injection Haddr as <-.
      cbn. rewrite Hd. auto.
    + apply other_affected_In in Hin.
      destruct Hin as (k & d & Hk & _ & _ & Hd & ->).
      cbn [address address_state] in Haddr. subst k.
      rewrite (entry_delta _ _ _ Hm Hk).
      cbn. apply Z.eqb_neq in Hd. rewrite Hd. auto.
Qed.

End DeltaReport.


(* ------------------------------------------------------------------ *)
(** * The engines: success and error of a returned response *)
(* ------------------------------------------------------------------ *)

Module ResponseShape.
Import Async AsyncFacts.

Ltac step :=
  match goal with
  | |- post (bind _ _) _ => apply post_bind; intros
  | |- post (ret _) _ => apply post_ret
  | |- post (throw _) _ => apply post_throw
  | |- post (let '(_, _) := ?p in _) _ => destruct p
  | |- post (match ?x with _ => _ end) _ => destruct x
  | |- post (if ?b then _ else _) _ => destruct b
  end.

Section Evm.
  Context {W Tx : Type}.
  Variable lib : Evm.EthersLib.
  Variable fork : Evm.Fork W Tx.
  Variable NATIVE_SYMBOL : string.

Lemma simulation_body_consistent request snapshotId :
    post (Evm.simulation_body lib fork NATIVE_SYMBOL request snapshotId)
         Evm.consistent.
  Proof.
    unfold Evm.simulation_body.
    repeat step.
    unfold Evm.consistent. cbn [Evm.success Evm.error].
    match goal with
    | |- context [if ?b then None else _] => destruct b
    end; split; intros; congruence.
  Qed.

Lemma simulation_failed_consistent request e :
    post (Evm.simulation_failed (W := W) lib NATIVE_SYMBOL request e) Evm.consistent.
  Proof.
    unfold Evm.simulation_failed. repeat step.
    split; cbn; intros; congruence.
  Qed.

Lemma executeSimulation_consistent request :
    post (Evm.executeSimulation lib fork NATIVE_SYMBOL request) Evm.consistent.
  Proof.
    unfold Evm.executeSimulation. repeat step.
    apply post_try_finally, post_try_catch.
    - apply simulation_body_consistent.
    - apply simulation_failed_consistent.
  Qed.
End Evm.

Section Wasm.
  Context {W Ext : Type}.
  Variable node : Wasm.Node W Ext.

Lemma run_extrinsic_consistent request sym dec ext recipient_ :
    post (Wasm.run_extrinsic node request sym dec ext recipient_) Wasm.consistent.
  Proof.
    unfold Wasm.run_extrinsic. repeat step;
      split; cbn; intros; congruence.
  Qed.

Lemma wasm_body_consistent request sym dec :
    post (Wasm.simulation_body node request sym dec) Wasm.consistent.
  Proof.
    unfold Wasm.simulation_body.
    destruct (Wasm.extrinsic request) as [rawHex|p m args].
    - step. apply run_extrinsic_consistent.
    - destruct (negb (Wasm.tx_defined node p m)).
      + step. split; cbn; intros; congruence.
      + repeat step. apply run_extrinsic_consistent.
  Qed.

Lemma wasm_failed_raises {A} e (Q : A -> Prop) :
    post (Wasm.simulation_failed node e) Q.
  Proof. unfold Wasm.simulation_failed. repeat step. Qed.

Lemma executeWasmSimulation_consistent request :
    post (Wasm.executeWasmSimulation node request) Wasm.consistent.
  Proof.
    unfold Wasm.executeWasmSimulation. repeat step.
    apply post_try_catch.
    - apply wasm_body_consistent.
    - intros e. apply wasm_failed_raises.
  Qed.
End Wasm.
End ResponseShape.

(** C4. Whenever either engine returns a response (on any path that returns
    normally, from any state of any fork backend), [success=true] implies
    that the error field is absent and [success=false] implies that it is
    present. *)
Theorem response_success_error :
  (forall (W Tx : Type) (lib : Evm.EthersLib) (fork : Evm.Fork W Tx)
          (NATIVE_SYMBOL : string) (request : Evm.SimulateRequest)
          (s s' : Evm.State W) (response : Evm.SimulateResponse),
     Evm.executeSimulation lib fork NATIVE_SYMBOL request s = (Ok response, s') ->
     (Evm.success response = true -> Evm.error response = None)
     /\ (Evm.success response = false -> Evm.error response <> None))
  /\
  (forall (W Ext : Type) (node : Wasm.Node W Ext)
          (request : Wasm.WasmSimulateRequest)
          (s s' : Wasm.State W) (response : Wasm.WasmSimulateResponse),
     Wasm.executeWasmSimulation node request s = (Ok response, s') ->
     (Wasm.success response = true -> Wasm.error response = None)
     /\ (Wasm.success response = false -> Wasm.error response <> None)).
Proof.
  split.
  - intros W Tx lib fork sym request s s' response H.
    exact (ResponseShape.executeSimulation_consistent lib fork sym request _ _ _ H).
  - intros W Ext node request s s' response H.
    exact (ResponseShape.executeWasmSimulation_consistent node request _ _ _ H).
Qed.

(** C4, witness: the four kinds of returned responses on the test doubles:
    a successful and a failed run of each engine. *)
Lemma response_success_error_witness :
  (exists r s', Evm.executeSimulation Scenario.lib
                  (Scenario.fork (fun _ => true) true [])
                  "GLMR" Scenario.request Scenario.connected = (Ok r, s')
                /\ Evm.success r = true /\ Evm.error r = None)
  /\ (exists r s', Evm.executeSimulation Scenario.lib Scenario.fork_without_balances
                     "GLMR" Scenario.request Scenario.connected = (Ok r, s')
                   /\ Evm.success r = false /\ Evm.error r <> None)
  /\ (exists r s', Wasm.executeWasmSimulation (Scenario.node false)
                     Scenario.wasm_request Scenario.wasm_connected = (Ok r, s')
                   /\ Wasm.success r = true /\ Wasm.error r = None)
  /\ (exists r s', Wasm.executeWasmSimulation (Scenario.node true)
                     Scenario.wasm_request Scenario.wasm_connected = (Ok r, s')
                   /\ Wasm.success r = false /\ Wasm.error r <> None).
Proof.
  destruct response_success_error as [HA HB].
  repeat split.
  - remember (Evm.executeSimulation Scenario.lib (Scenario.fork (fun _ => true) true [])
                "GLMR" Scenario.request Scenario.connected) as run eqn:E.
    pose proof E as E'. vm_compute in E'.
    destruct run as [[r|e] s']; [|discriminate E'].
    exists r, s'. split; [reflexivity|].
    assert (Hs : Evm.success r = true) by (injection E' as -> _; reflexivity).
    split; [exact Hs|].
    exact (proj1 (HA _ _ _ _ _ _ _ _ _ (eq_sym E)) Hs).
  - remember (Evm.executeSimulation Scenario.lib Scenario.fork_without_balances
                "GLMR" Scenario.request Scenario.connected) as run eqn:E.
    pose proof E as E'. vm_compute in E'.
    destruct run as [[r|e] s']; [|discriminate E'].
    exists r, s'. split; [reflexivity|].
    assert (Hs : Evm.success r = false) by (injection E' as -> _; reflexivity).
    split; [exact Hs|].
    exact (proj2 (HA _ _ _ _ _ _ _ _ _ (eq_sym E)) Hs).
  - remember (Wasm.executeWasmSimulation (Scenario.node false)
                Scenario.wasm_request Scenario.wasm_connected) as run eqn:E.
    pose proof E as E'. vm_compute in E'.
    destruct run as [[r|e] s']; [|discriminate E'].
    exists r, s'. split; [reflexivity|].
    assert (Hs : Wasm.success r = true) by (injection E' as -> _; reflexivity).
    split; [exact Hs|].
    exact (proj1 (HB _ _ _ _ _ _ _ (eq_sym E)) Hs).
  - remember (Wasm.executeWasmSimulation (Scenario.node true)
                Scenario.wasm_request Scenario.wasm_connected) as run eqn:E.
    pose proof E as E'. vm_compute in E'.
    destruct run as [[r|e] s']; [|discriminate E'].
    exists r, s'. split; [reflexivity|].
    assert (Hs : Wasm.success r = false) by (injection E' as -> _; reflexivity).
    split; [exact Hs|].
    exact (proj2 (HB _ _ _ _ _ _ _ (eq_sym E)) Hs).
Defined.

(* ------------------------------------------------------------------ *)
(** * Runtime-module state impact: the report of a simulation *)
(* ------------------------------------------------------------------ *)

Module InjectedFacts.
Import Async AsyncFacts Wasm.

(** [getLastExtrinsicIndex] computes the highest index. *)
Lemma last_index_from_acc (records : list WasmEventRecord) : forall acc,
  (-1 <= acc)%Z ->
  fold_left
    (fun max e =>
       if phase_type (phase e) ==? "ApplyExtrinsic" then
         match phase_value (phase e) with
         | Some v => if (max <? v)%Z then v else max
         | None => max
         end
       else max)
    records acc
  = Z.max acc (spec_last_index records).
Proof.
  induction records as [|r records IH]; intros acc Hacc; cbn [fold_left].
  - cbn. lia.
  - cbn [spec_last_index fold_right]. fold (spec_last_index records).
    unfold applied_by.
    destruct (phase_type (phase r) ==? "ApplyExtrinsic"); [|apply IH; exact Hacc].
    destruct (phase_value (phase r)) as [v|]; [|apply IH; exact Hacc].
    destruct (acc <? v)%Z eqn:E.
    + apply Z.ltb_lt in E. rewrite IH by lia. lia.
    + apply Z.ltb_ge in E. rewrite IH by lia. lia.
Qed.

Lemma spec_last_index_floor records : (-1 <= spec_last_index records)%Z.
Proof.
  induction records as [|r records IH]; cbn; [lia|].
  fold (spec_last_index records). destruct (applied_by r); lia.
Qed.

Lemma getLastExtrinsicIndex_spec records :
  getLastExtrinsicIndex records = spec_last_index records.
Proof.
  unfold getLastExtrinsicIndex. rewrite last_index_from_acc by lia.
  pose proof (spec_last_index_floor records). lia.
Qed.

(** The events that the engine selects are those of the injected
    extrinsic. *)
Lemma injected_events records :
  filterEventsByExtrinsicIndex records (getLastExtrinsicIndex records)
  = spec_injected records.
Proof.
  rewrite getLastExtrinsicIndex_spec.
  unfold filterEventsByExtrinsicIndex, spec_injected. f_equal.
  apply filter_ext. intros r. unfold in_phase, applied_by.
  destruct (phase_type (phase r) ==? "ApplyExtrinsic"); reflexivity.
Qed.

(** A bound value was returned by the bound computation. *)
Lemma post_bind_from {S A B} (m : @M S A) (k : A -> @M S B) (Q : B -> Prop) :
  (forall a, (exists t t', m t = (Ok a, t')) -> @post S _ (k a) Q) ->
  @post S _ (bind m k) Q.
Proof.
  intros H. apply post_bind_with with (P := fun a => exists t t', m t = (Ok a, t')).
  - intros t a t' E. eauto.
  - exact H.
Qed.

Lemma post_bind_lift_ok {S A B} (r : Raises A) (k : A -> @M S B) (Q : B -> Prop) :
  (forall a, r = Ok a -> @post S _ (k a) Q) ->
  @post S _ (bind (lift r) k) Q.
Proof.
  intros H s b s'. unfold bind, lift.
  destruct r as [a|e]; [apply (H a eq_refl)|discriminate].
Qed.

Section Engine.
  Context {W Ext : Type}.
  Variable node : Node W Ext.

Lemma run_extrinsic_built_from request sym dec ext recipient_ :
    @post (State W) _ (run_extrinsic node request sym dec ext recipient_)
          (WasmOrigin.built_from node request recipient_).
  Proof.
    unfold run_extrinsic. cbv zeta.
    apply post_bind; intros assetMetadata.
    apply post_bind_from; intros balancesBefore Hsnapshot.
    apply post_bind; intros paymentInfo.
    apply post_bind; intros accountInfo.
    apply post_bind; intros bytes.
    apply post_bind; intros submitted.
    apply post_bind; intros block.
    apply post_bind_from; intros rawEvents (t & t' & Hevents).
    rewrite injected_events.
    destruct (find is_failed (spec_injected (decodeWasmEvents node rawEvents))).
    - repeat ResponseShape.step. split; [reflexivity|intros Hs; discriminate Hs].
    - apply post_bind_lift_ok; intros report Hreport.
      repeat ResponseShape.step. split; [intros Hs; discriminate Hs|].
      intros _. cbn [stateChanges].
      exists rawEvents, balancesBefore, assetMetadata, sym, dec.
      split; [|split; [|exact Hreport]].
      + unfold rpc in Hevents.
        destruct (query_system_events node (world t)) as [r w'] eqn:E.
        injection Hevents as -> _. eauto.
      + destruct Hsnapshot as (u & u' & Hu). exists u, u'.
        destruct (Err.truthy_field recipient_); exact Hu.
  Qed.

Lemma executeWasmSimulation_built_from request :
    @post (State W) _ (executeWasmSimulation node request)
          (WasmOrigin.built_from node request (WasmOrigin.recipient_of request)).
  Proof.
    unfold executeWasmSimulation. repeat ResponseShape.step.
    apply post_try_catch.
    - unfold simulation_body, WasmOrigin.recipient_of.
      destruct (extrinsic request) as [rawHex|p m args].
      + ResponseShape.step. apply run_extrinsic_built_from.
      + destruct (negb (tx_defined node p m)).
        * ResponseShape.step. split; [reflexivity|intros Hs; discriminate Hs].
        * repeat ResponseShape.step. apply run_extrinsic_built_from.
    - intros e. apply ResponseShape.wasm_failed_raises.
  Qed.

End Engine.
End InjectedFacts.

(** C1. Every response of the runtime-module engine that reports a
    success carries a report that the builder made of the events of the
    injected extrinsic, out of the event records that the node reported for
    the new block (the events of the records whose phase is [ApplyExtrinsic]
    of the highest index in the block), and of the snapshot that the
    snapshotter had taken. Whenever the builder returns a report for such
    events, every amount that the reduction reads was parsed after its
    commas were removed, and every row of the report whose address is the
    string [a] shows, for the native token: as [before] the sum
    [free + reserved] of the BEFORE snapshot of [a], or [0] when [a] was not
    snapshotted; as [after] that value plus the delta of [a]; and the change
    [before, after, delta] when the delta is not zero; the delta being the
    sum over those events of [+amount] for a [balances.Transfer] to [a] or a
    [balances.Deposit] to [a], [-amount] for a [balances.Transfer] from [a]
    or a [balances.Withdraw] from [a], and nothing for any other event
    ([Reserved], [Unreserved], other pallets). *)
Theorem buildStateFromEvents_native_delta :
  let reported (records : list Wasm.WasmEventRecord)
               (balancesBefore : list (string * Wasm.BalanceSnapshot))
               (nativeSymbol : string) (nativeDecimals : Z)
               (report : Wasm.WasmStateImpactReport) : Prop :=
    let injected :=
      map Wasm.event
          (filter (fun r => match Wasm.applied_by r with
                            | Some v => (v =? Wasm.spec_last_index records)%Z
                            | None => false
                            end) records) in
    (forall e, In e injected -> Wasm.reads_amount e = true ->
       exists text,
         option_map Wasm.human_toString (Wasm.field e "amount") = Some (Some text)
         /\ JsText.StringToBigInt (JsText.remove_commas text) = Some (Wasm.amount_of e))
    /\
    (forall row a, In row (Wasm.rows report) -> Wasm.address row = Wasm.KString a ->
       let bef := match smap_get balancesBefore a with
                  | Some snapshot => (Wasm.free (Wasm.native snapshot)
                                      + Wasm.reserved (Wasm.native snapshot))%Z
                  | None => 0%Z
                  end in
       let delta :=
         fold_right
           (fun e acc => (Wasm.event_delta (Wasm.KString a) e (Wasm.amount_of e) + acc)%Z)
           0%Z injected in
       let balance amount :=
         {| Wasm.tb_token := nativeSymbol; Wasm.tb_assetId := None;
            Wasm.tb_balance := Js.bigint_toString amount;
            Wasm.tb_decimals := nativeDecimals; Wasm.tb_symbol := nativeSymbol |} in
       Wasm.before row = [balance bef]
       /\ Wasm.after row = [balance (bef + delta)%Z]
       /\ Wasm.changes row
          = if (delta =? 0)%Z then []
            else [{| Wasm.ch_token := nativeSymbol; Wasm.ch_assetId := None;
                     Wasm.ch_before := Js.bigint_toString bef;
                     Wasm.ch_after := Js.bigint_toString (bef + delta);
                     Wasm.ch_delta := Js.bigint_toString delta;
                     Wasm.ch_decimals := nativeDecimals;
                     Wasm.ch_symbol := nativeSymbol |}]) in
  (forall (sender_ : string) (recipient_ : option string)
          (records : list Wasm.WasmEventRecord)
          (balancesBefore : list (string * Wasm.BalanceSnapshot))
          (assetMetadata : list (Z * (string * Z)))
          (nativeSymbol : string) (nativeDecimals : Z)
          (report : Wasm.WasmStateImpactReport),
     Wasm.buildStateFromEvents sender_ recipient_
       (Wasm.filterEventsByExtrinsicIndex records (Wasm.getLastExtrinsicIndex records))
       balancesBefore assetMetadata nativeSymbol nativeDecimals
     = Ok report ->
     Wasm.spec_last_index records = Wasm.getLastExtrinsicIndex records
     /\ reported records balancesBefore nativeSymbol nativeDecimals report)
  /\
  (forall (W Ext : Type) (node : Wasm.Node W Ext) (request : Wasm.WasmSimulateRequest)
          (s s' : Wasm.State W) (response : Wasm.WasmSimulateResponse),
     Wasm.executeWasmSimulation node request s = (Ok response, s') ->
     Wasm.success response = true ->
     exists rawEvents balancesBefore nativeSymbol nativeDecimals,
       (exists w w', Wasm.query_system_events node w = (Ok rawEvents, w'))
       /\ (exists others t t',
             Wasm.captureBalances node (Wasm.req_sender request :: others)
               match Wasm.trackAssets request with Some l => l | None => [] end t
             = (Ok balancesBefore, t'))
       /\ Wasm.address (Wasm.sender (Wasm.stateChanges response))
          = Wasm.KString (Wasm.req_sender request)
       /\ reported (Wasm.decodeWasmEvents node rawEvents) balancesBefore
            nativeSymbol nativeDecimals (Wasm.stateChanges response)).
Proof.
  intros reported.
  assert (Hbuilt : forall sender_ recipient_ records bb am sym dec report,
            Wasm.buildStateFromEvents sender_ recipient_ (Wasm.spec_injected records)
              bb am sym dec = Ok report ->
            reported records bb sym dec report
            /\ Wasm.address (Wasm.sender report) = Wasm.KString sender_).
  { intros sender_ recipient_ records bb am sym dec report Hbuild.
    unfold Wasm.buildStateFromEvents in Hbuild.
    destruct (Wasm.reduce_events [] (Wasm.spec_injected records)) as [m|] eqn:Hred;
      [|discriminate].
    injection Hbuild as <-. split; [|reflexivity].
    unfold reported. fold (Wasm.spec_injected records). split.
    - intros e He Hreads.
      pose proof (DeltaFacts.reduce_events_returns (Wasm.spec_injected records) [])
        as Hret.
      rewrite Hred in Hret. symmetry in Hret. cbn [returns] in Hret.
      rewrite forallb_forall in Hret. specialize (Hret e He). rewrite Hreads in Hret.
      unfold Wasm.amount_of. rewrite Hreads.
      unfold Wasm.parse_amount in *.
      destruct (Wasm.field e "amount") as [h|]; [|discriminate].
      destruct (Wasm.human_toString h) as [text|] eqn:Hh; [|discriminate].
      exists text. split; [cbn [option_map]; rewrite Hh; reflexivity|].
      unfold BigInt in *.
      destruct (JsText.StringToBigInt (JsText.remove_commas text));
        [reflexivity|discriminate].
    - intros row a Hrow Haddr.
      assert (Hm : Wasm.distinct_keys m).
      { eapply DeltaFacts.reduce_events_distinct; [exact Hred|constructor]. }
      pose proof (DeltaReport.rows_of_report _ _ _ _ _ _ _ _ Hm Hrow Haddr) as H.
      rewrite (DeltaFacts.reduce_events_delta _ _ _ (Wasm.KString a) Hred) in H.
      exact H. }
  split.
  - intros sender_ recipient_ records bb am sym dec report Hbuild.
    split; [symmetry; apply InjectedFacts.getLastExtrinsicIndex_spec|].
    rewrite InjectedFacts.injected_events in Hbuild.
    exact (proj1 (Hbuilt _ _ _ _ _ _ _ _ Hbuild)).
  - intros W Ext node request s s' response Hrun Hsuccess.
    destruct (proj2 (InjectedFacts.executeWasmSimulation_built_from node request
                       s response s' Hrun) Hsuccess)
      as (rawEvents & bb & am & sym & dec & Hev & (t & t' & Hsnap) & Hbuild).
    exists rawEvents, bb, sym, dec.
    destruct (Hbuilt _ _ _ _ _ _ _ _ Hbuild) as [Hrep Hsender].
    split; [exact Hev|]. split; [eauto|]. split; [exact Hsender|exact Hrep].
Qed.

(** C1, witness: the balance transfer of scenario S4: a transfer of [1e18]
    from the sender to the recipient and a fee withdrawal of [1e17]. *)
Lemma buildStateFromEvents_native_delta_witness :
  let tx (m : string) (d : list (string * Wasm.Human)) i :=
    {| Wasm.phase := {| Wasm.phase_type := "ApplyExtrinsic"; Wasm.phase_value := Some 2%Z |};
       Wasm.event := {| Wasm.pallet := "balances"; Wasm.method := m;
                        Wasm.data := d; Wasm.index := i |} |} in
  let records :=
    [ tx "Withdraw" [("who", Wasm.HString "5Sender");
                     ("amount", Wasm.HString "100,000,000,000,000,000")] 3%Z;
      tx "Transfer" [("from", Wasm.HString "5Sender"); ("to", Wasm.HString "5Recipient");
                     ("amount", Wasm.HString "1,000,000,000,000,000,000")] 4%Z ] in
  let snapshot f :=
    {| Wasm.native := {| Wasm.free := f; Wasm.reserved := 0; Wasm.frozen := 0 |};
       Wasm.assets := [] |} in
  let balancesBefore :=
    [ ("5Sender", snapshot 2000000000000000000%Z);
      ("5Recipient", snapshot 500000000000000000%Z) ] in
  exists report,
    Wasm.buildStateFromEvents "5Sender" (Some "5Recipient")
      (Wasm.filterEventsByExtrinsicIndex records (Wasm.getLastExtrinsicIndex records))
      balancesBefore [] "ASTR" 18%Z = Ok report
    /\ map Wasm.tb_balance (Wasm.after (Wasm.sender report)) = ["900000000000000000"]
    /\ option_map (fun row => map Wasm.tb_balance (Wasm.after row))
                  (Wasm.recipient report)
       = Some ["1500000000000000000"].
Proof.
  intros tx records snapshot balancesBefore.
  eexists. split; [vm_compute; reflexivity|].
  match goal with
  | |- context [Wasm.sender ?r] => set (report := r)
  end.
  assert (Hbuild :
    Wasm.buildStateFromEvents "5Sender" (Some "5Recipient")
      (Wasm.filterEventsByExtrinsicIndex records (Wasm.getLastExtrinsicIndex records))
      balancesBefore [] "ASTR" 18%Z = Ok report) by (vm_compute; reflexivity).
  pose proof (proj1 buildStateFromEvents_native_delta _ _ _ _ _ _ _ _ Hbuild)
    as (_ & _ & Hrows).
  split.
  - destruct (Hrows (Wasm.sender report) "5Sender") as (_ & Hafter & _).
    + left. reflexivity.
    + reflexivity.
    + rewrite Hafter. vm_compute. reflexivity.
  - vm_compute. reflexivity.
Defined.

(* ------------------------------------------------------------------ *)
(** * The balance snapshotters *)
(* ------------------------------------------------------------------ *)

Module SnapshotFacts.
Import Async AsyncFacts AsyncEnsures.

(** A loop over a list in two parts. *)
Lemma for_each_app {S A X} (body : A -> X -> @Async.M S A) (xs ys : list X) :
  forall acc s,
    Async.for_each (xs ++ ys) acc body s
    = Async.bind (Async.for_each xs acc body)
        (fun acc' => Async.for_each ys acc' body) s.
Proof.
  induction xs as [|x xs IH]; intros acc s; cbn [app Async.for_each].
  - reflexivity.
  - unfold Async.bind at 1 2 3.
    destruct (body acc x s) as [[acc1|e] s1]; [|reflexivity].
    rewrite IH. reflexivity.
Qed.

Lemma smap_get_set_same {V} (m : list (string * V)) k v :
  smap_get (smap_set m k v) k = Some v.
Proof.
  unfold smap_get, smap_set.
  induction m as [|[k0 v0] m IH]; simpl.
  - rewrite String.eqb_refl. reflexivity.
  - destruct (k0 ==? k) eqn:E; simpl; rewrite E; auto.
Qed.

Lemma smap_get_set_other {V} (m : list (string * V)) k v k' :
  k <> k' -> smap_get (smap_set m k v) k' = smap_get m k'.
Proof.
  intros Hne. unfold smap_get, smap_set.
  induction m as [|[k0 v0] m IH]; simpl.
  - apply String.eqb_neq in Hne. rewrite Hne. reflexivity.
  - destruct (k0 ==? k) eqn:E; simpl.
    + apply String.eqb_eq in E. subst k0.
      apply String.eqb_neq in Hne. rewrite Hne. reflexivity.
    + destruct (k0 ==? k'); auto.
Qed.

Lemma smap_set_keeps {V} (m : list (string * V)) k v k' :
  smap_get m k' <> None -> smap_get (smap_set m k v) k' <> None.
Proof.
  intros H. destruct (String.eqb_spec k k') as [->|Hne].
  - rewrite smap_get_set_same. discriminate.
  - rewrite smap_get_set_other; assumption.
Qed.

Section Wasm.
  Context {W Ext : Type}.
  Variable node : Wasm.Node W Ext.

Ltac step := ResponseShape.step.

Lemma capture_asset_total addr assets_ assetId :
    total (Wasm.capture_asset node addr assets_ assetId).
  Proof.
    unfold Wasm.capture_asset. apply total_try_catch. intros e. apply total_ret.
  Qed.

  (** One address: the read returns a map in which the address is set. *)
Lemma capture_address_sets assetIds snapshots addr :
    ensures (Wasm.capture_address node assetIds snapshots addr)
            (fun snapshots' => exists snapshot,
               snapshots' = smap_set snapshots addr snapshot).
  Proof.
    apply ensures_of_total_post.
    - unfold Wasm.capture_address. apply total_try_catch. intros e.
      apply total_bind; [apply total_modify|]. intros _. apply total_ret.
    - unfold Wasm.capture_address. apply post_try_catch.
      + repeat step. eexists. reflexivity.
      + intros e. repeat step. eexists. reflexivity.
  Qed.

Lemma captureBalances_covers addresses assetIds :
    ensures (Wasm.captureBalances node addresses assetIds)
            (fun snapshots => forall a, In a addresses -> smap_get snapshots a <> None).
  Proof.
    unfold Wasm.captureBalances.
    set (I := fun (done : list string) (snapshots : list (string * Wasm.BalanceSnapshot)) =>
                forall a, In a done -> smap_get snapshots a <> None).
    change (ensures (for_each addresses [] (Wasm.capture_address node assetIds))
                    (fun snapshots => I ([] ++ addresses) snapshots)).
    apply ensures_for_each.
    - intros done acc x HI.
      eapply ensures_weaken; [apply capture_address_sets|].
      intros acc' (snapshot & ->) a Ha.
      apply in_app_or in Ha. destruct Ha as [Ha|[<-|[]]].
      + apply smap_set_keeps. apply HI. exact Ha.
      + rewrite smap_get_set_same. discriminate.
    - intros a [].
  Qed.

End Wasm.
End SnapshotFacts.

(** C7 (as amended). The runtime-module snapshotter never raises: on every
    state of every node it returns a map in which every requested address
    appears; an address whose native account read raises is entered with the
    zero snapshot (no assets) and one warning is written; a per-asset read
    never raises, and gives balance 0 when the read raises, when the asset
    account is missing and when its balance does not parse. On the
    account-model side the per-token read never raises and gives 0 when the
    contract call raises; the native read is not guarded there: when the
    snapshotter has returned for the addresses before [a] and the native
    balance read of [a] raises, the snapshotter raises that error, and no
    map is returned. *)
Theorem snapshotter_failure_policy :
  (forall (W Ext : Type) (node : Wasm.Node W Ext) (addresses : list string)
          (assetIds : list Z) (s : Wasm.State W),
     exists snapshots s',
       Wasm.captureBalances node addresses assetIds s = (Ok snapshots, s')
       /\ forall a, In a addresses ->
            exists snapshot, smap_get snapshots a = Some snapshot)
  /\
  (forall (W Ext : Type) (node : Wasm.Node W Ext) (assetIds : list Z)
          (snapshots : list (string * Wasm.BalanceSnapshot)) (a : string)
          (s : Wasm.State W) (e : Err.ErrorValue) (w' : W),
     Wasm.query_system_account node a (Wasm.world s) = (Throw e, w') ->
     Wasm.capture_address node assetIds snapshots a s
     = (Ok (smap_set snapshots a Wasm.zero_snapshot),
        {| Wasm.world := w'; Wasm.chopsticks := Wasm.chopsticks s;
           Wasm.chainPropertiesCache := Wasm.chainPropertiesCache s;
           Wasm.console := Wasm.console s ++ [(Wasm.balance_warning a, Some e)] |}))
  /\
  (forall (W Ext : Type) (node : Wasm.Node W Ext) (a : string)
          (assets_ : list (Z * Z)) (assetId : Z) (s : Wasm.State W),
     exists assets' s',
       Wasm.capture_asset node a assets_ assetId s = (Ok assets', s')
       /\ (Wasm.has_assets_account node = true ->
           assets'
           = Wasm.amap_set assets_ assetId
               match fst (Wasm.query_assets_account node assetId a (Wasm.world s)) with
               | Ok (Some balance) =>
                   match JsText.StringToBigInt balance with
                   | Some z => z
                   | None => 0%Z
                   end
               | Ok None => 0%Z
               | Throw _ => 0%Z
               end))
  /\
  (forall (W Tx : Type) (fork : Evm.Fork W Tx) (token wallet : string)
          (s : Evm.State W),
     exists balance s',
       Evm.getTokenBalance fork token wallet s = (Ok balance, s')
       /\ (returns (Evm.new_Contract fork token) = false
           \/ returns (fst (Evm.call_balanceOf fork token wallet (Evm.world s))) = false ->
           balance = 0%Z))
  /\
  (forall (W Tx : Type) (fork : Evm.Fork W Tx) (done rest : list string) (a : string)
          (tokenAddresses : list string) (s s1 : Evm.State W)
          (snapshots : list (string * StateImpact.BalanceSnapshot))
          (e : Err.ErrorValue) (w' : W),
     Evm.captureBalances fork done tokenAddresses s = (Ok snapshots, s1) ->
     Evm.rpc_getBalance fork a (Evm.world s1) = (Throw e, w') ->
     fst (Evm.captureBalances fork (done ++ a :: rest) tokenAddresses s) = Throw e).
Proof.
  split; [|split; [|split; [|split]]].
  5: { intros W Tx fork done rest a tokens s s1 snapshots e w' Hdone Hread.
       unfold Evm.captureBalances in *.
       rewrite SnapshotFacts.for_each_app. unfold Async.bind at 1. rewrite Hdone.
       cbn [Async.for_each]. unfold Async.bind, Evm.rpc. cbn [Evm.world].
       rewrite Hread. reflexivity. }
  - intros W Ext node addresses assetIds s.
    destruct (SnapshotFacts.captureBalances_covers node addresses assetIds s)
      as (snapshots & s' & E & H).
    exists snapshots, s'. split; [exact E|].
    intros a Ha. specialize (H a Ha).
    destruct (smap_get snapshots a) as [snapshot|]; [eauto|contradiction].
  - intros W Ext node assetIds snapshots a s e w' H.
    unfold Wasm.capture_address, Async.try_catch, Async.bind, Wasm.rpc.
    rewrite H. reflexivity.
  - intros W Ext node a assets_ assetId s.
    unfold Wasm.capture_asset, Async.try_catch, Async.bind, Async.ret, Async.lift, Wasm.rpc.
    destruct (Wasm.has_assets_account node).
    + destruct (Wasm.query_assets_account node assetId a (Wasm.world s))
        as [[[balance|]|e] w']; cbn [fst].
      * unfold BigInt. destruct (JsText.StringToBigInt balance);
          eexists; eexists; split; reflexivity || (intros _; reflexivity).
      * eexists; eexists; split; reflexivity || (intros _; reflexivity).
      * eexists; eexists; split; reflexivity || (intros _; reflexivity).
    + eexists; eexists; split; [reflexivity|discriminate].
  - intros W Tx fork token wallet s.
    unfold Evm.getTokenBalance, Async.try_catch, Async.bind, Async.ret, Async.lift, Evm.rpc.
    destruct (Evm.new_Contract fork token) as [u|e]; cbn [returns].
    + destruct (Evm.call_balanceOf fork token wallet (Evm.world s)) as [[b|e] w'];
        cbn [fst returns]; eexists; eexists; (split; [reflexivity|]).
      * intros [H|H]; discriminate.
      * reflexivity.
    + eexists; eexists; split; reflexivity.
Qed.

(** C7, witness: on a node whose native account read fails, the
    runtime-module snapshotter returns a map that holds the requested
    address, entered with the zero snapshot, and writes one warning. *)
Lemma snapshotter_failure_policy_witness :
  (exists snapshots s',
     Wasm.captureBalances Scenario.node_without_accounts ["5Sender"] [1%Z]
       Scenario.wasm_connected = (Ok snapshots, s')
     /\ forall a, In a ["5Sender"] ->
          exists snapshot, smap_get snapshots a = Some snapshot)
  /\ Wasm.capture_address Scenario.node_without_accounts [1%Z] [] "5Sender"
       Scenario.wasm_connected
     = (Ok [("5Sender", Wasm.zero_snapshot)],
        {| Wasm.world := tt;
           Wasm.chopsticks := Wasm.chopsticks Scenario.wasm_connected;
           Wasm.chainPropertiesCache := None;
           Wasm.console := [("Failed to get balance for 5Sender:",
                             Some (Err.new_Error "Connection lost"))] |}).
Proof.
  destruct snapshotter_failure_policy as (Htotal & Hzero & _).
  split.
  - apply Htotal.
  - apply (Hzero unit unit Scenario.node_without_accounts [1%Z] [] "5Sender"
             Scenario.wasm_connected (Err.new_Error "Connection lost") tt).
    reflexivity.
Defined.

(** C7, counterexample. The account-model snapshotter has no guard around
    the native balance read: when it raises, [captureBalances] raises, and
    the engine answers with [success=false]. *)
Lemma evm_captureBalances_counterexample :
  fst (Evm.captureBalances Scenario.fork_without_balances
         [Scenario.SENDER] [] Scenario.connected)
  = Throw (Err.new_Error "Balance fetch failed")
  /\ option_map Evm.success
       (match fst (Evm.executeSimulation Scenario.lib Scenario.fork_without_balances
                     "GLMR" Scenario.request Scenario.connected) with
        | Ok response => Some response
        | Throw _ => None
        end)
     = Some false.
Proof. split; vm_compute; reflexivity. Qed.

(* ------------------------------------------------------------------ *)
(** * Account-model state impact: the rows of a report *)
(* ------------------------------------------------------------------ *)

Module ReportFacts.
Import StateImpact.

Lemma buildAddressState_address addr bef aft md sym :
  address (buildAddressState addr bef aft md sym) = Js.toLowerCase addr.
Proof.
  unfold buildAddressState.
  destruct (token_rows _ _ _ _ _) as [[b a] c]. reflexivity.
Qed.

(** The change list does not depend on the address of the row. *)
Lemma buildAddressState_changes addr addr' bef aft md sym :
  changes (buildAddressState addr bef aft md sym)
  = changes (buildAddressState addr' bef aft md sym).
Proof.
  unfold buildAddressState.
  destruct (token_rows _ _ _ _ _) as [[b a] c]. reflexivity.
Qed.

Lemma sset_has_pair x y a :
  sset_has (sset_of [x; y]) a = (x ==? a) || (y ==? a).
Proof.
  unfold sset_of, JsMap.set_of, sset_has. simpl.
  unfold JsMap.set_add at 2. simpl.
  unfold JsMap.set_add, JsMap.set_has. simpl.
  rewrite orb_false_r.
  destruct (x ==? y) eqn:Hxy; simpl.
  - apply String.eqb_eq in Hxy. subst y.
    destruct (x ==? a); reflexivity.
  - rewrite !orb_false_r. reflexivity.
Qed.

Notation count a l := (count_occ string_dec l a).

Section Others.
  Variable excludeAddresses : list string.
  Variable balancesAfter : list (string * BalanceSnapshot).
  Variable md : list (string * Metadata).
  Variable sym : string.

  Notation others := (other_affected excludeAddresses balancesAfter md sym).

  (** Every row of the loop carries the lower-cased key of an entry that is
      not excluded. *)
Lemma others_In entries a :
    In a (map address (others entries)) ->
    exists k, In k (map fst entries) /\ a = Js.toLowerCase k
              /\ sset_has excludeAddresses k = false.
  Proof.
    induction entries as [|[k0 b0] entries IH]; simpl; [tauto|].
    destruct (sset_has excludeAddresses k0) eqn:Hex.
    - intros H. destruct (IH H) as (k & Hk & Ha & He). eauto.
    - destruct (smap_get balancesAfter k0) as [a0|].
      + destruct (changes (buildAddressState k0 b0 a0 md sym)) eqn:Hc.
        * intros H. destruct (IH H) as (k & Hk & Ha & He). eauto.
        * simpl. rewrite buildAddressState_address.
          intros [<-|H]; [eauto|].
          destruct (IH H) as (k & Hk & Ha & He). eauto.
      + intros H. destruct (IH H) as (k & Hk & Ha & He). eauto.
  Qed.

Lemma others_count_absent entries a :
    (forall k, In k (map fst entries) -> Js.toLowerCase k = k) ->
    ~ In a (map fst entries) ->
    count a (map address (others entries)) = 0.
  Proof.
    intros Hlow Hnotin. apply count_occ_not_In.
    intros H. apply others_In in H. destruct H as (k & Hk & -> & _).
    rewrite (Hlow k Hk) in Hnotin. contradiction.
  Qed.

Lemma others_count_excluded entries a :
    (forall k, In k (map fst entries) -> Js.toLowerCase k = k) ->
    sset_has excludeAddresses a = true ->
    count a (map address (others entries)) = 0.
  Proof.
    intros Hlow Hex. apply count_occ_not_In.
    intros H. apply others_In in H. destruct H as (k & Hk & -> & He).
    rewrite (Hlow k Hk) in Hex. congruence.
  Qed.

  (** An entry that is not excluded, is present in AFTER and has a change
      gives exactly one row. *)
Lemma others_count_changed entries a bs afs :
    NoDup (map fst entries) ->
    (forall k, In k (map fst entries) -> Js.toLowerCase k = k) ->
    In (a, bs) entries ->
    sset_has excludeAddresses a = false ->
    smap_get balancesAfter a = Some afs ->
    changes (buildAddressState a bs afs md sym) <> [] ->
    count a (map address (others entries)) = 1.
  Proof.
    induction entries as [|[k0 b0] entries IH]; intros Hnd Hlow Hin Hex Haft Hch;
      [destruct Hin|].
    simpl in Hnd. inversion Hnd as [|? ? Hnotin Hnd']; subst.
    assert (Hlow' : forall k, In k (map fst entries) -> Js.toLowerCase k = k)
      by (intros k Hk; apply Hlow; right; exact Hk).
    destruct Hin as [[= -> ->]|Hin].
    - simpl. rewrite Hex, Haft.
      destruct (changes (buildAddressState a bs afs md sym)) eqn:Hc; [contradiction|].
      simpl. rewrite buildAddressState_address.
      rewrite (Hlow a (or_introl eq_refl)).
      simpl. destruct (string_dec a a); [|contradiction].
      f_equal. apply (others_count_absent entries a Hlow' Hnotin).
    - assert (Hne : k0 <> a).
      { intros ->. apply Hnotin. apply (in_map fst) in Hin. exact Hin. }
      assert (IH' := IH Hnd' Hlow' Hin Hex Haft Hch).
      simpl. destruct (sset_has excludeAddresses k0); [exact IH'|].
      destruct (smap_get balancesAfter k0) as [a0|]; [|exact IH'].
      destruct (changes (buildAddressState k0 b0 a0 md sym)); [exact IH'|].
      simpl. rewrite buildAddressState_address.
      rewrite (Hlow k0 (or_introl eq_refl)).
      simpl. destruct (string_dec k0 a); [contradiction|exact IH'].
  Qed.

End Others.

Lemma smap_get_In {V} (m : list (string * V)) k v :
  smap_get m k = Some v -> In (k, v) m.
Proof.
  unfold smap_get. induction m as [|[k0 v0] m IH]; simpl; [discriminate|].
  destruct (k0 ==? k) eqn:E.
  - apply String.eqb_eq in E. subst k0. intros [= ->]. left. reflexivity.
  - intros H. right. apply IH. exact H.
Qed.

End ReportFacts.

(** C6 (as amended). Given BEFORE and AFTER maps whose BEFORE keys are in
    canonical (lower-case) form, as the engine builds them, and a sender and
    counterparty that are different addresses: whenever the builder returns
    a report, every address that appears in both maps and has at least one
    non-zero balance change is reported exactly once, as the sender, as the
    counterparty or as one entry of the other-affected list. *)
Theorem changed_address_reported_once :
  forall (tokenMetadata : list (string * StateImpact.Metadata))
         (sender_ transactionTo : string)
         (balancesBefore balancesAfter : list (string * StateImpact.BalanceSnapshot))
         (nativeSymbol : string) (tokenRecipient : option string)
         (report : StateImpact.StateImpactReport),
    let recipientAddress := match Err.truthy_field tokenRecipient with
                            | Some r => r
                            | None => transactionTo
                            end in
    NoDup (map fst balancesBefore) ->
    (forall k, In k (map fst balancesBefore) -> Js.toLowerCase k = k) ->
    Js.toLowerCase sender_ <> Js.toLowerCase recipientAddress ->
    StateImpact.assembleStateImpactReport tokenMetadata sender_ transactionTo
      balancesBefore balancesAfter nativeSymbol tokenRecipient = Ok report ->
    forall a snapshotBefore snapshotAfter,
      smap_get balancesBefore a = Some snapshotBefore ->
      smap_get balancesAfter a = Some snapshotAfter ->
      StateImpact.changes_between tokenMetadata nativeSymbol
                                  snapshotBefore snapshotAfter <> [] ->
      count_occ string_dec (StateImpact.reported_addresses report) a = 1.
Proof.
  intros md sender_ to bb ba sym tr report recipientAddress Hnd Hlow Hdiff Hbuild
         a bs afs Hb Ha Hch.
  unfold StateImpact.assembleStateImpactReport in Hbuild.
  destruct (smap_get bb (Js.toLowerCase sender_)) as [sb|]; [|discriminate].
  destruct (smap_get ba (Js.toLowerCase sender_)) as [sa|]; [|discriminate].
  injection Hbuild as <-. fold recipientAddress.
  unfold StateImpact.reported_addresses.
  cbn [StateImpact.sender StateImpact.recipient StateImpact.contractsAffected].
  rewrite !ReportFacts.buildAddressState_address.
  apply ReportFacts.smap_get_In in Hb.
  assert (Hkey : In a (map fst bb)) by (apply (in_map fst) in Hb; exact Hb).
  set (ls := Js.toLowerCase sender_) in *.
  set (lr := Js.toLowerCase recipientAddress) in *.
  set (excl := sset_of [ls; lr]).
  assert (Hex : sset_has excl a = (ls ==? a) || (lr ==? a))
    by apply ReportFacts.sset_has_pair.
  cbn [count_occ].
  destruct (string_dec ls a) as [Hs|Hs]; destruct (string_dec lr a) as [Hr|Hr].
  - congruence.
  - f_equal. apply ReportFacts.others_count_excluded; [exact Hlow|].
    rewrite Hex. subst a. rewrite String.eqb_refl. reflexivity.
  - f_equal. apply ReportFacts.others_count_excluded; [exact Hlow|].
    rewrite Hex. subst a. rewrite String.eqb_refl. apply orb_true_r.
  - apply ReportFacts.others_count_changed with (bs := bs) (afs := afs); auto.
    + rewrite Hex. apply String.eqb_neq in Hs, Hr. rewrite Hs, Hr. reflexivity.
    + unfold StateImpact.changes_between in Hch.
      rewrite (ReportFacts.buildAddressState_changes a "" bs afs md sym). exact Hch.
Qed.

(** C6, witness: sender [0xaa], counterparty [0xbb], and a third address
    [0xcc] whose native balance changed: it is reported once. *)
Lemma changed_address_reported_once_witness :
  exists report,
    StateImpact.assembleStateImpactReport [] "0xAA" "0xBB"
      Scenario.before3 Scenario.after3 "ETH" None = Ok report
    /\ count_occ string_dec (StateImpact.reported_addresses report) "0xcc" = 1
    /\ count_occ string_dec (StateImpact.reported_addresses report) "0xaa" = 1.
Proof.
  eexists. split; [vm_compute; reflexivity|].
  split.
  - apply (changed_address_reported_once [] "0xAA" "0xBB"
             Scenario.before3 Scenario.after3 "ETH" None _)
      with (snapshotBefore := Scenario.snap 7)
           (snapshotAfter := Scenario.snap 8).
    + repeat constructor; simpl; intuition discriminate.
    + simpl. intros k [<-|[<-|[<-|[]]]]; reflexivity.
    + vm_compute. discriminate.
    + vm_compute. reflexivity.
    + reflexivity.
    + reflexivity.
    + vm_compute. discriminate.
  - apply (changed_address_reported_once [] "0xAA" "0xBB"
             Scenario.before3 Scenario.after3 "ETH" None _)
      with (snapshotBefore := Scenario.snap 10)
           (snapshotAfter := Scenario.snap 9).
    + repeat constructor; simpl; intuition discriminate.
    + simpl. intros k [<-|[<-|[<-|[]]]]; reflexivity.
    + vm_compute. discriminate.
    + vm_compute. reflexivity.
    + reflexivity.
    + reflexivity.
    + vm_compute. discriminate.
Defined.

(** C6, counterexamples. (1) A sender that is its own counterparty and
    whose balance changed occupies both rows: it is reported twice. (2) An
    address with a balance that appears in the AFTER map only is not
    reported at all. (3) With keys that are not in canonical form, two
    entries of the BEFORE map give two rows with the same address. *)
Lemma changed_address_reported_once_counterexample :
  (exists report,
     StateImpact.assembleStateImpactReport [] "0xaa" "0xaa"
       [("0xaa", Scenario.snap 10)] [("0xaa", Scenario.snap 9)]
       "ETH" None = Ok report
     /\ StateImpact.changes (StateImpact.sender report) <> []
     /\ count_occ string_dec (StateImpact.reported_addresses report) "0xaa" = 2)
  /\
  (exists report,
     StateImpact.assembleStateImpactReport [] "0xaa" "0xbb"
       [("0xaa", Scenario.snap 10); ("0xbb", Scenario.snap 0)]
       [("0xaa", Scenario.snap 9); ("0xbb", Scenario.snap 0);
        ("0xcc", Scenario.snap 5)]
       "ETH" None = Ok report
     /\ count_occ string_dec (StateImpact.reported_addresses report) "0xcc" = 0)
  /\
  (exists report,
     StateImpact.assembleStateImpactReport [] "0xaa" "0xbb"
       [("0xaa", Scenario.snap 10); ("0xbb", Scenario.snap 0);
        ("0xcc", Scenario.snap 1); ("0xCC", Scenario.snap 1)]
       [("0xaa", Scenario.snap 9); ("0xbb", Scenario.snap 0);
        ("0xcc", Scenario.snap 2); ("0xCC", Scenario.snap 3)]
       "ETH" None = Ok report
     /\ count_occ string_dec (StateImpact.reported_addresses report) "0xcc" = 2).
Proof.
  repeat split.
  - eexists. split; [vm_compute; reflexivity|]. split; [vm_compute; discriminate|].
    vm_compute. reflexivity.
  - eexists. split; vm_compute; reflexivity.
  - eexists. split; vm_compute; reflexivity.
Qed.

(* ------------------------------------------------------------------ *)
(** * The account-model engine when the second-pass revert fails *)
(* ------------------------------------------------------------------ *)

Module SecondPass.
Import Async.

Section Facts.
  Context {W Tx : Type}.
  Variable lib : Evm.EthersLib.
  Variable fork : Evm.Fork W Tx.
  Variable NATIVE_SYMBOL : string.

  (** The second pass raises its FATAL error when the revert answers
      [false]. *)
Lemma second_pass_revert_false request snapshotId a rest tokens_ s s1 :
    Evm.revert fork snapshotId s = (Ok false, s1) ->
    Evm.second_pass fork request snapshotId (a :: rest) tokens_ s
    = (Throw (Err.new_Error Evm.FATAL_HISTORICAL), s1).
  Proof.
    intros H. unfold Evm.second_pass, bind. rewrite H. reflexivity.
  Qed.

  (** Whatever the [try] block raises is handed to the decoder, and every
      decoded error becomes a normal response: the [catch] block does not
      tell the FATAL error of the second pass from any other. *)
Lemma catch_block_returns request snapshotId s e s1 decoded :
    Evm.simulation_body lib fork NATIVE_SYMBOL request snapshotId s = (Throw e, s1) ->
    Evm.decodeEVMError lib e = Ok decoded ->
    try_catch (Evm.simulation_body lib fork NATIVE_SYMBOL request snapshotId)
              (Evm.simulation_failed lib NATIVE_SYMBOL request) s
    = (Ok {| Evm.success := false;
             Evm.stateChanges := Evm.emptyStateReport request;
             Evm.events := [];
             Evm.gas := Evm.emptyGasReport NATIVE_SYMBOL;
             Evm.error := Some decoded |}, s1).
  Proof.
    intros Hbody Hdec. unfold try_catch. rewrite Hbody.
    unfold Evm.simulation_failed, bind, lift, ret. rewrite Hdec. reflexivity.
  Qed.

  (** The message of the only exception that the [finally] block raises
      names the revert error and the reset error. *)
Lemma cleanup_raises request snapshotId s e s' :
    Evm.cleanup fork request snapshotId s = (Throw e, s') ->
    exists revertError resetError,
      e = Err.new_Error (Evm.fatal_cleanup_message revertError resetError).
  Proof.
    unfold Evm.cleanup, bind, try_catch, gets, ret, throw.
    destruct (Evm.impersonating s).
    - destruct (Evm.stopImpersonating fork (Evm.sender request) s) as [[u|e0] s0].
      + destruct (Evm.revert fork snapshotId s0) as [[[|]|e1] s1]; cbn [negb].
        * discriminate.
        * destruct (Evm.reset fork s1) as [[u2|e2] s2]; [discriminate|].
          intros [= <- _]. eauto.
        * destruct (Evm.reset fork s1) as [[u2|e2] s2]; [discriminate|].
          intros [= <- _]. eauto.
      + destruct (Evm.revert fork snapshotId s0) as [[[|]|e1] s1]; cbn [negb].
        * discriminate.
        * destruct (Evm.reset fork s1) as [[u2|e2] s2]; [discriminate|].
          intros [= <- _]. eauto.
        * destruct (Evm.reset fork s1) as [[u2|e2] s2]; [discriminate|].
          intros [= <- _]. eauto.
    - destruct (Evm.revert fork snapshotId s) as [[[|]|e1] s1]; cbn [negb].
      + discriminate.
      + destruct (Evm.reset fork s1) as [[u2|e2] s2]; [discriminate|].
        intros [= <- _]. eauto.
      + destruct (Evm.reset fork s1) as [[u2|e2] s2]; [discriminate|].
        intros [= <- _]. eauto.
  Qed.

End Facts.
End SecondPass.

(** C3, the code at the failing input. The first execution emits a
    [Transfer] between two addresses that were not tracked, so the
    address-expansion pass discovers a non-empty set; the fork answers
    [false] to the mid-algorithm [evm_revert] and [true] to the final one.
    The engine does not raise: it returns a normal response with
    [success=false] whose error is the decoded FATAL message. When the final
    revert and the reset fail as well, the engine raises, and the message
    names the errors of the final revert and of the reset, not the error of
    the mid-algorithm revert. *)
Theorem mid_revert_failure_returns_normally :
  let events_ := Evm.decodeLogs Scenario.lib [Scenario.transfer_log] in
  let tracked := sset_of [Scenario.SENDER; Scenario.TOKEN] in
  Evm.discover_addresses tracked events_ = [Scenario.HOLDER; Scenario.PAYEE]
  /\ (exists s',
        Evm.executeSimulation Scenario.lib
          (Scenario.fork (fun n => negb (Nat.eqb n 0)) true [Scenario.transfer_log])
          "GLMR" Scenario.request Scenario.connected
        = (Ok {| Evm.success := false;
                 Evm.stateChanges := Evm.emptyStateReport Scenario.request;
                 Evm.events := [];
                 Evm.gas := Evm.emptyGasReport "GLMR";
                 Evm.error :=
                   Some {| ErrorDecoder.type := ErrorDecoder.unknown;
                           ErrorDecoder.message := JsValue.VString Evm.FATAL_HISTORICAL;
                           ErrorDecoder.raw := None |} |}, s'))
  /\ fst (Evm.executeSimulation Scenario.lib
            (Scenario.fork (fun _ => false) false [Scenario.transfer_log])
            "GLMR" Scenario.request Scenario.connected)
     = Throw (Err.new_Error
                (Evm.fatal_cleanup_message (Err.new_Error Evm.FATAL_REVERT)
                                           (Err.new_Error "Reset failed"))).
Proof.
  split; [vm_compute; reflexivity|]. split.
  - eexists. vm_compute. reflexivity.
  - vm_compute. reflexivity.
Qed.

(* ------------------------------------------------------------------ *)
(** * The counterparty row of a state-impact report *)
(* ------------------------------------------------------------------ *)

Module CounterpartyFacts.
Import Async AsyncFacts.

(** The address of the counterparty row that the builder assembles. *)
Lemma assembled_recipient md sender_ to bb ba sym tokenRecipient report :
  StateImpact.assembleStateImpactReport md sender_ to bb ba sym tokenRecipient
  = Ok report ->
  StateImpact.address (StateImpact.recipient report)
  = Js.toLowerCase (match Err.truthy_field tokenRecipient with
                    | Some r => r
                    | None => to
                    end)
  /\ StateImpact.address (StateImpact.sender report) = Js.toLowerCase sender_.
Proof.
  unfold StateImpact.assembleStateImpactReport.
  destruct (smap_get bb _); [|discriminate].
  destruct (smap_get ba _); [|discriminate].
  intros [= <-]. cbn [StateImpact.recipient StateImpact.sender].
  rewrite !ReportFacts.buildAddressState_address. auto.
Qed.

(** An extracted recipient is never the empty string. *)
Lemma extracted_truthy ck icap data :
  Err.truthy_field (extractTransferRecipient ck icap data)
  = extractTransferRecipient ck icap data.
Proof.
  destruct (extractTransferRecipient ck icap data) as [r|] eqn:E; [|reflexivity].
  apply extract_Some_iff in E.
  destruct E as (d & _ & [(_ & _ & -> & _)|(_ & _ & -> & _)]); reflexivity.
Qed.

Section Engine.
  Context {W Tx : Type}.
  Variable lib : Evm.EthersLib.
  Variable fork : Evm.Fork W Tx.
  Variable NATIVE_SYMBOL : string.

Lemma buildStateImpactReport_counterparty sender_ to tokens_ bb ba sym tr :
    post (Evm.buildStateImpactReport fork sender_ to tokens_ bb ba sym tr)
         (fun report =>
            StateImpact.address (StateImpact.recipient report)
            = Js.toLowerCase (match Err.truthy_field tr with
                              | Some r => r
                              | None => to
                              end)).
  Proof.
    unfold Evm.buildStateImpactReport.
    apply post_bind; intros md. apply post_lift. intros report H.
    apply assembled_recipient in H. apply H.
  Qed.

  (** The [try] block of the engine hands the calldata-extracted recipient
      to the builder. *)
Lemma simulation_body_counterparty request snapshotId :
    post (Evm.simulation_body lib fork NATIVE_SYMBOL request snapshotId)
         (fun response =>
            StateImpact.address (StateImpact.recipient (Evm.stateChanges response))
            = Js.toLowerCase
                (match Evm.extractTransferRecipient
                         lib (Evm.data (Evm.transaction request)) with
                 | Some r => r
                 | None => Evm.to (Evm.transaction request)
                 end)).
  Proof.
    unfold Evm.simulation_body.
    do 8 (apply post_bind; intros).
    destruct (Evm.merge_discovered _ _ _ _) as [tracked2 bb].
    apply post_bind; intros.
    eapply post_bind_with; [apply buildStateImpactReport_counterparty|].
    intros report Hreport. apply post_ret. cbn [Evm.stateChanges].
    rewrite Hreport. unfold Evm.extractTransferRecipient.
    rewrite extracted_truthy. reflexivity.
  Qed.

  (** The [catch] block reports the transaction's [to] address. *)
Lemma simulation_failed_counterparty request e :
    post (Evm.simulation_failed (W := W) lib NATIVE_SYMBOL request e)
         (fun response =>
            StateImpact.address (StateImpact.recipient (Evm.stateChanges response))
            = Js.toLowerCase (Evm.to (Evm.transaction request))).
  Proof.
    unfold Evm.simulation_failed. apply post_bind; intros.
    apply post_ret. reflexivity.
  Qed.

  (** Every response of the engine: the report of the [try] block, or the
      placeholder of the [catch] block. *)
Lemma executeSimulation_counterparty request :
    post (Evm.executeSimulation lib fork NATIVE_SYMBOL request)
         (fun response =>
            StateImpact.address (StateImpact.recipient (Evm.stateChanges response))
            = Js.toLowerCase
                (match Evm.extractTransferRecipient
                         lib (Evm.data (Evm.transaction request)) with
                 | Some r => r
                 | None => Evm.to (Evm.transaction request)
                 end)
            \/ (Evm.success response = false
                /\ Evm.stateChanges response = Evm.emptyStateReport request)).
  Proof.
    unfold Evm.executeSimulation. repeat ResponseShape.step.
    apply post_try_finally, post_try_catch.
    - intros s r s' H. left.
      exact (simulation_body_counterparty request _ s r s' H).
    - intros e. unfold Evm.simulation_failed. apply post_bind; intros.
      apply post_ret. right. split; reflexivity.
  Qed.

End Engine.
End CounterpartyFacts.

Module CounterpartyB.
Import Wasm DeltaFacts.

Lemma report_rows sender_ recipient_ bb sym dec m :
  distinct_keys m ->
  let report := report_of_deltas sender_ recipient_ bb sym dec m in
  address (sender report) = KString sender_
  /\ (forall row, recipient report = Some row <->
        exists r, Err.truthy_field recipient_ = Some r
                  /\ delta_of m (KString r) <> 0%Z
                  /\ row = address_state sym dec (KString r)
                             (total_before bb (KString r))
                             (delta_of m (KString r)) true)
  /\ (forall row a, In row (otherAffected report) -> address row = KString a ->
        delta_of m (KString a) <> 0%Z /\ a <> sender_ /\ recipient_ <> Some a).
Proof.
  intros Hm report. split; [reflexivity|]. split.
  - intros row. unfold report, report_of_deltas. cbn [recipient].
    destruct (Err.truthy_field recipient_) as [r|].
    + destruct (delta_of m (KString r) =? 0)%Z eqn:Hd.
      * apply Z.eqb_eq in Hd. split; [discriminate|].
        intros (r' & [= <-] & Hne & _). contradiction.
      * apply Z.eqb_neq in Hd. split.
        -- intros [= <-]. exists r. auto.
        -- intros (r' & [= <-] & _ & ->). reflexivity.
    + split; [discriminate|]. intros (r' & [=] & _).
  - intros row a Hin Haddr. unfold report, report_of_deltas in Hin.
    cbn [otherAffected] in Hin. apply other_affected_In in Hin.
    destruct Hin as (k & d & Hk & Hs & Hr & Hd & ->).
    cbn [address address_state] in Haddr. subst k.
    rewrite (entry_delta _ _ _ Hm Hk). split; [exact Hd|]. split.
    + intros ->. rewrite key_eqb_string in Hs. discriminate.
    + intros ->. unfold is_recipient in Hr. rewrite key_eqb_string in Hr. discriminate.
Qed.

End CounterpartyB.

(** C5 (as amended). Account-model side: every report that the builder
    returns has a counterparty row, with or without changes, whose address
    is the (canonical, lower-case) token recipient when one is given and
    otherwise the transaction's [to] address; the engine's [try] block gives
    the builder the recipient extracted from the calldata, so a returned
    response of that block carries the extracted recipient when there is one
    and [to] otherwise; and every response of the engine carries either such
    a report or, with [success = false], the placeholder of the [catch]
    block, whose counterparty row is that of the lower-cased [to] address
    whatever the calldata holds. Runtime-module side: every report that the
    builder returns has the sender row; it has a counterparty row exactly
    when a recipient was recognised (a non-empty string) and its
    event-reduced delta is not zero, and the row is that recipient's; no row
    of [otherAffected] belongs to an address whose delta is zero (nor to the
    sender or the recipient); and every response of the engine carries a
    report of the builder, or with [success = false] the report that has the
    sender row only. *)
Theorem counterparty_row_policy :
  (forall (tokenMetadata : list (string * StateImpact.Metadata))
          (sender_ transactionTo : string)
          (balancesBefore balancesAfter : list (string * StateImpact.BalanceSnapshot))
          (nativeSymbol : string) (tokenRecipient : option string)
          (report : StateImpact.StateImpactReport),
     StateImpact.assembleStateImpactReport tokenMetadata sender_ transactionTo
       balancesBefore balancesAfter nativeSymbol tokenRecipient = Ok report ->
     StateImpact.address (StateImpact.recipient report)
     = Js.toLowerCase (match tokenRecipient with
                       | Some r => if Js.truthy r then r else transactionTo
                       | None => transactionTo
                       end))
  /\
  (forall (W Tx : Type) (lib : Evm.EthersLib) (fork : Evm.Fork W Tx)
          (NATIVE_SYMBOL : string) (request : Evm.SimulateRequest)
          (snapshotId : string) (s s' : Evm.State W)
          (response : Evm.SimulateResponse),
     Evm.simulation_body lib fork NATIVE_SYMBOL request snapshotId s
     = (Ok response, s') ->
     StateImpact.address (StateImpact.recipient (Evm.stateChanges response))
     = Js.toLowerCase
         (match extractTransferRecipient (Evm.getChecksumAddress lib)
                  (Evm.icapAddress lib) (Evm.data (Evm.transaction request)) with
          | Some r => r
          | None => Evm.to (Evm.transaction request)
          end))
  /\
  (forall (sender_ : string) (recipient_ : option string)
          (events : list Wasm.WasmDecodedEvent)
          (balancesBefore : list (string * Wasm.BalanceSnapshot))
          (assetMetadata : list (Z * (string * Z)))
          (nativeSymbol : string) (nativeDecimals : Z)
          (report : Wasm.WasmStateImpactReport),
     Wasm.buildStateFromEvents sender_ recipient_ events balancesBefore
                               assetMetadata nativeSymbol nativeDecimals
     = Ok report ->
     Wasm.address (Wasm.sender report) = Wasm.KString sender_
     /\ (forall row, Wasm.recipient report = Some row ->
           exists r, recipient_ = Some r /\ r <> ""
                     /\ Wasm.address row = Wasm.KString r
                     /\ Wasm.spec_delta (Wasm.KString r) events <> 0%Z)
     /\ (forall r, recipient_ = Some r -> r <> "" ->
           Wasm.spec_delta (Wasm.KString r) events <> 0%Z ->
           exists row, Wasm.recipient report = Some row
                       /\ Wasm.address row = Wasm.KString r)
     /\ (forall row a, In row (Wasm.otherAffected report) ->
           Wasm.address row = Wasm.KString a ->
           Wasm.spec_delta (Wasm.KString a) events <> 0%Z
           /\ a <> sender_ /\ recipient_ <> Some a))
  /\
  (forall (W Tx : Type) (lib : Evm.EthersLib) (fork : Evm.Fork W Tx)
          (NATIVE_SYMBOL : string) (request : Evm.SimulateRequest)
          (s s' : Evm.State W) (response : Evm.SimulateResponse),
     Evm.executeSimulation lib fork NATIVE_SYMBOL request s = (Ok response, s') ->
     StateImpact.address (StateImpact.recipient (Evm.stateChanges response))
     = Js.toLowerCase
         (match extractTransferRecipient (Evm.getChecksumAddress lib)
                  (Evm.icapAddress lib) (Evm.data (Evm.transaction request)) with
          | Some r => r
          | None => Evm.to (Evm.transaction request)
          end)
     \/ (Evm.success response = false
         /\ Evm.stateChanges response
            = {| StateImpact.sender :=
                   {| StateImpact.address := Js.toLowerCase (Evm.sender request);
                      StateImpact.before := []; StateImpact.after := [];
                      StateImpact.changes := [] |};
                 StateImpact.recipient :=
                   {| StateImpact.address :=
                        Js.toLowerCase (Evm.to (Evm.transaction request));
                      StateImpact.before := []; StateImpact.after := [];
                      StateImpact.changes := [] |};
                 StateImpact.contractsAffected := [] |}))
  /\
  (forall (W Ext : Type) (node : Wasm.Node W Ext) (request : Wasm.WasmSimulateRequest)
          (s s' : Wasm.State W) (response : Wasm.WasmSimulateResponse),
     Wasm.executeWasmSimulation node request s = (Ok response, s') ->
     (Wasm.success response = false
      /\ Wasm.stateChanges response
         = {| Wasm.sender := {| Wasm.address := Wasm.KString (Wasm.req_sender request);
                                Wasm.before := []; Wasm.after := [];
                                Wasm.changes := [] |};
              Wasm.recipient := None; Wasm.otherAffected := [] |})
     \/ (Wasm.success response = true
         /\ exists events balancesBefore assetMetadata sym dec,
              Wasm.buildStateFromEvents (Wasm.req_sender request)
                match Wasm.extrinsic request with
                | Wasm.RawHex _ => None
                | Wasm.Call _ method_ args => Wasm.presumptive_recipient method_ args
                end
                events balancesBefore assetMetadata sym dec
              = Ok (Wasm.stateChanges response))).
Proof.
  split; [|split; [|split; [|split]]].
  4: { intros W Tx lib fork sym request s s' response H.
       exact (CounterpartyFacts.executeSimulation_counterparty lib fork sym request
                s response s' H). }
  4: { intros W Ext node request s s' response H.
       destruct (InjectedFacts.executeWasmSimulation_built_from node request
                   s response s' H) as [Hfail Hok].
       destruct (Wasm.success response) eqn:Es.
       - right. split; [reflexivity|].
         destruct (Hok eq_refl)
           as (rawEvents & bb & am & sym & dec & _ & _ & Hbuild).
         unfold WasmOrigin.recipient_of in Hbuild. eauto 8.
       - left. split; [reflexivity|]. exact (Hfail eq_refl). }
  - intros md sender_ to bb ba sym tr report H.
    apply CounterpartyFacts.assembled_recipient in H. destruct H as [H _].
    rewrite H. unfold Err.truthy_field.
    destruct tr as [r|]; [destruct (Js.truthy r)|]; reflexivity.
  - intros W Tx lib fork sym request snapshotId s s' response H.
    exact (CounterpartyFacts.simulation_body_counterparty lib fork sym request
             snapshotId _ _ _ H).
  - intros sender_ recipient_ events bb am sym dec report Hbuild.
    unfold Wasm.buildStateFromEvents in Hbuild.
    destruct (Wasm.reduce_events [] events) as [m|] eqn:Hred; [|discriminate].
    injection Hbuild as <-.
    assert (Hm : Wasm.distinct_keys m).
    { eapply DeltaFacts.reduce_events_distinct; [exact Hred|constructor]. }
    assert (Hdelta : forall a, Wasm.delta_of m (Wasm.KString a)
                               = Wasm.spec_delta (Wasm.KString a) events).
    { intros a. rewrite (DeltaFacts.reduce_events_delta _ _ _ (Wasm.KString a) Hred).
      reflexivity. }
    destruct (CounterpartyB.report_rows sender_ recipient_ bb sym dec m Hm)
      as (Hs & Hr & Ho).
    split; [exact Hs|]. split; [|split].
    + intros row Hrow. apply Hr in Hrow.
      destruct Hrow as (r & Ht & Hd & ->). exists r.
      unfold Err.truthy_field in Ht. destruct recipient_ as [r0|]; [|discriminate].
      destruct (Js.truthy r0) eqn:Htr; [|discriminate]. injection Ht as ->.
      split; [reflexivity|]. split.
      * intros ->. discriminate Htr.
      * split; [reflexivity|]. rewrite <- Hdelta. exact Hd.
    + intros r -> Hne Hd.
      exists (Wasm.address_state sym dec (Wasm.KString r)
                (Wasm.total_before bb (Wasm.KString r))
                (Wasm.delta_of m (Wasm.KString r)) true).
      split; [|reflexivity].
      apply Hr. exists r. split.
      * unfold Err.truthy_field, Js.truthy.
        apply String.eqb_neq in Hne. rewrite Hne. reflexivity.
      * rewrite Hdelta. split; [exact Hd|reflexivity].
    + intros row a Hin Haddr. rewrite <- Hdelta. eapply Ho; eauto.
Qed.

(** C5, witness. A zero-amount transfer and a fee: the report that the
    runtime-module builder returns has the sender row and no counterparty. *)
Lemma counterparty_row_policy_witness :
  let ev m d := {| Wasm.pallet := "balances"; Wasm.method := m;
                   Wasm.data := d; Wasm.index := 0 |} in
  let events :=
    [ ev "Transfer" [("from", Wasm.HString "5Sender"); ("to", Wasm.HString "5Recipient");
                     ("amount", Wasm.HString "0")];
      ev "Withdraw" [("who", Wasm.HString "5Sender"); ("amount", Wasm.HString "1,000")] ] in
  exists report,
    Wasm.buildStateFromEvents "5Sender" (Some "5Recipient") events [] [] "ASTR" 18%Z
    = Ok report
    /\ Wasm.address (Wasm.sender report) = Wasm.KString "5Sender"
    /\ Wasm.recipient report = None.
Proof.
  intros ev events. eexists. split; [vm_compute; reflexivity|].
  match goal with
  | |- context [Wasm.sender ?r] => set (report := r)
  end.
  assert (Hbuild :
    Wasm.buildStateFromEvents "5Sender" (Some "5Recipient") events [] [] "ASTR" 18%Z
    = Ok report) by (vm_compute; reflexivity).
  destruct counterparty_row_policy as (_ & _ & HB & _).
  destruct (HB _ _ _ _ _ _ _ _ Hbuild) as (Hs & Hr & _).
  split; [exact Hs|].
  destruct (Wasm.recipient report) as [row|] eqn:E; [|reflexivity].
  destruct (Hr row eq_refl) as (r & [= <-] & _ & _ & Hd).
  exfalso. apply Hd. vm_compute. reflexivity.
Defined.

(** C5, counterexample to the claim as worded for every report: a token
    transfer whose calldata names [PAYEE], run on a fork whose balance read
    fails. The engine answers with the placeholder of the [catch] block,
    whose counterparty row is that of the token contract (the [to] address),
    not that of the recipient in the calldata. *)
Lemma counterparty_placeholder_counterexample :
  let calldata :=
    "0xa9059cbb00000000000000000000000000000000000000000000000000000000000000dd" in
  let request :=
    {| Evm.sender := Scenario.SENDER;
       Evm.transaction := {| Evm.to := Scenario.TOKEN; Evm.data := Some calldata;
                             Evm.value := None; Evm.gasLimit := None |};
       Evm.trackTokens := None |} in
  extractTransferRecipient (Evm.getChecksumAddress Scenario.lib)
    (Evm.icapAddress Scenario.lib) (Some calldata) = Some Scenario.PAYEE
  /\ exists response s',
       Evm.executeSimulation Scenario.lib Scenario.fork_without_balances "GLMR"
         request Scenario.connected = (Ok response, s')
       /\ Evm.success response = false
       /\ StateImpact.address (StateImpact.recipient (Evm.stateChanges response))
          = Scenario.TOKEN
       /\ Scenario.TOKEN <> Scenario.PAYEE.
Proof.
  intros calldata request. split; [vm_compute; reflexivity|].
  eexists. eexists. split; [vm_compute; reflexivity|].
  split; [reflexivity|]. split; [reflexivity|discriminate].
Qed.

(* ================================================================== *)
(** * Part III. Further properties of the embedded code *)
(* ================================================================== *)

(* ------------------------------------------------------------------ *)
(** * Decimal renderings of [bigint] values parse back *)
(* ------------------------------------------------------------------ *)

Module DigitFacts.
Import Digits.

Lemma digits_value_uint (d : Decimal.uint) : forall acc,
  JsText.digits_value 10 acc (DecimalString.NilEmpty.string_of_uint d)
  = Some (uint_value acc d).
Proof.
  induction d; intros acc; cbn [DecimalString.NilEmpty.string_of_uint uint_value];
    [reflexivity| ..];
    (cbn [JsText.digits_value];
     match goal with
     | |- context [JsText.digit_value 10 ?c] =>
         let v := eval vm_compute in (JsText.digit_value 10 c) in
         change (JsText.digit_value 10 c) with v
     end; cbv iota; apply IHd).
Qed.

Lemma uint_value_acc (d : Decimal.uint) : forall acc : positive,
  uint_value (Z.pos acc) d = Z.pos (Pos.of_uint_acc d acc).
Proof.
  induction d; intros acc; cbn [uint_value Pos.of_uint_acc]; [reflexivity| ..];
    match goal with
    | |- uint_value ?a _ = Z.pos (Pos.of_uint_acc _ ?b) =>
        replace a with (Z.pos b) by lia; apply IHd
    end.
Qed.

Lemma uint_value_zero (d : Decimal.uint) :
  uint_value 0 d = Z.of_N (Pos.of_uint d).
Proof.
  induction d; cbn [uint_value Pos.of_uint]; [reflexivity|exact IHd| ..];
    match goal with
    | |- uint_value ?a _ = Z.of_N (N.pos (Pos.of_uint_acc _ ?b)) =>
        change a with (Z.pos b); apply uint_value_acc
    end.
Qed.

Lemma all_digits_uint (d : Decimal.uint) :
  Js.all_chars Js.is_digit (DecimalString.NilEmpty.string_of_uint d) = true.
Proof.
  induction d; cbn [DecimalString.NilEmpty.string_of_uint Js.all_chars];
    [reflexivity| ..]; rewrite IHd; reflexivity.
Qed.

Lemma digit_not_space (c : ascii) : Js.is_digit c = true -> JsText.is_space c = false.
Proof.
  unfold Js.is_digit, JsText.is_space. intros H.
  apply andb_true_iff in H. destruct H as [H1 H2].
  apply Nat.leb_le in H1. apply Nat.leb_le in H2.
  apply orb_false_iff. split.
  - apply Nat.eqb_neq. lia.
  - apply andb_false_iff. right. apply Nat.leb_gt. lia.
Qed.

Lemma trimEnd_digits (s : string) :
  Js.all_chars Js.is_digit s = true -> JsText.trimEnd s = s.
Proof.
  induction s as [|c r IH]; intros H; [reflexivity|].
  cbn [Js.all_chars] in H. apply andb_true_iff in H. destruct H as [Hc Hr].
  cbn [JsText.trimEnd]. rewrite (IH Hr).
  destruct r; [rewrite (digit_not_space c Hc)|]; reflexivity.
Qed.

(** A non-empty string of decimal digits is read by [BigInt] as the number
    it denotes. *)
Lemma StringToBigInt_digits (c : ascii) (r : string) :
  Js.all_chars Js.is_digit (String c r) = true ->
  JsText.StringToBigInt (String c r) = JsText.digits_value 10 0 (String c r).
Proof.
  intros H. unfold JsText.StringToBigInt, JsText.trim.
  pose proof H as H'. cbn [Js.all_chars] in H'.
  apply andb_true_iff in H'. destruct H' as [Hc Hr].
  cbn [JsText.trimStart]. rewrite (digit_not_space c Hc).
  rewrite (trimEnd_digits _ H).
  assert (Hplus : JsText.char_is c "+" = false).
  { unfold JsText.char_is. apply String.eqb_neq. intros [= ->]. discriminate Hc. }
  assert (Hminus : JsText.char_is c "-" = false).
  { unfold JsText.char_is. apply String.eqb_neq. intros [= ->]. discriminate Hc. }
  rewrite Hplus, Hminus.
  destruct r as [|x digits]; [reflexivity|].
  cbn [Js.all_chars] in Hr. apply andb_true_iff in Hr. destruct Hr as [Hx _].
  assert (Hno : forall a b, (a = "x" \/ a = "X" \/ a = "o" \/ a = "O" \/ a = "b" \/ a = "B") ->
                            (b = "x" \/ b = "X" \/ b = "o" \/ b = "O" \/ b = "b" \/ b = "B") ->
                            JsText.char_in x a b = false).
  { intros a b Ha Hb. unfold JsText.char_in. apply orb_false_iff.
    split; apply String.eqb_neq; intros E;
      [destruct Ha as [-> | [-> | [-> | [-> | [-> | ->]]]]]
      |destruct Hb as [-> | [-> | [-> | [-> | [-> | ->]]]]]];
      injection E as ->; discriminate Hx. }
  rewrite !Hno by tauto. rewrite !andb_false_r. reflexivity.
Qed.

Lemma string_of_uint_nonempty (d : Decimal.uint) :
  d <> Decimal.Nil ->
  exists c r, DecimalString.NilEmpty.string_of_uint d = String c r.
Proof. destruct d; intros H; [contradiction| ..]; cbn; eauto. Qed.

Lemma parse_pos (p : positive) :
  JsText.StringToBigInt (DecimalString.NilZero.string_of_uint (Pos.to_uint p))
  = Some (Z.pos p)
  /\ JsText.number_in 10 (DecimalString.NilZero.string_of_uint (Pos.to_uint p))
     = Some (Z.pos p).
Proof.
  pose proof (DecimalPos.Unsigned.to_uint_nonnil p) as Hnil.
  assert (E : DecimalString.NilZero.string_of_uint (Pos.to_uint p)
              = DecimalString.NilEmpty.string_of_uint (Pos.to_uint p)).
  { unfold DecimalString.NilZero.string_of_uint.
    destruct (Pos.to_uint p); [contradiction| ..]; reflexivity. }
  rewrite E.
  destruct (string_of_uint_nonempty _ Hnil) as (c & r & Es).
  assert (V : JsText.digits_value 10 0 (DecimalString.NilEmpty.string_of_uint (Pos.to_uint p))
              = Some (Z.pos p)).
  { rewrite digits_value_uint, uint_value_zero, DecimalPos.Unsigned.of_to. reflexivity. }
  split.
  - pose proof (all_digits_uint (Pos.to_uint p)) as Hd. rewrite Es in *.
    rewrite (StringToBigInt_digits c r Hd). exact V.
  - rewrite Es in *. exact V.
Qed.

(** [BigInt(z.toString()) = z]. *)
Lemma StringToBigInt_toString (z : Z) :
  JsText.StringToBigInt (Js.bigint_toString z) = Some z.
Proof.
  unfold Js.bigint_toString. destruct z as [|p|p]; cbn [Z.to_int DecimalString.NilZero.string_of_int].
  - reflexivity.
  - apply parse_pos.
  - destruct (parse_pos p) as [_ Hn].
    unfold JsText.StringToBigInt, JsText.trim.
    set (s := DecimalString.NilZero.string_of_uint (Pos.to_uint p)) in *.
    assert (Hs : Js.all_chars Js.is_digit s = true).
    { unfold s, DecimalString.NilZero.string_of_uint.
      destruct (Pos.to_uint p); try reflexivity; apply all_digits_uint. }
    change (JsText.trimStart (String "-" s)) with (String "-" s).
    assert (Ht : JsText.trimEnd (String "-" s) = String "-" s).
    { cbn [JsText.trimEnd]. rewrite (trimEnd_digits s Hs).
      destruct s; reflexivity. }
    rewrite Ht.
    change (JsText.char_is "-" "+") with false.
    change (JsText.char_is "-" "-") with true.
    cbv iota. rewrite Hn. reflexivity.
Qed.

Lemma BigInt_toString (z : Z) : BigInt (Js.bigint_toString z) = Ok z.
Proof. unfold BigInt. rewrite StringToBigInt_toString. reflexivity. Qed.

End DigitFacts.

(* ------------------------------------------------------------------ *)
(** * Reasoning about runs: how a composed run came to its outcome *)
(* ------------------------------------------------------------------ *)

Module RunFacts.
Import Async.

Lemma bind_inv {S A B} (m : @M S A) (k : A -> @M S B) s r s' :
  bind m k s = (r, s') ->
  (exists a s1, m s = (Ok a, s1) /\ k a s1 = (r, s'))
  \/ (exists e, m s = (Throw e, s') /\ r = Throw e).
Proof.
  unfold bind. destruct (m s) as [[a|e] s1]; intros H.
  - left. eauto.
  - right. injection H as <- <-. eauto.
Qed.

Lemma try_catch_inv {S A} (m : @M S A) (h : Err.ErrorValue -> @M S A) s r s' :
  try_catch m h s = (r, s') ->
  (exists a, m s = (Ok a, s') /\ r = Ok a)
  \/ (exists e s1, m s = (Throw e, s1) /\ h e s1 = (r, s')).
Proof.
  unfold try_catch. destruct (m s) as [[a|e] s1]; intros H.
  - left. injection H as <- <-. eauto.
  - right. eauto.
Qed.

Lemma try_finally_inv {S A} (m : @M S A) (f : @M S unit) s r s' :
  try_finally m f s = (r, s') ->
  exists r1 s1, m s = (r1, s1)
    /\ ((f s1 = (Ok tt, s') /\ r = r1)
        \/ (exists e, f s1 = (Throw e, s') /\ r = Throw e)).
Proof.
  unfold try_finally. destruct (m s) as [r1 s1]. exists r1, s1.
  split; [reflexivity|].
  destruct (f s1) as [[[]|e] s2]; injection H as <- <-; eauto.
Qed.

Lemma truthy_field_Some f v :
  Err.truthy_field f = Some v <-> f = Some v /\ v <> "".
Proof.
  unfold Err.truthy_field, Js.truthy. destruct f as [s|].
  - destruct (s ==? "") eqn:E; cbn [negb].
    + apply String.eqb_eq in E. split; [discriminate|].
      intros [[= ->] H]. contradiction.
    + apply String.eqb_neq in E. split.
      * intros [= ->]. auto.
      * intros [[= ->] _]. reflexivity.
  - split; [discriminate|]. intros [H _]. discriminate.
Qed.

End RunFacts.

(* ------------------------------------------------------------------ *)
(** * Runtime-module event decoder: selection of the injected extrinsic *)
(* ------------------------------------------------------------------ *)

Module WasmEventFacts.

(** The body of the loop of [getLastExtrinsicIndex]. *)
Lemma last_index_from (events : list Wasm.WasmEventRecord) : forall m0 : Z,
  let step := fun (max : Z) (e : Wasm.WasmEventRecord) =>
    if Wasm.phase_type (Wasm.phase e) ==? "ApplyExtrinsic" then
      match Wasm.phase_value (Wasm.phase e) with
      | Some v => if (max <? v)%Z then v else max
      | None => max
      end
    else max in
  let r := fold_left step events m0 in
  (m0 <= r)%Z
  /\ (forall e v, In e events ->
        Wasm.phase_type (Wasm.phase e) = "ApplyExtrinsic" ->
        Wasm.phase_value (Wasm.phase e) = Some v -> (v <= r)%Z)
  /\ (r = m0 \/ exists e, In e events
                          /\ Wasm.phase_type (Wasm.phase e) = "ApplyExtrinsic"
                          /\ Wasm.phase_value (Wasm.phase e) = Some r).
Proof.
  induction events as [|e rest IH]; intros m0 step r.
  - subst r. cbn. split; [lia|]. split; [intros ? ? []|left; reflexivity].
  - subst r. cbn [fold_left].
    specialize (IH (step m0 e)). cbv zeta in IH. fold step in IH.
    destruct IH as (Hle & Hall & Hex).
    assert (Hstep : (m0 <= step m0 e)%Z
                    /\ (forall v, Wasm.phase_type (Wasm.phase e) = "ApplyExtrinsic" ->
                                  Wasm.phase_value (Wasm.phase e) = Some v ->
                                  (v <= step m0 e)%Z)
                    /\ (step m0 e = m0
                        \/ Wasm.phase_type (Wasm.phase e) = "ApplyExtrinsic"
                           /\ Wasm.phase_value (Wasm.phase e) = Some (step m0 e))).
    { unfold step.
      destruct (Wasm.phase_type (Wasm.phase e) ==? "ApplyExtrinsic") eqn:Et.
      - apply String.eqb_eq in Et.
        destruct (Wasm.phase_value (Wasm.phase e)) as [v|].
        + destruct (m0 <? v)%Z eqn:El.
          * apply Z.ltb_lt in El. split; [lia|]. split; [intros ? _ [= <-]; lia|].
            right. split; [exact Et|reflexivity].
          * apply Z.ltb_ge in El. split; [lia|]. split; [intros ? _ [= <-]; lia|].
            left. reflexivity.
        + split; [lia|]. split; [intros ? _ [=]|left; reflexivity].
      - apply String.eqb_neq in Et.
        split; [lia|]. split; [intros ? H; contradiction|left; reflexivity]. }
    destruct Hstep as (H1 & H2 & H3).
    split; [lia|]. split.
    + intros e' v [<-|Hin] Ht Hv.
      * specialize (H2 v Ht Hv). lia.
      * eapply Hall; eauto.
    + destruct Hex as [Hr|(e' & Hin & Ht & Hv)].
      * destruct H3 as [H3|[Ht Hv]].
        -- left. congruence.
        -- right. exists e. split; [left; reflexivity|]. rewrite Hr. auto.
      * right. exists e'. split; [right; exact Hin|auto].
Qed.

Lemma last_index_spec (events : list Wasm.WasmEventRecord) :
  let r := Wasm.getLastExtrinsicIndex events in
  (-1 <= r)%Z
  /\ (forall e v, In e events ->
        Wasm.phase_type (Wasm.phase e) = "ApplyExtrinsic" ->
        Wasm.phase_value (Wasm.phase e) = Some v -> (v <= r)%Z)
  /\ (r = (-1)%Z \/ exists e, In e events
                              /\ Wasm.phase_type (Wasm.phase e) = "ApplyExtrinsic"
                              /\ Wasm.phase_value (Wasm.phase e) = Some r).
Proof. exact (last_index_from events (-1)%Z). Qed.

Lemma in_phase_iff (i : Z) (e : Wasm.WasmEventRecord) :
  Wasm.in_phase i e = true
  <-> Wasm.phase_type (Wasm.phase e) = "ApplyExtrinsic"
      /\ Wasm.phase_value (Wasm.phase e) = Some i.
Proof.
  unfold Wasm.in_phase. rewrite andb_true_iff, String.eqb_eq.
  destruct (Wasm.phase_value (Wasm.phase e)) as [v|].
  - rewrite Z.eqb_eq. split; intros [H1 H2]; split; congruence.
  - split; intros [H1 H2]; discriminate.
Qed.

Lemma failed_is_relevant (e : Wasm.WasmDecodedEvent) :
  Wasm.is_failed e = true ->
  Wasm.includes Wasm.relevantPallets (Wasm.pallet e)
  || Wasm.includes Wasm.relevantMethods (Wasm.method e) = true.
Proof.
  unfold Wasm.is_failed. intros H. apply andb_true_iff in H.
  destruct H as [Hp _]. apply String.eqb_eq in Hp. rewrite Hp. reflexivity.
Qed.

Lemma decode_records_positions {W Ext} (node : Wasm.Node W Ext)
  (records : list Wasm.RawRecord) : forall (i : Z) d,
  In d (Wasm.decode_records node i records) ->
  exists n raw ev,
    nth_error records n = Some raw
    /\ Wasm.raw_event raw = Some ev
    /\ Wasm.index (Wasm.event d) = (i + Z.of_nat n)%Z
    /\ Wasm.pallet (Wasm.event d) = Wasm.section ev
    /\ Wasm.method (Wasm.event d) = Wasm.raw_method ev
    /\ Wasm.phase d = Wasm.phase_info (Wasm.raw_phase raw).
Proof.
  induction records as [|record rest IH]; intros i d Hin; [destruct Hin|].
  cbn [Wasm.decode_records] in Hin.
  destruct (Wasm.raw_event record) as [ev|] eqn:Eev.
  - destruct Hin as [<-|Hin].
    + exists 0, record, ev. cbn. repeat split; auto. lia.
    + destruct (IH _ _ Hin) as (n & raw & ev' & H1 & H2 & H3 & H4).
      exists (S n), raw, ev'. cbn [nth_error]. repeat split; try tauto. lia.
  - destruct (IH _ _ Hin) as (n & raw & ev' & H1 & H2 & H3 & H4).
    exists (S n), raw, ev'. cbn [nth_error]. repeat split; try tauto. lia.
Qed.

Lemma decode_records_ascending {W Ext} (node : Wasm.Node W Ext)
  (records : list Wasm.RawRecord) : forall i : Z,
  StronglySorted Z.lt
    (map (fun d => Wasm.index (Wasm.event d)) (Wasm.decode_records node i records))
  /\ Forall (fun d => (i <= Wasm.index (Wasm.event d))%Z)
            (Wasm.decode_records node i records).
Proof.
  induction records as [|record rest IH]; intros i; cbn [Wasm.decode_records].
  - split; constructor.
  - destruct (IH (i + 1)%Z) as [Hs Hf].
    assert (Hf' : Forall (fun d => (i <= Wasm.index (Wasm.event d))%Z)
                         (Wasm.decode_records node (i + 1) rest)).
    { eapply Forall_impl; [|exact Hf]. cbn. intros; lia. }
    destruct (Wasm.raw_event record) as [ev|]; [|split; assumption].
    split.
    + cbn [map]. constructor; [exact Hs|].
      apply Forall_map. eapply Forall_impl; [|exact Hf]. cbn. intros; lia.
    + constructor; [cbn; lia|exact Hf'].
Qed.

End WasmEventFacts.

(** X1. [getLastExtrinsicIndex] returns the highest index among the records
    whose phase is [ApplyExtrinsic] with a value, and [-1] when no such
    record has an index above [-1]: no such record lies above the result,
    and a result other than [-1] is the index of one of them. *)
Theorem getLastExtrinsicIndex_is_maximum :
  forall events : list Wasm.WasmEventRecord,
    let r := Wasm.getLastExtrinsicIndex events in
    (-1 <= r)%Z
    /\ (forall e v, In e events ->
          Wasm.phase_type (Wasm.phase e) = "ApplyExtrinsic" ->
          Wasm.phase_value (Wasm.phase e) = Some v -> (v <= r)%Z)
    /\ (r = (-1)%Z \/ exists e, In e events
                                /\ Wasm.phase_type (Wasm.phase e) = "ApplyExtrinsic"
                                /\ Wasm.phase_value (Wasm.phase e) = Some r)
    /\ Wasm.getLastExtrinsicIndex [] = (-1)%Z.
Proof.
  intros events r.
  destruct (WasmEventFacts.last_index_spec events) as (H1 & H2 & H3).
  repeat split; auto.
Qed.

(** X2. Whenever a block holds a record applied by an extrinsic of index
    [0] or more, the events selected for the last extrinsic index are not
    empty; and an event is selected exactly when it is the event of a
    record whose phase is [ApplyExtrinsic] of that highest index. *)
Theorem injected_events_found :
  forall (events : list Wasm.WasmEventRecord) (e0 : Wasm.WasmEventRecord) (v : Z),
    In e0 events ->
    Wasm.phase_type (Wasm.phase e0) = "ApplyExtrinsic" ->
    Wasm.phase_value (Wasm.phase e0) = Some v ->
    (0 <= v)%Z ->
    let ours := Wasm.filterEventsByExtrinsicIndex events
                  (Wasm.getLastExtrinsicIndex events) in
    ours <> []
    /\ forall ev, In ev ours <->
         exists e, In e events /\ Wasm.event e = ev
                   /\ Wasm.phase_type (Wasm.phase e) = "ApplyExtrinsic"
                   /\ Wasm.phase_value (Wasm.phase e)
                      = Some (Wasm.getLastExtrinsicIndex events).
Proof.
  intros events e0 v Hin Ht Hv Hpos ours.
  destruct (WasmEventFacts.last_index_spec events) as (_ & Hmax & Hex).
  assert (Hmem : forall ev, In ev ours <->
            exists e, In e events /\ Wasm.event e = ev
                      /\ Wasm.phase_type (Wasm.phase e) = "ApplyExtrinsic"
                      /\ Wasm.phase_value (Wasm.phase e)
                         = Some (Wasm.getLastExtrinsicIndex events)).
  { intros ev. unfold ours, Wasm.filterEventsByExtrinsicIndex.
    rewrite in_map_iff. split.
    - intros (e & He & Hf). apply filter_In in Hf. destruct Hf as [Hf1 Hf2].
      apply WasmEventFacts.in_phase_iff in Hf2. exists e. tauto.
    - intros (e & He & Hev & Hp). exists e. split; [exact Hev|].
      apply filter_In. split; [exact He|].
      apply WasmEventFacts.in_phase_iff. exact Hp. }
  split; [|exact Hmem].
  specialize (Hmax e0 v Hin Ht Hv).
  destruct Hex as [Hr|(e & He & Het & Hev)]; [lia|].
  intros Hnil.
  assert (Hi : In (Wasm.event e) ours) by (apply Hmem; exists e; auto).
  rewrite Hnil in Hi. destruct Hi.
Qed.

(** X2, witness: a block with an initialization event and two extrinsics;
    the events of extrinsic 1 are selected. *)
Lemma injected_events_found_witness :
  let ev p m i := {| Wasm.pallet := p; Wasm.method := m; Wasm.data := [];
                     Wasm.index := i |} in
  let events :=
    [ {| Wasm.phase := {| Wasm.phase_type := "Initialization"; Wasm.phase_value := None |};
         Wasm.event := ev "system" "NewAccount" 0%Z |};
      {| Wasm.phase := {| Wasm.phase_type := "ApplyExtrinsic"; Wasm.phase_value := Some 0%Z |};
         Wasm.event := ev "timestamp" "Set" 1%Z |};
      {| Wasm.phase := {| Wasm.phase_type := "ApplyExtrinsic"; Wasm.phase_value := Some 1%Z |};
         Wasm.event := ev "balances" "Transfer" 2%Z |} ] in
  Wasm.filterEventsByExtrinsicIndex events (Wasm.getLastExtrinsicIndex events) <> [].
Proof.
  intros ev events.
  pose (e0 := {| Wasm.phase := {| Wasm.phase_type := "ApplyExtrinsic";
                                   Wasm.phase_value := Some 1%Z |};
                 Wasm.event := ev "balances" "Transfer" 2%Z |}).
  refine (proj1 (injected_events_found events e0 1%Z _ _ _ _)).
  - right. right. left. reflexivity.
  - reflexivity.
  - reflexivity.
  - lia.
Defined.

(** X3. [filterRelevantEvents] keeps the order of the events it keeps, is
    idempotent, and never drops a [system.ExtrinsicFailed] event: the first
    failure event found among the kept events is the first one of the
    input. *)
Theorem filterRelevantEvents_keeps_failures :
  forall events : list Wasm.WasmDecodedEvent,
    Wasm.filterRelevantEvents (Wasm.filterRelevantEvents events)
    = Wasm.filterRelevantEvents events
    /\ find Wasm.is_failed (Wasm.filterRelevantEvents events)
       = find Wasm.is_failed events
    /\ (forall e, In e (Wasm.filterRelevantEvents events) ->
          In e events
          /\ (In (Wasm.pallet e) Wasm.relevantPallets
              \/ In (Wasm.method e) Wasm.relevantMethods))
    /\ (forall e, In e events -> Wasm.pallet e = "balances" ->
          In e (Wasm.filterRelevantEvents events)).
Proof.
  intros events. unfold Wasm.filterRelevantEvents.
  split; [|split; [|split]].
  - induction events as [|e rest IH]; [reflexivity|].
    cbn [filter].
    destruct (Wasm.includes Wasm.relevantPallets (Wasm.pallet e)
              || Wasm.includes Wasm.relevantMethods (Wasm.method e)) eqn:E.
    + cbn [filter]. rewrite E, IH. reflexivity.
    + exact IH.
  - induction events as [|e rest IH]; [reflexivity|].
    cbn [filter find].
    destruct (Wasm.is_failed e) eqn:Ef.
    + rewrite (WasmEventFacts.failed_is_relevant e Ef). cbn [find]. rewrite Ef.
      reflexivity.
    + destruct (Wasm.includes Wasm.relevantPallets (Wasm.pallet e)
                || Wasm.includes Wasm.relevantMethods (Wasm.method e)).
      * cbn [find]. rewrite Ef. exact IH.
      * exact IH.
  - intros e He. apply filter_In in He. destruct He as [He Hk].
    split; [exact He|].
    apply orb_true_iff in Hk. unfold Wasm.includes in Hk.
    destruct Hk as [Hk|Hk]; apply existsb_exists in Hk;
      destruct Hk as (x & Hx & Hxe); apply String.eqb_eq in Hxe; subst x; auto.
  - intros e He Hp. apply filter_In. split; [exact He|]. rewrite Hp. reflexivity.
Qed.

(** X4. [decodeWasmEvents] numbers each decoded record with the position
    of its raw record in the block's event list, records without an event
    being skipped but counted: the indices of the result are strictly
    ascending, and each decoded record stems from the raw record at its
    index, whose pallet, method and phase it carries. *)
Theorem decodeWasmEvents_positions :
  forall (W Ext : Type) (node : Wasm.Node W Ext) (records : list Wasm.RawRecord),
    let decoded := Wasm.decodeWasmEvents node records in
    StronglySorted Z.lt (map (fun d => Wasm.index (Wasm.event d)) decoded)
    /\ (length decoded <= length records)
    /\ forall d, In d decoded ->
         exists raw ev,
           (0 <= Wasm.index (Wasm.event d))%Z
           /\ nth_error records (Z.to_nat (Wasm.index (Wasm.event d))) = Some raw
           /\ Wasm.raw_event raw = Some ev
           /\ Wasm.pallet (Wasm.event d) = Wasm.section ev
           /\ Wasm.method (Wasm.event d) = Wasm.raw_method ev
           /\ Wasm.phase d = Wasm.phase_info (Wasm.raw_phase raw).
Proof.
  intros W Ext node records decoded. unfold decoded, Wasm.decodeWasmEvents.
  split; [apply WasmEventFacts.decode_records_ascending|]. split.
  - generalize 0%Z. induction records as [|r rest IH]; intros i; cbn [Wasm.decode_records].
    + cbn. lia.
    + specialize (IH (i + 1)%Z).
      destruct (Wasm.raw_event r); cbn [length]; lia.
  - intros d Hd.
    destruct (WasmEventFacts.decode_records_positions node records 0%Z d Hd)
      as (n & raw & ev & H1 & H2 & H3 & H4 & H5 & H6).
    exists raw, ev. rewrite H3. cbn [Z.add]. rewrite Nat2Z.id.
    repeat split; auto. lia.
Qed.

(* ------------------------------------------------------------------ *)
(** * Account-model event decoder: where a decoded event comes from *)
(* ------------------------------------------------------------------ *)

Module EventSourceFacts.
Import EventDecoder.

Section Decoded.
  Variable interface_ok : Interface -> bool.
  Variable topicHash : Interface -> option string.
  Variable iface_parseLog : Interface -> Log -> option LogDescription.

  Notation tryDecode := (tryDecodeWithInterface iface_parseLog).
  Notation decodeLog := (decodeLog interface_ok topicHash iface_parseLog).
  Notation decode_each := (decode_each interface_ok topicHash iface_parseLog).
  Notation decode_each_with :=
    (decode_each_with interface_ok topicHash iface_parseLog).

  Notation stems_from := (EventSource.stems_from iface_parseLog).

Lemma tryDecode_stems log iface e :
    tryDecode log iface = Some e -> stems_from e log.
  Proof.
    unfold tryDecodeWithInterface, EventSource.stems_from.
    destruct (iface_parseLog iface log) as [parsed|] eqn:E; [|discriminate].
    intros [= <-]. cbn. repeat split. exists iface, parsed. auto.
  Qed.

Lemma try_all_stems log ifaces e :
    try_all iface_parseLog log ifaces = Some e -> stems_from e log.
  Proof.
    induction ifaces as [|i ifaces IH]; simpl; [discriminate|].
    destruct (tryDecode log i) eqn:H.
    - intros [= <-]. eapply tryDecode_stems; eauto.
    - exact IH.
  Qed.

Lemma decodeLog_stems log e :
    decodeLog log = Some e -> topics log <> [] /\ stems_from e log.
  Proof.
    unfold EventDecoder.decodeLog.
    destruct (topics log); [discriminate|]. intros H. split; [discriminate|].
    destruct (smap_get _ _) as [known|].
    - destruct (tryDecode log known) eqn:Hk.
      + injection H as <-. eapply tryDecode_stems; eauto.
      + eapply try_all_stems; eauto.
    - eapply try_all_stems; eauto.
  Qed.

Lemma decode_each_stems logs e :
    In e (decode_each logs) ->
    exists log, In log logs /\ topics log <> [] /\ stems_from e log.
  Proof.
    induction logs as [|log logs IH]; simpl; [tauto|].
    destruct (decodeLog log) eqn:H.
    - intros [<-|Hin].
      + exists log. split; [left; reflexivity|]. apply decodeLog_stems. exact H.
      + destruct (IH Hin) as (l & Hl & Hs). exists l. split; [right|]; assumption.
    - intros Hin. destruct (IH Hin) as (l & Hl & Hs).
      exists l. split; [right|]; assumption.
  Qed.

Lemma decode_each_length logs : length (decode_each logs) <= length logs.
  Proof.
    induction logs as [|log logs IH]; simpl; [lia|].
    destruct (decodeLog log); simpl; lia.
  Qed.

Lemma decode_each_with_stems abi logs e :
    In e (decode_each_with abi logs) ->
    exists log, In log logs /\ stems_from e log.
  Proof.
    induction logs as [|log logs IH]; simpl; [tauto|].
    assert (Hrest : In e (decode_each_with abi logs) ->
                    exists l, (log = l \/ In l logs) /\ stems_from e l).
    { intros Hin. destruct (IH Hin) as (l & Hl & Hs). exists l. auto. }
    destruct (tryDecode log abi) eqn:H1.
    - intros [<-|Hin]; [|auto].
      exists log. split; [left; reflexivity|]. eapply tryDecode_stems; eauto.
    - destruct (decodeLog log) eqn:H2; [|exact Hrest].
      intros [<-|Hin]; [|auto].
      exists log. split; [left; reflexivity|]. apply decodeLog_stems. exact H2.
  Qed.

Lemma decode_each_with_length abi logs :
    length (decode_each_with abi logs) <= length logs.
  Proof.
    induction logs as [|log logs IH]; simpl; [lia|].
    destruct (tryDecode log abi); simpl; [lia|].
    destruct (decodeLog log); simpl; lia.
  Qed.

  (** With a custom interface that reads none of the logs, the loop of
      [decodeLogsWithAbi] decodes what the loop of [decodeLogs] does. *)
Lemma decode_each_with_fallback abi logs :
    (forall log, In log logs -> iface_parseLog abi log = None) ->
    decode_each_with abi logs = decode_each logs.
  Proof.
    induction logs as [|log logs IH]; simpl; intros H; [reflexivity|].
    unfold tryDecodeWithInterface at 1. rewrite (H log (or_introl eq_refl)).
    rewrite IH by (intros; apply H; right; assumption).
    reflexivity.
  Qed.

  (** The events of the loop and the logs that gave one correspond one to
      one, in order. *)
Lemma decode_each_sources logs :
    exists sources dropped,
      Permutation logs (sources ++ dropped)
      /\ Forall2 (fun e log => topics log <> [] /\ stems_from e log)
                 (decode_each logs) sources.
  Proof.
    induction logs as [|log logs (sources & dropped & Hp & Hf)]; simpl.
    - exists [], []. split; constructor.
    - destruct (decodeLog log) as [e|] eqn:H.
      + exists (log :: sources), dropped. split.
        * cbn [app]. constructor. exact Hp.
        * constructor; [apply decodeLog_stems; exact H|exact Hf].
      + exists sources, (log :: dropped). split; [|exact Hf].
        apply Permutation_cons_app. exact Hp.
  Qed.

End Decoded.
End EventSourceFacts.

(** X5. The events that [decodeLogs] returns and a part of the given logs
    correspond one to one: no log gives more than one event, and each event
    stems from its log, which has a topic: its contract is the lower-cased
    address of the log, its ordinal the index of the log, its name and
    signature those that the ABI parser read from that log, and its
    arguments the formatted inputs that the parser read, keyed by their
    names. Logs without topics give no event. *)
Theorem decodeLogs_provenance :
  forall (interface_ok : EventDecoder.Interface -> bool)
         (topicHash : EventDecoder.Interface -> option string)
         (iface_parseLog : EventDecoder.Interface -> EventDecoder.Log
                           -> option EventDecoder.LogDescription)
         (logs : list EventDecoder.Log),
    let decoded := EventDecoder.decodeLogs interface_ok topicHash iface_parseLog logs in
    length decoded <= length logs
    /\ (exists sources dropped,
          Permutation logs (sources ++ dropped)
          /\ Forall2 (fun e log =>
                        EventDecoder.topics log <> []
                        /\ EventDecoder.contract e
                           = Js.toLowerCase (EventDecoder.address log)
                        /\ EventDecoder.logIndex e = EventDecoder.index log
                        /\ exists iface parsed,
                             iface_parseLog iface log = Some parsed
                             /\ EventDecoder.name e = EventDecoder.parsed_name parsed
                             /\ EventDecoder.signature e
                                = EventDecoder.parsed_signature parsed
                             /\ EventDecoder.args e
                                = EventDecoder.build_args 0
                                    (EventDecoder.parsed_inputs parsed) [])
                     decoded sources)
    /\ (forall e, In e decoded ->
          exists log, In log logs /\ EventDecoder.topics log <> []
                      /\ EventSource.stems_from iface_parseLog e log)
    /\ ((forall log, In log logs -> EventDecoder.topics log = []) -> decoded = []).
Proof.
  intros io th pl logs decoded.
  pose proof (EventOrder.sort_by_logIndex_perm
                (EventDecoder.decode_each io th pl logs)) as Hperm.
  fold (EventDecoder.decodeLogs io th pl logs) in Hperm. fold decoded in Hperm.
  assert (Hfrom : forall e, In e decoded ->
            exists log, In log logs /\ EventDecoder.topics log <> []
                        /\ EventSource.stems_from pl e log).
  { intros e He. apply (Permutation_in _ Hperm) in He.
    apply EventSourceFacts.decode_each_stems in He. exact He. }
  split; [|split; [|split]].
  - rewrite (Permutation_length Hperm). apply EventSourceFacts.decode_each_length.
  - destruct (EventSourceFacts.decode_each_sources io th pl logs)
      as (sources & dropped & Hp & Hf).
    destruct (Permutation_Forall2 (Permutation_sym Hperm) Hf)
      as (sources' & Hs & Hf').
    exists sources', dropped. split.
    + eapply perm_trans; [exact Hp|]. apply Permutation_app_tail. exact Hs.
    + exact Hf'.
  - exact Hfrom.
  - intros Hnone. destruct decoded as [|e rest] eqn:E; [reflexivity|].
    destruct (Hfrom e (or_introl eq_refl)) as (log & Hin & Ht & _).
    exfalso. apply Ht. apply Hnone. exact Hin.
Qed.

(** X6. [decodeLogsWithAbi] raises exactly when the ABI is refused by the
    interface constructor; otherwise every event it returns stems from one
    of the given logs, and when the custom interface reads none of the logs
    the result is the one of [decodeLogs]. *)
Theorem decodeLogsWithAbi_fallback :
  forall (interface_ok : EventDecoder.Interface -> bool)
         (topicHash : EventDecoder.Interface -> option string)
         (iface_parseLog : EventDecoder.Interface -> EventDecoder.Log
                           -> option EventDecoder.LogDescription)
         (logs : list EventDecoder.Log) (abi : list string),
    let result := EventDecoder.decodeLogsWithAbi interface_ok topicHash
                    iface_parseLog logs abi in
    returns result = interface_ok abi
    /\ (forall decoded, result = Ok decoded ->
          length decoded <= length logs
          /\ (forall e, In e decoded ->
                exists log, In log logs /\ EventSource.stems_from iface_parseLog e log)
          /\ ((forall log, In log logs -> iface_parseLog abi log = None) ->
              decoded = EventDecoder.decodeLogs interface_ok topicHash
                          iface_parseLog logs)).
Proof.
  intros io th pl logs abi result. unfold result, EventDecoder.decodeLogsWithAbi.
  destruct (io abi); (split; [reflexivity|]); [|discriminate].
  intros decoded [= <-].
  pose proof (EventOrder.sort_by_logIndex_perm
                (EventDecoder.decode_each_with io th pl abi logs)) as Hperm.
  split; [|split].
  - rewrite (Permutation_length Hperm). apply EventSourceFacts.decode_each_with_length.
  - intros e He. apply (Permutation_in _ Hperm) in He.
    eapply EventSourceFacts.decode_each_with_stems. exact He.
  - intros Hnone. unfold EventDecoder.decodeLogs.
    rewrite (EventSourceFacts.decode_each_with_fallback io th pl abi logs Hnone).
    reflexivity.
Qed.

(* ------------------------------------------------------------------ *)
(** * Account-model state impact: the entries of a row *)
(* ------------------------------------------------------------------ *)

Module RowFacts.
Import StateImpact StateImpactRows.

Lemma sset_has_In (s : list string) (k : string) :
  sset_has s k = true <-> In k s.
Proof.
  unfold sset_has, JsMap.set_has. rewrite existsb_exists. split.
  - intros (x & Hx & E). apply String.eqb_eq in E. subst x. exact Hx.
  - intros H. exists k. split; [exact H|apply String.eqb_refl].
Qed.

Lemma sset_add_spec (s : list string) (k : string) :
  NoDup s ->
  NoDup (sset_add s k) /\ forall x, In x (sset_add s k) <-> In x s \/ x = k.
Proof.
  intros Hnd. unfold sset_add, JsMap.set_add.
  fold (sset_has s k).
  destruct (sset_has s k) eqn:E.
  - apply sset_has_In in E. split; [exact Hnd|].
    intros x. split; [auto|]. intros [H| ->]; assumption.
  - assert (Hn : ~ In k s).
    { intros H. apply sset_has_In in H. congruence. }
    split.
    + apply NoDup_app; [exact Hnd|repeat constructor; intros []|].
      intros x Hx [<-|[]]. contradiction.
    + intros x. rewrite in_app_iff. cbn. intuition.
Qed.

Lemma fold_sset_add (xs : list string) : forall acc,
  NoDup acc ->
  NoDup (fold_left sset_add xs acc)
  /\ forall x, In x (fold_left sset_add xs acc) <-> In x acc \/ In x xs.
Proof.
  induction xs as [|k xs IH]; intros acc Hnd; cbn [fold_left].
  - split; [exact Hnd|]. intros x. cbn. tauto.
  - destruct (sset_add_spec acc k Hnd) as [Hnd' Hin'].
    destruct (IH _ Hnd') as [H1 H2]. split; [exact H1|].
    intros x. rewrite H2, Hin'. cbn. intuition.
Qed.

Lemma sset_of_spec (xs : list string) :
  NoDup (sset_of xs) /\ forall x, In x (sset_of xs) <-> In x xs.
Proof.
  destruct (fold_sset_add xs [] (NoDup_nil _)) as [H1 H2].
  split; [exact H1|]. intros x. rewrite (H2 x). cbn. tauto.
Qed.

Lemma token_rows_spec md bef aft (toks : list string) : forall b a c,
  token_rows md bef aft toks (b, a, c)
  = (b ++ map (token_row md bef) toks,
     a ++ map (token_row md aft) toks,
     c ++ flat_map (token_change md bef aft) toks).
Proof.
  induction toks as [|t toks IH]; intros b a c; cbn [token_rows map flat_map].
  - rewrite !app_nil_r. reflexivity.
  - rewrite IH. unfold token_row, token_change, token_balance, metadata_of.
    cbv zeta.
    destruct (or_zero (smap_get (tokens aft) t)
              - or_zero (smap_get (tokens bef) t) =? 0)%Z;
      rewrite <- ?app_assoc; cbn [app]; reflexivity.
Qed.

(** [buildAddressState], entry by entry. *)
Lemma buildAddressState_rows addr bef aft md sym :
  buildAddressState addr bef aft md sym
  = {| address := Js.toLowerCase addr;
       before := native_row sym bef :: map (token_row md bef) (all_tokens bef aft);
       after := native_row sym aft :: map (token_row md aft) (all_tokens bef aft);
       changes := native_change sym bef aft
                  ++ flat_map (token_change md bef aft) (all_tokens bef aft) |}.
Proof.
  unfold buildAddressState. rewrite token_rows_spec.
  unfold native_change, all_tokens, native_row.
  destruct (native aft - native bef =? 0)%Z; reflexivity.
Qed.

Lemma native_change_spec sym bef aft c :
  In c (native_change sym bef aft) ->
  ch_contractAddress c = None /\ change_of c (native bef) (native aft).
Proof.
  unfold native_change.
  destruct (native aft - native bef =? 0)%Z eqn:E; [intros []|].
  apply Z.eqb_neq in E. intros [<-|[]]. cbn. split; [reflexivity|].
  unfold change_of. cbn. rewrite !DigitFacts.BigInt_toString.
  repeat split; auto. lia.
Qed.

Lemma token_change_spec md bef aft t c :
  In c (token_change md bef aft t) ->
  ch_contractAddress c = Some t
  /\ change_of c (token_balance bef t) (token_balance aft t).
Proof.
  unfold token_change. cbv zeta.
  destruct (token_balance aft t - token_balance bef t =? 0)%Z eqn:E; [intros []|].
  apply Z.eqb_neq in E. intros [<-|[]]. cbn. split; [reflexivity|].
  unfold change_of. cbn. rewrite !DigitFacts.BigInt_toString.
  repeat split; auto. lia.
Qed.

Lemma flat_map_nil {A B} (f : A -> list B) (l : list A) :
  flat_map f l = [] <-> forall x, In x l -> f x = [].
Proof.
  induction l as [|x l IH]; cbn [flat_map].
  - split; [intros _ ? []|reflexivity].
  - split.
    + intros H. apply app_eq_nil in H. destruct H as [H1 H2].
      intros y [<-|Hy]; [exact H1|]. apply IH; assumption.
    + intros H. rewrite (H x (or_introl eq_refl)). cbn.
      apply IH. intros y Hy. apply H. right. exact Hy.
Qed.

End RowFacts.

(** X7. A row of the account-model builder lists the same tokens before
    and after, in the same order: the native token first, then each token
    that either snapshot holds, once, with the symbol and decimals of its
    metadata; the balance of a token that a snapshot lacks is ["0"]. *)
Theorem buildAddressState_rows_aligned :
  forall (addr : string) (bef aft : StateImpact.BalanceSnapshot)
         (tokenMetadata : list (string * StateImpact.Metadata))
         (nativeSymbol : string),
    let state := StateImpact.buildAddressState addr bef aft tokenMetadata nativeSymbol in
    let allTokens := sset_of (JsMap.keys (StateImpact.tokens bef)
                              ++ JsMap.keys (StateImpact.tokens aft)) in
    let balance snapshot t :=
      Js.bigint_toString (StateImpact.or_zero (smap_get (StateImpact.tokens snapshot) t)) in
    map StateImpact.tb_contractAddress (StateImpact.before state)
    = None :: map Some allTokens
    /\ map StateImpact.tb_contractAddress (StateImpact.after state)
       = None :: map Some allTokens
    /\ map StateImpact.tb_symbol (StateImpact.before state)
       = map StateImpact.tb_symbol (StateImpact.after state)
    /\ map StateImpact.tb_decimals (StateImpact.before state)
       = map StateImpact.tb_decimals (StateImpact.after state)
    /\ map StateImpact.tb_balance (StateImpact.before state)
       = Js.bigint_toString (StateImpact.native bef) :: map (balance bef) allTokens
    /\ map StateImpact.tb_balance (StateImpact.after state)
       = Js.bigint_toString (StateImpact.native aft) :: map (balance aft) allTokens
    /\ NoDup allTokens
    /\ (forall t, In t allTokens <->
          In t (JsMap.keys (StateImpact.tokens bef))
          \/ In t (JsMap.keys (StateImpact.tokens aft))).
Proof.
  intros addr bef aft md sym state allTokens balance.
  unfold state. rewrite RowFacts.buildAddressState_rows.
  cbn [StateImpact.before StateImpact.after map].
  change (StateImpactRows.all_tokens bef aft) with allTokens.
  rewrite !map_map. cbn.
  repeat split; try reflexivity.
  - apply RowFacts.sset_of_spec.
  - intros H. apply (proj1 (proj2 (RowFacts.sset_of_spec _) t)) in H.
    apply in_app_iff in H. exact H.
  - intros H. apply (proj2 (proj2 (RowFacts.sset_of_spec _) t)).
    apply in_app_iff. exact H.
Qed.

(** X8. The change list of a row is exact: each entry is the native one or
    that of a listed token, its three strings read as the balance before,
    the balance after and their difference, and that difference is not
    zero; the list is empty exactly when the native balance and the balance
    of every listed token are unchanged. *)
Theorem buildAddressState_changes_exact :
  forall (addr : string) (bef aft : StateImpact.BalanceSnapshot)
         (tokenMetadata : list (string * StateImpact.Metadata))
         (nativeSymbol : string),
    let state := StateImpact.buildAddressState addr bef aft tokenMetadata nativeSymbol in
    let allTokens := sset_of (JsMap.keys (StateImpact.tokens bef)
                              ++ JsMap.keys (StateImpact.tokens aft)) in
    let balance snapshot t :=
      StateImpact.or_zero (smap_get (StateImpact.tokens snapshot) t) in
    (forall c, In c (StateImpact.changes state) ->
       (StateImpact.ch_contractAddress c = None
        /\ StateImpactRows.change_of c (StateImpact.native bef) (StateImpact.native aft))
       \/ exists t, In t allTokens
                    /\ StateImpact.ch_contractAddress c = Some t
                    /\ StateImpactRows.change_of c (balance bef t) (balance aft t))
    /\ (StateImpact.changes state = [] <->
        StateImpact.native bef = StateImpact.native aft
        /\ forall t, In t allTokens -> balance bef t = balance aft t)
    /\ length (StateImpact.changes state) <= length (StateImpact.before state).
Proof.
  intros addr bef aft md sym state allTokens balance.
  unfold state. rewrite RowFacts.buildAddressState_rows.
  cbn [StateImpact.changes StateImpact.before].
  change (StateImpactRows.all_tokens bef aft) with allTokens.
  split; [|split].
  - intros c Hc. apply in_app_iff in Hc. destruct Hc as [Hc|Hc].
    + left. apply (RowFacts.native_change_spec _ _ _ _ Hc).
    + right. apply in_flat_map in Hc. destruct Hc as (t & Ht & Hc).
      exists t. split; [exact Ht|].
      apply (RowFacts.token_change_spec _ _ _ _ _ Hc).
  - split.
    + intros H. apply app_eq_nil in H. destruct H as [Hn Ht]. split.
      * unfold StateImpactRows.native_change in Hn.
        destruct (StateImpact.native aft - StateImpact.native bef =? 0)%Z eqn:E;
          [|discriminate]. apply Z.eqb_eq in E. lia.
      * intros t Hin.
        pose proof (proj1 (RowFacts.flat_map_nil _ _) Ht t Hin) as Hz.
        unfold StateImpactRows.token_change in Hz. cbv zeta in Hz.
        fold (balance bef t) (balance aft t).
        unfold StateImpactRows.token_balance in Hz. fold (balance bef t) (balance aft t) in Hz.
        destruct (balance aft t - balance bef t =? 0)%Z eqn:E; [|discriminate].
        apply Z.eqb_eq in E. lia.
    + intros [Hn Ht].
      unfold StateImpactRows.native_change. rewrite Hn, Z.sub_diag. cbn [Z.eqb app].
      apply RowFacts.flat_map_nil. intros t Hin.
      unfold StateImpactRows.token_change, StateImpactRows.token_balance. cbv zeta.
      fold (balance bef t) (balance aft t).
      rewrite (Ht t Hin), Z.sub_diag. reflexivity.
  - rewrite length_app. cbn [length]. rewrite length_map.
    assert (Hn : length (StateImpactRows.native_change sym bef aft) <= 1).
    { unfold StateImpactRows.native_change.
      destruct (_ =? 0)%Z; cbn; lia. }
    assert (Ht : length (flat_map (StateImpactRows.token_change md bef aft) allTokens)
                 <= length allTokens).
    { induction allTokens as [|t l IH]; cbn [flat_map length]; [lia|].
      rewrite length_app.
      assert (length (StateImpactRows.token_change md bef aft t) <= 1).
      { unfold StateImpactRows.token_change. cbv zeta.
        destruct (_ =? 0)%Z; cbn; lia. }
      lia. }
    lia.
Qed.

Module AssembleFacts.
Import StateImpact.

Lemma others_rows excl ba md sym (entries : list (string * BalanceSnapshot)) row :
  In row (other_affected excl ba md sym entries) ->
  exists k bs afs,
    In (k, bs) entries /\ smap_get ba k = Some afs
    /\ sset_has excl k = false
    /\ row = buildAddressState k bs afs md sym
    /\ changes row <> [].
Proof.
  induction entries as [|[k0 b0] entries IH]; cbn [other_affected]; [intros []|].
  assert (Hrest : In row (other_affected excl ba md sym entries) ->
                  exists k bs afs,
                    In (k, bs) ((k0, b0) :: entries) /\ smap_get ba k = Some afs
                    /\ sset_has excl k = false
                    /\ row = buildAddressState k bs afs md sym
                    /\ changes row <> []).
  { intros H. destruct (IH H) as (k & bs & afs & H1 & H2).
    exists k, bs, afs. split; [right; exact H1|exact H2]. }
  destruct (sset_has excl k0) eqn:Hex; [exact Hrest|].
  destruct (smap_get ba k0) as [a0|] eqn:Ha; [|exact Hrest].
  destruct (changes (buildAddressState k0 b0 a0 md sym)) eqn:Hc; [exact Hrest|].
  intros [<-|H]; [|exact (Hrest H)].
  exists k0, b0, a0. repeat split; auto.
  - left. reflexivity.
  - rewrite Hc. discriminate.
Qed.

End AssembleFacts.

(** X9. The account-model builder raises exactly when the sender has no
    snapshot in the BEFORE map or in the AFTER map. A counterparty that
    neither map holds does not make it raise: its row shows the native
    balance ["0"] before and after, and no change. *)
Theorem assembleStateImpactReport_missing_snapshots :
  forall (tokenMetadata : list (string * StateImpact.Metadata))
         (sender_ transactionTo : string)
         (balancesBefore balancesAfter : list (string * StateImpact.BalanceSnapshot))
         (nativeSymbol : string) (tokenRecipient : option string),
    let result := StateImpact.assembleStateImpactReport tokenMetadata sender_
                    transactionTo balancesBefore balancesAfter nativeSymbol
                    tokenRecipient in
    let recipientAddress := match tokenRecipient with
                            | Some r => if Js.truthy r then r else transactionTo
                            | None => transactionTo
                            end in
    let zero := {| StateImpact.tb_token := nativeSymbol;
                   StateImpact.tb_contractAddress := None;
                   StateImpact.tb_balance := "0";
                   StateImpact.tb_decimals := 18;
                   StateImpact.tb_symbol := nativeSymbol |} in
    returns result
    = smap_has balancesBefore (Js.toLowerCase sender_)
      && smap_has balancesAfter (Js.toLowerCase sender_)
    /\ forall report, result = Ok report ->
         smap_get balancesBefore (Js.toLowerCase recipientAddress) = None ->
         smap_get balancesAfter (Js.toLowerCase recipientAddress) = None ->
         StateImpact.recipient report
         = {| StateImpact.address := Js.toLowerCase recipientAddress;
              StateImpact.before := [zero]; StateImpact.after := [zero];
              StateImpact.changes := [] |}.
Proof.
  intros md sender_ to bb ba sym tr result recipientAddress zero.
  unfold result, StateImpact.assembleStateImpactReport, smap_has, JsMap.has.
  fold (@smap_get StateImpact.BalanceSnapshot).
  assert (Er : match Err.truthy_field tr with Some r => r | None => to end
               = recipientAddress).
  { unfold recipientAddress, Err.truthy_field.
    destruct tr as [r|]; [destruct (Js.truthy r)|]; reflexivity. }
  rewrite Er.
  destruct (smap_get bb (Js.toLowerCase sender_)) as [sb|];
    [destruct (smap_get ba (Js.toLowerCase sender_)) as [sa|]|];
    (split; [reflexivity|]); try discriminate.
  intros report [= <-] Hb Ha. cbn [StateImpact.recipient].
  rewrite Hb, Ha. reflexivity.
Qed.

(** X9, witness: a sender with snapshots and a counterparty without. *)
Lemma assembleStateImpactReport_missing_snapshots_witness :
  exists report,
    StateImpact.assembleStateImpactReport [] "0xAA" "0xDD"
      Scenario.before3 Scenario.after3 "ETH" None = Ok report
    /\ StateImpact.changes (StateImpact.recipient report) = []
    /\ map StateImpact.tb_balance (StateImpact.before (StateImpact.recipient report))
       = ["0"].
Proof.
  destruct (StateImpact.assembleStateImpactReport [] "0xAA" "0xDD"
              Scenario.before3 Scenario.after3 "ETH" None) as [report|e] eqn:E;
    [|discriminate E].
  exists report. split; [reflexivity|].
  rewrite (proj2 (assembleStateImpactReport_missing_snapshots [] "0xAA" "0xDD"
                    Scenario.before3 Scenario.after3 "ETH" None)
                 report E eq_refl eq_refl).
  split; reflexivity.
Defined.

(** X10. Every row of [contractsAffected] is the row of an address that
    both maps hold, other than the sender and the counterparty, built from
    its two snapshots, and it lists at least one change: an address whose
    balances did not move, or that the AFTER map lacks, has no row there. *)
Theorem contractsAffected_rows :
  forall (tokenMetadata : list (string * StateImpact.Metadata))
         (sender_ transactionTo : string)
         (balancesBefore balancesAfter : list (string * StateImpact.BalanceSnapshot))
         (nativeSymbol : string) (tokenRecipient : option string)
         (report : StateImpact.StateImpactReport),
    let recipientAddress := match tokenRecipient with
                            | Some r => if Js.truthy r then r else transactionTo
                            | None => transactionTo
                            end in
    StateImpact.assembleStateImpactReport tokenMetadata sender_ transactionTo
      balancesBefore balancesAfter nativeSymbol tokenRecipient = Ok report ->
    length (StateImpact.contractsAffected report) <= length balancesBefore
    /\ forall row, In row (StateImpact.contractsAffected report) ->
         StateImpact.changes row <> []
         /\ exists k snapshotBefore snapshotAfter,
              In (k, snapshotBefore) balancesBefore
              /\ smap_get balancesAfter k = Some snapshotAfter
              /\ k <> Js.toLowerCase sender_
              /\ k <> Js.toLowerCase recipientAddress
              /\ row = StateImpact.buildAddressState k snapshotBefore snapshotAfter
                         tokenMetadata nativeSymbol.
Proof.
  intros md sender_ to bb ba sym tr report recipientAddress Hbuild.
  unfold StateImpact.assembleStateImpactReport in Hbuild.
  assert (Er : match Err.truthy_field tr with Some r => r | None => to end
               = recipientAddress).
  { unfold recipientAddress, Err.truthy_field.
    destruct tr as [r|]; [destruct (Js.truthy r)|]; reflexivity. }
  rewrite Er in Hbuild.
  destruct (smap_get bb (Js.toLowerCase sender_)) as [sb|]; [|discriminate].
  destruct (smap_get ba (Js.toLowerCase sender_)) as [sa|]; [|discriminate].
  injection Hbuild as <-. cbn [StateImpact.contractsAffected]. split.
  - generalize (sset_of [Js.toLowerCase sender_; Js.toLowerCase recipientAddress]).
    intros excl. induction bb as [|[k0 b0] bb IH]; cbn [StateImpact.other_affected length];
      [lia|].
    destruct (sset_has excl k0); [lia|].
    destruct (smap_get ba k0); [|lia].
    destruct (StateImpact.changes _); cbn [length]; lia.
  - intros row Hrow.
    destruct (AssembleFacts.others_rows _ _ _ _ _ _ Hrow)
      as (k & bs & afs & Hin & Ha & Hex & -> & Hch).
    split; [exact Hch|]. exists k, bs, afs.
    rewrite ReportFacts.sset_has_pair in Hex.
    apply orb_false_iff in Hex. destruct Hex as [H1 H2].
    apply String.eqb_neq in H1, H2.
    repeat split; auto.
Qed.

(** X10, witness: the third address of the scenario has a row. *)
Lemma contractsAffected_rows_witness :
  exists report,
    StateImpact.assembleStateImpactReport [] "0xAA" "0xBB"
      Scenario.before3 Scenario.after3 "ETH" None = Ok report
    /\ map StateImpact.address (StateImpact.contractsAffected report) = ["0xcc"]
    /\ Forall (fun row => StateImpact.changes row <> [])
              (StateImpact.contractsAffected report).
Proof.
  destruct (StateImpact.assembleStateImpactReport [] "0xAA" "0xBB"
              Scenario.before3 Scenario.after3 "ETH" None) as [report|e] eqn:E;
    [|discriminate E].
  exists report. split; [reflexivity|]. split.
  - injection E as <-. reflexivity.
  - apply Forall_forall. intros row Hrow.
    exact (proj1 (proj2 (contractsAffected_rows [] "0xAA" "0xBB"
                           Scenario.before3 Scenario.after3 "ETH" None report E)
                        row Hrow)).
Defined.

(* ------------------------------------------------------------------ *)
(** * Gas report and token metadata of the account-model side *)
(* ------------------------------------------------------------------ *)

(** X11. The strings of a gas report are consistent: whatever the receipt,
    the total cost in wei reads as the product of the gas used and the gas
    price that the report shows, and the report carries the given symbol.
    Without a receipt the report is the zero report; a receipt without a
    gas price costs nothing. *)
Theorem calculateGasReport_arithmetic :
  forall (lib : Evm.EthersLib) (receipt : option Evm.Receipt) (symbol : string),
    let report := Evm.calculateGasReport lib receipt symbol in
    (exists used price,
       BigInt (Evm.gr_gasUsed report) = Ok used
       /\ BigInt (Evm.gr_gasPrice report) = Ok price
       /\ BigInt (Evm.totalCostWei report) = Ok (used * price)%Z
       /\ Evm.totalCostNative report
          = match receipt with
            | Some _ => Evm.formatEther lib (used * price)%Z
            | None => "0"
            end
       /\ (forall r, receipt = Some r -> used = Evm.gasUsed r)
       /\ (forall r, receipt = Some r -> Evm.gasPrice r = None -> price = 0%Z))
    /\ Evm.nativeSymbol report = symbol
    /\ (receipt = None -> report = Evm.emptyGasReport symbol).
Proof.
  intros lib receipt symbol report. unfold report, Evm.calculateGasReport.
  destruct receipt as [r|].
  - cbn [Evm.gr_gasUsed Evm.gr_gasPrice Evm.totalCostWei Evm.totalCostNative
         Evm.nativeSymbol].
    split; [|split; [reflexivity|discriminate]].
    exists (Evm.gasUsed r),
           (match Evm.gasPrice r with Some p => p | None => 0%Z end).
    rewrite !DigitFacts.BigInt_toString.
    repeat split; try reflexivity.
    + intros r' [= <-]. reflexivity.
    + intros r' [= <-] ->. reflexivity.
  - split; [|split; reflexivity].
    exists 0%Z, 0%Z. repeat split; try reflexivity; discriminate.
Qed.

Module TokenInfoFacts.
Import Async.

Section Facts.
  Context {W Tx : Type}.
  Variable fork : Evm.Fork W Tx.

  Notation getTokenMetadata := (Evm.getTokenMetadata fork).

  (** The outcome of a lookup, by cases on the cache and on the contract. *)
Lemma getTokenMetadata_cases tokenAddress (s : Evm.State W) :
    let key := Js.toLowerCase tokenAddress in
    match smap_get (Evm.tokenCache s) key with
    | Some m => getTokenMetadata tokenAddress s = (Ok m, s)
    | None =>
        match Evm.new_Contract fork tokenAddress with
        | Throw _ =>
            getTokenMetadata tokenAddress s = (Ok (Evm.unknown_metadata key), s)
        | Ok _ =>
            let '(rs, w1) := Evm.call_symbol fork tokenAddress (Evm.world s) in
            let '(rd, w2) := Evm.call_decimals fork tokenAddress w1 in
            let m := {| Evm.tm_address := key;
                        Evm.tm_symbol := match rs with Ok x => x | Throw _ => "UNKNOWN" end;
                        Evm.tm_decimals := match rd with Ok d => d | Throw _ => 18%Z end |} in
            getTokenMetadata tokenAddress s
            = (Ok m, {| Evm.world := w2; Evm.anvil := Evm.anvil s;
                        Evm.tokenCache := smap_set (Evm.tokenCache s) key m;
                        Evm.impersonating := Evm.impersonating s |})
        end
    end.
  Proof.
    intros key. unfold Evm.getTokenMetadata. fold key.
    unfold bind, gets, try_catch, lift, Evm.rpc, ret, Evm.cache_token, modify.
    cbv beta iota.
    destruct (smap_get (Evm.tokenCache s) key) as [m|]; [reflexivity|].
    destruct (Evm.new_Contract fork tokenAddress) as [u|e]; [|reflexivity].
    cbn [Evm.world Evm.anvil Evm.tokenCache Evm.impersonating].
    destruct (Evm.call_symbol fork tokenAddress (Evm.world s)) as [[x|e1] w1];
      cbn [Evm.world Evm.anvil Evm.tokenCache Evm.impersonating];
      destruct (Evm.call_decimals fork tokenAddress w1) as [[d|e2] w2];
      reflexivity.
  Qed.

End Facts.
End TokenInfoFacts.

(** X12. [getTokenMetadata] never raises, and a lookup that has returned
    is remembered: asked again for the same token, in any spelling of its
    address that has the same lower-case form, and with a contract
    constructor that treats the two spellings alike, it returns the same
    metadata and leaves the fork and the cache as they are. *)
Theorem getTokenMetadata_remembers :
  forall (W Tx : Type) (fork : Evm.Fork W Tx) (tokenAddress : string)
         (s : Evm.State W),
    exists m s',
      Evm.getTokenMetadata fork tokenAddress s = (Ok m, s')
      /\ forall again,
           Js.toLowerCase again = Js.toLowerCase tokenAddress ->
           returns (Evm.new_Contract fork again)
           = returns (Evm.new_Contract fork tokenAddress) ->
           Evm.getTokenMetadata fork again s' = (Ok m, s').
Proof.
  intros W Tx fork tokenAddress s.
  pose proof (TokenInfoFacts.getTokenMetadata_cases fork tokenAddress s) as H.
  cbv zeta in H.
  destruct (smap_get (Evm.tokenCache s) (Js.toLowerCase tokenAddress)) as [m|] eqn:Ec.
  - exists m, s. split; [exact H|]. intros again Hk _.
    pose proof (TokenInfoFacts.getTokenMetadata_cases fork again s) as H2.
    cbv zeta in H2. rewrite Hk, Ec in H2. exact H2.
  - destruct (Evm.new_Contract fork tokenAddress) as [u|e] eqn:En.
    + destruct (Evm.call_symbol fork tokenAddress (Evm.world s)) as [rs w1].
      destruct (Evm.call_decimals fork tokenAddress w1) as [rd w2].
      eexists. eexists. split; [exact H|]. intros again Hk _.
      match goal with
      | |- Evm.getTokenMetadata fork again ?st = _ =>
          pose proof (TokenInfoFacts.getTokenMetadata_cases fork again st) as H2
      end.
      cbv zeta in H2. cbn [Evm.tokenCache] in H2.
      rewrite Hk, SnapshotFacts.smap_get_set_same in H2. exact H2.
    + exists (Evm.unknown_metadata (Js.toLowerCase tokenAddress)), s.
      split; [exact H|]. intros again Hk Hr.
      pose proof (TokenInfoFacts.getTokenMetadata_cases fork again s) as H2.
      cbv zeta in H2. rewrite Hk, Ec in H2.
      destruct (Evm.new_Contract fork again); [discriminate Hr|exact H2].
Qed.

(** X12, witness: the token of the scenario, looked up twice. *)
Lemma getTokenMetadata_remembers_witness :
  exists m s',
    Evm.getTokenMetadata (Scenario.fork (fun _ => true) true []) Scenario.TOKEN
      Scenario.connected = (Ok m, s')
    /\ Evm.tm_symbol m = "USDC"
    /\ Evm.getTokenMetadata (Scenario.fork (fun _ => true) true [])
         "0xA0B86991C6218B36C1D19D4A2E9EB0CE3606EB48" s' = (Ok m, s').
Proof.
  destruct (getTokenMetadata_remembers nat unit (Scenario.fork (fun _ => true) true [])
              Scenario.TOKEN Scenario.connected) as (m & s' & E & Hagain).
  exists m, s'. split; [exact E|]. split.
  - vm_compute in E. injection E as <- _. reflexivity.
  - apply Hagain; reflexivity.
Defined.

(** X13. A failed read is remembered too: when the contract object can be
    built but the symbol or the decimals read raises, the placeholder
    ([UNKNOWN], 18) is stored in the cache under the lower-cased address,
    so later lookups answer with it without reading again. When the
    contract object cannot be built, the placeholder is returned and
    nothing is stored. *)
Theorem getTokenMetadata_caches_placeholders :
  forall (W Tx : Type) (fork : Evm.Fork W Tx) (tokenAddress : string)
         (s : Evm.State W) (m : Evm.TokenMetadata) (s' : Evm.State W),
    smap_get (Evm.tokenCache s) (Js.toLowerCase tokenAddress) = None ->
    Evm.getTokenMetadata fork tokenAddress s = (Ok m, s') ->
    Evm.tm_address m = Js.toLowerCase tokenAddress
    /\ match Evm.new_Contract fork tokenAddress with
       | Ok _ =>
           smap_get (Evm.tokenCache s') (Js.toLowerCase tokenAddress) = Some m
           /\ (returns (fst (Evm.call_symbol fork tokenAddress (Evm.world s))) = false ->
               Evm.tm_symbol m = "UNKNOWN")
           /\ (forall w1 r, Evm.call_symbol fork tokenAddress (Evm.world s) = (r, w1) ->
               returns (fst (Evm.call_decimals fork tokenAddress w1)) = false ->
               Evm.tm_decimals m = 18%Z)
       | Throw _ =>
           m = Evm.unknown_metadata (Js.toLowerCase tokenAddress) /\ s' = s
       end.
Proof.
  intros W Tx fork tokenAddress s m s' Hmiss Hget.
  pose proof (TokenInfoFacts.getTokenMetadata_cases fork tokenAddress s) as H.
  cbv zeta in H. rewrite Hmiss in H.
  destruct (Evm.new_Contract fork tokenAddress) as [u|e].
  - destruct (Evm.call_symbol fork tokenAddress (Evm.world s)) as [rs w1] eqn:Es.
    destruct (Evm.call_decimals fork tokenAddress w1) as [rd w2] eqn:Ed.
    rewrite H in Hget. injection Hget as <- <-.
    cbn [Evm.tm_address Evm.tokenCache Evm.tm_symbol Evm.tm_decimals fst].
    split; [reflexivity|]. split; [apply SnapshotFacts.smap_get_set_same|]. split.
    + destruct rs; [discriminate|reflexivity].
    + intros w1' r [= <- <-]. rewrite Ed. cbn [fst].
      destruct rd; [discriminate|reflexivity].
  - rewrite H in Hget. injection Hget as <- <-. cbn. auto.
Qed.

(** X13, witness: a token whose symbol read raises. *)
Lemma getTokenMetadata_caches_placeholders_witness :
  let fork :=
    {| Evm.rpc_getBlockNumber := fun w => (Ok 100%Z, w);
       Evm.rpc_evm_snapshot := fun w => (Ok "0x1", w);
       Evm.rpc_evm_revert := fun _ w => (Ok true, w);
       Evm.rpc_anvil_reset := fun _ w => (Ok tt, w);
       Evm.rpc_impersonateAccount := fun _ w => (Ok tt, w);
       Evm.rpc_stopImpersonatingAccount := fun _ w => (Ok tt, w);
       Evm.rpc_getSigner := fun _ w => (Ok tt, w);
       Evm.rpc_getBalance := fun _ w => (Ok 0%Z, w);
       Evm.new_Contract := fun _ => Ok tt;
       Evm.call_balanceOf := fun _ _ w => (Ok 0%Z, w);
       Evm.call_symbol := fun _ w => (Throw (Err.new_Error "call revert exception"), w);
       Evm.call_decimals := fun _ (w : nat) => (Ok 6%Z, w);
       Evm.rpc_sendTransaction := fun _ _ w => (Ok tt, w);
       Evm.tx_wait := fun _ w => (Ok None, w);
       Evm.rpc_getFeeData := fun w => (Ok None, w);
       Evm.live_getFeeData := fun w => (Ok None, w) |} in
  exists m s',
    Evm.getTokenMetadata fork Scenario.TOKEN Scenario.connected = (Ok m, s')
    /\ Evm.tm_symbol m = "UNKNOWN"
    /\ smap_get (Evm.tokenCache s') Scenario.TOKEN = Some m.
Proof.
  intros fork.
  destruct (Evm.getTokenMetadata fork Scenario.TOKEN Scenario.connected)
    as [[m|e] s'] eqn:E; [|discriminate E].
  exists m, s'. split; [reflexivity|].
  destruct (getTokenMetadata_caches_placeholders nat unit fork Scenario.TOKEN
              Scenario.connected m s' eq_refl E) as (_ & Hcached & Hsym & _).
  split; [apply Hsym; reflexivity|exact Hcached].
Defined.

(* ------------------------------------------------------------------ *)
(** * The account-model fork client *)
(* ------------------------------------------------------------------ *)

(** X14. On a service object without a provider, every operation of the
    account-model client other than [connect] and [isConnected], and the
    engine itself, raises the error [Anvil not connected. Call connect()
    first.] before anything is asked of the fork: the state is left as it
    was. *)
Theorem anvil_not_connected :
  forall (W Tx : Type) (lib : Evm.EthersLib) (fork : Evm.Fork W Tx)
         (NATIVE_SYMBOL : string) (s : Evm.State W),
    Evm.provider (Evm.anvil s) = None ->
    let refused {A} (run : Evm.State W -> Raises A * Evm.State W) :=
      run s = (Throw (Err.new_Error "Anvil not connected. Call connect() first."), s) in
    refused (Evm.getProvider (W := W))
    /\ refused (Evm.snapshot fork)
    /\ (forall id, refused (Evm.revert fork id))
    /\ (forall a, refused (Evm.impersonate fork a))
    /\ (forall a, refused (Evm.stopImpersonating fork a))
    /\ (forall a, refused (Evm.getImpersonatedSigner fork a))
    /\ refused (Evm.reset fork)
    /\ (forall request,
          refused (Evm.simulateTransaction lib fork NATIVE_SYMBOL request)).
Proof.
  intros W Tx lib fork sym s Hp refused. unfold refused.
  assert (Hg : Evm.getProvider s
               = (Throw (Err.new_Error "Anvil not connected. Call connect() first."), s)).
  { unfold Evm.getProvider, Async.bind, Async.gets. rewrite Hp. reflexivity. }
  repeat split; intros;
    unfold Evm.simulateTransaction, Evm.executeSimulation, Evm.snapshot, Evm.revert,
           Evm.impersonate, Evm.stopImpersonating, Evm.getImpersonatedSigner, Evm.reset;
    try exact Hg;
    unfold Async.bind at 1; rewrite Hg; reflexivity.
Qed.

(** X14, witness: a service object that was only constructed. *)
Lemma anvil_not_connected_witness :
  let s := {| Evm.world := 0; Evm.anvil := Evm.new_AnvilService "http://127.0.0.1:8545";
              Evm.tokenCache := []; Evm.impersonating := false |} in
  Evm.simulateTransaction Scenario.lib (Scenario.fork (fun _ => true) true []) "GLMR"
    Scenario.request s
  = (Throw (Err.new_Error "Anvil not connected. Call connect() first."), s).
Proof.
  intros s.
  apply (anvil_not_connected nat unit Scenario.lib (Scenario.fork (fun _ => true) true [])
           "GLMR" s eq_refl).
Defined.

(** X15. [connect] sets the provider before it asks the node for its block
    number: whether it returns or raises, the service object has a provider
    afterwards (so [getProvider] no longer raises), and the fork URL is the
    given one, or else the configured one. It returns exactly when the
    block-number read does, and then the block number is stored; when the
    read raises, [connect] raises the same error and the stored block
    number is the old one. *)
Theorem anvil_connect_outcome :
  forall (W Tx : Type) (fork : Evm.Fork W Tx) (FORK_URL_EVM forkUrl : option string)
         (s : Evm.State W),
    exists s',
      Evm.connect fork FORK_URL_EVM forkUrl s
      = (match fst (Evm.rpc_getBlockNumber fork (Evm.world s)) with
         | Ok _ => Ok tt
         | Throw e => Throw e
         end, s')
      /\ Evm.world s' = snd (Evm.rpc_getBlockNumber fork (Evm.world s))
      /\ Evm.provider (Evm.anvil s') = Some (Evm.anvilUrl (Evm.anvil s))
      /\ Evm.getProvider s' = (Ok tt, s')
      /\ Evm.forkUrl (Evm.anvil s')
         = match Err.truthy_field forkUrl with
           | Some u => Some u
           | None => Err.truthy_field FORK_URL_EVM
           end
      /\ Evm.forkBlockNumber (Evm.anvil s')
         = match fst (Evm.rpc_getBlockNumber fork (Evm.world s)) with
           | Ok n => Some n
           | Throw _ => Evm.forkBlockNumber (Evm.anvil s)
           end
      /\ Evm.tokenCache s' = Evm.tokenCache s.
Proof.
  intros W Tx fork env arg s.
  unfold Evm.connect, Evm.getProvider, Evm.set_anvil, Evm.rpc,
         Async.bind, Async.gets, Async.modify, Async.ret.
  cbn [Evm.world Evm.anvil Evm.tokenCache Evm.impersonating
       Evm.provider Evm.anvilUrl Evm.forkUrl Evm.forkBlockNumber].
  destruct (Evm.rpc_getBlockNumber fork (Evm.world s)) as [[n|e] w'];
    eexists; cbn; repeat split; reflexivity.
Qed.

(* ------------------------------------------------------------------ *)
(** * The runtime-module fork client *)
(* ------------------------------------------------------------------ *)

Module ChopsticksFacts.
Import Async ChopsticksInv RunFacts.

Ltac fields :=
  cbn [Wasm.world Wasm.chopsticks Wasm.chainPropertiesCache Wasm.console
       Wasm.api Wasm.provider Wasm.endpoint Wasm.originalBlockHash
       Wasm.originalBlockNumber] in *.

Section Facts.
  Context {W Ext : Type}.
  Variable node : Wasm.Node W Ext.

Lemma connect_service endpoint_arg (s : Wasm.State W) r s' :
    Wasm.connect node endpoint_arg s = (r, s') ->
    (fork_point_behind_api (Wasm.chopsticks s) ->
     fork_point_behind_api (Wasm.chopsticks s'))
    /\ (r = Ok tt -> Wasm.api (Wasm.chopsticks s') = true
                     /\ Wasm.originalBlockHash (Wasm.chopsticks s') <> None)
    /\ Wasm.chainPropertiesCache s' = Wasm.chainPropertiesCache s.
  Proof.
    unfold Wasm.connect, Wasm.set_chopsticks, Wasm.rpc, bind, gets, modify, ret,
           fork_point_behind_api.
    destruct (Err.truthy_field endpoint_arg) as [e0|]; fields.
    all: match goal with
         | |- context [Wasm.api_create node ?u ?w] =>
             destruct (Wasm.api_create node u w) as [[[]|e1] w1]
         end; fields.
    all: try (destruct (Wasm.api_chain_and_header node w1)
                as [[[[chain hash] number]|e2] w2]; fields).
    all: intros [= <- <-]; fields.
    all: (split; [|split; [|reflexivity]]).
    all: intros; try discriminate; auto.
    all: split; [reflexivity|discriminate].
  Qed.

Lemma disconnect_service (s : Wasm.State W) r s' :
    Wasm.disconnect node s = (r, s') ->
    (fork_point_behind_api (Wasm.chopsticks s) ->
     fork_point_behind_api (Wasm.chopsticks s'))
    /\ (r = Ok tt -> Wasm.api (Wasm.chopsticks s') = false)
    /\ Wasm.chainPropertiesCache s' = Wasm.chainPropertiesCache s.
  Proof.
    unfold Wasm.disconnect, Wasm.set_chopsticks, Wasm.rpc, bind, gets, modify, ret,
           fork_point_behind_api.
    destruct (Wasm.api (Wasm.chopsticks s)) eqn:Ea.
    - destruct (Wasm.api_disconnect node (Wasm.world s)) as [[[]|e] w1].
      all: intros [= <- <-]; fields.
      all: (split; [|split; [|reflexivity]]).
      all: intros; try discriminate; auto.
    - intros [= <- <-]. split; [rewrite Ea; intros H; exact H|]. split; [intros _; exact Ea|reflexivity].
  Qed.

Lemma console_write_service msg e (s : Wasm.State W) :
    exists s', Wasm.console_write (W := W) msg e s = (Ok tt, s')
               /\ Wasm.chopsticks s' = Wasm.chopsticks s
               /\ Wasm.world s' = Wasm.world s
               /\ Wasm.chainPropertiesCache s' = Wasm.chainPropertiesCache s.
  Proof. eexists. split; [reflexivity|]. cbn. auto. Qed.

  (** The reconnecting path of [reset]. *)
Lemma reconnect_service msg e (s : Wasm.State W) r s' :
    (Wasm.console_write msg e ;;; Wasm.disconnect node ;;; Wasm.connect node None) s
    = (r, s') ->
    (fork_point_behind_api (Wasm.chopsticks s) ->
     fork_point_behind_api (Wasm.chopsticks s'))
    /\ (r = Ok tt -> Wasm.api (Wasm.chopsticks s') = true)
    /\ Wasm.chainPropertiesCache s' = Wasm.chainPropertiesCache s.
  Proof.
    intros H. apply bind_inv in H.
    destruct (console_write_service msg e s) as (s0 & E0 & Hc0 & _ & Hp0).
    destruct H as [(a & s1 & E1 & H)|(err & E1 & _)]; [|congruence].
    rewrite E0 in E1. injection E1 as <- <-.
    apply bind_inv in H.
    destruct H as [(a & s2 & E2 & H)|(err & E2 & ->)].
    - apply disconnect_service in E2. apply connect_service in H.
      rewrite Hc0 in E2. destruct E2 as (I2 & _ & P2). destruct H as (I3 & A3 & P3).
      split; [auto|]. split; [intros Hr; apply A3; exact Hr|congruence].
    - apply disconnect_service in E2. rewrite Hc0 in E2.
      destruct E2 as (I2 & _ & P2).
      split; [auto|]. split; [discriminate|congruence].
  Qed.

Lemma reset_service (s : Wasm.State W) r s' :
    Wasm.reset node s = (r, s') ->
    (fork_point_behind_api (Wasm.chopsticks s) ->
     fork_point_behind_api (Wasm.chopsticks s')
     /\ (r = Ok tt -> Wasm.api (Wasm.chopsticks s') = true))
    /\ Wasm.chainPropertiesCache s' = Wasm.chainPropertiesCache s.
  Proof.
    unfold Wasm.reset. intros H. apply bind_inv in H.
    destruct H as [(hash & s1 & E1 & H)|(err & E1 & _)]; [|discriminate E1].
    unfold gets in E1. injection E1 as <- <-.
    destruct (Err.truthy_field (Wasm.originalBlockHash (Wasm.chopsticks s)))
      as [h|] eqn:Eh.
    - unfold try_catch in H.
      destruct (Wasm.rpc (Wasm.raw_dev_setHead node h) s) as [[[]|e] s1] eqn:Er.
      + injection H as <- <-. unfold Wasm.rpc in Er.
        destruct (Wasm.raw_dev_setHead node h (Wasm.world s)) as [r1 w1].
        injection Er as _ <-. fields. split; [|reflexivity].
        intros I. split; [exact I|]. intros _. apply I.
        unfold Err.truthy_field in Eh.
        destruct (Wasm.originalBlockHash (Wasm.chopsticks s)); discriminate.
      + unfold Wasm.rpc in Er.
        destruct (Wasm.raw_dev_setHead node h (Wasm.world s)) as [r1 w1].
        injection Er as _ <-.
        apply reconnect_service in H. fields.
        destruct H as (I & A & P). split; [|exact P].
        intros I0. split; [apply I; exact I0|exact A].
    - apply reconnect_service in H. destruct H as (I & A & P).
      split; [|exact P]. intros I0. split; [apply I; exact I0|exact A].
  Qed.

End Facts.
End ChopsticksFacts.

(** X16. The runtime-module client keeps its fork point behind its API
    object: from a service object in which a stored block hash implies a
    set API (a new object, for one), [connect], [disconnect] and [reset]
    lead to such an object again, whether they return or raise. A [reset]
    that returns leaves the API set, so [getApi] does not raise after it:
    without a stored fork point, or when [dev_setHead] fails, [reset]
    connects anew. *)
Theorem chopsticks_reset_leaves_api :
  forall (W Ext : Type) (node : Wasm.Node W Ext) (s : Wasm.State W),
    ChopsticksInv.fork_point_behind_api (Wasm.chopsticks s) ->
    (forall endpoint r s', Wasm.connect node endpoint s = (r, s') ->
       ChopsticksInv.fork_point_behind_api (Wasm.chopsticks s'))
    /\ (forall r s', Wasm.disconnect node s = (r, s') ->
          ChopsticksInv.fork_point_behind_api (Wasm.chopsticks s')
          /\ (r = Ok tt -> Wasm.getApi s'
                           = (Throw (Err.new_Error
                                "Chopsticks not connected. Call connect() first."), s')))
    /\ (forall r s', Wasm.reset node s = (r, s') ->
          ChopsticksInv.fork_point_behind_api (Wasm.chopsticks s')
          /\ (r = Ok tt -> Wasm.getApi s' = (Ok tt, s'))).
Proof.
  intros W Ext node s I. split; [|split].
  - intros endpoint r s' H.
    apply (proj1 (ChopsticksFacts.connect_service node _ _ _ _ H) I).
  - intros r s' H.
    destruct (ChopsticksFacts.disconnect_service node _ _ _ H) as (I' & A & _).
    split; [exact (I' I)|]. intros Hr.
    unfold Wasm.getApi, Async.bind, Async.gets. rewrite (A Hr). reflexivity.
  - intros r s' H.
    destruct (ChopsticksFacts.reset_service node _ _ _ H) as (HI & _).
    destruct (HI I) as [I' A]. split; [exact I'|]. intros Hr.
    unfold Wasm.getApi, Async.bind, Async.gets. rewrite (A Hr). reflexivity.
Qed.

(** X16, witness: a service object that was only constructed is reset by
    connecting, after which the API is there. *)
Lemma chopsticks_reset_leaves_api_witness :
  let s := {| Wasm.world := tt;
              Wasm.chopsticks := Wasm.new_ChopsticksService "http://localhost:8546";
              Wasm.chainPropertiesCache := None; Wasm.console := [] |} in
  exists s', Wasm.reset (Scenario.node false) s = (Ok tt, s')
             /\ Wasm.getApi s' = (Ok tt, s').
Proof.
  intros s.
  destruct (Wasm.reset (Scenario.node false) s) as [[[]|e] s'] eqn:E;
    [|discriminate E].
  exists s'. split; [reflexivity|].
  assert (I : ChopsticksInv.fork_point_behind_api (Wasm.chopsticks s))
    by (intros H; contradiction H; reflexivity).
  exact (proj2 (proj2 (proj2 (chopsticks_reset_leaves_api unit unit
                                (Scenario.node false) s I)) _ _ E) eq_refl).
Defined.

(* ------------------------------------------------------------------ *)
(** * The account-model engine: address expansion *)
(* ------------------------------------------------------------------ *)

Module DiscoverFacts.

Import Discovery.


Section Notes.
  Variable tracked : list string.

  Notation sound := (Discovery.sound tracked).

Lemma note_address_spec field new :
    NoDup new ->
    let new' := Evm.note_address tracked field new in
    NoDup new'
    /\ (forall a, In a new' <->
          In a new
          \/ exists v, field = Some v /\ v <> "" /\ a = Js.toLowerCase v
                       /\ ~ In a tracked).
  Proof.
    intros Hnd new'. unfold new', Evm.note_address.
    destruct (Err.truthy_field field) as [v|] eqn:E.
    - apply RunFacts.truthy_field_Some in E. destruct E as [-> Hv].
      destruct (sset_has tracked (Js.toLowerCase v)) eqn:Et.
      + apply RowFacts.sset_has_In in Et. split; [exact Hnd|].
        intros a. split; [auto|].
        intros [H|(v' & [= <-] & _ & -> & Hn)]; [exact H|contradiction].
      + assert (Hn : ~ In (Js.toLowerCase v) tracked).
        { intros H. apply RowFacts.sset_has_In in H. congruence. }
        destruct (RowFacts.sset_add_spec new (Js.toLowerCase v) Hnd) as [H1 H2].
        split; [exact H1|]. intros a. rewrite H2. split.
        * intros [H| ->]; [auto|]. right. exists v. auto.
        * intros [H|(v' & [= <-] & _ & -> & _)]; auto.
    - split; [exact Hnd|]. intros a. split; [auto|].
      intros [H|(v & -> & Hv & _)]; [exact H|].
      exfalso. assert (Err.truthy_field (Some v) = Some v)
        by (apply RunFacts.truthy_field_Some; auto). congruence.
  Qed.

Lemma discover_from (events_ : list EventDecoder.DecodedEvent) :
    forall seen new, sound seen new ->
      sound (seen ++ events_)
        (fold_left
           (fun newAddresses event =>
              if EventDecoder.name event ==? "Transfer" then
                let args := EventDecoder.args event in
                Evm.note_address tracked (smap_get args "to")
                  (Evm.note_address tracked (smap_get args "from") newAddresses)
              else newAddresses)
           events_ new).
  Proof.
    induction events_ as [|ev rest IH]; intros seen new Hs; cbn [fold_left].
    - rewrite app_nil_r. exact Hs.
    - replace (seen ++ ev :: rest) with ((seen ++ [ev]) ++ rest)
        by (rewrite <- app_assoc; reflexivity).
      apply IH. destruct Hs as (Hnd & Hin & Hall).
      assert (Hmono : forall a, names seen a -> names (seen ++ [ev]) a).
      { intros a (e & side & v & He & H). exists e, side, v.
        split; [apply in_or_app; left; exact He|exact H]. }
      destruct (EventDecoder.name ev ==? "Transfer") eqn:En.
      + apply String.eqb_eq in En. cbv zeta.
        destruct (note_address_spec (smap_get (EventDecoder.args ev) "from") new Hnd)
          as [Hnd1 Hin1].
        destruct (note_address_spec (smap_get (EventDecoder.args ev) "to") _ Hnd1)
          as [Hnd2 Hin2].
        split; [exact Hnd2|]. split.
        * intros a Ha. apply Hin2 in Ha.
          destruct Ha as [Ha|(v & Hf & Hv & -> & Hn)].
          -- apply Hin1 in Ha. destruct Ha as [Ha|(v & Hf & Hv & -> & Hn)].
             ++ destruct (Hin a Ha). auto.
             ++ split; [exact Hn|]. exists ev, "from", v.
                split; [apply in_or_app; right; left; reflexivity|]. auto.
          -- split; [exact Hn|]. exists ev, "to", v.
             split; [apply in_or_app; right; left; reflexivity|]. auto 6.
        * intros a (e & side & v & He & Hname & Hside & Hf & Hv & ->).
          apply in_app_or in He. destruct He as [He|[<-|[]]].
          -- destruct (Hall (Js.toLowerCase v)) as [H|H].
             ++ exists e, side, v. auto 6.
             ++ left. exact H.
             ++ right. apply Hin2. left. apply Hin1. left. exact H.
          -- destruct (in_dec string_dec (Js.toLowerCase v) tracked) as [Ht|Ht];
               [left; exact Ht|right].
             apply Hin2. destruct Hside as [-> | ->].
             ++ left. apply Hin1. right. exists v. auto.
             ++ right. exists v. auto.
      + apply String.eqb_neq in En.
        split; [exact Hnd|]. split.
        * intros a Ha. destruct (Hin a Ha). auto.
        * intros a (e & side & v & He & Hname & H).
          apply in_app_or in He. destruct He as [He|[<-|[]]]; [|contradiction].
          apply Hall. exists e, side, v. auto.
  Qed.

End Notes.
End DiscoverFacts.

(** X17. The address-expansion pass of the account-model engine collects,
    without repetition, exactly the lower-cased non-empty [from] and [to]
    arguments of the [Transfer] events that are not tracked already; events
    of another name do not contribute. *)
Theorem discover_addresses_exact :
  forall (addressesToTrack : list string) (events_ : list EventDecoder.DecodedEvent),
    let newAddresses := Evm.discover_addresses addressesToTrack events_ in
    NoDup newAddresses
    /\ forall a, In a newAddresses <->
         ~ In a addressesToTrack
         /\ exists ev side v,
              In ev events_ /\ EventDecoder.name ev = "Transfer"
              /\ (side = "from" \/ side = "to")
              /\ smap_get (EventDecoder.args ev) side = Some v /\ v <> ""
              /\ a = Js.toLowerCase v.
Proof.
  intros tracked events_ newAddresses.
  assert (H0 : Discovery.sound tracked [] []).
  { split; [constructor|]. split; [intros a []|].
    intros a (ev & side & v & [] & _). }
  destruct (DiscoverFacts.discover_from tracked events_ [] [] H0) as (Hnd & Hin & Hall).
  split; [exact Hnd|]. intros a. split.
  - intros Ha. exact (Hin a Ha).
  - intros [Hn Hnames]. destruct (Hall a Hnames) as [H|H]; [contradiction|exact H].
Qed.

(* ------------------------------------------------------------------ *)
(** * The account-model engine: what it raises and what it returns *)
(* ------------------------------------------------------------------ *)

Module EngineFacts.
Import Async AsyncFacts RunFacts.

(** The decoder raises on the two nullish values, and on objects that are
    not string-typed. *)
Lemma decodeEVMError_raises lib e t :
  Evm.decodeEVMError lib e = Throw t ->
  e = Err.ENull \/ e = Err.EUndefined
  \/ exists o, e = Err.EObject o /\ ErrorDecoder.string_typed o = false.
Proof.
  unfold Evm.decodeEVMError. intros H.
  destruct e as [| |text|o]; auto.
  - cbn in H. discriminate H.
  - right. right. exists o. split; [reflexivity|].
    destruct (ErrorDecoder.string_typed o) eqn:Ho; [|reflexivity].
    destruct (ErrorDecoderFacts.extractErrorData_string_typed o Ho)
      as [Hx | (payload & Hx & _)];
      destruct (ErrorDecoderFacts.parseErrorFallback_string_typed o Ho)
        as (fallback & Hf & _);
      unfold ErrorDecoder.decodeEVMError in H;
      cbn [ErrorDecoder.extractErrorData ErrorDecoder.parseErrorFallback] in H;
      rewrite Hx in H.
    + cbn in H. rewrite Hf in H. discriminate H.
    + rewrite ErrorDecoderFacts.decode_located_string in H.
      destruct (ErrorDecoder.decode_payload _ _ _ payload);
        [discriminate H|rewrite Hf in H; discriminate H].
Qed.

Lemma getProvider_connected {W} (s : Evm.State W) p :
  Evm.provider (Evm.anvil s) = Some p -> Evm.getProvider s = (Ok tt, s).
Proof.
  intros H. unfold Evm.getProvider, bind, gets. rewrite H. reflexivity.
Qed.

Section Engine.
  Context {W Tx : Type}.
  Variable lib : Evm.EthersLib.
  Variable fork : Evm.Fork W Tx.
  Variable NATIVE_SYMBOL : string.

  (** The placeholder response of the [catch] block. *)
Lemma simulation_failed_outcome request e (s : Evm.State W) :
    Evm.simulation_failed lib NATIVE_SYMBOL request e s
    = (match Evm.decodeEVMError lib e with
       | Ok decoded =>
           Ok {| Evm.success := false;
                 Evm.stateChanges := Evm.emptyStateReport request;
                 Evm.events := [];
                 Evm.gas := Evm.emptyGasReport NATIVE_SYMBOL;
                 Evm.error := Some decoded |}
       | Throw t => Throw t
       end, s).
  Proof.
    unfold Evm.simulation_failed, bind, lift, ret.
    destruct (Evm.decodeEVMError lib e); reflexivity.
  Qed.

  (** A response of the [try] block that reports a failure is that of a
      mined transaction whose status is not 1. *)
Lemma simulation_body_failure request snapshotId :
    post (Evm.simulation_body lib fork NATIVE_SYMBOL request snapshotId)
         (fun response =>
            Evm.success response = false ->
            Evm.error response
            = Some {| ErrorDecoder.type := ErrorDecoder.revert;
                      ErrorDecoder.message := JsValue.VString "Transaction reverted";
                      ErrorDecoder.raw := None |}).
  Proof.
    unfold Evm.simulation_body.
    repeat ResponseShape.step.
    cbn [Evm.success Evm.error].
    match goal with
    | |- context [if ?b then None else _] => destruct b
    end; [discriminate|reflexivity].
  Qed.

End Engine.
End EngineFacts.

(** X18. Once a snapshot is taken, the account-model engine raises only in
    two ways: with the FATAL error of the [finally] block, when the final
    revert and the reset both fail, or with what the error decoder raised
    on the value that the [catch] block caught, which then was [null],
    [undefined] or an object with a property of the wrong type. Before
    that it raises when the service has no provider or when the snapshot
    request itself fails. An error raised inside the [try] block reaches
    the caller in no other way. *)
Theorem executeSimulation_raises_only :
  forall (W Tx : Type) (lib : Evm.EthersLib) (fork : Evm.Fork W Tx)
         (NATIVE_SYMBOL : string) (request : Evm.SimulateRequest)
         (s s' : Evm.State W) (e : Err.ErrorValue),
    Evm.executeSimulation lib fork NATIVE_SYMBOL request s = (Throw e, s') ->
    (Evm.provider (Evm.anvil s) = None
     /\ e = Err.new_Error "Anvil not connected. Call connect() first.")
    \/ (exists w', Evm.rpc_evm_snapshot fork (Evm.world s) = (Throw e, w'))
    \/ (exists revertError resetError,
          e = Err.new_Error (Evm.fatal_cleanup_message revertError resetError))
    \/ (exists caught,
          Evm.decodeEVMError lib caught = Throw e
          /\ (caught = Err.ENull \/ caught = Err.EUndefined
              \/ exists o, caught = Err.EObject o
                           /\ ErrorDecoder.string_typed o = false)).
Proof.
  intros W Tx lib fork sym request s s' e H.
  unfold Evm.executeSimulation in H.
  apply RunFacts.bind_inv in H.
  destruct H as [(u & s1 & E1 & H)|(e1 & E1 & [= <-])].
  - unfold Evm.getProvider, Async.bind, Async.gets in E1.
    destruct (Evm.provider (Evm.anvil s)) as [p|] eqn:Ep; [|discriminate E1].
    injection E1 as _ <-.
    apply RunFacts.bind_inv in H.
    destruct H as [(id & s2 & E2 & H)|(e2 & E2 & [= <-])].
    + apply RunFacts.bind_inv in H.
      destruct H as [(u3 & s3 & E3 & H)|(e3 & E3 & _)]; [|discriminate E3].
      apply RunFacts.try_finally_inv in H.
      destruct H as (r1 & s4 & Hm & [[Hf <-]|(e5 & Hf & [= <-])]).
      * apply RunFacts.try_catch_inv in Hm.
        destruct Hm as [(a & _ & Hr)|(e0 & s5 & _ & Hh)]; [discriminate Hr|].
        rewrite EngineFacts.simulation_failed_outcome in Hh.
        destruct (Evm.decodeEVMError lib e0) as [d|t] eqn:Ed; [discriminate Hh|].
        injection Hh as <- _.
        right. right. right. exists e0. split; [exact Ed|].
        exact (EngineFacts.decodeEVMError_raises lib e0 t Ed).
      * right. right. left.
        apply (SecondPass.cleanup_raises fork request id _ _ _ Hf).
    + right. left. unfold Evm.snapshot, Async.bind in E2.
      rewrite (EngineFacts.getProvider_connected s p Ep) in E2.
      unfold Evm.rpc in E2.
      destruct (Evm.rpc_evm_snapshot fork (Evm.world s)) as [r w'].
      injection E2 as -> _. eauto.
  - left. unfold Evm.getProvider, Async.bind, Async.gets in E1.
    destruct (Evm.provider (Evm.anvil s)); [discriminate E1|].
    injection E1 as <- _. auto.
Qed.

(** X18, witness: the run of the scenario in which every revert answers
    [false] and the reset fails raises the FATAL error. *)
Lemma executeSimulation_raises_only_witness :
  exists revertError resetError,
    fst (Evm.executeSimulation Scenario.lib
           (Scenario.fork (fun _ => false) false [])
           "GLMR" Scenario.request Scenario.connected)
    = Throw (Err.new_Error (Evm.fatal_cleanup_message revertError resetError)).
Proof.
  destruct (Evm.executeSimulation Scenario.lib
              (Scenario.fork (fun _ => false) false [])
              "GLMR" Scenario.request Scenario.connected) as [[r|e] s'] eqn:E;
    [discriminate E|].
  destruct (executeSimulation_raises_only _ _ _ _ _ _ _ _ _ E)
    as [[Hp _]|[(w' & Hs)|[(re & rs & ->)|(caught & Hd & _)]]].
  - discriminate Hp.
  - exfalso. vm_compute in Hs. discriminate Hs.
  - exists re, rs. reflexivity.
  - exfalso. vm_compute in E. injection E as <- _.
    unfold Evm.decodeEVMError in Hd.
    destruct caught as [| |text|o].
    + vm_compute in Hd. discriminate Hd.
    + vm_compute in Hd. discriminate Hd.
    + vm_compute in Hd. discriminate Hd.
    + destruct (ErrorDecoderFacts.decodeEVMError_object_raises _ _ _ o _ Hd)
        as (callee & Hc).
      discriminate Hc.
Defined.

(** X19. A response of the account-model engine that reports a failure is
    of one of two kinds: that of a transaction that was mined with a status
    other than 1, whose error is [revert("Transaction reverted")] beside the
    computed state, or the placeholder of the [catch] block, which has no
    events, the zero gas report and the empty rows of the sender and of the
    transaction's [to] address. *)
Theorem failed_response_shape :
  forall (W Tx : Type) (lib : Evm.EthersLib) (fork : Evm.Fork W Tx)
         (NATIVE_SYMBOL : string) (request : Evm.SimulateRequest)
         (s s' : Evm.State W) (response : Evm.SimulateResponse),
    Evm.executeSimulation lib fork NATIVE_SYMBOL request s = (Ok response, s') ->
    Evm.success response = false ->
    Evm.error response
    = Some {| ErrorDecoder.type := ErrorDecoder.revert;
              ErrorDecoder.message := JsValue.VString "Transaction reverted";
              ErrorDecoder.raw := None |}
    \/ (Evm.stateChanges response = Evm.emptyStateReport request
        /\ Evm.events response = []
        /\ Evm.gas response = Evm.emptyGasReport NATIVE_SYMBOL
        /\ exists e decoded, Evm.decodeEVMError lib e = Ok decoded
                             /\ Evm.error response = Some decoded).
Proof.
  intros W Tx lib fork sym request s s' response H Hfail.
  unfold Evm.executeSimulation in H.
  apply RunFacts.bind_inv in H.
  destruct H as [(u & s1 & _ & H)|(e1 & _ & [=])].
  apply RunFacts.bind_inv in H.
  destruct H as [(id & s2 & _ & H)|(e2 & _ & [=])].
  apply RunFacts.bind_inv in H.
  destruct H as [(u3 & s3 & _ & H)|(e3 & _ & [=])].
  apply RunFacts.try_finally_inv in H.
  destruct H as (r1 & s4 & Hm & [[_ <-]|(e5 & _ & [=])]).
  apply RunFacts.try_catch_inv in Hm.
  destruct Hm as [(a & Hbody & [= <-])|(e0 & s5 & _ & Hh)].
  - left. exact (EngineFacts.simulation_body_failure lib fork sym request id
                   _ _ _ Hbody Hfail).
  - right. rewrite EngineFacts.simulation_failed_outcome in Hh.
    destruct (Evm.decodeEVMError lib e0) as [d|t] eqn:Ed; [|discriminate Hh].
    injection Hh as <- _. cbn. repeat split. eauto.
Qed.

(** X19, witness: the failed run of the scenario whose balance read fails
    answers with the placeholder. *)
Lemma failed_response_shape_witness :
  exists response s',
    Evm.executeSimulation Scenario.lib Scenario.fork_without_balances
      "GLMR" Scenario.request Scenario.connected = (Ok response, s')
    /\ Evm.events response = []
    /\ Evm.gas response = Evm.emptyGasReport "GLMR".
Proof.
  destruct (Evm.executeSimulation Scenario.lib Scenario.fork_without_balances
              "GLMR" Scenario.request Scenario.connected) as [[r|e] s'] eqn:E;
    [|discriminate E].
  exists r, s'. split; [reflexivity|].
  assert (Hs : Evm.success r = false).
  { vm_compute in E. injection E as <- _. reflexivity. }
  destruct (failed_response_shape _ _ _ _ _ _ _ _ _ E Hs) as [He|(_ & H1 & H2 & _)].
  - exfalso. vm_compute in E. injection E as <- _. discriminate He.
  - auto.
Defined.

(* ------------------------------------------------------------------ *)
(** * The runtime-module engine: what it returns and what it raises *)
(* ------------------------------------------------------------------ *)

Module WasmEngineFacts.
Import Async AsyncFacts RunFacts.

Lemma post_bind_lift {S A B} (r : Raises A) (k : A -> @M S B) (Q : B -> Prop) :
  (forall a, r = Ok a -> @Async.post S _ (k a) Q) ->
  @Async.post S _ (bind (lift r) k) Q.
Proof.
  intros H s b s'. unfold bind, lift.
  destruct r as [a|e]; [apply (H a eq_refl)|discriminate].
Qed.

Ltac step :=
  match goal with
  | |- Async.post (bind (lift _) _) _ => apply post_bind_lift; intros
  | _ => ResponseShape.step
  end.

Notation origin := WasmOrigin.origin.

Section Engine.
  Context {W Ext : Type}.
  Variable node : Wasm.Node W Ext.

Lemma run_extrinsic_origin request sym dec ext recipient_ :
    @Async.post (Wasm.State W) _
      (Wasm.run_extrinsic node request sym dec ext recipient_)
      (origin request recipient_).
  Proof.
    unfold Wasm.run_extrinsic.
    do 8 step. cbv zeta.
    match goal with
    | |- Async.post (match find Wasm.is_failed ?evs with _ => _ end) _ =>
        destruct (find Wasm.is_failed evs) eqn:Ef
    end.
    - repeat step. left. split; reflexivity.
    - repeat step. right. split; [reflexivity|]. cbn [Wasm.stateChanges]. eauto 10.
  Qed.

Lemma simulation_body_origin request sym dec :
    @Async.post (Wasm.State W) _
      (Wasm.simulation_body node request sym dec)
      (fun r => origin request
                  match Wasm.extrinsic request with
                  | Wasm.RawHex _ => None
                  | Wasm.Call _ method_ args => Wasm.presumptive_recipient method_ args
                  end r).
  Proof.
    unfold Wasm.simulation_body.
    destruct (Wasm.extrinsic request) as [rawHex|p m args].
    - step. apply run_extrinsic_origin.
    - destruct (negb (Wasm.tx_defined node p m)).
      + step. left. split; reflexivity.
      + repeat step. apply run_extrinsic_origin.
  Qed.

Lemma executeWasmSimulation_post request (Q : Wasm.WasmSimulateResponse -> Prop) :
    (forall sym dec,
       @Async.post (Wasm.State W) _ (Wasm.simulation_body node request sym dec) Q) ->
    @Async.post (Wasm.State W) _ (Wasm.executeWasmSimulation node request) Q.
  Proof.
    intros H. unfold Wasm.executeWasmSimulation. repeat ResponseShape.step.
    apply post_try_catch; [apply H|].
    intros e. apply ResponseShape.wasm_failed_raises.
  Qed.

End Engine.
End WasmEngineFacts.

(** X20. A response of the runtime-module engine has a counterparty row
    only for a structured call whose method name contains [transfer] (in
    any case) and whose first argument renders as a non-empty text: the row
    is the row of that text, and it lists a change. A raw-hex extrinsic
    never gets a counterparty row. *)
Theorem wasm_counterparty_row_origin :
  forall (W Ext : Type) (node : Wasm.Node W Ext) (request : Wasm.WasmSimulateRequest)
         (s s' : Wasm.State W) (response : Wasm.WasmSimulateResponse)
         (row : Wasm.WasmAddressState),
    Wasm.executeWasmSimulation node request s = (Ok response, s') ->
    Wasm.recipient (Wasm.stateChanges response) = Some row ->
    exists pallet_ method_ first rest text,
      Wasm.extrinsic request = Wasm.Call pallet_ method_ (first :: rest)
      /\ JsText.contains "transfer" (Js.toLowerCase method_) = true
      /\ Wasm.arg_toString first = Some text /\ text <> ""
      /\ Wasm.address row = Wasm.KString text
      /\ Wasm.changes row <> []
      /\ Wasm.success response = true.
Proof.
  intros W Ext node request s s' response row H.
  revert row. pattern response.
  refine (WasmEngineFacts.executeWasmSimulation_post node request _ _ s response s' H).
  intros sym dec s1 r s2 Hbody row Hrow.
  pose proof (WasmEngineFacts.simulation_body_origin node request sym dec
                s1 r s2 Hbody) as Ho.
  destruct Ho as [[_ He]|[Hs (events & bb & md & sym' & dec' & Hb & _)]].
  - rewrite He in Hrow. discriminate Hrow.
  - unfold Wasm.buildStateFromEvents in Hb.
    destruct (Wasm.reduce_events [] events) as [m|]; [|discriminate Hb].
    injection Hb as Hb. rewrite <- Hb in Hrow.
    cbn [Wasm.report_of_deltas Wasm.recipient] in Hrow.
    destruct (Wasm.extrinsic request) as [rawHex|p m0 args] eqn:Ex;
      [discriminate Hrow|].
    destruct (Err.truthy_field (Wasm.presumptive_recipient m0 args)) as [t|] eqn:Et;
      [|discriminate Hrow].
    destruct (Wasm.delta_of m (Wasm.KString t) =? 0)%Z; [discriminate Hrow|].
    injection Hrow as <-.
    apply RunFacts.truthy_field_Some in Et. destruct Et as [Ep Ht].
    unfold Wasm.presumptive_recipient in Ep.
    destruct (JsText.contains "transfer" (Js.toLowerCase m0)) eqn:Ec;
      [|discriminate Ep].
    destruct args as [|first rest]; [discriminate Ep|].
    cbn [andb length Nat.ltb Nat.leb] in Ep.
    apply RunFacts.truthy_field_Some in Ep. destruct Ep as [Ea _].
    exists p, m0, first, rest, t. cbn. repeat split; auto. discriminate.
Qed.

(** X20, witness: the transfer of the scenario moves funds to its first
    argument, whose row is the counterparty row. *)
Lemma wasm_counterparty_row_origin_witness :
  exists response s' row,
    Wasm.executeWasmSimulation (Scenario.node false) Scenario.wasm_request
      Scenario.wasm_connected = (Ok response, s')
    /\ Wasm.recipient (Wasm.stateChanges response) = Some row
    /\ Wasm.address row = Wasm.KString "5Recipient".
Proof.
  destruct (Wasm.executeWasmSimulation (Scenario.node false) Scenario.wasm_request
              Scenario.wasm_connected) as [[r|e] s'] eqn:E; [|discriminate E].
  destruct (Wasm.recipient (Wasm.stateChanges r)) as [row|] eqn:Er.
  - exists r, s', row. split; [reflexivity|]. split; [exact Er|].
    destruct (wasm_counterparty_row_origin _ _ _ _ _ _ _ _ E Er)
      as (p & m & first & rest & text & Hx & _ & Ha & _ & Hrow & _).
    injection Hx as _ _ <- _. injection Ha as <-. exact Hrow.
  - exfalso. vm_compute in E. injection E as <- _. discriminate Er.
Defined.

(** X21. A response of the runtime-module engine that reports a failure
    carries the empty report: the sender row without balances or changes,
    no counterparty row and no other address. A response that reports a
    success carries a report that the builder made of events among which
    there is no [system.ExtrinsicFailed]. *)
Theorem wasm_response_report :
  forall (W Ext : Type) (node : Wasm.Node W Ext) (request : Wasm.WasmSimulateRequest)
         (s s' : Wasm.State W) (response : Wasm.WasmSimulateResponse),
    Wasm.executeWasmSimulation node request s = (Ok response, s') ->
    (Wasm.success response = false ->
     Wasm.stateChanges response
     = {| Wasm.sender := {| Wasm.address := Wasm.KString (Wasm.req_sender request);
                            Wasm.before := []; Wasm.after := [];
                            Wasm.changes := [] |};
          Wasm.recipient := None; Wasm.otherAffected := [] |})
    /\ (Wasm.success response = true ->
        exists recipient_ events balancesBefore assetMetadata sym dec,
          Wasm.buildStateFromEvents (Wasm.req_sender request) recipient_ events
            balancesBefore assetMetadata sym dec
          = Ok (Wasm.stateChanges response)
          /\ find Wasm.is_failed events = None).
Proof.
  intros W Ext node request s s' response H. pattern response.
  refine (WasmEngineFacts.executeWasmSimulation_post node request _ _ s response s' H).
  intros sym dec s1 r s2 Hbody.
  pose proof (WasmEngineFacts.simulation_body_origin node request sym dec
                s1 r s2 Hbody) as Ho.
  destruct Ho as [[Hs He]|[Hs (events & bb & md & sym' & dec' & Hb & Hf)]].
  - split; [intros _; exact He|congruence].
  - split; [congruence|]. intros _. eauto 10.
Qed.

(** X21, witness: the failed extrinsic of the scenario. *)
Lemma wasm_response_report_witness :
  exists response s',
    Wasm.executeWasmSimulation (Scenario.node true) Scenario.wasm_request
      Scenario.wasm_connected = (Ok response, s')
    /\ Wasm.success response = false
    /\ Wasm.rows (Wasm.stateChanges response)
       = [ {| Wasm.address := Wasm.KString "5Sender"; Wasm.before := [];
              Wasm.after := []; Wasm.changes := [] |} ].
Proof.
  destruct (Wasm.executeWasmSimulation (Scenario.node true) Scenario.wasm_request
              Scenario.wasm_connected) as [[r|e] s'] eqn:E; [|discriminate E].
  assert (Hs : Wasm.success r = false).
  { vm_compute in E. injection E as <- _. reflexivity. }
  exists r, s'. split; [reflexivity|]. split; [exact Hs|].
  rewrite (proj1 (wasm_response_report _ _ _ _ _ _ _ E) Hs). reflexivity.
Defined.

(** X22. The runtime-module engine makes no response of an exception.
    When its preparation (reset, API, chain properties) has returned and
    the [try] block raises an error with the message [m], the [catch] block
    logs it and resets: if the reset returns, the engine raises the
    original error; if the reset raises too, the engine raises a FATAL
    error whose message names both [m] and the reset error. *)
Theorem wasm_failure_is_raised :
  forall (W Ext : Type) (node : Wasm.Node W Ext) (request : Wasm.WasmSimulateRequest)
         (s s1 s2 : Wasm.State W) (sym : string) (dec : Z)
         (e0 : Err.ErrorValue) (m : string),
    (Wasm.reset node ;;; Wasm.getApi ;;; Wasm.getChainProperties node) s
    = (Ok (sym, dec), s1) ->
    Wasm.simulation_body node request sym dec s1 = (Throw e0, s2) ->
    Wasm.message_text e0 = Ok m ->
    Wasm.executeWasmSimulation node request s
    = match Wasm.reset node (WasmOrigin.logged s2 "WASM simulation error:" e0) with
      | (Ok _, s3) => (Throw e0, s3)
      | (Throw resetError, s3) =>
          (Throw (Err.new_Error
                    ("FATAL: State cleanup failed after simulation error. Original error: "
                     +++ m +++ ". Reset error: " +++ Err.toString resetError)), s3)
      end.
Proof.
  intros W Ext node request s s1 s2 sym dec e0 m Hpre Hbody Hm.
  unfold Wasm.executeWasmSimulation.
  unfold Async.bind in Hpre |- *.
  destruct (Wasm.reset node s) as [[u|e] sa]; [|discriminate Hpre].
  destruct (Wasm.getApi sa) as [[u2|e] sb]; [|discriminate Hpre].
  rewrite Hpre. unfold Async.try_catch. rewrite Hbody.
  unfold Wasm.simulation_failed, Async.bind, Wasm.console_write, Async.modify,
         Async.try_catch.
  change {| Wasm.world := Wasm.world s2; Wasm.chopsticks := Wasm.chopsticks s2;
            Wasm.chainPropertiesCache := Wasm.chainPropertiesCache s2;
            Wasm.console := Wasm.console s2 ++ [("WASM simulation error:", Some e0)] |}
    with (WasmOrigin.logged s2 "WASM simulation error:" e0).
  destruct (Wasm.reset node (WasmOrigin.logged s2 "WASM simulation error:" e0))
    as [[u3|re] s3].
  - reflexivity.
  - unfold Async.lift. rewrite Hm. reflexivity.
Qed.

(** X22, witness: the node whose account read fails makes the nonce read of
    the [try] block raise; the reset returns, and the engine raises that
    error. *)
Lemma wasm_failure_is_raised_witness :
  fst (Wasm.executeWasmSimulation Scenario.node_without_accounts
         Scenario.wasm_request Scenario.wasm_connected)
  = Throw (Err.new_Error "Connection lost").
Proof.
  destruct ((Wasm.reset Scenario.node_without_accounts ;;; Wasm.getApi ;;;
             Wasm.getChainProperties Scenario.node_without_accounts)
              Scenario.wasm_connected) as [[[sym dec]|e] s1] eqn:Epre;
    [|discriminate Epre].
  destruct (Wasm.simulation_body Scenario.node_without_accounts Scenario.wasm_request
              sym dec s1) as [[r|e0] s2] eqn:Ebody.
  - exfalso. vm_compute in Epre. injection Epre as <- <- <-.
    vm_compute in Ebody. discriminate Ebody.
  - assert (He0 : e0 = Err.new_Error "Connection lost").
    { vm_compute in Epre. injection Epre as <- <- <-.
      vm_compute in Ebody. injection Ebody as <- _. reflexivity. }
    rewrite (wasm_failure_is_raised unit unit Scenario.node_without_accounts
               Scenario.wasm_request Scenario.wasm_connected s1 s2 sym dec e0
               "Connection lost" Epre Ebody
               ltac:(rewrite He0; reflexivity)).
    vm_compute in Epre. injection Epre as <- <- <-.
    vm_compute in Ebody. injection Ebody as <- <-.
    reflexivity.
Defined.

(* ------------------------------------------------------------------ *)
(** * Chain properties and asset metadata of the runtime-module side *)
(* ------------------------------------------------------------------ *)

Module MapFacts.

Section Keys.
  Context {K V : Type}.
  Variable eqb : K -> K -> bool.
  Hypothesis eqb_spec : forall a b, eqb a b = true <-> a = b.

Lemma get_set_same (m : list (K * V)) k v :
    JsMap.get eqb (JsMap.set eqb m k v) k = Some v.
  Proof.
    induction m as [|[k0 v0] m IH]; cbn [JsMap.set JsMap.get].
    - rewrite (proj2 (eqb_spec k k) eq_refl). reflexivity.
    - destruct (eqb k0 k) eqn:E; cbn [JsMap.get]; rewrite E; auto.
  Qed.

Lemma get_set_other (m : list (K * V)) k v k' :
    k <> k' -> JsMap.get eqb (JsMap.set eqb m k v) k' = JsMap.get eqb m k'.
  Proof.
    intros Hne.
    assert (Hkk : eqb k k' = false).
    { destruct (eqb k k') eqn:E; [|reflexivity]. apply eqb_spec in E. contradiction. }
    induction m as [|[k0 v0] m IH]; cbn [JsMap.set JsMap.get].
    - rewrite Hkk. reflexivity.
    - destruct (eqb k0 k) eqn:E; cbn [JsMap.get].
      + apply eqb_spec in E. subst k0. rewrite Hkk. reflexivity.
      + destruct (eqb k0 k'); auto.
  Qed.

End Keys.

Lemma Z_eqb_spec (a b : Z) : (a =? b)%Z = true <-> a = b.
Proof. apply Z.eqb_eq. Qed.

End MapFacts.

Module WasmMetaFacts.
Import Async AsyncFacts AsyncEnsures.

Section Facts.
  Context {W Ext : Type}.
  Variable node : Wasm.Node W Ext.

  Notation fallback assetId := ("Asset#" +++ Js.bigint_toString assetId, 18%Z).

  (** One turn of the loop of [getAssetMetadata]. *)
Lemma metadata_turn (metadata : list (Z * (string * Z))) (assetId : Z)
    (s : Wasm.State W) :
    exists metadata' s',
      (let fallback := "Asset#" +++ Js.bigint_toString assetId in
       try_catch
         (if Wasm.has_assets_metadata node then
            assetMeta <- Wasm.rpc (Wasm.query_assets_metadata node assetId) ;;
            let symbol := match Wasm.human_symbol assetMeta with
                          | Some s => s
                          | None => fallback
                          end in
            let decimals := match Wasm.human_decimals assetMeta with
                            | Some d => d
                            | None => Wasm.codec_decimals assetMeta
                            end in
            ret (Wasm.mmap_set metadata assetId (symbol, decimals))
          else ret metadata)
         (fun _ => ret (Wasm.mmap_set metadata assetId (fallback, 18%Z)))) s
      = (Ok metadata', s')
      /\ Wasm.chopsticks s' = Wasm.chopsticks s
      /\ Wasm.chainPropertiesCache s' = Wasm.chainPropertiesCache s
      /\ (if Wasm.has_assets_metadata node
          then exists entry,
                 metadata' = Wasm.mmap_set metadata assetId entry
                 /\ (returns (fst (Wasm.query_assets_metadata node assetId (Wasm.world s)))
                     = false -> entry = fallback assetId)
          else metadata' = metadata /\ s' = s).
  Proof.
    cbv zeta. unfold try_catch, bind, ret, Wasm.rpc.
    destruct (Wasm.has_assets_metadata node).
    - destruct (Wasm.query_assets_metadata node assetId (Wasm.world s))
        as [[am|e] w']; cbn [fst returns];
        eexists; eexists; (split; [reflexivity|]); cbn;
        (split; [reflexivity|]); (split; [reflexivity|]);
        eexists; (split; [reflexivity|]).
      + discriminate.
      + reflexivity.
    - eexists; eexists. split; [reflexivity|]. auto.
  Qed.

End Facts.
End WasmMetaFacts.

(** X23. [getChainProperties] asks the node once: a cached pair is
    returned without touching the node, and a call that returns leaves its
    result in the cache, so that the next call returns the same pair and
    changes nothing. A node that reports neither a symbol nor decimals
    gives [("UNIT", 12)]; one that reports an empty list of symbols makes
    the call raise the [TypeError] of reading [toString] of [undefined], and
    one that reports a symbol and an empty list of decimals that of reading
    [toNumber]. *)
Theorem getChainProperties_cached :
  forall (W Ext : Type) (node : Wasm.Node W Ext) (s : Wasm.State W),
    (forall c, Wasm.chainPropertiesCache s = Some c ->
               Wasm.getChainProperties node s = (Ok c, s))
    /\ (forall p s', Wasm.getChainProperties node s = (Ok p, s') ->
          Wasm.chainPropertiesCache s' = Some p
          /\ Wasm.getChainProperties node s' = (Ok p, s'))
    /\ (Wasm.chainPropertiesCache s = None ->
        forall symbols decimals w',
          Wasm.rpc_system_properties node (Wasm.world s) = (Ok (symbols, decimals), w') ->
          fst (Wasm.getChainProperties node s)
          = match symbols, decimals with
            | Some [], _ =>
                Throw (Err.new_TypeError
                         "Cannot read properties of undefined (reading 'toString')")
            | _, Some [] =>
                Throw (Err.new_TypeError
                         "Cannot read properties of undefined (reading 'toNumber')")
            | Some (symbol :: _), Some (d :: _) => Ok (symbol, d)
            | Some (symbol :: _), None => Ok (symbol, 12%Z)
            | None, Some (d :: _) => Ok ("UNIT", d)
            | None, None => Ok ("UNIT", 12%Z)
            end).
Proof.
  intros W Ext node s.
  assert (Hhit : forall (t : Wasm.State W) c,
            Wasm.chainPropertiesCache t = Some c ->
            Wasm.getChainProperties node t = (Ok c, t)).
  { intros t c Hc. unfold Wasm.getChainProperties, Async.bind, Async.gets.
    rewrite Hc. reflexivity. }
  split; [apply Hhit|]. split.
  - intros p s' H.
    assert (Hc : Wasm.chainPropertiesCache s' = Some p).
    { destruct (Wasm.chainPropertiesCache s) as [c|] eqn:Ec.
      - rewrite (Hhit s c Ec) in H. injection H as <- <-. exact Ec.
      - unfold Wasm.getChainProperties, Async.bind, Async.gets, Async.lift,
               Async.ret, Wasm.rpc, Wasm.set_chainPropertiesCache, Async.modify in H.
        rewrite Ec in H.
        destruct (Wasm.rpc_system_properties node (Wasm.world s))
          as [[[symbols decimals]|e] w']; [|discriminate H].
        destruct (Wasm.first_of "toString"
                    match symbols with Some l => l | None => ["UNIT"] end)
          as [symbol|e]; [|discriminate H].
        destruct (Wasm.first_of "toNumber"
                    match decimals with Some l => l | None => [12%Z] end)
          as [d|e]; [|discriminate H].
        injection H as <- <-. reflexivity. }
    split; [exact Hc|apply Hhit; exact Hc].
  - intros Ec symbols decimals w' Hrpc.
    unfold Wasm.getChainProperties, Async.bind, Async.gets, Async.lift,
           Async.ret, Wasm.rpc, Wasm.set_chainPropertiesCache, Async.modify.
    rewrite Ec, Hrpc.
    destruct symbols as [[|symbol ?]|]; destruct decimals as [[|d ?]|]; reflexivity.
Qed.

(** X24. [getAssetMetadata] never raises, and it leaves the service object
    and the chain-properties cache as they are. On a node without the
    assets pallet it returns the empty map and asks nothing; otherwise
    every requested asset has an entry, and the entry of an asset whose
    metadata read always raises is the placeholder ([Asset#id], 18). *)
Theorem getAssetMetadata_total :
  forall (W Ext : Type) (node : Wasm.Node W Ext) (assetIds : list Z)
         (s : Wasm.State W),
    exists metadata s',
      Wasm.getAssetMetadata node assetIds s = (Ok metadata, s')
      /\ Wasm.chopsticks s' = Wasm.chopsticks s
      /\ Wasm.chainPropertiesCache s' = Wasm.chainPropertiesCache s
      /\ (if Wasm.has_assets_metadata node
          then forall assetId, In assetId assetIds ->
                 exists entry,
                   JsMap.get Z.eqb metadata assetId = Some entry
                   /\ ((forall w, returns (fst (Wasm.query_assets_metadata node assetId w))
                                  = false) ->
                       entry = ("Asset#" +++ Js.bigint_toString assetId, 18%Z))
          else metadata = [] /\ s' = s).
Proof.
  intros W Ext node assetIds s. unfold Wasm.getAssetMetadata.
  set (fails := fun assetId =>
         forall w, returns (fst (Wasm.query_assets_metadata node assetId w)) = false).
  set (covered := fun (done : list Z) (metadata : list (Z * (string * Z))) =>
         forall assetId, In assetId done ->
           exists entry, JsMap.get Z.eqb metadata assetId = Some entry
                         /\ (fails assetId ->
                             entry = ("Asset#" +++ Js.bigint_toString assetId, 18%Z))).
  match goal with
  | |- context [Async.for_each assetIds [] ?b] => set (body := b)
  end.
  assert (Hloop : forall todo done metadata (t : Wasm.State W),
            (if Wasm.has_assets_metadata node then covered done metadata
             else metadata = []) ->
            exists metadata' t',
              Async.for_each todo metadata body t
              = (Ok metadata', t')
              /\ Wasm.chopsticks t' = Wasm.chopsticks t
              /\ Wasm.chainPropertiesCache t' = Wasm.chainPropertiesCache t
              /\ (if Wasm.has_assets_metadata node
                  then covered (done ++ todo) metadata'
                  else metadata' = [] /\ t' = t)).
  { induction todo as [|assetId todo IH]; intros done metadata t Hinv;
      cbn [Async.for_each].
    - exists metadata, t. split; [reflexivity|]. split; [reflexivity|].
      split; [reflexivity|]. rewrite app_nil_r.
      destruct (Wasm.has_assets_metadata node); auto.
    - destruct (WasmMetaFacts.metadata_turn node metadata assetId t)
        as (m1 & t1 & E1 & Hc1 & Hp1 & H1).
      assert (E1' : body metadata assetId t = (Ok m1, t1)) by exact E1.
      unfold Async.bind at 1. rewrite E1'.
      assert (Hinv1 : if Wasm.has_assets_metadata node
                      then covered (done ++ [assetId]) m1 else m1 = []).
      { destruct (Wasm.has_assets_metadata node).
        - destruct H1 as (entry & -> & Hfb).
          intros a Ha. apply in_app_or in Ha.
          destruct (Z.eq_dec assetId a) as [<-|Hne].
          + exists entry. split.
            * apply (MapFacts.get_set_same Z.eqb MapFacts.Z_eqb_spec).
            * intros Hf. apply Hfb. apply Hf.
          + destruct Ha as [Ha|[Ha|[]]]; [|contradiction].
            destruct (Hinv a Ha) as (en & Hg & Hf). exists en. split; [|exact Hf].
            unfold Wasm.mmap_set.
            rewrite (MapFacts.get_set_other Z.eqb MapFacts.Z_eqb_spec); assumption.
        - destruct H1 as [-> _]. exact Hinv. }
      destruct (IH (done ++ [assetId]) m1 t1 Hinv1) as (m2 & t2 & E2 & Hc2 & Hp2 & H2).
      exists m2, t2. split; [exact E2|]. split; [congruence|]. split; [congruence|].
      rewrite <- app_assoc in H2. cbn [app] in H2.
      destruct (Wasm.has_assets_metadata node); [exact H2|].
      destruct H1 as [_ ->]. exact H2. }
  destruct (Hloop assetIds [] [] s) as (md & s' & E & Hc & Hp & H).
  { destruct (Wasm.has_assets_metadata node); [intros a []|reflexivity]. }
  exists md, s'. split; [exact E|]. split; [exact Hc|]. split; [exact Hp|].
  destruct (Wasm.has_assets_metadata node); exact H.
Qed.

(* ------------------------------------------------------------------ *)
(** * The runtime-module engine: the patched signature and its hex form *)
(* ------------------------------------------------------------------ *)

Module ByteFacts.

Lemma u8_write_length (bytes : list Z) : forall i v,
  length (Wasm.u8_write bytes i v) = length bytes.
Proof.
  induction bytes as [|b rest IH]; intros [|i] v; cbn [Wasm.u8_write length];
    try reflexivity. rewrite IH. reflexivity.
Qed.

Lemma u8_write_nth (bytes : list Z) : forall i v j,
  nth_error (Wasm.u8_write bytes i v) j
  = if j =? i then option_map (fun _ => v) (nth_error bytes j)
    else nth_error bytes j.
Proof.
  induction bytes as [|b rest IH]; intros [|i] v [|j];
    cbn [Wasm.u8_write nth_error Nat.eqb option_map]; try reflexivity.
  - destruct (j =? i); reflexivity.
  - apply IH.
Qed.

Lemma fold_write_length (v : Z) (positions : list nat) : forall bytes,
  length (fold_left (fun b i => Wasm.u8_write b (Wasm.sigStart + i) v) positions bytes)
  = length bytes.
Proof.
  induction positions as [|p ps IH]; intros bytes; cbn [fold_left]; [reflexivity|].
  rewrite IH. apply u8_write_length.
Qed.

Lemma fold_write_nth (v : Z) (positions : list nat) : forall bytes j,
  nth_error (fold_left (fun b i => Wasm.u8_write b (Wasm.sigStart + i) v) positions bytes) j
  = if existsb (fun i => j =? Wasm.sigStart + i) positions
    then option_map (fun _ => v) (nth_error bytes j)
    else nth_error bytes j.
Proof.
  induction positions as [|p ps IH]; intros bytes j; cbn [fold_left existsb];
    [reflexivity|].
  rewrite IH, u8_write_nth.
  destruct (j =? Wasm.sigStart + p); cbn [orb].
  - destruct (existsb _ ps); destruct (nth_error bytes j); reflexivity.
  - reflexivity.
Qed.

Lemma padding_positions (j : nat) :
  existsb (fun i => j =? Wasm.sigStart + i) (seq 4 60)
  = (39 <=? j) && (j <? 99).
Proof.
  unfold Wasm.sigStart.
  destruct (existsb (fun i => j =? 1 + 1 + 32 + 1 + i) (seq 4 60)) eqn:E.
  - apply existsb_exists in E. destruct E as (i & Hi & Hj).
    apply in_seq in Hi. apply Nat.eqb_eq in Hj. symmetry.
    apply andb_true_iff. split; [apply Nat.leb_le|apply Nat.ltb_lt]; lia.
  - symmetry. apply andb_false_iff.
    destruct (39 <=? j) eqn:E1; [|left; reflexivity].
    destruct (j <? 99) eqn:E2; [|right; reflexivity].
    apply Nat.leb_le in E1. apply Nat.ltb_lt in E2.
    exfalso. assert (Ht : existsb (fun i => j =? 1 + 1 + 32 + 1 + i) (seq 4 60) = true).
    { apply existsb_exists. exists (j - 35). split.
      - apply in_seq. lia.
      - apply Nat.eqb_eq. lia. }
    congruence.
Qed.

Notation hex2 := HexBytes.hex2.

Lemma hex2_byte (b : Z) :
  (0 <= b < 256)%Z ->
  String.length (hex2 b) = 2 /\ JsText.number_in 16 (hex2 b) = Some b
  /\ Js.toLowerCase (hex2 b) = hex2 b.
Proof.
  intros Hb.
  assert (Hall : forallb
                   (fun n => let b := Z.of_nat n in
                             (String.length (hex2 b) =? 2)
                             && match JsText.number_in 16 (hex2 b) with
                                | Some v => (v =? b)%Z
                                | None => false
                                end
                             && (Js.toLowerCase (hex2 b) ==? hex2 b))
                   (seq 0 256) = true) by (vm_compute; reflexivity).
  rewrite forallb_forall in Hall.
  specialize (Hall (Z.to_nat b)). cbv zeta in Hall.
  rewrite Z2Nat.id in Hall by lia.
  assert (Hin : In (Z.to_nat b) (seq 0 256)) by (apply in_seq; lia).
  specialize (Hall Hin).
  apply andb_true_iff in Hall. destruct Hall as [Hall H3].
  apply andb_true_iff in Hall. destruct Hall as [H1 H2].
  apply Nat.eqb_eq in H1. apply String.eqb_eq in H3.
  destruct (JsText.number_in 16 (hex2 b)) as [v|]; [|discriminate H2].
  apply Z.eqb_eq in H2. subst v. auto.
Qed.

Lemma length_append (s1 s2 : string) :
  String.length (s1 +++ s2) = String.length s1 + String.length s2.
Proof.
  induction s1 as [|c s1 IH]; cbn [String.append String.length]; [reflexivity|].
  rewrite IH. reflexivity.
Qed.

Lemma join_empty (xs : list string) : JsText.join "" xs = String.concat "" xs.
Proof.
  induction xs as [|x [|y rest] IH]; cbn [JsText.join String.concat]; reflexivity.
Qed.

Lemma concat_cons (x : string) (xs : list string) :
  String.concat "" (x :: xs) = x +++ String.concat "" xs.
Proof.
  destruct xs as [|y rest]; cbn [String.concat String.append]; [|reflexivity].
  induction x as [|c x IH]; cbn [String.append]; [reflexivity|].
  rewrite <- IH. reflexivity.
Qed.

Lemma concat_length_two (chunks : list string) :
  Forall (fun chunk => String.length chunk = 2) chunks ->
  String.length (String.concat "" chunks) = 2 * length chunks.
Proof.
  induction 1 as [|c cs Hc Hcs IH]; [reflexivity|].
  rewrite concat_cons, length_append, Hc, IH. cbn [length]. lia.
Qed.

End ByteFacts.

(** X25. The signature patch writes into the window of 64 bytes that
    starts at offset 35 and nowhere else: the array keeps its length; the
    bytes before offset 35 and from offset 99 on are unchanged; the bytes
    at offsets 35 to 38 are [de ad be ef] and those at offsets 39 to 98 are
    [cd]; an array that ends inside the window is patched as far as it goes
    and is not extended. *)
Theorem patch_signature_window :
  forall bytes : list Z,
    length (Wasm.patch_signature bytes) = length bytes
    /\ forall j : nat,
         nth_error (Wasm.patch_signature bytes) j
         = match nth_error bytes j with
           | None => None
           | Some b =>
               Some (if j <? 35 then b
                     else if j =? 35 then 222%Z
                     else if j =? 36 then 173%Z
                     else if j =? 37 then 190%Z
                     else if j =? 38 then 239%Z
                     else if j <? 99 then 205%Z
                     else b)
           end.
Proof.
  intros bytes. unfold Wasm.patch_signature. cbv zeta. split.
  - rewrite ByteFacts.fold_write_length, !ByteFacts.u8_write_length. reflexivity.
  - intros j.
    rewrite ByteFacts.fold_write_nth, ByteFacts.padding_positions.
    rewrite !ByteFacts.u8_write_nth. unfold Wasm.sigStart.
    change (1 + 1 + 32 + 1) with 35. change (35 + 1) with 36.
    change (35 + 2) with 37. change (35 + 3) with 38.
    destruct (nth_error bytes j) as [b|];
      [|destruct ((39 <=? j) && (j <? 99)), (j =? 38), (j =? 37), (j =? 36), (j =? 35);
        reflexivity].
    destruct (j <? 35) eqn:E0.
    + apply Nat.ltb_lt in E0.
      replace (39 <=? j) with false by (symmetry; apply Nat.leb_gt; lia).
      replace (j =? 38) with false by (symmetry; apply Nat.eqb_neq; lia).
      replace (j =? 37) with false by (symmetry; apply Nat.eqb_neq; lia).
      replace (j =? 36) with false by (symmetry; apply Nat.eqb_neq; lia).
      replace (j =? 35) with false by (symmetry; apply Nat.eqb_neq; lia).
      reflexivity.
    + apply Nat.ltb_ge in E0.
      destruct (j =? 35) eqn:E35.
      { apply Nat.eqb_eq in E35. subst j. reflexivity. }
      destruct (j =? 36) eqn:E36.
      { apply Nat.eqb_eq in E36. subst j. reflexivity. }
      destruct (j =? 37) eqn:E37.
      { apply Nat.eqb_eq in E37. subst j. reflexivity. }
      destruct (j =? 38) eqn:E38.
      { apply Nat.eqb_eq in E38. subst j. reflexivity. }
      apply Nat.eqb_neq in E35, E36, E37, E38.
      replace (39 <=? j) with true by (symmetry; apply Nat.leb_le; lia).
      cbn [andb option_map]. destruct (j <? 99); reflexivity.
Qed.

(** X26. The hex form of an array of bytes is [0x] followed by two
    lower-case hex characters for each byte, in order, which read back as
    that byte. *)
Theorem hex_of_bytes_two_per_byte :
  forall bytes : list Z,
    Forall (fun b => (0 <= b < 256)%Z) bytes ->
    exists chunks,
      Wasm.hex_of_bytes bytes = "0x" +++ String.concat "" chunks
      /\ Forall2 (fun b chunk => String.length chunk = 2
                                 /\ JsText.number_in 16 chunk = Some b
                                 /\ Js.toLowerCase chunk = chunk)
                 bytes chunks
      /\ String.length (Wasm.hex_of_bytes bytes) = 2 + 2 * length bytes.
Proof.
  intros bytes Hall. exists (map HexBytes.hex2 bytes).
  unfold Wasm.hex_of_bytes. rewrite ByteFacts.join_empty.
  fold HexBytes.hex2.
  change (map (fun b => HexBytes.hex2 b) bytes) with (map HexBytes.hex2 bytes).
  split; [reflexivity|]. split.
  - induction Hall as [|b rest Hb Hrest IH]; cbn [map]; constructor;
      [apply ByteFacts.hex2_byte; exact Hb|exact IH].
  - cbn [String.append String.length]. do 2 f_equal.
    rewrite ByteFacts.concat_length_two, length_map; [reflexivity|].
    apply Forall_map. eapply Forall_impl; [|exact Hall].
    intros b Hb. apply ByteFacts.hex2_byte. exact Hb.
Qed.

(** X26, witness: the bytes [00 0f a0 ff]. *)
Lemma hex_of_bytes_two_per_byte_witness :
  Wasm.hex_of_bytes [0%Z; 15%Z; 160%Z; 255%Z] = "0x000fa0ff"
  /\ String.length (Wasm.hex_of_bytes [0%Z; 15%Z; 160%Z; 255%Z]) = 10.
Proof.
  destruct (hex_of_bytes_two_per_byte [0%Z; 15%Z; 160%Z; 255%Z]) as (chunks & _ & _ & Hl).
  - repeat constructor; lia.
  - split; [reflexivity|exact Hl].
Defined.

Module SelectorFacts.
Import Err ErrorDecoder.

Lemma append_nonempty (a b : string) : a <> "" -> a +++ b <> "".
Proof. destruct a; [congruence|discriminate]. Qed.

Lemma truthy_nonempty (s : string) : Js.truthy s = true -> s <> "".
Proof.
  unfold Js.truthy. intros H ->. discriminate H.
Qed.

Lemma startsWith_append (p x : string) : Js.startsWith (p +++ x) p = true.
Proof.
  unfold Js.startsWith. induction p as [|c p IH]; cbn.
  - destruct x; reflexivity.
  - destruct (ascii_dec c c) as [_|Hn]; [exact IH|contradiction Hn; reflexivity].
Qed.

End SelectorFacts.

(** X27. In the account-model error decoder the selector of the located
    payload decides the tag, whatever the ABI codec does (it may fail on
    the payload): for an object whose payload has at least 10 characters,
    selector [0x4e487b71] (in any letter case) gives a [panic] record whose
    message starts with [Panic: ], selector [0x08c379a0] a [revert] record
    with a non-empty message, and a selector of the built-in table a
    [custom] record. Conversely the decoder never answers [panic] without
    the panic selector, nor [custom] without a selector of the table. *)
Theorem decodeEVMError_selector :
  forall (abi_decode_uint256 : string -> option Z)
         (abi_decode_string : string -> option string)
         (iface_parseError : string -> string -> option (string * list string))
         (o : Err.ErrorObject) (data : string),
    ErrorDecoder.extractErrorData_object o = Ok (JsValue.VString data) ->
    10 <= String.length data ->
    let selector := Js.toLowerCase (Js.slice data 0 10) in
    (selector = "0x4e487b71" ->
     exists d text,
       ErrorDecoder.decodeEVMError abi_decode_uint256 abi_decode_string
         iface_parseError (Err.EObject o) = Ok d
       /\ ErrorDecoder.type d = ErrorDecoder.panic
       /\ ErrorDecoder.message d = JsValue.VString text
       /\ Js.startsWith text "Panic: " = true)
    /\ (selector = "0x08c379a0" ->
        exists d text,
          ErrorDecoder.decodeEVMError abi_decode_uint256 abi_decode_string
            iface_parseError (Err.EObject o) = Ok d
          /\ ErrorDecoder.type d = ErrorDecoder.revert
          /\ ErrorDecoder.message d = JsValue.VString text
          /\ text <> "")
    /\ (ErrorDecoder.table_get ErrorDecoder.CUSTOM_ERRORS selector <> None ->
        exists d,
          ErrorDecoder.decodeEVMError abi_decode_uint256 abi_decode_string
            iface_parseError (Err.EObject o) = Ok d
          /\ ErrorDecoder.type d = ErrorDecoder.custom)
    /\ (forall d,
          ErrorDecoder.decodeEVMError abi_decode_uint256 abi_decode_string
            iface_parseError (Err.EObject o) = Ok d ->
          (ErrorDecoder.type d = ErrorDecoder.panic -> selector = "0x4e487b71")
          /\ (ErrorDecoder.type d = ErrorDecoder.custom ->
              ErrorDecoder.table_get ErrorDecoder.CUSTOM_ERRORS selector <> None)).
Proof.
  intros dec_uint dec_string parse o data Hdata Hlen selector.
  unfold ErrorDecoder.decodeEVMError, ErrorDecoder.extractErrorData.
  rewrite Hdata, ErrorDecoderFacts.decode_located_string.
  unfold ErrorDecoder.decode_payload.
  assert (Ht : Js.truthy data = true).
  { destruct data; [cbn in Hlen; lia|reflexivity]. }
  rewrite Ht. apply Nat.leb_le in Hlen. rewrite Hlen. cbn [andb]. cbv zeta.
  fold selector.
  assert (Hfallback :
            forall d, ErrorDecoder.parseErrorFallback (Err.EObject o) = Ok d ->
                      ErrorDecoder.type d = ErrorDecoder.revert
                      \/ ErrorDecoder.type d = ErrorDecoder.unknown).
  { intros d. cbn [ErrorDecoder.parseErrorFallback].
    unfold ErrorDecoder.parseErrorFallback_object, ErrorDecoder.unknown_with.
    destruct (JsValue.truthy (Err.reason o)); [intros [= <-]; left; reflexivity|].
    destruct (JsValue.truthy _).
    - destruct (ErrorDecoder.cleanErrorMessage_of _); intros [= <-]. right. reflexivity.
    - destruct (JsValue.truthy _); [|intros [= <-]; right; reflexivity].
      destruct (ErrorDecoder.cleanErrorMessage_of _); intros [= <-]. right. reflexivity. }
  destruct (selector ==? "0x4e487b71") eqn:Ep.
  - apply String.eqb_eq in Ep.
    assert (Hpanic : exists text,
               ErrorDecoder.type (ErrorDecoder.decodePanic dec_uint data)
               = ErrorDecoder.panic
               /\ ErrorDecoder.message (ErrorDecoder.decodePanic dec_uint data)
                  = JsValue.VString text
               /\ Js.startsWith text "Panic: " = true).
    { unfold ErrorDecoder.decodePanic.
      destruct (dec_uint _); cbn [ErrorDecoder.type ErrorDecoder.message];
        eexists; (split; [reflexivity|]); (split; [reflexivity|]);
        [apply SelectorFacts.startsWith_append|reflexivity]. }
    destruct Hpanic as (text & Hty & Hmsg & Hstart).
    split; [intros _; eexists; exists text; repeat split; eauto|].
    split; [rewrite Ep; discriminate|].
    split; [rewrite Ep; intros Hn; exfalso; apply Hn; reflexivity|].
    intros d [= <-]. rewrite Hty. split; [auto|discriminate].
  - apply String.eqb_neq in Ep.
    destruct (selector ==? "0x08c379a0") eqn:Er.
    + apply String.eqb_eq in Er.
      assert (Hrev : exists text,
                 ErrorDecoder.type (ErrorDecoder.decodeRevertReason dec_string data)
                 = ErrorDecoder.revert
                 /\ ErrorDecoder.message
                      (ErrorDecoder.decodeRevertReason dec_string data)
                    = JsValue.VString text
                 /\ text <> "").
      { unfold ErrorDecoder.decodeRevertReason.
        destruct (dec_string _) as [reason|];
          cbn [ErrorDecoder.type ErrorDecoder.message];
          eexists; (split; [reflexivity|]); (split; [reflexivity|]);
          try discriminate.
        destruct (Js.truthy reason) eqn:E; [|discriminate].
        apply SelectorFacts.truthy_nonempty. exact E. }
      destruct Hrev as (text & Hty & Hmsg & Hne).
      split; [intros Hs; contradiction|].
      split; [intros _; eexists; exists text; repeat split; eauto|].
      split; [rewrite Er; intros Hn; exfalso; apply Hn; reflexivity|].
      intros d [= <-]. rewrite Hty. split; discriminate.
    + apply String.eqb_neq in Er.
      split; [intros Hs; contradiction|]. split; [intros Hs; contradiction|].
      unfold ErrorDecoder.decodeCustomError.
      destruct (ErrorDecoder.table_get ErrorDecoder.CUSTOM_ERRORS selector)
        as [errorSig|] eqn:Ec.
      * destruct (parse errorSig data) as [[decoded_name args]|];
          (split; [intros _; eexists; split; reflexivity|]);
          intros d [= <-]; cbn [ErrorDecoder.type]; split; discriminate.
      * split; [intros Hn; contradiction Hn; reflexivity|].
        intros d Hd. destruct (Hfallback d Hd) as [H|H]; rewrite H;
          split; discriminate.
Qed.

(** X27, witness: a provider error that carries a panic payload with an
    upper-case selector, under a codec that fails on every payload. *)
Lemma decodeEVMError_selector_witness :
  let o := {| Err.name := Some "Error";
              Err.message := JsValue.VString "execution reverted";
              Err.data := JsValue.VString "0x4E487B710000000000000000000000000000000000000000000000000000000000000011";
              Err.reason := JsValue.VUndefined; Err.info := JsValue.VUndefined;
              Err.error_ := JsValue.VUndefined |} in
  exists d,
    ErrorDecoder.decodeEVMError (fun _ => None) (fun _ => None) (fun _ _ => None)
      (Err.EObject o) = Ok d
    /\ ErrorDecoder.type d = ErrorDecoder.panic.
Proof.
  intros o.
  destruct (decodeEVMError_selector (fun _ => None) (fun _ => None) (fun _ _ => None) o
              "0x4E487B710000000000000000000000000000000000000000000000000000000000000011"
              eq_refl ltac:(vm_compute; lia))
    as (Hpanic & _).
  destruct (Hpanic ltac:(vm_compute; reflexivity)) as (d & text & Hd & Hty & _).
  exists d. split; [exact Hd|exact Hty].
Defined.

(* ------------------------------------------------------------------ *)
(** * The HTTP routes *)
(* ------------------------------------------------------------------ *)

Module RouteFacts.
Import Async RunFacts JsValue Route.

Lemma lift_bind {S A B} (r : Raises A) (k : A -> @M S B) s :
  bind (lift r) k s = match r with
                      | Ok a => k a s
                      | Throw e => (Throw e, s)
                      end.
Proof. unfold bind, lift. destruct r; reflexivity. Qed.

(** [in] raises on the same values for every name, and what it raises is a
    [TypeError]. *)
Lemma in_operator_cases k v :
  (exists b, in_operator k v = Ok b /\ b = has_key v k
             /\ ((exists props, v = VObject props) \/ (exists items, v = VArray items)))
  \/ (exists msg, in_operator k v = Throw (Err.new_TypeError msg)
                  /\ forall k', returns (in_operator k' v) = false).
Proof.
  destruct v; cbn; eauto 8.
Qed.

Lemma names_cases k v :
  (exists b, names k v = Ok b
             /\ ((exists props, v = VObject props) \/ (exists items, v = VArray items)))
  \/ (exists msg, names k v = Throw (Err.new_TypeError msg)
                  /\ forall k', returns (names k' v) = false).
Proof.
  unfold names.
  destruct (in_operator_cases k v) as [(b & -> & _ & Hv)|(msg & Hm & Hall)].
  - left. eauto.
  - right. rewrite Hm. exists msg. split; [reflexivity|].
    intros k'. specialize (Hall k'). destruct (in_operator k' v); [discriminate Hall|].
    reflexivity.
Qed.

Section Handlers.
  Context {S1 S2 : Type}.
  Variable isAddress : string -> bool.
  Variable decodeAddress_ok : value -> bool.
  Variable simulateTransaction : value -> @M S1 Evm.SimulateResponse.
  Variable simulateWasmTransaction : value -> @M S2 Wasm.WasmSimulateResponse.

  Notation answered := (Route.answered simulateTransaction simulateWasmTransaction).

Lemma fatal_answer label e (t : Served S1 S2) response s' :
    fatal label e t = (Ok response, s') ->
    status response = 500%Z
    /\ (exists m, payload response = Refusal "fatal" m)
    /\ evm s' = evm t /\ wasm s' = wasm t
    /\ console s' = console t ++ [(label, e)].
  Proof.
    unfold fatal, console_error, send, bind, modify, lift, ret.
    destruct (fatal_message e) as [m|err]; [|discriminate].
    intros [= <- <-]. cbn. eauto 6.
  Qed.

  (** The [catch] block raises only on a nullish value. *)
Lemma fatal_raises label e0 (t : Served S1 S2) e t' :
    fatal label e0 t = (Throw e, t') ->
    (e0 = Err.ENull \/ e0 = Err.EUndefined)
    /\ exists kind,
         e = Err.new_TypeError ("Cannot read properties of " +++ kind
                                +++ " (reading 'message')").
  Proof.
    unfold fatal, console_error, send, bind, modify, lift, ret.
    destruct e0 as [| |text|o]; cbn [fatal_message]; intros [= <- _].
    - split; [auto|]. exists "null". reflexivity.
    - split; [auto|]. exists "undefined". reflexivity.
  Qed.

  (** The outcome of the [try] statement of a handler, from the outcome of
      the engine. *)
Lemma run_engine_outcome {R} (engine : @M (Served S1 S2) R) (success : R -> bool)
    (wrap : R -> Payload) label (s : Served S1 S2) :
    try_catch
      (result <- engine ;;
       if negb (success result) then send 422 (wrap result)
       else send 200 (wrap result))
      (fatal label) s
    = match engine s with
      | (Ok r, t) =>
          (Ok {| status := if success r then 200 else 422; payload := wrap r |}, t)
      | (Throw e, t) => fatal label e t
      end.
  Proof.
    unfold try_catch, bind, send, ret.
    destruct (engine s) as [[r|e] t]; [|reflexivity].
    destruct (success r); reflexivity.
  Qed.

  (** What the account-model handler does once the required fields are
      there and are addresses. *)
Lemma handleEvmSimulation_cases body (s : Served S1 S2) :
    (exists m, handleEvmSimulation isAddress simulateTransaction body s
               = (Ok {| status := 400; payload := EvmRefusal m |}, s)
               /\ (JsValue.truthy (field body "sender") = false
                   \/ JsValue.truthy (transaction_to body) = false
                   \/ isAddress_of isAddress (field body "sender") = false
                   \/ isAddress_of isAddress (transaction_to body) = false
                   \/ exists token, refused_token isAddress body = Ok (Some token)))
    \/ (exists e, handleEvmSimulation isAddress simulateTransaction body s
                  = (Throw e, s)
                  /\ refused_token isAddress body = Throw e)
    \/ (handleEvmSimulation isAddress simulateTransaction body s
        = match on_evm (simulateTransaction body) s with
          | (Ok r, t) =>
              (Ok {| status := if Evm.success r then 200 else 422;
                     payload := EvmResult r |}, t)
          | (Throw e, t) => fatal "EVM simulation fatal error:" e t
          end
        /\ JsValue.truthy (field body "sender") = true
        /\ JsValue.truthy (transaction_to body) = true
        /\ isAddress_of isAddress (field body "sender") = true
        /\ isAddress_of isAddress (transaction_to body) = true
        /\ refused_token isAddress body = Ok None).
  Proof.
    unfold handleEvmSimulation.
    destruct (JsValue.truthy (field body "sender")) eqn:E1; cbn [negb orb];
      [|left; eexists; split; [reflexivity|auto]].
    destruct (JsValue.truthy (transaction_to body)) eqn:E2; cbn [negb];
      [|left; eexists; split; [reflexivity|auto]].
    destruct (isAddress_of isAddress (field body "sender")) eqn:E3; cbn [negb];
      [|left; eexists; split; [reflexivity|auto]].
    destruct (isAddress_of isAddress (transaction_to body)) eqn:E4; cbn [negb];
      [|left; eexists; split; [reflexivity|auto 6]].
    rewrite lift_bind.
    destruct (refused_token isAddress body) as [[token|]|e] eqn:E5.
    - left. eexists. split; [reflexivity|]. eauto 8.
    - right. right. cbv beta iota.
      rewrite (run_engine_outcome (on_evm (simulateTransaction body))
                 Evm.success EvmResult).
      auto 8.
    - right. left. eauto.
  Qed.

Lemma handleWasmSimulation_cases body (s : Served S1 S2) :
    (exists m, handleWasmSimulation decodeAddress_ok simulateWasmTransaction body s
               = (Ok {| status := 400; payload := Refusal "unknown" m |}, s))
    \/ (exists e, handleWasmSimulation decodeAddress_ok simulateWasmTransaction body s
                  = (Throw e, s)
                  /\ in_operator "pallet" (field body "extrinsic") = Throw e)
    \/ (handleWasmSimulation decodeAddress_ok simulateWasmTransaction body s
        = match on_wasm (simulateWasmTransaction body) s with
          | (Ok r, t) =>
              (Ok {| status := if Wasm.success r then 200 else 422;
                     payload := WasmResult r |}, t)
          | (Throw e, t) => fatal "WASM simulation fatal error:" e t
          end
        /\ JsValue.truthy (field body "sender") = true
        /\ decodeAddress_ok (field body "sender") = true
        /\ exists props,
             field body "extrinsic" = VObject props
             /\ (has_key (VObject props) "rawHex" = true
                 \/ has_key (VObject props) "pallet" = true
                    /\ has_key (VObject props) "method" = true)).
  Proof.
    unfold handleWasmSimulation.
    destruct (JsValue.truthy (field body "sender")) eqn:E1; cbn [negb];
      [|left; eexists; reflexivity].
    destruct (decodeAddress_ok (field body "sender")) eqn:E2; cbn [negb];
      [|left; eexists; reflexivity].
    destruct (JsValue.truthy (field body "extrinsic")) eqn:E3; cbn [negb];
      [|left; eexists; reflexivity].
    rewrite lift_bind.
    destruct (field body "extrinsic") as [| |b|n|str|items|props] eqn:Ex;
      try discriminate E3;
      try (right; left; eexists; split; reflexivity).
    - left. cbn. eexists. reflexivity.
    - cbn [in_operator].
      destruct (has_key (VObject props) "pallet") eqn:Hp.
      + rewrite lift_bind. cbn [in_operator].
        destruct (has_key (VObject props) "method") eqn:Hm; rewrite lift_bind;
          cbn [in_operator andb negb].
        * right. right.
          split; [exact (run_engine_outcome (on_wasm (simulateWasmTransaction body))
                           Wasm.success WasmResult _ s)|]. repeat split; auto. exists props. auto.
        * destruct (has_key (VObject props) "rawHex") eqn:Hr; cbn [negb].
          -- right. right.
             split; [exact (run_engine_outcome (on_wasm (simulateWasmTransaction body))
                              Wasm.success WasmResult _ s)|]. repeat split; auto. exists props. auto.
          -- left. eexists. reflexivity.
      + unfold bind at 1, ret. rewrite lift_bind. cbn [in_operator andb negb].
        destruct (has_key (VObject props) "rawHex") eqn:Hr; cbn [negb].
        * right. right.
          split; [exact (run_engine_outcome (on_wasm (simulateWasmTransaction body))
                           Wasm.success WasmResult _ s)|]. repeat split; auto. exists props. auto.
        * left. eexists. reflexivity.
  Qed.

  (** An answer of the [try] statement of a handler. *)
Lemma engine_answer_evm body (s : Served S1 S2) response s' :
    match on_evm (simulateTransaction body) s with
    | (Ok r, t) =>
        (Ok {| status := if Evm.success r then 200 else 422;
               payload := EvmResult r |}, t)
    | (Throw e, t) => fatal "EVM simulation fatal error:" e t
    end = (Ok response, s') ->
    answered body s response s'
    /\ status response <> 400%Z
    /\ match payload response with WasmResult _ | EvmRefusal _ => False | _ => True end.
  Proof.
    unfold Route.answered.
    destruct (on_evm (simulateTransaction body) s) as [[r|e] t] eqn:E.
    - intros [= <- <-]. cbn. destruct (Evm.success r); repeat split; auto; discriminate.
    - intros Hf.
      destruct (fatal_answer _ _ _ _ _ Hf) as (Hs & (m & Hp) & He & Hw & Hc).
      rewrite Hp, Hs. split; [|split; [discriminate|exact I]].
      right. repeat split; auto. exists e, t. repeat split; eauto.
  Qed.

Lemma engine_answer_wasm body (s : Served S1 S2) response s' :
    match on_wasm (simulateWasmTransaction body) s with
    | (Ok r, t) =>
        (Ok {| status := if Wasm.success r then 200 else 422;
               payload := WasmResult r |}, t)
    | (Throw e, t) => fatal "WASM simulation fatal error:" e t
    end = (Ok response, s') ->
    answered body s response s'
    /\ status response <> 400%Z
    /\ match payload response with EvmResult _ | EvmRefusal _ => False | _ => True end.
  Proof.
    unfold Route.answered.
    destruct (on_wasm (simulateWasmTransaction body) s) as [[r|e] t] eqn:E.
    - intros [= <- <-]. cbn. destruct (Wasm.success r); repeat split; auto; discriminate.
    - intros Hf.
      destruct (fatal_answer _ _ _ _ _ Hf) as (Hs & (m & Hp) & He & Hw & Hc).
      rewrite Hp, Hs. split; [|split; [discriminate|exact I]].
      right. repeat split; auto. exists e, t. repeat split; eauto.
  Qed.

  (** The dispatch of [router.post]. *)
Lemma post_simulate_dispatch body (s : Served S1 S2) :
    (exists msg, post_simulate isAddress decodeAddress_ok simulateTransaction
                   simulateWasmTransaction body s = (Throw (Err.new_TypeError msg), s)
                 /\ returns (isEvmRequest body) = false)
    \/ (exists isEvm isWasm,
          isEvmRequest body = Ok isEvm /\ isWasmRequest body = Ok isWasm
          /\ post_simulate isAddress decodeAddress_ok simulateTransaction
               simulateWasmTransaction body s
             = if eqb isEvm isWasm then
                 (Ok {| status := 400;
                        payload := Refusal "unknown"
                                     (VString
                                        (if isEvm
                                         then "Request cannot contain both "
                                              +++ quoted "transaction" +++ " and "
                                              +++ quoted "extrinsic" +++ " fields"
                                         else "Request must contain either "
                                              +++ quoted "transaction"
                                              +++ " (EVM) or " +++ quoted "extrinsic"
                                              +++ " (WASM) field")) |}, s)
               else if isEvm
               then handleEvmSimulation isAddress simulateTransaction body s
               else handleWasmSimulation decodeAddress_ok simulateWasmTransaction
                      body s).
  Proof.
    unfold post_simulate, isEvmRequest, isWasmRequest.
    rewrite lift_bind.
    destruct (names_cases "transaction" body) as [(b1 & H1 & _)|(msg & H1 & Hall)].
    - destruct (names_cases "extrinsic" body) as [(b2 & H2 & _)|(msg & H2 & Hall)].
      + right. exists b1, b2. rewrite H1, H2, lift_bind.
        split; [reflexivity|]. split; [reflexivity|].
        destruct b1, b2; reflexivity.
      + specialize (Hall "transaction"). rewrite H1 in Hall. discriminate Hall.
    - left. exists msg. rewrite H1. split; reflexivity.
  Qed.

End Handlers.
End RouteFacts.

(** X28. The route [POST /simulate] answers with one of the statuses 200,
    400, 422 and 500, and the status says what happened: 200 and 422 carry
    the very response that the engine of the request's kind returned, 200
    when it reports a success and 422 when it reports a failure; 400 is a
    refusal made before any engine ran, with the backends and the log
    untouched; 500 follows an exception of the engine, which is logged. A
    body with both or neither of [transaction] and [extrinsic] is refused;
    otherwise the account-model engine serves a body with [transaction] and
    the runtime-module engine one with [extrinsic]. *)
Theorem post_simulate_status :
  forall (S1 S2 : Type) (isAddress : string -> bool)
         (decodeAddress_ok : JsValue.value -> bool)
         (simulateTransaction : JsValue.value -> @Async.M S1 Evm.SimulateResponse)
         (simulateWasmTransaction :
            JsValue.value -> @Async.M S2 Wasm.WasmSimulateResponse)
         (body : JsValue.value) (s s' : Route.Served S1 S2)
         (response : Route.HttpResponse),
    Route.post_simulate isAddress decodeAddress_ok simulateTransaction
      simulateWasmTransaction body s = (Ok response, s') ->
    Route.answered simulateTransaction simulateWasmTransaction body s response s'
    /\ In (Route.status response) [200; 400; 422; 500]%Z
    /\ (Route.status response <> 400%Z ->
        exists isEvm, Route.isEvmRequest body = Ok isEvm
                      /\ Route.isWasmRequest body = Ok (negb isEvm))
    /\ match Route.payload response with
       | Route.EvmResult _ | Route.EvmRefusal _ => Route.isEvmRequest body = Ok true
       | Route.WasmResult _ => Route.isWasmRequest body = Ok true
       | Route.Refusal _ _ => True
       end.
Proof.
  intros S1 S2 isAddress decodeAddress_ok simE simW body s s' response H.
  assert (Hcodes : Route.answered simE simW body s response s' ->
                   In (Route.status response) [200; 400; 422; 500]%Z).
  { unfold Route.answered.
    destruct (Route.payload response) as [r|r|m|t m].
    - intros [-> _]. destruct (Evm.success r); cbn; auto.
    - intros [-> _]. destruct (Wasm.success r); cbn; auto.
    - intros [-> _]. cbn. auto.
    - intros [[-> _]|[-> _]]; cbn; auto. }
  destruct (RouteFacts.post_simulate_dispatch isAddress decodeAddress_ok simE simW
              body s) as [(msg & Hd & _)|(isEvm & isWasm & HE & HW & Hd)];
    rewrite Hd in H; [discriminate H|].
  destruct isEvm, isWasm; cbn [eqb] in H.
  - injection H as <- <-. cbn. split; [left; auto|]. split; [auto|].
    split; [intros Hn; contradiction Hn; reflexivity|exact I].
  - destruct (RouteFacts.handleEvmSimulation_cases isAddress simE body s)
      as [(m & Hc & _)|[(e & Hc & _)|(Hc & _)]]; rewrite Hc in H.
    + injection H as <- <-. cbn. split; [auto|]. split; [auto|].
      split; [intros Hn; contradiction Hn; reflexivity|exact HE].
    + discriminate H.
    + destruct (RouteFacts.engine_answer_evm simE simW body s response s' H)
        as (Ha & Hn & Hk).
      split; [exact Ha|]. split; [exact (Hcodes Ha)|].
      split; [intros _; exists true; auto|].
      destruct (Route.payload response); auto; contradiction.
  - destruct (RouteFacts.handleWasmSimulation_cases decodeAddress_ok simW body s)
      as [(m & Hc)|[(e & Hc & _)|(Hc & _)]]; rewrite Hc in H.
    + injection H as <- <-. cbn. split; [left; auto|]. split; [auto|].
      split; [intros Hn; contradiction Hn; reflexivity|exact I].
    + discriminate H.
    + destruct (RouteFacts.engine_answer_wasm simE simW body s response s' H)
        as (Ha & Hn & Hk).
      split; [exact Ha|]. split; [exact (Hcodes Ha)|].
      split; [intros _; exists false; auto|].
      destruct (Route.payload response); auto; contradiction.
  - injection H as <- <-. cbn. split; [left; auto|]. split; [auto|].
    split; [intros Hn; contradiction Hn; reflexivity|exact I].
Qed.

(** X28, witness: the request of the scenario on the fork that answers
    [false] to the mid-algorithm revert: the engine returns its failure
    response, and the route sends it with status 422. *)
Lemma post_simulate_status_witness :
  let fork := Scenario.fork (fun n => negb (Nat.eqb n 0)) true [Scenario.transfer_log] in
  let engine (body : JsValue.value) : @Async.M (Evm.State nat) Evm.SimulateResponse :=
    match Route.evm_request body with
    | Some request => Evm.simulateTransaction Scenario.lib fork "GLMR" request
    | None => Async.throw (Err.new_TypeError "Cannot read properties of undefined")
    end in
  let body :=
    JsValue.VObject
      [("sender", JsValue.VString Scenario.SENDER);
       ("transaction", JsValue.VObject [("to", JsValue.VString Scenario.TOKEN)])] in
  let s := {| Route.evm := Scenario.connected; Route.wasm := Scenario.wasm_connected;
              Route.console := [] |} in
  exists response s',
    Route.post_simulate
      (isAddress (Evm.getChecksumAddress Scenario.lib) (Evm.icapAddress Scenario.lib))
      (fun _ => true) engine
      (fun _ => Wasm.simulateWasmTransaction (Scenario.node false) Scenario.wasm_request)
      body s = (Ok response, s')
    /\ Route.status response = 422%Z.
Proof.
  intros fork engine body s.
  destruct (Route.post_simulate
              (isAddress (Evm.getChecksumAddress Scenario.lib) (Evm.icapAddress Scenario.lib))
              (fun _ => true) engine
              (fun _ => Wasm.simulateWasmTransaction (Scenario.node false)
                          Scenario.wasm_request)
              body s) as [[response|e] s'] eqn:E; [|discriminate E].
  exists response, s'. split; [reflexivity|].
  destruct (post_simulate_status _ _ _ _ _ _ _ _ _ _ E) as (Ha & _).
  unfold Route.answered in Ha.
  assert (Hp : exists r, Route.payload response = Route.EvmResult r
                         /\ Evm.success r = false).
  { vm_compute in E. injection E as <- _. eexists. split; reflexivity. }
  destruct Hp as (r & Hp & Hs). rewrite Hp in Ha. rewrite Hs in Ha. apply Ha.
Defined.

(** X29. An engine is only run on a validated body. When the route
    answers with a status other than 400, then for a body that names a
    [transaction] the [sender] and [transaction.to] are non-empty strings
    that [isAddress] accepts, and a truthy [trackTokens] is an array or a
    string all of whose items [isAddress] accepts; for a body that names an
    [extrinsic], the [sender] is truthy and accepted by [decodeAddress], and
    the extrinsic is an object with [rawHex], or with [pallet] and
    [method]. The handler itself raises a [TypeError], and only in these
    cases: the engine raised [null] or [undefined], whose [message] the
    [catch] block cannot read; or, before any engine ran, the body or its
    truthy [extrinsic] is not an object, or its truthy [trackTokens] is not
    iterable. *)
Theorem post_simulate_validates :
  forall (S1 S2 : Type) (isAddress : string -> bool)
         (decodeAddress_ok : JsValue.value -> bool)
         (simulateTransaction : JsValue.value -> @Async.M S1 Evm.SimulateResponse)
         (simulateWasmTransaction :
            JsValue.value -> @Async.M S2 Wasm.WasmSimulateResponse)
         (body : JsValue.value) (s : Route.Served S1 S2),
    let outcome := Route.post_simulate isAddress decodeAddress_ok simulateTransaction
                     simulateWasmTransaction body s in
    let engine_raised e :=
      exists t, Route.on_evm (simulateTransaction body) s = (Throw e, t)
                \/ Route.on_wasm (simulateWasmTransaction body) s = (Throw e, t) in
    (forall response,
       fst outcome = Ok response -> Route.status response <> 400%Z ->
       (Route.isEvmRequest body = Ok true /\ Route.isWasmRequest body = Ok false
        /\ exists sender_ to_,
             JsValue.field body "sender" = JsValue.VString sender_ /\ sender_ <> ""
             /\ isAddress sender_ = true
             /\ Route.transaction_to body = JsValue.VString to_ /\ to_ <> ""
             /\ isAddress to_ = true
             /\ (JsValue.truthy (JsValue.field body "trackTokens") = true ->
                 exists tokens,
                   Route.iterate "body.trackTokens" (JsValue.field body "trackTokens")
                   = Ok tokens
                   /\ forallb (Route.isAddress_of isAddress) tokens = true))
       \/ (Route.isEvmRequest body = Ok false /\ Route.isWasmRequest body = Ok true
           /\ JsValue.truthy (JsValue.field body "sender") = true
           /\ decodeAddress_ok (JsValue.field body "sender") = true
           /\ exists props,
                JsValue.field body "extrinsic" = JsValue.VObject props
                /\ (JsValue.has_key (JsValue.VObject props) "rawHex" = true
                    \/ JsValue.has_key (JsValue.VObject props) "pallet" = true
                       /\ JsValue.has_key (JsValue.VObject props) "method" = true)))
    /\ (forall e,
          fst outcome = Throw e ->
          (exists msg, e = Err.new_TypeError msg)
          /\ ((exists caught, (caught = Err.ENull \/ caught = Err.EUndefined)
                              /\ engine_raised caught)
              \/ Route.ill_formed isAddress body)).
Proof.
  intros S1 S2 isAddress decodeAddress_ok simE simW body s outcome engine_raised.
  assert (Hstring : forall v, JsValue.truthy v = true ->
                              Route.isAddress_of isAddress v = true ->
                              exists a, v = JsValue.VString a /\ a <> ""
                                        /\ isAddress a = true).
  { intros v Ht Ha. destruct v; try discriminate Ha.
    exists s0. split; [reflexivity|]. split; [|exact Ha].
    intros ->. discriminate Ht. }
  assert (Htokens : Route.refused_token isAddress body = Ok None ->
                    JsValue.truthy (JsValue.field body "trackTokens") = true ->
                    exists tokens,
                      Route.iterate "body.trackTokens" (JsValue.field body "trackTokens")
                      = Ok tokens
                      /\ forallb (Route.isAddress_of isAddress) tokens = true).
  { unfold Route.refused_token. intros H Ht. rewrite Ht in H.
    destruct (Route.iterate _ _) as [tokens|e]; [|discriminate H].
    exists tokens. split; [reflexivity|]. injection H as H.
    apply forallb_forall. intros token Hin.
    pose proof (find_none _ _ H token Hin) as Hn. cbv beta in Hn.
    apply negb_false_iff in Hn. exact Hn. }
  assert (Hiter : forall e, Route.refused_token isAddress body = Throw e ->
                            exists msg, e = Err.new_TypeError msg).
  { unfold Route.refused_token. intros e.
    destruct (JsValue.truthy _); [|discriminate].
    destruct (JsValue.field body "trackTokens"); cbn; intros [= <-]; eauto. }
  assert (Hfatal : forall label caught t e t',
            Route.fatal (S1 := S1) (S2 := S2) label caught t = (Throw e, t') ->
            (exists msg, e = Err.new_TypeError msg)
            /\ (caught = Err.ENull \/ caught = Err.EUndefined)).
  { intros label caught t e t' Hf.
    destruct (RouteFacts.fatal_raises _ _ _ _ _ Hf) as (Hc & kind & ->).
    split; [eauto|exact Hc]. }
  unfold outcome.
  destruct (RouteFacts.post_simulate_dispatch isAddress decodeAddress_ok simE simW
              body s) as [(msg & Hd & Hr)|(isEvm & isWasm & HE & HW & Hd)];
    rewrite Hd.
  { split; [intros response [=]|].
    intros e [= <-]. split; [eauto|]. right. left. exact Hr. }
  destruct isEvm, isWasm; cbn [eqb].
  - split; [intros response [= <-] Hn; contradiction Hn; reflexivity|intros e [=]].
  - destruct (RouteFacts.handleEvmSimulation_cases isAddress simE body s)
      as [(m & Hc & _)|[(e0 & Hc & Hrt)|(Hc & H1 & H2 & H3 & H4 & H5)]]; rewrite Hc.
    + split; [intros response [= <-] Hn; contradiction Hn; reflexivity|intros e [=]].
    + split; [intros response [=]|].
      intros e [= <-]. split; [exact (Hiter _ Hrt)|].
      right. right. left. rewrite Hrt. auto.
    + split.
      * intros response _ _. left. split; [exact HE|]. split; [exact HW|].
        destruct (Hstring _ H1 H3) as (sender_ & Hs & Hsn & Hsa).
        destruct (Hstring _ H2 H4) as (to_ & Ht & Htn & Hta).
        exists sender_, to_. repeat split; auto.
      * intros e He.
        destruct (Route.on_evm (simE body) s) as [[r|caught] t] eqn:Eng;
          [discriminate He|].
        destruct (Route.fatal _ caught t) as [r1 t1] eqn:Ef. cbn [fst] in He. subst r1.
        destruct (Hfatal _ _ _ _ _ Ef) as (Hm & Hcaught).
        split; [exact Hm|]. left. exists caught. split; [exact Hcaught|].
        exists t. left. reflexivity.
  - destruct (RouteFacts.handleWasmSimulation_cases decodeAddress_ok simW body s)
      as [(m & Hc)|[(e0 & Hc & Hin)|(Hc & H1 & H2 & H3)]]; rewrite Hc.
    + split; [intros response [= <-] Hn; contradiction Hn; reflexivity|intros e [=]].
    + split; [intros response [=]|].
      intros e [= <-].
      destruct (RouteFacts.in_operator_cases "pallet" (JsValue.field body "extrinsic"))
        as [(b & Hb & _)|(msg & Hmsg & _)]; [congruence|].
      split; [exists msg; congruence|].
      right. right. right. rewrite Hin. auto.
    + split.
      * intros response _ _. right. auto.
      * intros e He.
        destruct (Route.on_wasm (simW body) s) as [[r|caught] t] eqn:Eng;
          [discriminate He|].
        destruct (Route.fatal _ caught t) as [r1 t1] eqn:Ef. cbn [fst] in He. subst r1.
        destruct (Hfatal _ _ _ _ _ Ef) as (Hm & Hcaught).
        split; [exact Hm|]. left. exists caught. split; [exact Hcaught|].
        exists t. right. reflexivity.
  - split; [intros response [= <-] Hn; contradiction Hn; reflexivity|intros e [=]].
Qed.

(** X29, witness: the request of the scenario is answered with 422, so its
    sender and its [to] address passed the address check; and a request
    whose [extrinsic] is the string [0x00] makes the handler raise. *)
Lemma post_simulate_validates_witness :
  let fork := Scenario.fork (fun n => negb (Nat.eqb n 0)) true [Scenario.transfer_log] in
  let engine (body : JsValue.value) : @Async.M (Evm.State nat) Evm.SimulateResponse :=
    match Route.evm_request body with
    | Some request => Evm.simulateTransaction Scenario.lib fork "GLMR" request
    | None => Async.throw (Err.new_TypeError "Cannot read properties of undefined")
    end in
  let check := isAddress (Evm.getChecksumAddress Scenario.lib)
                         (Evm.icapAddress Scenario.lib) in
  let body :=
    JsValue.VObject
      [("sender", JsValue.VString Scenario.SENDER);
       ("transaction", JsValue.VObject [("to", JsValue.VString Scenario.TOKEN)])] in
  let raw :=
    JsValue.VObject
      [("sender", JsValue.VString Scenario.SENDER);
       ("extrinsic", JsValue.VString "0x00")] in
  (check Scenario.SENDER = true /\ check Scenario.TOKEN = true)
  /\ Route.ill_formed check raw.
Proof.
  intros fork engine check body raw.
  pose (s := {| Route.evm := Scenario.connected; Route.wasm := Scenario.wasm_connected;
                Route.console := [] |}).
  pose (wasm_engine := fun _ : JsValue.value =>
                         Wasm.simulateWasmTransaction (Scenario.node false)
                           Scenario.wasm_request).
  split.
  - destruct (post_simulate_validates _ _ check (fun _ => true) engine wasm_engine
                body s) as [Hran _].
    destruct (Route.post_simulate check (fun _ => true) engine wasm_engine body s)
      as [[response|e] s'] eqn:E; [|vm_compute in E; discriminate E].
    assert (Hs : Route.status response = 422%Z).
    { vm_compute in E. injection E as <- _. reflexivity. }
    destruct (Hran response eq_refl ltac:(rewrite Hs; discriminate))
      as [(_ & _ & sender_ & to_ & Hsender & _ & Has & Hto & _ & Hat & _)
         |(Hevm & _)]; [|discriminate Hevm].
    injection Hsender as <-. injection Hto as <-.
    split; [exact Has|exact Hat].
  - destruct (post_simulate_validates _ _ check (fun _ => true) engine wasm_engine
                raw s) as [_ Hraises].
    destruct (Route.post_simulate check (fun _ => true) engine wasm_engine raw s)
      as [[response|e] s'] eqn:E; [vm_compute in E; discriminate E|].
    destruct (Hraises e eq_refl) as (_ & [(caught & Hcaught & t & [Hc|Hc])|Hill]);
      [exfalso; vm_compute in Hc; injection Hc as <- _;
       destruct Hcaught as [Hn|Hn]; discriminate Hn
      |exfalso; vm_compute in Hc; discriminate Hc
      |exact Hill].
Defined.

(** X30. [GET /health] always answers: neither probe can make it fail.
    The overall status is [ok] exactly when both chains are reported
    [connected]; the account-model chain is reported [disconnected] exactly
    when the client has a provider whose block-number read raises (so a
    client that was never connected is reported [connected]), and the
    runtime-module chain is reported [connected] exactly when the client has
    an API whose health read returns. Nothing is logged. *)
Theorem health_report :
  forall (W1 Tx W2 Ext : Type) (fork : Evm.Fork W1 Tx) (node : Wasm.Node W2 Ext)
         (s : Route.Served (Evm.State W1) (Wasm.State W2)),
  exists h s',
    Route.get_health (Evm.isConnected fork) (Wasm.isConnected node) s = (Ok h, s')
    /\ Route.console s' = Route.console s
    /\ Route.evm_chain h = "Moonbeam" /\ Route.wasm_chain h = "Astar"
    /\ (Route.health_status h = "ok" \/ Route.health_status h = "degraded")
    /\ (Route.health_status h = "ok" <->
        Route.evm_status h = "connected" /\ Route.wasm_status h = "connected")
    /\ (Route.evm_status h = "disconnected" <->
        Evm.provider (Evm.anvil (Route.evm s)) <> None
        /\ returns (fst (Evm.rpc_getBlockNumber fork (Evm.world (Route.evm s)))) = false)
    /\ (Route.evm_status h = "connected" \/ Route.evm_status h = "disconnected")
    /\ (Route.wasm_status h = "connected" <->
        Wasm.api (Wasm.chopsticks (Route.wasm s)) = true
        /\ returns (fst (Wasm.rpc_system_health node (Wasm.world (Route.wasm s)))) = true)
    /\ (Route.wasm_status h = "connected" \/ Route.wasm_status h = "disconnected").
Proof.
  intros W1 Tx W2 Ext fork node s.
  unfold Route.get_health, Route.on_evm, Route.on_wasm, Async.bind, Async.ret.
  assert (He : exists e', Evm.isConnected fork (Route.evm s)
                 = (Ok match Evm.provider (Evm.anvil (Route.evm s)) with
                       | None => true
                       | Some _ => returns (fst (Evm.rpc_getBlockNumber fork
                                                   (Evm.world (Route.evm s))))
                       end, e')).
  { unfold Evm.isConnected, Async.try_catch, Async.bind, Async.gets, Async.ret, Evm.rpc.
    destruct (Evm.provider (Evm.anvil (Route.evm s))); [|eexists; reflexivity].
    destruct (Evm.rpc_getBlockNumber fork (Evm.world (Route.evm s))) as [[n|e] w'];
      eexists; reflexivity. }
  assert (Hw : exists w', Wasm.isConnected node (Route.wasm s)
                 = (Ok (if Wasm.api (Wasm.chopsticks (Route.wasm s))
                        then returns (fst (Wasm.rpc_system_health node
                                             (Wasm.world (Route.wasm s))))
                        else false), w')).
  { unfold Wasm.isConnected, Async.try_catch, Async.bind, Async.gets, Async.ret, Wasm.rpc.
    destruct (Wasm.api (Wasm.chopsticks (Route.wasm s))); [|eexists; reflexivity].
    cbn [negb].
    destruct (Wasm.rpc_system_health node (Wasm.world (Route.wasm s))) as [[n|e] w'];
      eexists; reflexivity. }
  destruct He as [e' He]. destruct Hw as [w' Hw].
  rewrite He. cbn [Route.evm Route.wasm Route.console]. rewrite Hw.
  eexists. eexists. split; [reflexivity|].
  cbn [Route.console Route.evm_chain Route.wasm_chain Route.health_status
       Route.evm_status Route.wasm_status].
  split; [reflexivity|]. split; [reflexivity|]. split; [reflexivity|].
  destruct (Evm.provider (Evm.anvil (Route.evm s))) as [p|];
    destruct (returns (fst (Evm.rpc_getBlockNumber fork (Evm.world (Route.evm s)))));
    destruct (Wasm.api (Wasm.chopsticks (Route.wasm s)));
    destruct (returns (fst (Wasm.rpc_system_health node (Wasm.world (Route.wasm s)))));
    cbn [andb];
    repeat split; auto; try discriminate; try tauto;
    try (intros [H1 H2]; try discriminate H1; try discriminate H2;
         try (contradiction H1; reflexivity)).
Qed.
